(* ===== verification/_CoqProject ===== *)
-Q . S2P
Prelude.v
PyStr.v
Codec.v
Json.v
States.v
Errors.v
Retry.v
Policy.v
Admission.v
Capability.v
Authz.v
Db.v
Schema.v
Migrations.v
Upgrade.v
Config.v
Adapters.v
Samples.v
Transitions.v
Completion.v
Lease.v
Workers.v
Claim.v
Reap.v
Tasks.v
Paging.v
Agents.v
Tools.v
Tracing.v
Worker.v
ToolContext.v
Api.v
Frames.v
Registry.v
Effects.v
Protocol.v
Scenario.v
Gauges.v
ReaperLoop.v
WorkerRun.v
Guarantees.v
Governance.v
Integrity.v
Conforms.v
ApiRun.v
ApiStatus.v
ApiSubmit.v
ApiGuarantees.v
ApiRegistry.v
Isolation.v
StaleChecks.v
Releases.v
WorkerProps.v
Interleave.v
ClaimRace.v
WorkerScenario.v
WorkerGuarantees.v
Exec.v
Fleet.v
Governed.v
Clients.v
Metrics.v
