(* ===== verification/Prelude.v ===== *)
(** * Verification of the agent control plane

    The program is a durable scheduler for agent work.  Three kinds of
    processes, API, workers and one reaper, share nothing but a PostgreSQL
    database; every change of state is a transaction on it.  Workers claim
    queued tasks under a lease, renew it while an adapter runs, and end the
    attempt; the reaper takes back what was lost; the API submits and
    cancels tasks and administers tenants, agents, versions, tools, grants
    and routes.  Paths below are relative to src/src/acp.

    ** How the code is modelled

    The tables are a record [db] (Db.v) with a finite map or a list per
    table.  A query function is a computation [M A]: it sees the transaction
    ([txn]: now(), the rows others hold locked, the id gen_random_uuid()
    gives, the rounding of intervals, the order of rows an ORDER BY leaves
    equal), raises an exception of [exn] or returns a value and new tables; [transaction] commits or rolls back.
    CHECK, UNIQUE, FOREIGN KEY and column-width violations are raised where
    the statement would raise them.

    A transaction is one step of [step].  PostgreSQL runs its statements under
    READ COMMITTED, each on a snapshot of its own, so this is an assumption,
    and the development examines it.  Completions, renewals and cancellations
    (Interleave.v), run statement by statement, lose nothing by it.  Claims
    (ClaimRace.v) lose the exact cap of a tenant, so [step] also has the
    transaction of a claim that others overlapped ([step_grant]).  Requests
    that check rows they do not lock (routes, grants, activations,
    submissions, the sweep of a disabled agent) are run in StaleChecks.v with
    every such read seeing the tables of an earlier moment ([late_run]), and
    what the service promises of released versions, disabled agents and
    tenants (StaleChecks.v, Releases.v, Fleet.v, Governed.v) is proved of these
    runs.  The three SELECTs of a policy snapshot see three moments
    ([moments]) in every statement about a worker.  One step remain: a reaper
    batch and a recovery (the scan locks its rows), [create_version] (FOR
    UPDATE on the agent), the creation of a row under a unique index, guarded
    single UPDATEs (heartbeats, statuses, tool switches), and the liveness
    pass.  The answers of the administrative endpoints (ApiRegistry.v) and of
    POST /v1/tasks (ApiSubmit.v) are stated for requests nothing overlaps.
    Locks of concurrent transactions appear as the set [locked] that SKIP
    LOCKED passes over.

    ** Files

    Libraries: Prelude (tables, ORDER BY .. LIMIT, tactics), PyStr (Python
    strings), Codec (format, int, base64, isoformat and UUID as text, each
    writer with its reader), Json (JSONB values).

    Pure components, one file each: States (domain/states.py), Errors
    (domain/errors.py), Retry (domain/retry.py), Policy
    (scheduling/policy.py), Admission (scheduling/admission.py), Capability
    (domain/agents.py), Authz (domain/authz.py), Config (config.py), Adapters
    (agent/adapters), Tracing (the span link of obs/tracing.py).

    Query functions (db/queries): Transitions, Completion, Lease, Workers,
    Claim, Reap, Tasks, Paging (list_tasks and its cursors), Agents, Tools
    (tools.py and audit.py).  Gauges (obs/gauges.py) counts what they leave.

    The schema: Schema (types, tables, constraints and the operations of
    alembic's [op], with what the server guarantees of rows, [conforms]),
    Migrations (the nine revisions of src/migrations/versions, each way, and
    the metadata of db/models.py), Upgrade (what a revision does to rows),
    Conforms (the records of Db as rows of columns).

    Processes: Worker (the state and methods of worker/loop.py) and WorkerRun
    (its coroutines as the step relations [co_step], [main_step]), ToolContext
    (the context variable of agent/tools.py), ReaperLoop (reaper/loop.py), Api
    (api/routes, api/schemas.py, api/errors.py: one handler per endpoint, GETs
    included, [handle], [respond]).

    The system: Frames ([Keeps], which tables an operation leaves alone),
    Registry (administration as [admin] operations, its invariant
    [registry_ok], what can never change: [evolves]), Effects ([tstep], the
    six things a transaction may do to one task), Protocol ([step],
    [reachable], the invariant [inv]), Integrity (widths, references and the
    numbering of the logs, in every reachable state), Interleave (transactions
    as programs of statements, [istep]), ClaimRace (claims as steps of many
    statements, [cstep]), ApiRun (what each handler writes), StaleChecks (runs
    of the service with checks out of date, [late_run]), Releases (what they
    leave of released versions and disabled agents), Exec (the worker's steps
    as functions), Fleet (the deployment: [fleet_step], API requests with late
    checks, the reaper and any number of workers that start, run and crash),
    Governed (a task under a policy throughout a deployment, with
    scripts/demo_governance.py as a run of it), Metrics (obs/metrics.py and
    where its counters move), Clients (what scripts/demo_chaos.py and
    load/bench_recovery.py send and conclude).  Samples, Scenario and
    WorkerScenario hold the concrete tables and runs of the witnesses.

    ** What is proved

    Each component file ends with the specification of its operations on
    every branch: [transition_correct], [completion_fenced],
    [renew_lease_correct], [claim_correct], [claim_takes_first],
    [fetch_correct] (the per-key branches against one ordered scan),
    [reap_batch_correct], [submit_correct], [cursor_round_trip],
    [pages_complete], [cancel_correct], [snapshot_decides], [decide_correct],
    [satisfiable_keys_correct], [link_round_trip], [refresh_correct].

    Guarantees.v: what holds in every reachable state and along every run:
    fencing, at most one success, terminal states are final, the event log
    tells the history, no task is stuck, no transaction of the task path
    fails but in the cases it names, and the refinement of an abstract scheduler that has only a state
    and an attempt number per task.  Governance.v: the registry's invariant,
    resolution, activation as compare-and-set.

    Interleave.v: interleaved sessions commit what they would have done in one
    go, or wrote nothing and were rightly refused ([interleaving_is_serial]),
    and a refused worker never holds the attempt again ([refusals_are_final]).
    ClaimRace.v: overlapping claims never hold the same task and their writes
    go through; K of them leave a tenant at no more than K times its cap, and
    the runs [os_run] and [dl_run] overshoot the cap and deadlock.

    WorkerGuarantees.v (on WorkerProps.v): a worker with any adapters and
    tools is a run of the protocol; it holds only granted attempts, calls
    only tools its claim found granted, withdraws when fenced, never gets stuck, ends attempts
    rightly, counts truthfully.  Metrics.v: its events go to declared metrics
    under declared labels, in a bounded number of series but for denied tool
    calls.  ToolContext.v: a tool call is decided under its own attempt's
    policy, which WorkerRun takes for granted.  ReaperLoop.v: a pass drains the
    backlog.

    Fleet.v puts the processes together: each meets the assumptions under
    which the others were verified ([fleet_composes]), so the tables move as a
    run of the service, and a task starts no more attempts than its budget and
    its hand-backs ([retry_budget]).  Governed.v follows one task from its
    submission to its end: pinned to a version without the grant for a tool
    its adapter needs, it never succeeds, as long as the version never gets that
    grant ([refused_tool_never_succeeds]); the
    assertions of the governance demonstration hold ([demo_passes]).
    Clients.v: the chaos demonstration submits what the workers serve, but its
    verdict does not look at the states ([verdict_ignores_states]).

    Migrations.v, Upgrade.v, Conforms.v: the migrations run and leave the
    schema of models.py but for constraints only they create
    ([migrations_match_models]); each downgrade undoes its upgrade, for the
    schema and for the rows of a database in service ([downgrade_undoes],
    [migrations_keep_rows]); the checks of Db.v are those of the migrated
    schema ([row_errors_are_the_schema]); and every reachable state satisfies
    all of its keys, references, checks and widths ([reachable_conforms]).

    ApiRegistry.v: what every administrative endpoint answers and writes, as a
    decision table ([registry_answers]); ApiSubmit.v: the same for POST
    /v1/tasks; ApiStatus.v: an error leaves the tables alone; ApiGuarantees.v:
    disabling an agent; Isolation.v: the invariants each request keeps.
    StaleChecks.v: tenants stay apart even when the checks of a request are out
    of date ([late_checks_keep_tenants_apart]).  Releases.v: a released version
    is frozen against every request that began after its release, and a
    disabled agent gets no work but from submissions that had resolved their
    route before.  The exceptions are real: a grant may reach a version released
    under it ([late_grant_widens_release]), an activation may revive a version
    disabled under it ([late_release_revives]), a submission may reach a
    disabled agent ([late_submission_escapes]), and a sweep may miss a task
    retried under it, and only that ([sweep_misses]).

    ** Bounds and fuel

    Recursion is structural throughout.  The claim runs [MAX_ROUNDS] rounds,
    a reaper pass [max_batches_per_sweep] batches, as in the source; loops
    over rows recurse on the list.  The loops of a process that runs forever
    are step relations; [attempts_never_stick] bounds what is left of an
    attempt.  Integers keep their column's width (int2, int4; a 64-bit
    interval), dates the years 1 to 9999: [task_error], [int_seconds],
    [float_seconds], [load_timestamp].  The settings have no upper bounds, so a
    claim or a renewal whose lease would end after the year 9999 raises
    ([ttl_fits]), and so does a LIMIT that is negative or over 64 bits
    ([limit_fits]).  Which of the rows an ORDER BY leaves equal comes first is
    the server's choice ([tie_rank]).

    ** Not modelled

    HTTP, JSON rendering and the web framework (api/app.py, api/deps.py, the
    health and metrics routes); process start-up (__main__.py but for the
    worker's registry, platform.py);
    logging, span recording, the durations a process reads off its own clock
    and the rendering of metrics; loss of the database connection; floats
    are rationals without rounding, and JSON numbers are integers; NUL
    characters and lone surrogates, which a text column refuses; of the
    scripts and load tests the waiting, the calls of docker and Prometheus,
    and all of load/bench_throughput.py, which only measures.  DDL and
    alembic's walk along the revisions are given as they are documented; a
    migration runs with nothing else at work on the tables.  The timestamps
    of the server's clock are taken to lie in the years a datetime can hold;
    those a client sends, a retry computes or a lease adds are checked
    ([load_timestamp]).

    SlowAdapter, which sleeps for a random time and returns a fraction, and
    ToolCallingAdapter where its tools are no list of strings, are arguments of
    [build_registry].  Three things the source gets from libraries are parameters: whether
    OpenTelemetry finds a span context valid, which instant
    [datetime.fromisoformat] reads from a text that [isoformat] does not
    write (it accepts most of ISO 8601), and what the driver makes of a JSON
    value that is no string, bound to a text column ([bind_text]). *)

From stdpp Require Export base gmap strings list sorting pretty.
From Stdlib Require Export QArith Qminmax Lqa.
From Stdlib Require Export ZArith Lia Ascii.

#[global] Set Default Goal Selector "!".
#[global] Open Scope string_scope.
#[global] Open Scope list_scope.
#[global] Open Scope Z_scope.

(** ** Basic types *)

(** A UUID is its 128-bit value: Python and PostgreSQL both compare UUIDs
    bytewise, which is the order of that number. *)
Abbreviation uuid := N.

(** A [timestamptz] in PostgreSQL's resolution: microseconds since the epoch. *)
Abbreviation timestamp := Z.

Abbreviation text := string.

(** [n * interval '1 second'] for an integer [n]. *)
Definition second : Z := 1000000.

(** ** Tactics *)

(** Decide a closed proposition by computation. *)
Ltac decide_closed := apply (bool_decide_unpack _); vm_compute; exact I.

(** Split conjunctions and existentials of the context, once and for all. *)
Ltac destruct_hyps :=
  repeat match goal with
    | H : _ ∧ _ |- _ => destruct H
    | H : ∃ _, _ |- _ => destruct H
    | H : Some _ = Some _ |- _ => simplify_eq H
    end.

(** Turn boolean tests of the code into the propositions they decide. *)
Ltac to_prop :=
  repeat match goal with
    | H : context [bool_decide _ = true] |- _ => rewrite bool_decide_eq_true in H
    | H : context [bool_decide _ = false] |- _ => rewrite bool_decide_eq_false in H
    | H : andb _ _ = true |- _ => apply andb_true_iff in H; destruct H
    | H : andb _ _ = false |- _ => apply andb_false_iff in H
    | H : orb _ _ = false |- _ => apply orb_false_iff in H; destruct H
    | H : orb _ _ = true |- _ => apply orb_true_iff in H
    | H : negb _ = true |- _ => apply negb_true_iff in H
    | H : negb _ = false |- _ => apply negb_false_iff in H
    | H : Z.ltb _ _ = true |- _ => apply Z.ltb_lt in H
    | H : Z.ltb _ _ = false |- _ => apply Z.ltb_ge in H
    | H : Z.leb _ _ = true |- _ => apply Z.leb_le in H
    | H : Z.leb _ _ = false |- _ => apply Z.leb_gt in H
    | H : Z.eqb _ _ = true |- _ => apply Z.eqb_eq in H
    | H : Z.eqb _ _ = false |- _ => apply Z.eqb_neq in H
    end.

(** Case split on every test and match of the goal, keeping the equations. *)
Ltac case_goal := repeat (case_match; simplify_eq/=; try done).

Create HintDb acp.

Lemma filter_ext_on {A} (P Q : A → Prop) `{∀ x, Decision (P x), ∀ x, Decision (Q x)} (l : list A) :
  (∀ x, x ∈ l → (P x ↔ Q x)) → filter P l = filter Q l.
Proof.
  induction l as [|x l IH]; intros H1; [done|]. rewrite !filter_cons.
  assert (filter P l = filter Q l) as -> by (apply IH; intros y Hy; apply H1; by right).
  destruct (H1 x); [by left|]. by do 2 case_decide; try tauto.
Qed.

(** ** Tables

    A table is a finite map from its primary key to its row.  [UPDATE t SET
    f WHERE p] maps over the rows; [SELECT .. WHERE p] lists them. *)
Section Tables.
Context {K V : Type} `{Countable K}.
Implicit Types (m : gmap K V) (p : V → bool) (f : V → V).

Definition update_where p f m : gmap K V :=
  (λ r, if p r then f r else r) <$> m.

Definition rows m : list V := snd <$> map_to_list m.

Definition select p m : list V := filter (λ r, p r = true) (rows m).

Lemma elem_of_rows m r : r ∈ rows m ↔ ∃ k, m !! k = Some r.
Proof.
  unfold rows. rewrite list_elem_of_fmap. split.
  - intros ([k r'] & -> & Hin). exists k. by apply elem_of_map_to_list.
  - intros [k Hk]. exists (k, r). by rewrite elem_of_map_to_list.
Qed.

Lemma elem_of_select p m r : r ∈ select p m ↔ p r = true ∧ ∃ k, m !! k = Some r.
Proof. unfold select. by rewrite list_elem_of_filter, elem_of_rows. Qed.

Lemma select_ext p q m : (∀ r, p r = true ↔ q r = true) → select p m = select q m.
Proof. intros Hpq. apply list_filter_iff. exact Hpq. Qed.

Lemma lookup_update_where p f m k :
  update_where p f m !! k = (λ r, if p r then f r else r) <$> (m !! k).
Proof. apply lookup_fmap. Qed.

(** The rows of a table before and after writing the row of key [k]. *)
Lemma rows_insert m k r : rows (<[k := r]> m) ≡ₚ r :: rows (delete k m).
Proof.
  rewrite <-insert_delete_eq. unfold rows.
  by rewrite map_to_list_insert by apply lookup_delete_eq.
Qed.

Lemma rows_delete m k r : m !! k = Some r → rows m ≡ₚ r :: rows (delete k m).
Proof. intros Hk. rewrite <-rows_insert. by rewrite insert_id. Qed.

Lemma rows_insert_new m k r : m !! k = None → rows (<[k := r]> m) ≡ₚ r :: rows m.
Proof. intros Hk. by rewrite rows_insert, delete_id. Qed.

(** With a key column every row appears once. *)
Lemma NoDup_rows (key : V → K) m :
  (∀ k r, m !! k = Some r → key r = k) → NoDup (key <$> rows m).
Proof.
  intros Hkey. unfold rows. rewrite <-list_fmap_compose.
  assert ((key ∘ snd) <$> map_to_list m = fst <$> map_to_list m) as ->.
  { apply list_fmap_ext. intros i [k r] Hi. simpl. apply Hkey.
    apply elem_of_map_to_list. by eapply list_elem_of_lookup_2. }
  apply NoDup_fst_map_to_list.
Qed.
End Tables.

(** ** [ORDER BY .. LIMIT n]

    [order_by R l] sorts by a total preorder; the lemmas below need ties to
    be broken only among the elements actually sorted ([antisym_on]), which
    is how an [id] column at the end of a sort key works. *)
Section OrderBy.
Context {A : Type} `{!EqDecision A} (R : relation A).
Context `{!RelDecision R, !Transitive R, !Total R}.
Implicit Types (l t : list A) (n : nat).

Lemma NoDup_submseteq_inv l1 l2 : NoDup l2 → l1 ⊆+ l2 → NoDup l1.
Proof.
  intros Hnd (l & Hp & Hsub)%submseteq_sublist_r. rewrite Hp.
  by eapply sublist_NoDup.
Qed.

Definition order_by l : list A := merge_sort R l.

Definition antisym_on l : Prop := ∀ x y, x ∈ l → y ∈ l → R x y → R y x → x = y.

Lemma order_by_perm l : order_by l ≡ₚ l.
Proof. apply merge_sort_Permutation; apply _. Qed.

Lemma elem_of_order_by l x : x ∈ order_by l ↔ x ∈ l.
Proof. by rewrite order_by_perm. Qed.

Lemma order_by_sorted l : StronglySorted R (order_by l).
Proof. apply StronglySorted_merge_sort; apply _. Qed.

Lemma elem_of_take_order_by n l x : x ∈ take n (order_by l) → x ∈ l.
Proof.
  intros (i & Hi & _)%elem_of_take.
  by apply elem_of_order_by, list_elem_of_lookup_2 with i.
Qed.

Lemma antisym_on_mono l1 l2 :
  (∀ x, x ∈ l1 → x ∈ l2) → antisym_on l2 → antisym_on l1.
Proof. unfold antisym_on. naive_solver. Qed.

Lemma length_order_by l : length (order_by l) = length l.
Proof. by rewrite order_by_perm. Qed.

Lemma sorted_unique_on l1 l2 :
  antisym_on l1 → StronglySorted R l1 → StronglySorted R l2 → l1 ≡ₚ l2 → l1 = l2.
Proof.
  intros Hanti H1 H2 Hp. apply (StronglySorted_unique_strong R); auto.
  intros x y Hx Hy. apply Hanti; [done|]. by rewrite Hp.
Qed.

Lemma order_by_perm_eq l1 l2 : antisym_on l1 → l1 ≡ₚ l2 → order_by l1 = order_by l2.
Proof.
  intros Hanti Hp. apply sorted_unique_on; auto using order_by_sorted.
  - intros x y Hx Hy. apply Hanti; by rewrite <-elem_of_order_by.
  - by rewrite !order_by_perm.
Qed.

Lemma sorted_app_before l1 l2 x y :
  StronglySorted R (l1 ++ l2) → x ∈ l1 → y ∈ l2 → R x y.
Proof. intros. by eapply StronglySorted_app_1_elem_of. Qed.

Lemma sorted_split n l x y :
  StronglySorted R l → x ∈ take n l → y ∈ drop n l → R x y.
Proof. intros Hs. apply sorted_app_before. by rewrite take_drop. Qed.

Lemma sorted_take n l : StronglySorted R l → StronglySorted R (take n l).
Proof. intros Hs. eapply StronglySorted_app_1_l. by rewrite take_drop. Qed.

(** The first [n] rows of the sorted list are determined by: sorted,
    before every other row, and as many as there are. *)
Lemma take_order_by_unique n l t rest :
  antisym_on l → l ≡ₚ t ++ rest → StronglySorted R t →
  (∀ x y, x ∈ t → y ∈ rest → R x y) →
  length t = n ∨ (length t ≤ n)%nat ∧ rest = [] →
  take n (order_by l) = t.
Proof.
  intros Hanti Hp Ht Hbefore Hlen.
  assert (order_by l = t ++ order_by rest) as ->.
  { apply sorted_unique_on; auto using order_by_sorted.
    - intros x y Hx Hy. apply Hanti; by rewrite <-elem_of_order_by.
    - apply StronglySorted_app_2; auto using order_by_sorted.
      intros x y Hx Hy. apply Hbefore; [done|]. by rewrite <-elem_of_order_by.
    - by rewrite !order_by_perm, Hp. }
  destruct Hlen as [<- | [Hle ->]].
  - by rewrite take_app_length.
  - simpl. by rewrite app_nil_r, take_ge.
Qed.

(** Truncating one of the merged branches to its own first [n] rows does
    not change the first [n] rows of the merge. *)
Lemma take_order_by_branch n l1 l2 :
  NoDup (l1 ++ l2) → antisym_on (l1 ++ l2) →
  take n (order_by (take n (order_by l1) ++ l2)) = take n (order_by (l1 ++ l2)).
Proof.
  intros Hnd Hanti. symmetry.
  set (s1 := order_by l1). set (s := order_by (take n s1 ++ l2)).
  assert (s1 ≡ₚ l1) as Hs1 by apply order_by_perm.
  assert (s ≡ₚ take n s1 ++ l2) as Hs by apply order_by_perm.
  apply (take_order_by_unique _ _ _ (drop n s ++ drop n s1)); auto.
  - rewrite app_assoc, take_drop, Hs.
    rewrite <-Hs1, <-(take_drop n s1) at 1.
    rewrite <-!app_assoc. by rewrite (Permutation_app_comm (drop n s1)).
  - apply sorted_take, order_by_sorted.
  - intros x y Hx [Hy|Hy]%elem_of_app.
    { eapply sorted_split; eauto. apply order_by_sorted. }
    assert (length (take n s1) = n) as Hn.
    { apply length_take_le. destruct (decide (n ≤ length s1)%nat); [done|].
      exfalso. rewrite drop_ge in Hy by lia. by apply not_elem_of_nil in Hy. }
    assert (∃ z, z ∈ take n s1 ∧ R x z) as (z & Hz & Hxz).
    { destruct (decide (Forall (λ z, z ∈ take n s) (take n s1))) as [Hall|Hnall].
      - exists x. split; [|by destruct (total R x x)].
        destruct (decide (x ∈ take n s1)) as [|Hnin]; [done|]. exfalso.
        assert (x :: take n s1 ⊆+ take n s) as Hsub%submseteq_length.
        { apply NoDup_submseteq.
          - constructor; [done|]. eapply sublist_NoDup, sublist_take.
            rewrite Hs1. by apply NoDup_app in Hnd as [? _].
          - intros z [->|Hz]%elem_of_cons; [done|].
            by eapply Forall_forall in Hall. }
        simpl in Hsub. rewrite Hn, length_take in Hsub. lia.
      - apply not_Forall_Exists in Hnall; [|apply _].
        apply Exists_exists in Hnall as (z & Hz & Hnz). exists z. split; [done|].
        assert (z ∈ s) as Hzs by (rewrite Hs; set_solver).
        rewrite <-(take_drop n s) in Hzs. apply elem_of_app in Hzs as [|Hzs]; [done|].
        eapply sorted_split; eauto. apply order_by_sorted. }
    trans z; [done|]. eapply sorted_split; eauto. apply order_by_sorted.
  - destruct (decide (n ≤ length s)%nat).
    + left. by apply length_take_le.
    + right. rewrite length_take, !drop_ge; [split; [lia|done]| |lia].
      assert (length s = length (take n s1 ++ l2)) as Hl by (by rewrite Hs).
      rewrite length_app, length_take in Hl. lia.
Qed.

(** The K-way merge: one limited, ordered branch per key, re-sorted. *)
Lemma take_order_by_merge {K} n (branch : K → list A) (keys : list K) acc :
  NoDup (acc ++ (keys ≫= branch)) → antisym_on (acc ++ (keys ≫= branch)) →
  take n (order_by (acc ++ (keys ≫= λ k, take n (order_by (branch k)))))
  = take n (order_by (acc ++ (keys ≫= branch))).
Proof.
  revert acc. induction keys as [|k keys IH]; intros acc Hnd Hanti; [done|].
  rewrite !bind_cons in *. set (tops := keys ≫= λ k, take n (order_by (branch k))).
  assert (∀ x, x ∈ tops → x ∈ keys ≫= branch) as Hin.
  { intros x (k' & Hx & Hk')%list_elem_of_bind. apply list_elem_of_bind.
    exists k'. split; [|done]. by apply elem_of_take_order_by in Hx. }
  assert (tops ⊆+ keys ≫= branch) as Hsub.
  { clear -RelDecision0. subst tops. induction keys as [|k keys IH]; [done|].
    rewrite !bind_cons. apply submseteq_app; [|done]. trans (order_by (branch k)).
    - apply sublist_submseteq, sublist_take.
    - by rewrite order_by_perm. }
  rewrite (app_assoc acc) in Hnd, Hanti.
  rewrite (app_assoc acc (branch k)), <-(IH _ Hnd Hanti). fold tops.
  rewrite <-app_assoc in Hanti.
  rewrite (order_by_perm_eq ((acc ++ branch k) ++ _) (branch k ++ acc ++ tops)).
  2: { eapply antisym_on_mono; [|exact Hanti]. intros x. rewrite !elem_of_app.
       specialize (Hin x). tauto. }
  2: { rewrite app_assoc. apply Permutation_app_tail, Permutation_app_comm. }
  rewrite <-(take_order_by_branch n (branch k) (acc ++ tops)).
  - f_equal. apply order_by_perm_eq.
    + eapply antisym_on_mono; [|exact Hanti]. intros x. rewrite !elem_of_app.
      intros [?|[?%elem_of_take_order_by|?%Hin]]; auto.
    + rewrite !app_assoc. apply Permutation_app_tail, Permutation_app_comm.
  - eapply NoDup_submseteq_inv; [exact Hnd|].
    rewrite (app_assoc (branch k)), (Permutation_app_comm (branch k)).
    by apply submseteq_app.
  - eapply antisym_on_mono; [|exact Hanti]. intros x. rewrite !elem_of_app.
    specialize (Hin x). tauto.
Qed.
End OrderBy.

(** Sorting by a column: rows are compared through [f]. *)
Definition le_on {A B} (R : relation B) (f : A → B) : relation A := λ x y, R (f x) (f y).

#[global] Instance le_on_dec {A B} (R : relation B) (f : A → B) `{!RelDecision R} :
  RelDecision (le_on R f).
Proof. intros x y. unfold le_on. apply _. Defined.
#[global] Instance le_on_trans {A B} (R : relation B) (f : A → B) `{!Transitive R} :
  Transitive (le_on R f).
Proof. intros x y z. unfold le_on. apply transitivity. Qed.
#[global] Instance le_on_total {A B} (R : relation B) (f : A → B) `{!Total R} :
  Total (le_on R f).
Proof. intros x y. apply (total R). Qed.
