(* ===== verification/PyStr.v ===== *)
(** * Python strings

    The string operations the source calls: [strip], [lower], [join], [repr]
    and [split] at one separator.  A [str] is a list of code units; the
    classification of white space and of letters is the ASCII one. *)

From S2P Require Import Prelude.

(** [chr(34)], the double quote. *)
Definition dquote : ascii := Ascii.ascii_of_nat 34.

(** [str.isspace] on ASCII: tab..CR, FS..US and the blank. *)
Definition is_space (c : ascii) : bool :=
  let n := Ascii.nat_of_ascii c in
  ((9 <=? n) && (n <=? 13) || (28 <=? n) && (n <=? 32))%nat.

Definition lower_ascii (c : ascii) : ascii :=
  let n := Ascii.nat_of_ascii c in
  if ((65 <=? n) && (n <=? 90))%nat then Ascii.ascii_of_nat (n + 32) else c.

Fixpoint lower (s : text) : text :=
  match s with
  | EmptyString => EmptyString
  | String c s' => String (lower_ascii c) (lower s')
  end.

Fixpoint lstrip (s : text) : text :=
  match s with
  | EmptyString => EmptyString
  | String c s' => if is_space c then lstrip s' else s
  end.

Fixpoint rstrip (s : text) : text :=
  match s with
  | EmptyString => EmptyString
  | String c s' =>
      match rstrip s' with
      | EmptyString => if is_space c then EmptyString else String c EmptyString
      | t => String c t
      end
  end.

Definition strip (s : text) : text := rstrip (lstrip s).

(** Truth value of a string: [bool(s)]. *)
Definition truthy (s : text) : bool := match s with EmptyString => false | _ => true end.

(** [a or b] on optional strings: the empty string is falsy too. *)
Definition or_text (a b : option text) : option text :=
  match a with Some s => if truthy s then Some s else b | None => b end.

(** [sep.join(l)]. *)
Fixpoint join (sep : text) (l : list text) : text :=
  match l with
  | [] => EmptyString
  | [s] => s
  | s :: l' => s +:+ sep +:+ join sep l'
  end.

Fixpoint has_char (c : ascii) (s : text) : bool :=
  match s with
  | EmptyString => false
  | String d s' => bool_decide (c = d) || has_char c s'
  end.

(** [s.split(c)] for a one-character separator. *)
Fixpoint split_on (c : ascii) (s : text) : list text :=
  match s with
  | EmptyString => [EmptyString]
  | String d s' =>
      if bool_decide (d = c) then EmptyString :: split_on c s'
      else match split_on c s' with
           | [] => [String d EmptyString]
           | t :: ts => String d t :: ts
           end
  end.

(** [s.split(c, 1)] when it has two parts. *)
Fixpoint split_once (c : ascii) (s : text) : option (text * text) :=
  match s with
  | EmptyString => None
  | String d s' =>
      if bool_decide (d = c) then Some (EmptyString, s')
      else '(a, b) ← split_once c s'; Some (String d a, b)
  end.

Definition hex_digit (n : nat) : ascii :=
  Ascii.ascii_of_nat (if (n <? 10)%nat then 48 + n else 87 + n).

(** One character inside [repr(s)] with quote [q]. *)
Definition repr_char (q c : ascii) : text :=
  let n := Ascii.nat_of_ascii c in
  if bool_decide (c = q) || (n =? 92)%nat then String "\" (String c EmptyString)
  else if (n =? 9)%nat then "\t" else if (n =? 10)%nat then "\n"
  else if (n =? 13)%nat then "\r"
  else if ((n <? 32) || (126 <? n))%nat then
    String "\" (String "x" (String (hex_digit (n / 16)) (String (hex_digit (n mod 16)) EmptyString)))
  else String c EmptyString.

Fixpoint repr_body (q : ascii) (s : text) : text :=
  match s with
  | EmptyString => EmptyString
  | String c s' => repr_char q c +:+ repr_body q s'
  end.

(** [repr(s)]: single quotes, unless the text has one and no double quote. *)
Definition repr (s : text) : text :=
  let q := if has_char "'" s && negb (has_char dquote s) then dquote else "'"%char in
  String q (repr_body q s +:+ String q EmptyString).

(** [repr] of an optional string. *)
Definition repr_opt (o : option text) : text :=
  match o with Some s => repr s | None => "None" end.

(** ** Lemmas *)

Lemma string_app_cons x (a b : text) : String x a +:+ b = String x (a +:+ b).
Proof. done. Qed.

Lemma string_app_assoc (a b c : text) : (a +:+ b) +:+ c = a +:+ (b +:+ c).
Proof. induction a as [|x a IH]; [done|]. by rewrite !string_app_cons, IH. Qed.

Lemma split_on_nonempty c s : split_on c s ≠ [].
Proof. destruct s as [|d s]; simpl; [done|]. repeat case_match; done. Qed.

Lemma split_on_fresh c s : has_char c s = false → split_on c s = [s].
Proof.
  induction s as [|d s IH]; simpl; [done|]. intros H.
  apply orb_false_iff in H as [Hd Hs]. apply bool_decide_eq_false in Hd.
  rewrite bool_decide_eq_false_2 by congruence. by rewrite IH.
Qed.

Lemma split_on_app c s t :
  has_char c s = false → split_on c (s +:+ String c t) = s :: split_on c t.
Proof.
  induction s as [|d s IH].
  - intros _. change (EmptyString +:+ String c t) with (String c t). simpl.
    by rewrite bool_decide_eq_true_2.
  - rewrite string_app_cons. simpl.
    intros [Hd Hs]%orb_false_iff. apply bool_decide_eq_false in Hd.
    rewrite bool_decide_eq_false_2 by congruence. by rewrite IH.
Qed.

(** Splitting undoes joining when no piece holds the separator. *)
Lemma split_join c l :
  l ≠ [] → Forall (λ s, has_char c s = false) l →
  split_on c (join (String c EmptyString) l) = l.
Proof.
  induction l as [|s l IH]; [done|]. intros _ [Hs Hl]%Forall_cons.
  destruct l as [|s' l]; [by apply split_on_fresh|].
  change (join _ (s :: s' :: l))
    with (s +:+ String c (join (String c EmptyString) (s' :: l))).
  rewrite split_on_app by done. f_equal. by apply IH.
Qed.

Lemma join_inj c l1 l2 :
  Forall (λ s, has_char c s = false ∧ s ≠ EmptyString) l1 →
  Forall (λ s, has_char c s = false ∧ s ≠ EmptyString) l2 →
  join (String c EmptyString) l1 = join (String c EmptyString) l2 → l1 = l2.
Proof.
  intros H1 H2 Hj.
  assert (∀ l, Forall (λ s, has_char c s = false ∧ s ≠ EmptyString) l →
               join (String c EmptyString) l = EmptyString → l = []) as Hnil.
  { intros [|s [|s' l]] Hl; simpl; [done| |].
    - apply Forall_cons in Hl as [[_ ?] _]. by intros ->.
    - apply Forall_cons in Hl as [[_ Hs] _]. by destruct s. }
  destruct (decide (l1 = [])) as [->|Hne1].
  { symmetry. apply Hnil; [done|]. by rewrite <-Hj. }
  destruct (decide (l2 = [])) as [->|Hne2]; [by apply Hnil in Hj|].
  rewrite <-(split_join c l1), <-(split_join c l2), Hj; auto.
  - eapply Forall_impl; [exact H2|]. by intros ? [].
  - eapply Forall_impl; [exact H1|]. by intros ? [].
Qed.

Example strip_ex : strip "  GPU " = "GPU". Proof. reflexivity. Qed.
Example lower_ex : lower "Gpu-X" = "gpu-x". Proof. reflexivity. Qed.
Example repr_ex : repr_opt (Some "w-1") = "'w-1'". Proof. reflexivity. Qed.

Lemma has_char_app c s s' : has_char c (s +:+ s') = has_char c s || has_char c s'.
Proof. induction s as [|d s IH]; [done|]. rewrite string_app_cons. cbn [has_char]. by rewrite IH, orb_assoc. Qed.

Lemma split_once_fresh c a b :
  has_char c a = false → split_once c (a +:+ String c b) = Some (a, b).
Proof.
  induction a as [|d a IH]; [by simpl; rewrite bool_decide_eq_true_2|].
  intros [Hd Ha]%orb_false_iff. rewrite string_app_cons. cbn [split_once].
  apply bool_decide_eq_false in Hd. rewrite bool_decide_eq_false_2 by congruence. by rewrite IH.
Qed.

(** [str(u)] of a UUID: 32 hexadecimal digits in groups of 8-4-4-4-12. *)
Fixpoint hex_digits (n : nat) (x : N) : text :=
  match n with
  | O => EmptyString
  | S n => hex_digits n (x / 16) +:+ String (hex_digit (N.to_nat (x mod 16))) EmptyString
  end.

Definition uuid_pieces (h : text) : text :=
  String.substring 0 8 h +:+ "-" +:+ String.substring 8 4 h +:+ "-" +:+ String.substring 12 4 h
  +:+ "-" +:+ String.substring 16 4 h +:+ "-" +:+ String.substring 20 12 h.

Definition uuid_str (u : N) : text := uuid_pieces (hex_digits 32 u).

Example uuid_str_1 : uuid_str 255 = "00000000-0000-0000-0000-0000000000ff".
Proof. reflexivity. Qed.
