(* ===== verification/Codec.v ===== *)
(** * Numbers and instants as text

    What the source does with [format], [int], [base64], [datetime] and
    [UUID]: identifiers of spans in hexadecimal, and the parts of the
    pagination cursor.  Each writer comes with the lemma that its reader
    takes back what it wrote. *)

From S2P Require Import Prelude PyStr.
#[local] Open Scope Z_scope.

(** ** [format(n, "0<w>x")] and [int(s, 16)] *)

(** The number of hexadecimal digits of [n]. *)
Definition hex_length (n : N) : nat := N.to_nat ((N.size n + 3) / 4) `max` 1.

(** The sign counts towards the width. *)
Definition format_hex (w : nat) (z : Z) : text :=
  let n := Z.to_N (Z.abs z) in
  if z <? 0 then "-" +:+ hex_digits (pred w `max` hex_length n) n
  else hex_digits (w `max` hex_length n) n.

Example format_hex_1 : format_hex 6 (-5) = "-00005". Proof. reflexivity. Qed.
Example format_hex_2 : format_hex 2 4096 = "1000". Proof. reflexivity. Qed.

Definition digit16 (c : ascii) : option N :=
  let n := Ascii.N_of_ascii c in
  if ((48 <=? n) && (n <=? 57))%N then Some (n - 48)%N
  else if ((97 <=? n) && (n <=? 102))%N then Some (n - 87)%N
  else if ((65 <=? n) && (n <=? 70))%N then Some (n - 55)%N
  else None.

(** Digits with single underscores between them; [us]: the previous
    character may not be followed by an underscore or the end. *)
Fixpoint scan16 (acc : N) (us : bool) (s : text) : option N :=
  match s with
  | EmptyString => if us then None else Some acc
  | String c s =>
      if bool_decide (c = "_"%char) then if us then None else scan16 acc true s
      else d ← digit16 c; scan16 (acc * 16 + d) false s
  end.

(** After the optional [0x], one underscore is allowed. *)
Definition after_prefix (s : text) : text :=
  match s with
  | String z (String x s') =>
      if bool_decide (z = "0"%char) && bool_decide (lower_ascii x = "x"%char) then
        match s' with
        | String u s'' => if bool_decide (u = "_"%char) then s'' else s'
        | EmptyString => s'
        end
      else s
  | _ => s
  end.

(** [int(s, 16)]; [None] is [ValueError]. *)
Definition int16 (s : text) : option Z :=
  match strip s with
  | String c s' =>
      if bool_decide (c = "-"%char) then (λ n, - Z.of_N n) <$> scan16 0 true (after_prefix s')
      else if bool_decide (c = "+"%char) then Z.of_N <$> scan16 0 true (after_prefix s')
      else Z.of_N <$> scan16 0 true (after_prefix (String c s'))
  | EmptyString => None
  end.

Example int16_1 : int16 " 0x_1F " = Some 31. Proof. reflexivity. Qed.
Example int16_2 : int16 "1__0" = None. Proof. reflexivity. Qed.
Example int16_3 : int16 "-a_b" = Some (-171). Proof. reflexivity. Qed.

(** ** What the format writes, [int] reads *)

Definition hex_char (c : ascii) : Prop :=
  ∃ d, (d < 16)%nat ∧ c = hex_digit d.

Lemma hex_char_facts c : hex_char c →
  is_space c = false ∧ c ≠ "_"%char ∧ c ≠ "-"%char ∧ c ≠ "+"%char ∧ lower_ascii c ≠ "x"%char.
Proof. intros (d & Hd & ->). by do 16 (destruct d as [|d]; [done|]); lia. Qed.

Lemma digit16_hex d : (d < 16)%nat → digit16 (hex_digit d) = Some (N.of_nat d).
Proof. intros Hd. by do 16 (destruct d as [|d]; [done|]); lia. Qed.

Fixpoint all_hex (s : text) : Prop :=
  match s with EmptyString => True | String c s => hex_char c ∧ all_hex s end.

Lemma all_hex_app s s' : all_hex s → all_hex s' → all_hex (s +:+ s').
Proof. induction s as [|c s IH]; simpl; [done|]. naive_solver. Qed.

Lemma all_hex_digits n x : all_hex (hex_digits n x).
Proof.
  revert x. induction n as [|n IH]; intros x; simpl; [done|]. apply all_hex_app; [apply IH|].
  split; [|done]. exists (N.to_nat (x mod 16)). split; [|done]. pose proof (N.mod_lt x 16). lia.
Qed.

Lemma rstrip_hex s : all_hex s → rstrip s = s.
Proof.
  induction s as [|c s IH]; simpl; [done|]. intros [Hc Hs]. rewrite (IH Hs).
  destruct s; [|done]. by destruct (hex_char_facts c Hc) as (-> & _).
Qed.

Lemma rstrip_cons c s : is_space c = false → rstrip (String c s) = String c (rstrip s).
Proof. intros Hc. simpl. rewrite Hc. by destruct (rstrip s). Qed.

Lemma after_prefix_hex s : all_hex s → after_prefix s = s.
Proof.
  destruct s as [|z [|x s]]; simpl; [done..|]. intros (_ & Hx & _).
  apply hex_char_facts in Hx as (_ & _ & _ & _ & Hx).
  by rewrite (bool_decide_eq_false_2 _ Hx), andb_false_r.
Qed.

Lemma string_app_nil (s : text) : s +:+ EmptyString = s.
Proof. induction s as [|c s IH]; [done|]. by rewrite string_app_cons, IH. Qed.

(** Reading [n] digits shifts the accumulator by [n] places. *)
Lemma scan16_digits n x s acc us : (x < 16 ^ N.of_nat n)%N →
  scan16 acc us (hex_digits n x +:+ s)
    = scan16 (acc * 16 ^ N.of_nat n + x) (us && bool_decide (n = 0%nat)) s.
Proof.
  revert x s acc us. induction n as [|n IH]; intros x s acc us Hx.
  { simpl in *. rewrite andb_true_r. f_equal. lia. }
  rewrite andb_false_r. rewrite Nat2N.inj_succ, N.pow_succ_r' in *. cbn [hex_digits].
  rewrite string_app_assoc, IH by (apply N.Div0.div_lt_upper_bound; lia).
  assert (Hm : (N.to_nat (x mod 16) < 16)%nat) by (pose proof (N.mod_lt x 16); lia).
  simpl. rewrite bool_decide_eq_false_2 by (apply hex_char_facts; by eexists).
  rewrite digit16_hex by done. simpl. rewrite N2Nat.id. f_equal.
  pose proof (N.div_mod x 16). lia.
Qed.

Lemma int16_digits n x : (0 < n)%nat → (x < 16 ^ N.of_nat n)%N →
  int16 (hex_digits n x) = Some (Z.of_N x) ∧ int16 ("-" +:+ hex_digits n x) = Some (- Z.of_N x).
Proof.
  intros Hn Hx. pose proof (all_hex_digits n x) as Hall.
  assert (Hs : scan16 0 true (hex_digits n x) = Some x).
  { rewrite <- (string_app_nil (hex_digits n x)). rewrite (scan16_digits n x _ _ _ Hx).
    rewrite bool_decide_eq_false_2 by lia. done. }
  unfold int16, strip.
  destruct (hex_digits n x) as [|c s] eqn:E; [done|].
  destruct (hex_char_facts c) as (Hsp & _ & Hm & Hp & _); [apply Hall|]. split.
  - cbn [lstrip]. rewrite Hsp. rewrite rstrip_hex by done.
    rewrite !bool_decide_eq_false_2 by done. rewrite after_prefix_hex by done. by rewrite Hs.
  - rewrite string_app_cons. change (EmptyString +:+ ?s) with s. cbn [lstrip]. rewrite (eq_refl : is_space "-" = false).
    rewrite rstrip_cons by done.
    rewrite (rstrip_hex (String c s)) by done. rewrite bool_decide_eq_true_2 by done.
    rewrite after_prefix_hex by done. by rewrite Hs.
Qed.

Lemma hex_length_bound n w : (n < 16 ^ N.of_nat (w `max` hex_length n))%N.
Proof.
  pose proof (N.size_gt n) as Hs. eapply N.lt_le_trans; [exact Hs|].
  change 16%N with (2 ^ 4)%N. rewrite <- N.pow_mul_r. apply N.pow_le_mono_r; [done|].
  unfold hex_length. pose proof (N.div_mod (N.size n + 3) 4). pose proof (N.mod_lt (N.size n + 3) 4).
  lia.
Qed.

(** [int(format(z, "0<w>x"), 16) == z]. *)
Lemma int16_format w z : int16 (format_hex w z) = Some z.
Proof.
  unfold format_hex. destruct (z <? 0) eqn:E;
    match goal with |- context [hex_digits ?n ?x] =>
      destruct (int16_digits n x) as [Hp Hm];
        [unfold hex_length; lia|apply hex_length_bound|]
    end.
  - rewrite Hm. f_equal. lia.
  - rewrite Hp. f_equal. lia.
Qed.


(** ** [base64.urlsafe_b64encode] and [urlsafe_b64decode] *)

Definition b64_alphabet : text :=
  "ABCDEFGHIJKLMNOPQRSTUVWXYZabcdefghijklmnopqrstuvwxyz0123456789-_".
Definition b64_char (n : N) : ascii := default "A"%char (String.get (N.to_nat n) b64_alphabet).

(** The decoder translates [-] and [_], but knows [+] and [/] as well. *)
Definition b64_value (c : ascii) : option N :=
  let n := Ascii.N_of_ascii c in
  if ((65 <=? n) && (n <=? 90))%N then Some (n - 65)%N
  else if ((97 <=? n) && (n <=? 122))%N then Some (n - 71)%N
  else if ((48 <=? n) && (n <=? 57))%N then Some (n + 4)%N
  else if ((n =? 43) || (n =? 45))%N then Some 62%N
  else if ((n =? 47) || (n =? 95))%N then Some 63%N
  else None.

Fixpoint b64_encode (s : text) : text :=
  match s with
  | EmptyString => EmptyString
  | String a s =>
      let a := Ascii.N_of_ascii a in
      match s with
      | EmptyString =>
          String (b64_char (a / 4)) (String (b64_char (a mod 4 * 16)) "==")
      | String b s =>
          let b := Ascii.N_of_ascii b in
          match s with
          | EmptyString =>
              String (b64_char (a / 4)) (String (b64_char (a mod 4 * 16 + b / 16))
                (String (b64_char (b mod 16 * 4)) "="))
          | String c s =>
              let c := Ascii.N_of_ascii c in
              String (b64_char (a / 4)) (String (b64_char (a mod 4 * 16 + b / 16))
                (String (b64_char (b mod 16 * 4 + c / 64)) (String (b64_char (c mod 64))
                  (b64_encode s))))
          end
      end
  end.

(** The decoder's loop: [quad] characters of the current group of four are
    read, [left] holds the bits not yet written, [pads] counts the padding
    since the last digit.  Characters outside the alphabet are passed over;
    [None] is [binascii.Error]. *)
Fixpoint b64_loop (quad left pads : N) (s : text) : option text :=
  match s with
  | EmptyString => if (quad =? 0)%N then Some EmptyString else None
  | String c s =>
      if bool_decide (c = "="%char) then
        if ((2 <=? quad) && (4 <=? quad + (pads + 1)))%N then Some EmptyString
        else b64_loop quad left (if (2 <=? quad)%N then pads + 1 else pads) s
      else
        match b64_value c with
        | None => b64_loop quad left pads s
        | Some v =>
            if (quad =? 0)%N then b64_loop 1 v 0 s
            else if (quad =? 1)%N then
              String (Ascii.ascii_of_N (left * 4 + v / 16)) <$> b64_loop 2 (v mod 16) 0 s
            else if (quad =? 2)%N then
              String (Ascii.ascii_of_N (left * 16 + v / 4)) <$> b64_loop 3 (v mod 4) 0 s
            else String (Ascii.ascii_of_N (left * 64 + v)) <$> b64_loop 0 0 0 s
        end
  end.

Definition b64_decode (s : text) : option text := b64_loop 0 0 0 s.

Example b64_1 : b64_encode "a|b?" = "YXxiPw==". Proof. reflexivity. Qed.
Example b64_2 : b64_decode "YX xi!Pw==zzz" = Some "a|b?". Proof. reflexivity. Qed.
Example b64_3 : b64_decode "abcde" = None. Proof. reflexivity. Qed.

Lemma b64_char_value n : (n < 64)%N → b64_value (b64_char n) = Some n ∧ b64_char n ≠ "="%char.
Proof.
  intros Hn.
  assert (forallb (λ k, let n := N.of_nat k in
            bool_decide (b64_value (b64_char n) = Some n) && bool_decide (b64_char n ≠ "="%char))
            (seq 0 64) = true) as H by (vm_compute; reflexivity).
  rewrite forallb_forall in H. specialize (H (N.to_nat n)). rewrite in_seq, N2Nat.id in H.
  rewrite andb_true_iff, !bool_decide_eq_true in H. apply H. lia.
Qed.

(** One digit of the loop. *)
Lemma b64_digit quad left pads v s : (v < 64)%N →
  b64_loop quad left pads (String (b64_char v) s) =
  if (quad =? 0)%N then b64_loop 1 v 0 s
  else if (quad =? 1)%N then
    String (Ascii.ascii_of_N (left * 4 + v / 16)) <$> b64_loop 2 (v mod 16) 0 s
  else if (quad =? 2)%N then
    String (Ascii.ascii_of_N (left * 16 + v / 4)) <$> b64_loop 3 (v mod 4) 0 s
  else String (Ascii.ascii_of_N (left * 64 + v)) <$> b64_loop 0 0 0 s.
Proof.
  intros (Hv & Hne)%b64_char_value. cbn [b64_loop]. by rewrite bool_decide_eq_false_2, Hv by done.
Qed.

#[local] Ltac Zify.zify_post_hook ::= Z.to_euclidean_division_equations.

Lemma ascii_lt (c : ascii) : (Ascii.N_of_ascii c < 256)%N.
Proof. destruct c as [[] [] [] [] [] [] [] []]; reflexivity. Qed.

Lemma b64_round_trip s : b64_decode (b64_encode s) = Some s.
Proof.
  unfold b64_decode. revert s. fix IH 1.
  assert (Hg : ∀ a n, n = Ascii.N_of_ascii a → Ascii.ascii_of_N n = a)
    by (intros ? ? ->; apply Ascii.ascii_N_embedding).
  intros [|a [|b [|c s]]]; [done|..]; cbn [b64_encode]; cbv zeta;
    pose proof (ascii_lt a) as Ha; try (pose proof (ascii_lt b) as Hb);
    try (pose proof (ascii_lt c) as Hc);
    repeat (rewrite b64_digit by lia; cbn [N.eqb Pos.eqb]).
  - rewrite (Hg a) by lia. reflexivity.
  - rewrite (Hg a), (Hg b) by lia. reflexivity.
  - rewrite (Hg a), (Hg b), (Hg c) by lia. by rewrite IH.
Qed.

(** ** [datetime.isoformat] and [fromisoformat]

    An instant is printed by a session whose TimeZone is UTC. *)

(** The proleptic Gregorian calendar: day 0 is 1970-01-01. Years are counted
    from March within eras of 400 years, so that the leap day comes last. *)
Record civil := MkCivil { cv_year : Z; cv_month : Z; cv_day : Z }.

Definition days_before_year (yoe : Z) : Z := yoe * 365 + yoe / 4 - yoe / 100.
Definition days_before_month (mp : Z) : Z := (153 * mp + 2) / 5.

Definition civil_of_days (n : Z) : civil :=
  let era := (n + 719468) / 146097 in
  let doe := (n + 719468) mod 146097 in
  let yoe := (doe - doe / 1460 + doe / 36524 - doe / 146096) / 365 in
  let doy := doe - days_before_year yoe in
  let mp := (5 * doy + 2) / 153 in
  let m := if mp <? 10 then mp + 3 else mp - 9 in
  MkCivil (yoe + era * 400 + if m <=? 2 then 1 else 0) m (doy - days_before_month mp + 1).

Definition days_of_civil (c : civil) : Z :=
  let y := cv_year c - if cv_month c <=? 2 then 1 else 0 in
  let mp := if cv_month c <=? 2 then cv_month c + 9 else cv_month c - 3 in
  y / 400 * 146097 + days_before_year (y mod 400) + days_before_month mp + cv_day c - 1 - 719468.

Example civil_1 : civil_of_days 0 = MkCivil 1970 1 1. Proof. reflexivity. Qed.
Example civil_2 : civil_of_days 11016 = MkCivil 2000 2 29. Proof. reflexivity. Qed.
Example civil_3 : civil_of_days (-25508) = MkCivil 1900 3 1. Proof. reflexivity. Qed.
Example civil_4 : civil_of_days (-719162) = MkCivil 1 1 1. Proof. reflexivity. Qed.
Example civil_5 : civil_of_days 2932896 = MkCivil 9999 12 31. Proof. reflexivity. Qed.

Definition day_us : Z := 86400 * second.

(** The instants a [datetime] can hold, years 1 to 9999. *)
Definition datetime_range (ts : timestamp) : Prop := -719162 * day_us ≤ ts < 2932897 * day_us.

(** [f"{x:0<n>d}"] of a number of at most [n] digits. *)
Fixpoint dec_digits (n : nat) (x : Z) : text :=
  match n with
  | O => EmptyString
  | S n => dec_digits n (x / 10) +:+ String (hex_digit (Z.to_nat (x mod 10))) EmptyString
  end.

Definition isoformat (ts : timestamp) : text :=
  let c := civil_of_days (ts / day_us) in
  let us := ts mod day_us in
  dec_digits 4 (cv_year c) +:+ "-" +:+ dec_digits 2 (cv_month c) +:+ "-" +:+ dec_digits 2 (cv_day c)
  +:+ "T" +:+ dec_digits 2 (us / (3600 * second)) +:+ ":" +:+ dec_digits 2 (us / (60 * second) mod 60)
  +:+ ":" +:+ dec_digits 2 (us / second mod 60)
  +:+ (if us mod second =? 0 then EmptyString else "." +:+ dec_digits 6 (us mod second))
  +:+ "+00:00".

Example isoformat_1 : isoformat 0 = "1970-01-01T00:00:00+00:00". Proof. reflexivity. Qed.
Example isoformat_2 : isoformat 951782399000050 = "2000-02-28T23:59:59.000050+00:00".
Proof. reflexivity. Qed.

(** [n] decimal digits. *)
Fixpoint read_dec (n : nat) (acc : Z) (s : text) : option (Z * text) :=
  match n, s with
  | O, _ => Some (acc, s)
  | S n, String c s =>
      let k := Z.of_N (Ascii.N_of_ascii c) in
      if (48 <=? k) && (k <=? 57) then read_dec n (acc * 10 + (k - 48)) s else None
  | S _, EmptyString => None
  end.

Definition read_char (c : ascii) (s : text) : option text :=
  match s with String c' s => if bool_decide (c' = c) then Some s else None | EmptyString => None end.

Definition read_fraction (s : text) : option (Z * text) :=
  match s with
  | String c s' => if bool_decide (c = "."%char) then read_dec 6 0 s' else Some (0, s)
  | EmptyString => Some (0, s)
  end.

(** The fields of [isoformat]'s own format. *)
Definition read_iso (s : text) : option timestamp :=
  '(y, s) ← read_dec 4 0 s; s ← read_char "-" s; '(mo, s) ← read_dec 2 0 s;
  s ← read_char "-" s; '(da, s) ← read_dec 2 0 s; s ← read_char "T" s;
  '(h, s) ← read_dec 2 0 s; s ← read_char ":" s; '(mi, s) ← read_dec 2 0 s;
  s ← read_char ":" s; '(se, s) ← read_dec 2 0 s; '(us, s) ← read_fraction s;
  if bool_decide (s = "+00:00")
  then Some (days_of_civil (MkCivil y mo da) * day_us + ((h * 60 + mi) * 60 + se) * second + us)
  else None.

(** [fromisoformat]: exact on what [isoformat] writes; of the other ISO 8601
    forms it accepts, [other] gives the instant, [None] for ValueError. *)
Definition fromisoformat (other : text → option timestamp) (s : text) : option timestamp :=
  match read_iso s with
  | Some ts => if bool_decide (isoformat ts = s) then Some ts else other s
  | None => other s
  end.

(** One era: the fields of its days, counted from March. *)
Lemma era_fields doe :
  let yoe := (doe - doe / 1460 + doe / 36524 - doe / 146096) / 365 in
  let doy := doe - days_before_year yoe in
  let mp := (5 * doy + 2) / 153 in
  0 ≤ doe < 146097 →
  0 ≤ yoe < 400 ∧ 0 ≤ mp ≤ 11 ∧ 1 ≤ doy - days_before_month mp + 1 ≤ 31 ∧
  (306 ≤ doe → 1 ≤ yoe + if mp <? 10 then 0 else 1) ∧
  (doe < 146037 → yoe + (if mp <? 10 then 0 else 1) ≤ 399).
Proof.
  intros yoe doy mp Hdoe.
  assert (0 ≤ yoe < 400) as Hyoe by (subst yoe; lia).
  assert (0 ≤ doy ≤ 365) as Hdoy by (subst doy yoe; unfold days_before_year; lia).
  assert (0 ≤ mp ≤ 11 ∧ 1 ≤ doy - days_before_month mp + 1 ≤ 31) as [Hmp Hd]
    by (subst mp; clearbody doy; unfold days_before_month; lia).
  split; [done|]. split; [done|]. split; [done|]. split; intros H; destruct (mp <? 10) eqn:E; try lia.
  - assert (yoe = 0 → 306 ≤ doy) as H0 by (intros H0; subst doy; rewrite H0; unfold days_before_year; lia).
    subst mp. clearbody doy. lia.
  - assert (yoe = 399 → doy < 306) as H0 by (intros H0; subst doy; rewrite H0; unfold days_before_year; lia).
    subst mp. clearbody doy. lia.
Qed.

Lemma civil_bounds n :
  let c := civil_of_days n in
  1 ≤ cv_month c ≤ 12 ∧ 1 ≤ cv_day c ≤ 31 ∧ days_of_civil c = n ∧
  (-719162 ≤ n < 2932897 → 1 ≤ cv_year c ≤ 9999).
Proof.
  cbv zeta. pose proof (Z.mod_pos_bound (n + 719468) 146097 eq_refl) as Hdoe.
  pose proof (era_fields _ Hdoe) as Hok. pose proof (Z.div_mod (n + 719468) 146097) as Hdm.
  unfold days_of_civil, civil_of_days. cbv zeta in *. cbn [cv_year cv_month cv_day].
  set (doe := (n + 719468) mod 146097) in *. set (era := (n + 719468) / 146097) in *.
  set (yoe := (doe - doe / 1460 + doe / 36524 - doe / 146096) / 365) in *.
  set (doy := doe - days_before_year yoe) in *. set (mp := (5 * doy + 2) / 153) in *.
  assert (Hdoy : doe = days_before_year yoe + doy) by lia.
  clearbody mp doy yoe doe era. destruct Hok as (Hyoe & Hmp & Hd & Hlo & Hhi).
  assert (Hy : (yoe + era * 400) / 400 = era ∧ (yoe + era * 400) mod 400 = yoe) by lia.
  destruct (mp <? 10) eqn:E.
  - rewrite (proj2 (Z.leb_gt _ _)) by lia. rewrite Z.add_0_r, Z.sub_0_r. replace (mp + 3 - 3) with mp by lia.
    destruct Hy as [-> ->]. lia.
  - rewrite (proj2 (Z.leb_le (mp - 9) 2)) by lia. replace (mp - 9 + 9) with mp by lia.
    replace (yoe + era * 400 + 1 - 1) with (yoe + era * 400) by lia. destruct Hy as [-> ->]. lia.
Qed.

(** ** Reading back *)

Lemma hex_digit_value d : (d < 10)%nat → Z.of_N (Ascii.N_of_ascii (hex_digit d)) = 48 + Z.of_nat d.
Proof. intros Hd. by do 10 (destruct d as [|d]; [done|]); lia. Qed.

Lemma read_dec_more n k x acc s : 0 ≤ x < 10 ^ Z.of_nat n →
  read_dec (n + k) acc (dec_digits n x +:+ s) = read_dec k (acc * 10 ^ Z.of_nat n + x) s.
Proof.
  revert k x acc s. induction n as [|n IH]; intros k x acc s Hx.
  { change (10 ^ Z.of_nat 0) with 1 in *. by replace (acc * 1 + x) with acc by lia. }
  rewrite Nat2Z.inj_succ, Z.pow_succ_r in * by lia. cbn [dec_digits].
  rewrite string_app_assoc, string_app_cons. change (EmptyString +:+ s) with s.
  replace (S n + k)%nat with (n + S k)%nat by lia.
  rewrite IH by (split; [lia|apply Z.div_lt_upper_bound; lia]).
  cbn [read_dec]. rewrite hex_digit_value by lia. rewrite Z2Nat.id by lia.
  rewrite (proj2 (Z.leb_le 48 _)) by lia. rewrite (proj2 (Z.leb_le _ 57)) by lia. cbn [andb].
  f_equal. lia.
Qed.

Lemma read_dec_digits n x s : 0 ≤ x < 10 ^ Z.of_nat n →
  read_dec n 0 (dec_digits n x +:+ s) = Some (x, s).
Proof. intros Hx. rewrite <-(Nat.add_0_r n) at 1. by rewrite read_dec_more. Qed.

Lemma read_char_cons c s : read_char c (String c EmptyString +:+ s) = Some s.
Proof. rewrite string_app_cons. cbn. by rewrite bool_decide_eq_true_2. Qed.

Lemma read_fraction_digits us : 0 ≤ us < second →
  read_fraction ((if us =? 0 then EmptyString else "." +:+ dec_digits 6 us) +:+ "+00:00")
  = Some (us, "+00:00").
Proof.
  intros Hus. destruct (us =? 0) eqn:E; [apply Z.eqb_eq in E as ->; reflexivity|].
  rewrite string_app_assoc, string_app_cons. change (EmptyString +:+ ?s) with s.
  cbn [read_fraction]. rewrite bool_decide_eq_true_2 by done. by rewrite read_dec_digits.
Qed.

Lemma read_iso_isoformat ts : datetime_range ts → read_iso (isoformat ts) = Some ts.
Proof.
  intros Hts. unfold datetime_range in Hts. unfold read_iso, isoformat.
  assert (Hday : -719162 ≤ ts / day_us < 2932897).
  { unfold day_us, second in *. split; [apply Z.div_le_lower_bound|apply Z.div_lt_upper_bound]; lia. }
  destruct (civil_bounds (ts / day_us)) as (Hm & Hd & Hback & Hy).
  specialize (Hy Hday). destruct (civil_of_days (ts / day_us)) as [y m d] eqn:Ec. cbn [cv_year cv_month cv_day] in *.
  pose proof (Z.mod_pos_bound ts day_us eq_refl) as Hus. pose proof (Z.div_mod ts day_us) as Hdm.
  set (us := ts mod day_us) in *. clearbody us. unfold day_us, second in *.
  repeat first [rewrite read_dec_digits by (cbn [Z.of_nat Pos.of_succ_nat Pos.succ]; lia)
               |rewrite read_char_cons|progress cbn [mbind option_bind]].
  rewrite read_fraction_digits by (unfold second; lia). cbn [mbind option_bind].
  rewrite bool_decide_eq_true_2 by done. rewrite Hback. f_equal. lia.
Qed.

(** [fromisoformat] is the inverse of [isoformat]. *)
Lemma iso_round_trip other ts : datetime_range ts → fromisoformat other (isoformat ts) = Some ts.
Proof.
  intros Hts. unfold fromisoformat. rewrite read_iso_isoformat by done.
  by rewrite bool_decide_eq_true_2.
Qed.

(** ** [UUID(s)] *)

(** [s.replace(sub, "")]; [skip] characters of a match are still to drop. *)
Fixpoint remove_sub (sub : text) (skip : nat) (s : text) : text :=
  match s with
  | EmptyString => EmptyString
  | String c s' =>
      match skip with
      | S skip => remove_sub sub skip s'
      | O => if String.prefix sub s then remove_sub sub (pred (String.length sub)) s'
             else String c (remove_sub sub 0 s')
      end
  end.

(** [s.strip(chars)]. *)
Fixpoint lstrip_of (p : ascii → bool) (s : text) : text :=
  match s with
  | EmptyString => EmptyString
  | String c s' => if p c then lstrip_of p s' else s
  end.
Fixpoint rstrip_of (p : ascii → bool) (s : text) : text :=
  match s with
  | EmptyString => EmptyString
  | String c s' =>
      match rstrip_of p s' with
      | EmptyString => if p c then EmptyString else String c EmptyString
      | t => String c t
      end
  end.

Definition is_brace (c : ascii) : bool := bool_decide (c = "{"%char) || bool_decide (c = "}"%char).

(** [None] is ValueError. *)
Definition parse_uuid (s : text) : option uuid :=
  let h := remove_sub "uuid:" 0 (remove_sub "urn:" 0 s) in
  let h := remove_sub "-" 0 (rstrip_of is_brace (lstrip_of is_brace h)) in
  if (String.length h =? 32)%nat then
    n ← int16 h; if (0 <=? n) && (n <? 2 ^ 128) then Some (Z.to_N n) else None
  else None.

Example parse_uuid_1 : parse_uuid "{urn:uuid:00000000-0000-0000-0000-0000000000fF}" = Some 255%N.
Proof. reflexivity. Qed.
Example parse_uuid_2 : parse_uuid "0000" = None. Proof. reflexivity. Qed.

(** What [str] of a UUID consists of. *)
Fixpoint all_uuid (s : text) : Prop :=
  match s with EmptyString => True | String c s => (hex_char c ∨ c = "-"%char) ∧ all_uuid s end.

Lemma all_uuid_app s s' : all_uuid s → all_uuid s' → all_uuid (s +:+ s').
Proof. induction s as [|c s IH]; simpl; [done|]. naive_solver. Qed.

Lemma all_uuid_hex s : all_hex s → all_uuid s.
Proof. induction s as [|c s IH]; simpl; naive_solver. Qed.

Lemma uuid_char_facts c : hex_char c ∨ c = "-"%char → c ≠ "u"%char ∧ is_brace c = false.
Proof.
  intros [(d & Hd & ->)| ->]; [|done]. by do 16 (destruct d as [|d]; [done|]); lia.
Qed.

Lemma remove_sub_id x sub s : x = "u"%char → all_uuid s → remove_sub (String x sub) 0 s = s.
Proof.
  intros ->. induction s as [|c s IH]; [done|]. intros [Hc Hs]. cbn [remove_sub String.prefix].
  destruct (ascii_dec _ _) as [<-|_]; [by apply uuid_char_facts in Hc as []|]. by rewrite IH.
Qed.

Lemma strip_of_id s : all_uuid s → rstrip_of is_brace (lstrip_of is_brace s) = s.
Proof.
  intros Hs. assert (lstrip_of is_brace s = s) as ->.
  { destruct s as [|c s]; [done|]. simpl. destruct Hs as [Hc _]. by destruct (uuid_char_facts c Hc) as [_ ->]. }
  induction s as [|c s IH]; [done|]. destruct Hs as [Hc Hs]. simpl. rewrite (IH Hs).
  destruct s; [|done]. by destruct (uuid_char_facts c Hc) as [_ ->].
Qed.

Lemma remove_hyphen_hex s s' : all_hex s → remove_sub "-" 0 (s +:+ s') = s +:+ remove_sub "-" 0 s'.
Proof.
  induction s as [|c s IH]; [done|]. intros [Hc Hs]. rewrite !string_app_cons. cbn [remove_sub String.prefix].
  destruct (ascii_dec _ _) as [<-|_]; [by apply hex_char_facts in Hc as (_ & _ & H & _)|]. by rewrite IH.
Qed.

Lemma remove_hyphen s : remove_sub "-" 0 ("-" +:+ s) = remove_sub "-" 0 s.
Proof. rewrite string_app_cons. change (EmptyString +:+ s) with s. by destruct s. Qed.

Lemma all_hex_substring n m s : all_hex s → all_hex (String.substring n m s).
Proof.
  revert n m. induction s as [|c s IH]; intros [|n] [|m]; simpl; try done; intros [Hc Hs]; auto.
Qed.

Lemma substring_app n m k s :
  String.substring n m s +:+ String.substring (n + m) k s = String.substring n (m + k) s.
Proof.
  revert n m. induction s as [|c s IH].
  { intros [|n] [|m]; cbn [Nat.add]; try done; by destruct k. }
  intros [|n] [|m].
  - reflexivity.
  - cbn [Nat.add String.substring]. rewrite string_app_cons. f_equal. apply (IH 0%nat m).
  - cbn [Nat.add String.substring]. apply (IH n 0%nat).
  - cbn [Nat.add String.substring]. apply (IH n (S m)).
Qed.

Lemma substring_all s : String.substring 0 (String.length s) s = s.
Proof. induction s as [|c s IH]; simpl; congruence. Qed.

Lemma length_hex_digits n x : String.length (hex_digits n x) = n.
Proof.
  revert x. induction n as [|n IH]; intros x; [done|]. cbn [hex_digits].
  assert (∀ a b, String.length (a +:+ b) = (String.length a + String.length b)%nat) as ->.
  { induction a as [|c a IHa]; intros b; [done|]. rewrite string_app_cons. simpl. by rewrite IHa. }
  rewrite IH. simpl. lia.
Qed.

Lemma uuid_round_trip u : (u < 2 ^ 128)%N → parse_uuid (uuid_str u) = Some u.
Proof.
  intros Hu. unfold parse_uuid, uuid_str. pose proof (all_hex_digits 32 u) as Hh.
  pose proof (length_hex_digits 32 u) as Hlen. pose proof (int16_digits 32 u) as [Hint _]; [lia|done|].
  set (h := hex_digits 32 u) in *. clearbody h.
  assert (Hall : all_uuid (uuid_pieces h)).
  { assert (all_uuid "-") by (split; [by right|done]).
    unfold uuid_pieces. repeat apply all_uuid_app; try done; by apply all_uuid_hex, all_hex_substring. }
  rewrite !(remove_sub_id _ _ (uuid_pieces h)) by done. rewrite strip_of_id by done. unfold uuid_pieces.
  repeat first [rewrite remove_hyphen_hex by (by apply all_hex_substring)|rewrite remove_hyphen].
  rewrite <-(string_app_nil (String.substring 20 12 h)), remove_hyphen_hex by (by apply all_hex_substring).
  cbn [remove_sub]. rewrite string_app_nil.
  pose proof (substring_app 16 4 12 h) as E1. pose proof (substring_app 12 4 16 h) as E2.
  pose proof (substring_app 8 4 20 h) as E3. pose proof (substring_app 0 8 24 h) as E4.
  cbn [Nat.add] in E1, E2, E3, E4. rewrite E1, E2, E3, E4.
  assert (String.substring 0 32 h = h) as -> by (rewrite <-Hlen; apply substring_all).
  rewrite Hlen, Hint. cbn [Nat.eqb mbind option_bind].
  rewrite (proj2 (Z.leb_le 0 _)), (proj2 (Z.ltb_lt _ _)) by lia. cbn [andb]. f_equal. lia.
Qed.
