(* ===== verification/Json.v ===== *)
(** * JSON values

    The values a JSONB column holds and Python's [==] on them.  An object is
    kept in canonical key order, as JSONB keeps it; a whole payload or
    result, which the source takes apart by key, is a finite map. *)

From S2P Require Import Prelude.

#[warnings="-register-all"]
Inductive json : Type :=
  | JNull
  | JBool (b : bool)
  | JNum (n : Z)
  | JStr (s : text)
  | JArr (l : list json)
  | JObj (l : list (text * json)).

(** A JSON object at the top level: a Python [dict] keyed by strings. *)
Abbreviation jdict := (gmap text json).

Section json_dec.
Fixpoint json_eqb (a b : json) {struct a} : bool :=
  match a, b with
  | JNull, JNull => true
  | JBool x, JBool y => Bool.eqb x y
  | JNum x, JNum y => Z.eqb x y
  | JStr x, JStr y => bool_decide (x = y)
  | JArr l, JArr m =>
      (fix go (l m : list json) : bool :=
         match l, m with
         | [], [] => true
         | x :: l, y :: m => json_eqb x y && go l m
         | _, _ => false
         end) l m
  | JObj l, JObj m =>
      (fix go (l m : list (text * json)) : bool :=
         match l, m with
         | [], [] => true
         | (k, x) :: l, (k', y) :: m => bool_decide (k = k') && json_eqb x y && go l m
         | _, _ => false
         end) l m
  | _, _ => false
  end.

Lemma json_eqb_spec : ∀ a b, json_eqb a b = true ↔ a = b.
Proof.
  fix IH 1. intros [| x | x | x | l | l] [| y | y | y | m | m]; simpl;
    try (split; [discriminate|discriminate]).
  - done.
  - rewrite Bool.eqb_true_iff. split; congruence.
  - rewrite Z.eqb_eq. split; congruence.
  - rewrite bool_decide_eq_true. split; congruence.
  - revert m. induction l as [|x l IHl]; intros [|y m];
      try (split; [discriminate|discriminate]); [done|].
    rewrite andb_true_iff, IH, IHl. split; [intros [-> [= ->]]|intros [= -> ->]]; done.
  - revert m. induction l as [|[k x] l IHl]; intros [|[k' y] m];
      try (split; [discriminate|discriminate]); [done|].
    rewrite !andb_true_iff, bool_decide_eq_true, IH, IHl.
    split; [intros [[-> ->] [= ->]]|intros [= -> -> ->]]; done.
Qed.
End json_dec.

#[global] Instance json_eq_dec : EqDecision json.
Proof.
  intros a b. destruct (json_eqb a b) eqn:E.
  - left. by apply json_eqb_spec.
  - right. intros H%json_eqb_spec. congruence.
Defined.

(** Python compares [True == 1] and [False == 0]: equality of JSON values is
    equality once booleans are read as integers. *)
Fixpoint json_norm (a : json) : json :=
  match a with
  | JBool b => JNum (if b then 1 else 0)
  | JArr l => JArr (json_norm <$> l)
  | JObj l => JObj ((λ '(k, v), (k, json_norm v)) <$> l)
  | _ => a
  end.

(** [d1 == d2] on two Python dicts. *)
Definition dict_eqb (d1 d2 : jdict) : bool :=
  bool_decide (json_norm <$> d1 = json_norm <$> d2).

Lemma dict_eqb_refl d : dict_eqb d d = true.
Proof. by apply bool_decide_eq_true. Qed.

Lemma dict_eqb_sym d1 d2 : dict_eqb d1 d2 = dict_eqb d2 d1.
Proof. apply bool_decide_ext. split; congruence. Qed.

Lemma dict_eqb_trans d1 d2 d3 :
  dict_eqb d1 d2 = true → dict_eqb d2 d3 = true → dict_eqb d1 d3 = true.
Proof. unfold dict_eqb. rewrite !bool_decide_eq_true. congruence. Qed.

Example dict_eqb_bool : dict_eqb {[ "a" := JBool true ]} {[ "a" := JNum 1 ]} = true.
Proof. reflexivity. Qed.

(** A dict nested in another value: an object in canonical key order. *)
Definition jobj (d : jdict) : json := JObj (order_by (le_on String.le fst) (map_to_list d)).
