(* ===== verification/States.v ===== *)
(** * The task state machine (domain/states.py)

    [State.state] and [EventType.event_type] are the two enums; [ALLOWED] the
    transition graph; [is_legal], [assert_legal], [is_terminal] the module's
    functions.  The second half proves what the graph promises. *)

From S2P Require Import Prelude.

Module State.
Inductive state := QUEUED | RUNNING | SUCCEEDED | FAILED | CANCELLED.

Definition value (s : state) : text :=
  match s with
  | QUEUED => "QUEUED" | RUNNING => "RUNNING" | SUCCEEDED => "SUCCEEDED"
  | FAILED => "FAILED" | CANCELLED => "CANCELLED"
  end.
End State.
Export State (state).

#[global] Instance state_eq_dec : EqDecision state.
Proof. solve_decision. Defined.

Module EventType.
Inductive event_type :=
  | TASK_CREATED | TASK_CLAIMED | TASK_STARTED | ATTEMPT_FAILED | RETRY_SCHEDULED
  | LEASE_RENEWED | LEASE_EXPIRED | TASK_RECOVERED | TASK_ABANDONED | WORKER_LOST
  | STALE_WRITE_REJECTED | TASK_SUCCEEDED | TASK_FAILED
  | TOOL_ACCESS_ALLOWED | TOOL_ACCESS_DENIED | TOOL_EXECUTED | TOOL_EXECUTION_FAILED
  | CANCEL_REQUESTED | TASK_CANCELLED.

Definition value (e : event_type) : text :=
  match e with
  | TASK_CREATED => "TASK_CREATED" | TASK_CLAIMED => "TASK_CLAIMED"
  | TASK_STARTED => "TASK_STARTED" | ATTEMPT_FAILED => "ATTEMPT_FAILED"
  | RETRY_SCHEDULED => "RETRY_SCHEDULED" | LEASE_RENEWED => "LEASE_RENEWED"
  | LEASE_EXPIRED => "LEASE_EXPIRED" | TASK_RECOVERED => "TASK_RECOVERED"
  | TASK_ABANDONED => "TASK_ABANDONED" | WORKER_LOST => "WORKER_LOST"
  | STALE_WRITE_REJECTED => "STALE_WRITE_REJECTED" | TASK_SUCCEEDED => "TASK_SUCCEEDED"
  | TASK_FAILED => "TASK_FAILED" | TOOL_ACCESS_ALLOWED => "TOOL_ACCESS_ALLOWED"
  | TOOL_ACCESS_DENIED => "TOOL_ACCESS_DENIED" | TOOL_EXECUTED => "TOOL_EXECUTED"
  | TOOL_EXECUTION_FAILED => "TOOL_EXECUTION_FAILED" | CANCEL_REQUESTED => "CANCEL_REQUESTED"
  | TASK_CANCELLED => "TASK_CANCELLED"
  end.
End EventType.
Export EventType (event_type).

#[global] Instance event_type_eq_dec : EqDecision event_type.
Proof. solve_decision. Defined.

Definition TERMINAL : list state := [State.SUCCEEDED; State.FAILED; State.CANCELLED].
Definition ACTIVE : list state := [State.QUEUED; State.RUNNING].

Definition ALLOWED (frm : state) : list state :=
  match frm with
  | State.QUEUED => [State.RUNNING; State.CANCELLED]
  | State.RUNNING => [State.QUEUED; State.SUCCEEDED; State.FAILED; State.CANCELLED]
  | State.SUCCEEDED => []
  | State.FAILED => []
  | State.CANCELLED => []
  end.

(** The exception, with the two attributes its constructor stores. *)
Inductive illegal_transition := IllegalTransition (frm to : state).

Definition is_legal (frm to : state) : bool := bool_decide (to ∈ ALLOWED frm).

Definition assert_legal (frm to : state) : illegal_transition + unit :=
  if negb (is_legal frm to) then inl (IllegalTransition frm to) else inr tt.

Definition is_terminal (s : state) : bool := bool_decide (s ∈ TERMINAL).

(** ** What the graph promises *)

Definition legal_step (s t : state) : Prop := is_legal s t = true.

(** TERMINAL and ACTIVE partition the states. *)
Lemma terminal_active_partition s : is_terminal s = negb (bool_decide (s ∈ ACTIVE)).
Proof. by destruct s. Qed.

(** The terminal states are exactly those without a successor. *)
Lemma terminal_iff_no_successor s : is_terminal s = true ↔ ALLOWED s = [].
Proof. by destruct s. Qed.

Lemma no_self_loop s : is_legal s s = false.
Proof. by destruct s. Qed.

Lemma legal_from_active s t : is_legal s t = true → is_terminal s = false.
Proof. by destruct s, t. Qed.

Lemma assert_legal_spec s t :
  assert_legal s t = inr tt ↔ is_legal s t = true.
Proof. unfold assert_legal. by destruct (is_legal s t). Qed.

Lemma terminal_rtc s t : rtc legal_step s t → is_terminal s = true → t = s.
Proof.
  intros [|x y z Hst _] Hs; [done|].
  apply legal_from_active in Hst. congruence.
Qed.

(** The state graph. A path of legal transitions that starts in a
    terminal state never leaves it, and every state is reachable from QUEUED:
    the three terminal states are absorbing and none is dead code. *)
Theorem graph_terminal_absorbing s :
  (is_terminal s = true ↔ ∀ t, rtc legal_step s t ↔ t = s) ∧
  rtc legal_step State.QUEUED s.
Proof.
  split; [split|].
  - intros Hs t. split; [|by intros ->]. intros. by eapply terminal_rtc.
  - intros H. destruct s; try done; exfalso.
    + assert (State.RUNNING = State.QUEUED) by (by apply H, rtc_once). done.
    + assert (State.QUEUED = State.RUNNING) by (by apply H, rtc_once). done.
  - destruct s; [done| | | |]; try (by apply rtc_once);
      apply rtc_l with State.RUNNING; try done; by apply rtc_once.
Qed.
