(* ===== verification/Errors.v ===== *)
(** * Failure classification (domain/errors.py, the exceptions of agent/adapters/base.py)

    A Python exception is the data [classify] and the worker look at: its
    class name, the classes [isinstance] finds it an instance of, its
    [failure_class] and [retry_after_s] attributes and its text.  Exception
    classes of an adapter's own are covered: any [py_exc] may be raised. *)

From S2P Require Import Prelude PyStr.

Module FailureClass.
Inductive failure_class :=
  | TRANSIENT | RATE_LIMITED | TIMEOUT | DEPENDENCY_UNAVAILABLE | WORKER_LOST
  | PERMANENT | USER_ERROR | PERMISSION_DENIED | UNKNOWN.

Definition value (c : failure_class) : text :=
  match c with
  | TRANSIENT => "TRANSIENT"
  | RATE_LIMITED => "RATE_LIMITED"
  | TIMEOUT => "TIMEOUT"
  | DEPENDENCY_UNAVAILABLE => "DEPENDENCY_UNAVAILABLE"
  | WORKER_LOST => "WORKER_LOST"
  | PERMANENT => "PERMANENT"
  | USER_ERROR => "USER_ERROR"
  | PERMISSION_DENIED => "PERMISSION_DENIED"
  | UNKNOWN => "UNKNOWN"
  end.

Definition all : list failure_class :=
  [TRANSIENT; RATE_LIMITED; TIMEOUT; DEPENDENCY_UNAVAILABLE; WORKER_LOST;
   PERMANENT; USER_ERROR; PERMISSION_DENIED; UNKNOWN].
End FailureClass.
Export FailureClass (failure_class).

#[global] Instance failure_class_eq_dec : EqDecision failure_class.
Proof. solve_decision. Defined.

Definition TERMINAL_CLASSES : list failure_class :=
  [FailureClass.PERMANENT; FailureClass.USER_ERROR; FailureClass.PERMISSION_DENIED].

(** The classes the source tests with [isinstance]. *)
Inductive exc_class :=
  | AdapterErrorC | TimeoutErrorC | ConnectionErrorC | TypeErrorC | ValueErrorC
  | KeyErrorC | OSErrorC.

#[global] Instance exc_class_eq_dec : EqDecision exc_class.
Proof. solve_decision. Defined.

(** The value [getattr(exc, "retry_after_s", None)] gives: absent or [None],
    a number, or anything else (NaN included).  An infinity is a number past
    every finite float: no interval holds either. *)
Inductive py_attr := AttrNone | AttrNum (q : Q) | AttrOther.

Record py_exc := PyExc {
  exc_name : text;                       (* type(exc).__name__ *)
  exc_mro : list exc_class;              (* what isinstance answers True for *)
  exc_failure_class : failure_class;     (* read on an AdapterError only *)
  exc_retry_after_s : py_attr;
  exc_text : text;                       (* str(exc) *)
}.

Definition isinstance (e : py_exc) (c : exc_class) : bool := bool_decide (c ∈ exc_mro e).

Definition attr_of (o : option Q) : py_attr :=
  match o with Some q => AttrNum q | None => AttrNone end.

(** [AdapterError(message, retry_after_s=..)] and its subclasses: the class
    attribute differs, the constructor is inherited. *)
Definition AdapterError (name : text) (c : failure_class) (message : text)
    (retry_after_s : option Q) : py_exc :=
  PyExc name [AdapterErrorC] c (attr_of retry_after_s) message.

Definition Retryable := AdapterError "Retryable" FailureClass.TRANSIENT.
Definition RateLimited := AdapterError "RateLimited" FailureClass.RATE_LIMITED.
Definition UpstreamTimeout := AdapterError "UpstreamTimeout" FailureClass.TIMEOUT.
Definition DependencyUnavailable :=
  AdapterError "DependencyUnavailable" FailureClass.DEPENDENCY_UNAVAILABLE.
Definition PermanentFailure := AdapterError "PermanentFailure" FailureClass.PERMANENT.
Definition InvalidInput := AdapterError "InvalidInput" FailureClass.USER_ERROR.
Definition PermissionDenied := AdapterError "PermissionDenied" FailureClass.PERMISSION_DENIED.

(** An exception class with no [AdapterError] above it. *)
Definition foreign (name : text) (mro : list exc_class) (message : text) : py_exc :=
  PyExc name mro FailureClass.UNKNOWN AttrNone message.

(** [UnknownTaskType(task_type)] of the adapter registry: a plain Exception. *)
Definition UnknownTaskType (task_type : text) : py_exc :=
  foreign "UnknownTaskType" []
    ("no adapter registered for task_type=" +:+ repr task_type).

Definition classify (e : py_exc) : failure_class :=
  if isinstance e AdapterErrorC then exc_failure_class e
  else if isinstance e TimeoutErrorC then FailureClass.TIMEOUT
  else if isinstance e ConnectionErrorC then FailureClass.DEPENDENCY_UNAVAILABLE
  else if isinstance e TypeErrorC || isinstance e ValueErrorC || isinstance e KeyErrorC
  then FailureClass.USER_ERROR
  else if isinstance e OSErrorC then FailureClass.DEPENDENCY_UNAVAILABLE
  else FailureClass.UNKNOWN.

Definition retry_after_of (e : py_exc) : option Q :=
  match exc_retry_after_s e with
  | AttrNum q => if Qle_bool 0 q then Some q else None
  | _ => None
  end.

(** ** Properties *)

Lemma retry_after_of_nonneg e q : retry_after_of e = Some q → (0 <= q)%Q.
Proof.
  unfold retry_after_of. destruct (exc_retry_after_s e) as [| q' |]; try done.
  destruct (Qle_bool 0 q') eqn:E; [|done]. intros [= <-]. by apply Qle_bool_iff.
Qed.

(** The adapter's own statement always wins over the builtin tests. *)
Lemma classify_adapter_error name c message ra :
  classify (AdapterError name c message ra) = c.
Proof. done. Qed.

(** Never guess: an untyped exception is terminal only as USER_ERROR, for the
    three shape errors, and TRANSIENT, PERMANENT and WORKER_LOST are never
    inferred. *)
Lemma classify_untyped e :
  isinstance e AdapterErrorC = false →
  classify e ∈ [FailureClass.TIMEOUT; FailureClass.DEPENDENCY_UNAVAILABLE;
                FailureClass.USER_ERROR; FailureClass.UNKNOWN].
Proof.
  intros H. unfold classify. rewrite H.
  repeat case_match; set_solver.
Qed.
