(* ===== verification/Retry.v ===== *)
(** * Retry policy (domain/retry.py)

    Durations are rationals: the source's floats without their rounding.
    The random source is the stream of values [random()] returns; [uniform]
    consumes one of them, so a call hands back the rest of the stream. *)

From S2P Require Import Prelude PyStr Errors.
Open Scope Q_scope.

Module retry.

Record RetryPolicy := MkRetryPolicy {
  retryable : bool;
  base_s : Q;
  cap_s : Q;
  attempt_cap : option Z;
}.

Definition POLICIES (c : failure_class) : RetryPolicy :=
  match c with
  | FailureClass.TRANSIENT => MkRetryPolicy true 1 60 None
  | FailureClass.RATE_LIMITED => MkRetryPolicy true 5 300 None
  | FailureClass.TIMEOUT => MkRetryPolicy true 2 120 None
  | FailureClass.DEPENDENCY_UNAVAILABLE => MkRetryPolicy true 5 300 None
  | FailureClass.WORKER_LOST => MkRetryPolicy true 0 0 None
  | FailureClass.PERMANENT => MkRetryPolicy false 1 60 None
  | FailureClass.USER_ERROR => MkRetryPolicy false 1 60 None
  | FailureClass.PERMISSION_DENIED => MkRetryPolicy false 1 60 None
  | FailureClass.UNKNOWN => MkRetryPolicy true 2 60 (Some 2%Z)
  end.

Record RetryDecision := MkRetryDecision {
  should_retry : bool;
  delay_s : Q;          (* the field the source calls backoff_s *)
  reason : text;
}.

(** [random.Random]: the values its [random()] will return. *)
Definition Rng := nat → Q.

Definition uniform (r : Rng) (a b : Q) : Q * Rng :=
  (a + (b - a) * r 0%nat, λ n, r (S n)).

Definition ceiling_s (p : RetryPolicy) (attempt : Z) : Q :=
  Qmin (cap_s p) (base_s p * inject_Z (2 ^ Z.max 0 (attempt - 1))).

Definition backoff_s (c : failure_class) (attempt : Z) (retry_after_s : option Q)
    (rng : Rng) : Q * Rng :=
  let policy := POLICIES c in
  let ceiling := ceiling_s policy attempt in
  let '(jittered, rng) :=
    if negb (Qle_bool ceiling 0) then uniform rng 0 ceiling else (0, rng) in
  match retry_after_s with
  | Some ra =>
      let '(u, rng) := uniform rng 0 (Qmax 1 (base_s policy)) in (ra + u, rng)
  | None => (jittered, rng)
  end.

Definition decide (c : failure_class) (attempt max_attempts : Z)
    (retry_after_s : option Q) (rng : Rng) : RetryDecision * Rng :=
  let policy := POLICIES c in
  if negb (retryable policy) then
    (MkRetryDecision false 0 (lower (FailureClass.value c) +:+ "_not_retryable"), rng)
  else if (max_attempts <=? attempt)%Z then
    (MkRetryDecision false 0 "max_attempts_exhausted", rng)
  else if match attempt_cap policy with Some cap => (cap <=? attempt)%Z | None => false end then
    (MkRetryDecision false 0 (lower (FailureClass.value c) +:+ "_attempt_cap_reached"), rng)
  else
    let '(delay, rng) := backoff_s c attempt retry_after_s rng in
    (MkRetryDecision true delay ("retry_after_" +:+ lower (FailureClass.value c)), rng).

(** ** Facts about the policy table *)

Lemma base_nonneg c : 0 <= base_s (POLICIES c).
Proof. destruct c; discriminate. Qed.

Lemma cap_nonneg c : 0 <= cap_s (POLICIES c).
Proof. destruct c; discriminate. Qed.

Lemma terminal_classes_not_retryable c :
  c ∈ TERMINAL_CLASSES ↔ retryable (POLICIES c) = false.
Proof.
  unfold TERMINAL_CLASSES. destruct c; simpl; split; try done; set_solver.
Qed.

Lemma pow2_pos n : (0 < 2 ^ Z.max 0 n)%Z.
Proof. apply Z.pow_pos_nonneg; lia. Qed.

Lemma ceiling_nonneg c attempt : 0 <= ceiling_s (POLICIES c) attempt.
Proof.
  unfold ceiling_s. apply Q.min_glb; [apply cap_nonneg|].
  apply Qmult_le_0_compat; [apply base_nonneg|].
  change 0 with (inject_Z 0). rewrite <-Zle_Qle. pose proof (pow2_pos (attempt - 1)). lia.
Qed.

Lemma ceiling_le_cap c attempt : ceiling_s (POLICIES c) attempt <= cap_s (POLICIES c).
Proof. apply Q.le_min_l. Qed.

(** The curve never decreases with the attempt number. *)
Lemma ceiling_mono c a b :
  (a <= b)%Z → ceiling_s (POLICIES c) a <= ceiling_s (POLICIES c) b.
Proof.
  intros Hab. unfold ceiling_s. apply Q.min_le_compat_l.
  rewrite !(Qmult_comm (base_s _)). apply Qmult_le_compat_r; [|apply base_nonneg].
  rewrite <-Zle_Qle. apply Z.pow_le_mono_r; lia.
Qed.

Section Random.
(** [random()] is in [0, 1). *)
Context (rng : Rng) (Hrng : ∀ n, 0 <= rng n < 1).

Lemma uniform_bounds (b : Q) : 0 <= b → 0 <= (uniform rng 0 b).1 <= b.
Proof.
  intros Hb. simpl. destruct (Hrng 0%nat) as [H0 H1]. split.
  - assert (0 + (b - 0) * rng 0%nat == b * rng 0%nat) as -> by ring.
    by apply Qmult_le_0_compat.
  - assert (0 + (b - 0) * rng 0%nat == rng 0%nat * b) as -> by ring.
    apply Qle_trans with (1 * b); [|rewrite Qmult_1_l; apply Qle_refl].
    apply Qmult_le_compat_r; [by apply Qlt_le_weak|done].
Qed.
End Random.

Lemma backoff_bounds c attempt ra rng :
  (∀ n, 0 <= rng n < 1) →
  let d := (backoff_s c attempt ra rng).1 in
  match ra with
  | None => 0 <= d <= ceiling_s (POLICIES c) attempt
  | Some q => q <= d <= q + Qmax 1 (base_s (POLICIES c))
  end.
Proof.
  intros Hrng d. subst d. unfold backoff_s.
  pose proof (ceiling_nonneg c attempt) as Hc.
  pose proof (base_nonneg c) as Hbase.
  assert (0 <= Qmax 1 (base_s (POLICIES c))) as Hm.
  { apply Qle_trans with 1; [discriminate|apply Q.le_max_l]. }
  destruct (Qle_bool (ceiling_s (POLICIES c) attempt) 0) eqn:E; cbn [negb].
  - destruct ra as [q|].
    + pose proof (uniform_bounds rng Hrng _ Hm) as [? ?]. simpl in *.
      split; lra.
    + simpl. split; [discriminate|done].
  - destruct ra as [q|].
    + pose proof (uniform_bounds (λ n, rng (S n)) (λ n, Hrng (S n)) _ Hm) as [? ?].
      simpl in *. split; lra.
    + by apply uniform_bounds.
Qed.

Lemma decide_should_retry c attempt max_attempts ra rng :
  should_retry (decide c attempt max_attempts ra rng).1 = true ↔
  retryable (POLICIES c) = true ∧ (attempt < max_attempts)%Z ∧
  (∀ cap, attempt_cap (POLICIES c) = Some cap → (attempt < cap)%Z).
Proof.
  unfold decide. destruct (retryable (POLICIES c)) eqn:Hr; simpl.
  2: { split; [done|]. by intros [? _]. }
  destruct (max_attempts <=? attempt)%Z eqn:Hm; simpl.
  { split; [done|]. intros (_ & ? & _). to_prop. lia. }
  to_prop. destruct (attempt_cap (POLICIES c)) as [cap|] eqn:Hcap; simpl.
  - destruct (cap <=? attempt)%Z eqn:Hle; simpl.
    + split; [done|]. intros (_ & _ & H). specialize (H _ eq_refl). to_prop. lia.
    + destruct (backoff_s _ _ _ _). to_prop. split; [|done]. intros _.
      split_and!; [done|done|]. intros ? [= <-]. done.
  - destruct (backoff_s _ _ _ _). split; [|done]. intros _. by split_and!.
Qed.

Lemma decide_delay c attempt max_attempts ra rng :
  should_retry (decide c attempt max_attempts ra rng).1 = true →
  delay_s (decide c attempt max_attempts ra rng).1 = (backoff_s c attempt ra rng).1.
Proof.
  unfold decide. repeat case_match; simpl; try done.
Qed.

Lemma decide_no_retry_delay c attempt max_attempts ra rng :
  should_retry (decide c attempt max_attempts ra rng).1 = false →
  delay_s (decide c attempt max_attempts ra rng).1 = 0.
Proof. unfold decide. repeat case_match; simpl; done. Qed.

Lemma decide_delay_nonneg c attempt max_attempts ra rng :
  (∀ n, 0 <= rng n < 1) → (∀ q, ra = Some q → 0 <= q) →
  0 <= delay_s (decide c attempt max_attempts ra rng).1.
Proof.
  intros Hrng Hra.
  destruct (should_retry (decide c attempt max_attempts ra rng).1) eqn:E.
  - rewrite decide_delay by done. pose proof (backoff_bounds c attempt ra rng Hrng) as H.
    destruct ra as [q|]; simpl in H; [|tauto].
    specialize (Hra q eq_refl). destruct H. lra.
  - by rewrite decide_no_retry_delay.
Qed.

(** C40: the retry decision. A failure is retried exactly when its class is
    retryable, the task's own budget is not spent and the class's hard cap is
    not reached; the delay then lies under the exponential curve and its cap,
    or, when the server asked for a delay, at least that long and at most
    [max(1, base)] longer. *)
Theorem decide_correct c attempt max_attempts ra rng :
  (∀ n, 0 <= rng n < 1) →
  let d := (decide c attempt max_attempts ra rng).1 in
  (should_retry d = true ↔
     retryable (POLICIES c) = true ∧ (attempt < max_attempts)%Z ∧
     (∀ cap, attempt_cap (POLICIES c) = Some cap → (attempt < cap)%Z)) ∧
  (should_retry d = false → delay_s d = 0) ∧
  (should_retry d = true →
     match ra with
     | None => 0 <= delay_s d <= ceiling_s (POLICIES c) attempt
               ∧ delay_s d <= cap_s (POLICIES c)
     | Some q => q <= delay_s d <= q + Qmax 1 (base_s (POLICIES c))
     end).
Proof.
  intros Hrng d. split; [apply decide_should_retry|].
  split; [apply decide_no_retry_delay|].
  intros Hd. subst d. rewrite decide_delay by done.
  pose proof (backoff_bounds c attempt ra rng Hrng) as H.
  destruct ra as [q|]; simpl in *; [done|]. split; [done|].
  apply Qle_trans with (ceiling_s (POLICIES c) attempt); [tauto|apply ceiling_le_cap].
Qed.

Lemma decide_correct_witness :
  let rng : Rng := λ _, 1 # 2 in
  (∀ n, 0 <= rng n < 1) ∧
  should_retry (decide FailureClass.RATE_LIMITED 3 5 None rng).1 = true ∧
  delay_s (decide FailureClass.RATE_LIMITED 3 5 None rng).1 == 10 ∧
  0 <= delay_s (decide FailureClass.RATE_LIMITED 3 5 None rng).1 <= 20.
Proof.
  intros rng. assert (∀ n, 0 <= rng n < 1) as Hrng by (intros; split; [discriminate|reflexivity]).
  split; [exact Hrng|]. split; [reflexivity|]. split; [reflexivity|].
  destruct (decide_correct FailureClass.RATE_LIMITED 3 5 None rng Hrng) as (_ & _ & H).
  exact (proj1 (H eq_refl)).
Defined.

(** A server-supplied delay replaces the class's own curve. With a
    Retry-After of zero, the sixth attempt of a rate-limited task waits at
    most five seconds for every random source, while the curve without the
    header goes up to 160 seconds at that attempt: the header can bring a
    retry forward. *)
Theorem retry_after_replaces_curve rng max_attempts :
  (∀ n, 0 <= rng n < 1) → (6 < max_attempts)%Z →
  let with_header := (decide FailureClass.RATE_LIMITED 6 max_attempts (Some 0) rng).1 in
  should_retry with_header = true ∧ delay_s with_header <= 5 ∧
  ceiling_s (POLICIES FailureClass.RATE_LIMITED) 6 == 160.
Proof.
  intros Hrng Hmax d.
  assert (should_retry d = true) as Hd.
  { apply decide_should_retry. split_and!; [done|done|]. by intros ? [=]. }
  split; [done|]. split; [|reflexivity]. unfold d in *. rewrite decide_delay by done.
  pose proof (backoff_bounds FailureClass.RATE_LIMITED 6 (Some 0) rng Hrng) as [_ H].
  eapply Qle_trans; [exact H|]. discriminate.
Qed.

Lemma retry_after_replaces_curve_witness :
  let rng : Rng := λ _, 9 # 10 in
  (∀ n, 0 <= rng n < 1) ∧ (6 < 10)%Z ∧
  delay_s (decide FailureClass.RATE_LIMITED 6 10 (Some 0) rng).1 <= 5.
Proof.
  intros rng. assert (∀ n, 0 <= rng n < 1) as Hrng by (intros; split; [discriminate|reflexivity]).
  split; [exact Hrng|]. split; [reflexivity|].
  apply (retry_after_replaces_curve rng 10 Hrng). reflexivity.
Defined.

End retry.
