(* ===== verification/Policy.v ===== *)
(** * Scheduling policy (scheduling/policy.py)

    A policy is a closed list of (column, direction) pairs; [order_by_sql]
    compiles it and [is_index_servable] compares it with the ready index. *)

From S2P Require Import Prelude PyStr.

Module SortKey.
Inductive sort_key := PRIORITY | AVAILABLE_AT | CREATED_AT | ID.

Definition value (k : sort_key) : text :=
  match k with
  | PRIORITY => "priority" | AVAILABLE_AT => "available_at"
  | CREATED_AT => "created_at" | ID => "id"
  end.
End SortKey.
Export SortKey (sort_key).

Module Direction.
Inductive direction := ASC | DESC.

Definition value (d : direction) : text :=
  match d with ASC => "ASC" | DESC => "DESC" end.
End Direction.
Export Direction (direction).

#[global] Instance sort_key_eq_dec : EqDecision sort_key.
Proof. solve_decision. Defined.
#[global] Instance direction_eq_dec : EqDecision direction.
Proof. solve_decision. Defined.

Definition READY_INDEX_COLUMNS : list text := ["priority"; "available_at"; "id"].

Record ClaimPolicy := MkClaimPolicy {
  policy_name : text;
  policy_order_by : list (sort_key * direction);
}.

Definition order_by_sql (p : ClaimPolicy) : text :=
  join ", " ((λ '(k, d), SortKey.value k +:+ " " +:+ Direction.value d) <$> policy_order_by p).

(** A set comprehension equal to [{ASC}]: some pair, and all of them ASC. *)
Definition is_index_servable (p : ClaimPolicy) : bool :=
  let columns := (λ '(k, _), SortKey.value k) <$> policy_order_by p in
  let directions := snd <$> policy_order_by p in
  bool_decide (columns = take (length columns) READY_INDEX_COLUMNS)
  && bool_decide (columns = READY_INDEX_COLUMNS)
  && (bool_decide (directions ≠ []) && forallb (λ d, bool_decide (d = Direction.ASC)) directions).

Definition PRIORITY_FIFO : ClaimPolicy :=
  MkClaimPolicy "priority-fifo"
    [(SortKey.PRIORITY, Direction.ASC); (SortKey.AVAILABLE_AT, Direction.ASC);
     (SortKey.ID, Direction.ASC)].

Definition DEFAULT_POLICY : ClaimPolicy := PRIORITY_FIFO.

#[export] Instance sort_key_value_inj : Inj (=) (=) SortKey.value.
Proof. by intros [] []. Qed.

(** Exactly one ordering is servable by the ready index without a sort,
    and it is the default policy's. *)
Theorem index_servable_iff p :
  is_index_servable p = true ↔ policy_order_by p = policy_order_by DEFAULT_POLICY.
Proof.
  split.
  - unfold is_index_servable. intros [[_ Hcols]%andb_true_iff [_ Hdirs]%andb_true_iff]%andb_true_iff.
    apply bool_decide_eq_true in Hcols. rewrite forallb_forall in Hdirs.
    destruct p as [name [|[k1 d1] [|[k2 d2] [|[k3 d3] [|]]]]]; simpl in *; try done.
    assert (d1 = Direction.ASC) as -> by (apply (bool_decide_eq_true_1 _), Hdirs; auto).
    assert (d2 = Direction.ASC) as -> by (apply (bool_decide_eq_true_1 _), Hdirs; auto).
    assert (d3 = Direction.ASC) as -> by (apply (bool_decide_eq_true_1 _), Hdirs; auto).
    by destruct k1, k2, k3.
  - destruct p as [name o]. simpl. by intros ->.
Qed.

Example default_sql : order_by_sql DEFAULT_POLICY = "priority ASC, available_at ASC, id ASC".
Proof. reflexivity. Qed.
