(* ===== verification/Admission.v ===== *)
(** * Admission control (scheduling/admission.py) *)

From S2P Require Import Prelude PyStr.

Module admission.

Inductive Admission := ADMIT | REJECT_TENANT_BACKLOG | SHED_OVERLOADED.

#[global] Instance Admission_eq_dec : EqDecision Admission.
Proof. solve_decision. Defined.

Record Verdict := MkVerdict {
  decision : Admission;
  reason : text;
  retry_after_s : Z;
}.

Definition admitted (v : Verdict) : bool := bool_decide (decision v = ADMIT).

Definition decide (tenant_queued tenant_max_queued global_queued global_shed_threshold : Z)
    : Verdict :=
  if tenant_max_queued <=? tenant_queued then
    MkVerdict REJECT_TENANT_BACKLOG
      ("tenant has " +:+ pretty tenant_queued +:+ " queued tasks, at its limit of "
       +:+ pretty tenant_max_queued +:+ "; submissions are outpacing execution") 5
  else if (0 <? global_shed_threshold) && (global_shed_threshold <=? global_queued) then
    MkVerdict SHED_OVERLOADED
      ("system queue depth " +:+ pretty global_queued +:+ " is at or above the shed "
       +:+ "threshold " +:+ pretty global_shed_threshold) 30
  else MkVerdict ADMIT EmptyString 0.

Section spec.
Context (tq tmax gq gshed : Z).

Lemma decide_reject :
  decision (decide tq tmax gq gshed) = REJECT_TENANT_BACKLOG ↔ tmax ≤ tq.
Proof. unfold decide. repeat case_match; simpl; to_prop; split; try done; lia. Qed.

Lemma decide_shed :
  decision (decide tq tmax gq gshed) = SHED_OVERLOADED ↔
  tq < tmax ∧ 0 < gshed ∧ gshed ≤ gq.
Proof.
  unfold decide. destruct (tmax <=? tq) eqn:E1; simpl.
  { to_prop. split; [done|lia]. }
  destruct ((0 <? gshed) && (gshed <=? gq)) eqn:E2; simpl.
  - apply andb_true_iff in E2. to_prop. split; [|done]. to_prop. lia.
  - split; [done|]. intros (_ & H1 & H2). apply Z.ltb_lt in H1. apply Z.leb_le in H2.
    rewrite H1, H2 in E2. done.
Qed.

Lemma decide_admit :
  decision (decide tq tmax gq gshed) = ADMIT ↔ tq < tmax ∧ (gshed ≤ 0 ∨ gq < gshed).
Proof.
  pose proof decide_reject as Hr. pose proof decide_shed as Hs. split.
  - intros Ha. rewrite Ha in Hr, Hs. split.
    + destruct (Z.le_gt_cases tmax tq) as [Hle%Hr|]; [done|lia].
    + destruct (Z.le_gt_cases gshed 0); [by left|right].
      destruct (Z.le_gt_cases gshed gq); [|lia].
      destruct (Z.le_gt_cases tmax tq) as [Hle%Hr|]; [done|].
      assert (ADMIT = SHED_OVERLOADED) by (apply Hs; lia). done.
  - intros [H1 H2]. destruct (decision _) eqn:E; [done| |]; exfalso.
    + assert (tmax ≤ tq) by (by apply Hr). lia.
    + destruct Hs as [Hs _]. specialize (Hs eq_refl). lia.
Qed.
End spec.

(** Admission is decided by four numbers, the tenant's own bound first:
    429 is exactly 'this tenant is at its bound', 503 exactly 'the tenant is
    under its bound and shedding is on and the system is at its threshold',
    and every refusal carries a Retry-After. *)
Theorem admission_decide_correct tq tmax gq gshed :
  let v := decide tq tmax gq gshed in
  (decision v = REJECT_TENANT_BACKLOG ↔ tmax ≤ tq) ∧
  (decision v = SHED_OVERLOADED ↔ tq < tmax ∧ 0 < gshed ∧ gshed ≤ gq) ∧
  (admitted v = true ↔ tq < tmax ∧ (gshed ≤ 0 ∨ gq < gshed)) ∧
  (admitted v = false ↔ 0 < retry_after_s v).
Proof.
  simpl. split; [apply decide_reject|]. split; [apply decide_shed|]. split.
  - unfold admitted. rewrite bool_decide_eq_true. apply decide_admit.
  - unfold admitted, decide. repeat case_match; simpl; done.
Qed.

End admission.
