(* ===== verification/Capability.v ===== *)
(** * Capabilities and agent lifecycles (domain/agents.py)

    The enums of the registry, the canonical key of a capability set and the
    keys a worker can satisfy. *)

From S2P Require Import Prelude PyStr.

Module AgentStatus.
Inductive agent_status := ACTIVE | DEPRECATED | DISABLED.
Definition value (s : agent_status) : text :=
  match s with ACTIVE => "ACTIVE" | DEPRECATED => "DEPRECATED" | DISABLED => "DISABLED" end.
End AgentStatus.
Export AgentStatus (agent_status).

Module VersionStatus.
Inductive version_status := DRAFT | ACTIVE | DEPRECATED | DISABLED.
Definition value (s : version_status) : text :=
  match s with
  | DRAFT => "DRAFT" | ACTIVE => "ACTIVE" | DEPRECATED => "DEPRECATED"
  | DISABLED => "DISABLED"
  end.
End VersionStatus.
Export VersionStatus (version_status).

#[global] Instance agent_status_eq_dec : EqDecision agent_status.
Proof. solve_decision. Defined.
#[global] Instance version_status_eq_dec : EqDecision version_status.
Proof. solve_decision. Defined.

Definition ROUTABLE_VERSION_STATUSES : list version_status := [VersionStatus.ACTIVE].
Definition ROUTABLE_AGENT_STATUSES : list agent_status := [AgentStatus.ACTIVE].

(** One element of the comprehension: [c.strip().lower()], kept when
    [c and c.strip()]. *)
Definition norm1 (c : text) : text := lower (strip c).
Definition kept (c : text) : bool := truthy c && truthy (strip c).

(** [sorted({c.strip().lower() for c in capabilities if c and c.strip()})];
    the set is the list without duplicates. *)
Definition norm_set (capabilities : list text) : list text :=
  remove_dups (norm1 <$> filter (λ c, kept c = true) capabilities).
Definition normalised (capabilities : list text) : list text :=
  order_by String.le (norm_set capabilities).

Definition capability_key (capabilities : list text) : text :=
  join "," (normalised capabilities).

Definition worker_satisfies (required worker_capabilities : list text) : bool :=
  let have := norm_set worker_capabilities in
  let need := norm_set required in
  forallb (λ c, bool_decide (c ∈ have)) need.

Definition MAX_KEYED_CLAIM_CAPABILITIES : nat := 5.

(** [itertools.combinations(l, r)], in its order. *)
Fixpoint combinations {A} (l : list A) (r : nat) {struct l} : list (list A) :=
  match r, l with
  | O, _ => [[]]
  | S _, [] => []
  | S r', x :: l' => (cons x <$> combinations l' r') ++ combinations l' r
  end.

Definition satisfiable_capability_keys (worker_capabilities : list text) : list text :=
  let caps := normalised worker_capabilities in
  let keys := seq 0 (length caps + 1) ≫= λ r, capability_key <$> combinations caps r in
  order_by String.le (remove_dups keys).

(** ** Strings: what normalising preserves *)

Lemma lower_ascii_idemp c : lower_ascii (lower_ascii c) = lower_ascii c.
Proof. destruct c as [[] [] [] [] [] [] [] []]; reflexivity. Qed.
Lemma is_space_lower c : is_space (lower_ascii c) = is_space c.
Proof. destruct c as [[] [] [] [] [] [] [] []]; reflexivity. Qed.

Lemma lower_idemp s : lower (lower s) = lower s.
Proof. induction s as [|c s IH]; simpl; [done|]. by rewrite lower_ascii_idemp, IH. Qed.
Lemma lower_empty s : lower s = EmptyString ↔ s = EmptyString.
Proof. by destruct s. Qed.

Lemma lstrip_lower s : lstrip (lower s) = lower (lstrip s).
Proof.
  induction s as [|c s IH]; simpl; [done|]. rewrite is_space_lower. by destruct (is_space c).
Qed.

Lemma rstrip_lower s : rstrip (lower s) = lower (rstrip s).
Proof.
  induction s as [|c s IH]; simpl; [done|]. rewrite IH, is_space_lower.
  destruct (rstrip s); simpl; [by destruct (is_space c)|done].
Qed.

Lemma rstrip_idemp s : rstrip (rstrip s) = rstrip s.
Proof.
  induction s as [|c s IH]; simpl; [done|].
  destruct (rstrip s) as [|d t] eqn:E.
  - destruct (is_space c) eqn:Ec; simpl; [done|]. by rewrite Ec.
  - change (rstrip (String c (String d t)))
      with (match rstrip (String d t) with
            | EmptyString => if is_space c then EmptyString else String c EmptyString
            | u => String c u end).
    by rewrite IH.
Qed.

(** Leading white space is gone and stays gone. *)
Lemma lstrip_fixed s : lstrip s = s → lstrip (rstrip s) = rstrip s.
Proof.
  destruct s as [|c s]; simpl; [done|]. destruct (is_space c) eqn:Ec.
  - intros H. exfalso.
    assert (∀ t, String.length (lstrip t) ≤ String.length t)%nat as Hlen.
    { clear. induction t as [|d t IH]; simpl; [done|]. destruct (is_space d); simpl; lia. }
    specialize (Hlen s). rewrite H in Hlen. simpl in Hlen. lia.
  - intros _. destruct (rstrip s); simpl; by rewrite Ec.
Qed.

Lemma lstrip_idemp s : lstrip (lstrip s) = lstrip s.
Proof. induction s as [|c s IH]; simpl; [done|]. destruct (is_space c) eqn:E; [done|]. simpl. by rewrite E. Qed.

Lemma strip_idemp s : strip (strip s) = strip s.
Proof.
  unfold strip. rewrite lstrip_fixed by apply lstrip_idemp. apply rstrip_idemp.
Qed.

Lemma strip_lower s : strip (lower s) = lower (strip s).
Proof. unfold strip. by rewrite lstrip_lower, rstrip_lower. Qed.

Lemma norm1_idemp c : norm1 (norm1 c) = norm1 c.
Proof. unfold norm1. by rewrite strip_lower, strip_idemp, lower_idemp. Qed.

Lemma truthy_ne s : truthy s = true ↔ s ≠ EmptyString.
Proof. by destruct s. Qed.

Lemma strip_empty : strip EmptyString = EmptyString.
Proof. done. Qed.

Lemma kept_spec c : kept c = true ↔ norm1 c ≠ EmptyString.
Proof.
  unfold kept, norm1. rewrite andb_true_iff, !truthy_ne, lower_empty. split; [tauto|].
  intros H. split; [|done]. by intros ->.
Qed.

(** ** Normal forms of capability lists *)

Lemma elem_of_norm_set caps c :
  c ∈ norm_set caps ↔ c ≠ EmptyString ∧ ∃ d, d ∈ caps ∧ c = norm1 d.
Proof.
  unfold norm_set. rewrite elem_of_remove_dups, list_elem_of_fmap. split.
  - intros (d & -> & [Hd Hin]%list_elem_of_filter). apply kept_spec in Hd. eauto.
  - intros (Hne & d & Hd & ->). exists d. split; [done|].
    apply list_elem_of_filter. split; [by apply kept_spec|done].
Qed.

Lemma elem_of_normalised caps c : c ∈ normalised caps ↔ c ∈ norm_set caps.
Proof. apply elem_of_order_by; apply _. Qed.

Lemma NoDup_normalised caps : NoDup (normalised caps).
Proof. unfold normalised. rewrite order_by_perm by apply _. apply NoDup_remove_dups. Qed.

Lemma normalised_sorted caps : StronglySorted String.le (normalised caps).
Proof. apply order_by_sorted; apply _. Qed.

Lemma normalised_ext l1 l2 :
  (∀ c, c ∈ norm_set l1 ↔ c ∈ norm_set l2) → normalised l1 = normalised l2.
Proof.
  intros H. apply (sorted_unique_on String.le).
  - intros x y _ _. apply (anti_symm _).
  - apply normalised_sorted.
  - apply normalised_sorted.
  - apply NoDup_Permutation; [apply NoDup_normalised..|].
    intros x. by rewrite !elem_of_normalised.
Qed.

(** A list of already normal elements keeps its set of elements. *)
Lemma norm_set_fixed l caps :
  (∀ c, c ∈ l → c ∈ norm_set caps) → ∀ c, c ∈ norm_set l ↔ c ∈ l.
Proof.
  intros Hl c. rewrite elem_of_norm_set. split.
  - intros (_ & d & Hd & ->). pose proof (Hl d Hd) as (_ & e & _ & ->)%elem_of_norm_set.
    by rewrite norm1_idemp.
  - intros Hc. pose proof (Hl c Hc) as (Hne & e & _ & ->)%elem_of_norm_set.
    split; [done|]. exists (norm1 e). by rewrite norm1_idemp.
Qed.

Lemma normalised_idemp caps : normalised (normalised caps) = normalised caps.
Proof.
  apply normalised_ext. intros c.
  rewrite (norm_set_fixed _ caps), elem_of_normalised; [done|].
  intros d. by rewrite elem_of_normalised.
Qed.

Lemma worker_satisfies_spec required caps :
  worker_satisfies required caps = true ↔ ∀ c, c ∈ norm_set required → c ∈ norm_set caps.
Proof.
  unfold worker_satisfies. rewrite forallb_forall. setoid_rewrite <-list_elem_of_In.
  split; intros H c Hc; [by apply (bool_decide_eq_true_1 _), H|by apply bool_decide_eq_true, H].
Qed.

(** ** Combinations *)

Section Combinations.
Context {A : Type}.
Implicit Types (l c : list A).

Lemma elem_of_combinations l r c :
  c ∈ combinations l r ↔ c `sublist_of` l ∧ length c = r.
Proof.
  revert r c. induction l as [|x l IH]; intros [|r] c; simpl.
  - rewrite list_elem_of_singleton, sublist_nil_r, length_zero_iff_nil. tauto.
  - split; [by intros ?%not_elem_of_nil|]. intros [->%sublist_nil_r [=]].
  - rewrite list_elem_of_singleton. split.
    + intros ->. split; [apply sublist_nil_l|done].
    + by intros [_ ?%length_zero_iff_nil].
  - rewrite elem_of_app, list_elem_of_fmap, IH. setoid_rewrite IH.
    rewrite sublist_cons_r. split.
    + intros [(c' & -> & ? & <-)|[? ?]]; eauto.
    + intros [[Hs|(c' & -> & Hs)] Hlen]; [by right|]. left. exists c'.
      split; [done|]. split; [done|]. simpl in Hlen. lia.
Qed.

Lemma combinations_long l r : (length l < r)%nat → combinations l r = [].
Proof.
  revert r. induction l as [|x l IH]; intros [|r]; simpl; try lia; [done|].
  intros H. rewrite !IH by lia. done.
Qed.

Definition total_combinations (n : nat) l : nat :=
  sum_list (length ∘ combinations l <$> seq 0 n).

Lemma sum_list_fmap_add (f g : nat → nat) ks :
  sum_list ((λ r, f r + g r)%nat <$> ks) = (sum_list (f <$> ks) + sum_list (g <$> ks))%nat.
Proof. induction ks as [|k ks IH]; [done|]. rewrite !fmap_cons. simpl. lia. Qed.

Lemma total_combinations_pow n l :
  (length l < n)%nat → total_combinations n l = (2 ^ length l)%nat.
Proof.
  unfold total_combinations. revert n. induction l as [|x l IH]; intros [|n]; try (simpl; lia).
  - intros _. simpl. rewrite <-fmap_S_seq, <-list_fmap_compose.
    assert (∀ ks, sum_list ((length ∘ combinations (@nil A)) ∘ S <$> ks) = 0%nat) as ->; [|done].
    induction ks as [|k ks IHks]; [done|]. by rewrite fmap_cons.
  - simpl length. intros Hn. rewrite Nat.pow_succ_r', <-(IH (S n)) at 1 by lia.
    simpl. rewrite <-fmap_S_seq, <-!list_fmap_compose.
    rewrite (list_fmap_ext _ (λ r, length (combinations l r) + length (combinations l (S r)))%nat).
    2: { intros i r _. simpl. by rewrite length_app, length_fmap. }
    rewrite sum_list_fmap_add.
    pose proof (IH n ltac:(lia)) as H1. pose proof (IH (S n) ltac:(lia)) as H2.
    simpl in H2. rewrite <-fmap_S_seq, <-list_fmap_compose in H2.
    unfold compose in *. destruct l; simpl in *; lia.
Qed.
End Combinations.

Lemma length_bind {A B} (f : A → list B) l :
  length (l ≫= f) = sum_list (length ∘ f <$> l).
Proof.
  induction l as [|x l IH]; [done|]. rewrite bind_cons, length_app, fmap_cons. simpl. by rewrite IH.
Qed.

(** ** Keys *)

(** The capability sets whose encoding can be read back. *)
Definition comma_free (caps : list text) : Prop :=
  Forall (λ c, has_char "," c = false) (norm_set caps).

Lemma comma_free_normalised caps :
  comma_free caps →
  Forall (λ s, has_char "," s = false ∧ s ≠ EmptyString) (normalised caps).
Proof.
  intros H. apply Forall_forall. intros c Hc. rewrite elem_of_normalised in Hc. split.
  - by eapply Forall_forall in H.
  - by apply elem_of_norm_set in Hc as [? _].
Qed.

Lemma capability_key_inj l1 l2 :
  comma_free l1 → comma_free l2 →
  capability_key l1 = capability_key l2 → normalised l1 = normalised l2.
Proof. intros H1 H2. apply join_inj; by apply comma_free_normalised. Qed.

Lemma elem_of_satisfiable caps k :
  k ∈ satisfiable_capability_keys caps ↔
  ∃ s, s `sublist_of` normalised caps ∧ k = capability_key s.
Proof.
  unfold satisfiable_capability_keys. rewrite elem_of_order_by by apply _.
  rewrite elem_of_remove_dups, list_elem_of_bind. split.
  - intros (r & (s & -> & Hs)%list_elem_of_fmap & _).
    apply elem_of_combinations in Hs as [? _]. eauto.
  - intros (s & Hs & ->). exists (length s). split.
    + apply list_elem_of_fmap. exists s. split; [done|]. by apply elem_of_combinations.
    + apply elem_of_seq. apply sublist_length in Hs. lia.
Qed.

Lemma NoDup_satisfiable caps : NoDup (satisfiable_capability_keys caps).
Proof.
  unfold satisfiable_capability_keys. rewrite order_by_perm by apply _. apply NoDup_remove_dups.
Qed.

(** The keys of a specialist include the key of every set it satisfies. *)
Lemma satisfies_key required caps :
  worker_satisfies required caps = true →
  capability_key required ∈ satisfiable_capability_keys caps.
Proof.
  rewrite worker_satisfies_spec. intros Hsub. apply elem_of_satisfiable.
  exists (filter (λ c, c ∈ norm_set required) (normalised caps)).
  split; [apply sublist_filter|]. unfold capability_key. f_equal.
  apply normalised_ext. intros c. symmetry.
  rewrite (norm_set_fixed (filter _ _) caps).
  - rewrite list_elem_of_filter, elem_of_normalised. naive_solver.
  - intros d [_ Hd]%list_elem_of_filter. by rewrite <-elem_of_normalised.
Qed.

Lemma key_satisfies required caps :
  comma_free required → comma_free caps →
  capability_key required ∈ satisfiable_capability_keys caps →
  worker_satisfies required caps = true.
Proof.
  intros Hreq Hcaps (s & Hs & Hk)%elem_of_satisfiable.
  assert (∀ c, c ∈ s → c ∈ norm_set caps) as Hin.
  { intros c Hc. rewrite <-elem_of_normalised. by eapply elem_of_submseteq; [|apply sublist_submseteq]. }
  apply capability_key_inj in Hk; [|done|].
  - apply worker_satisfies_spec. intros c Hc. apply Hin.
    rewrite <-(norm_set_fixed s caps), <-elem_of_normalised by done.
    by rewrite <-Hk, elem_of_normalised.
  - apply Forall_forall. intros c Hc. rewrite (norm_set_fixed s caps) in Hc by done.
    eapply Forall_forall in Hcaps; [|by apply Hin]. done.
Qed.

Lemma length_satisfiable caps :
  (length (satisfiable_capability_keys caps) ≤ 2 ^ length (normalised caps))%nat.
Proof.
  rewrite <-(total_combinations_pow (length (normalised caps) + 1)) by lia.
  unfold satisfiable_capability_keys, total_combinations. rewrite length_order_by by apply _.
  set (keys := _ ≫= _). trans (length keys).
  - apply submseteq_length, NoDup_submseteq; [apply NoDup_remove_dups|].
    intros x. by rewrite elem_of_remove_dups.
  - unfold keys. rewrite length_bind. apply Nat.eq_le_incl. f_equal. apply list_fmap_ext.
    intros i r _. simpl. by rewrite length_fmap.
Qed.

(** The keyed claim asks for the right keys. When no capability name
    holds a comma, the key stored on a task is among a worker's satisfiable
    keys exactly when the worker's capabilities contain the task's
    requirements; and a worker under the keyed bound has at most 32 keys. *)
Theorem satisfiable_keys_correct required caps :
  comma_free required → comma_free caps →
  (capability_key required ∈ satisfiable_capability_keys caps ↔
     worker_satisfies required caps = true) ∧
  ((length (normalised caps) ≤ MAX_KEYED_CLAIM_CAPABILITIES)%nat →
     (length (satisfiable_capability_keys caps) ≤ 32)%nat).
Proof.
  intros H1 H2. split; [split|].
  - by apply key_satisfies.
  - apply satisfies_key.
  - intros Hle. etrans; [apply length_satisfiable|].
    change 32%nat with (2 ^ 5)%nat. by apply Nat.pow_le_mono_r.
Qed.

Lemma satisfiable_keys_correct_witness :
  let caps := ["GPU "; "internet"; "gpu"] in
  comma_free [" gpu"] ∧ comma_free caps ∧
  satisfiable_capability_keys caps = [EmptyString; "gpu"; "gpu,internet"; "internet"] ∧
  worker_satisfies [" gpu"] caps = true.
Proof.
  intros caps.
  assert (comma_free [" gpu"]) as H1 by (apply Forall_cons; split; [reflexivity|constructor]).
  assert (comma_free caps) as H2 by (repeat (apply Forall_cons; split; [reflexivity|]); constructor).
  split; [exact H1|]. split; [exact H2|]. split; [vm_compute; reflexivity|].
  apply (proj1 (satisfiable_keys_correct [" gpu"] caps H1 H2)).
  vm_compute. apply list_elem_of_further, list_elem_of_here.
Defined.

(** The encoding does not separate a name with a comma from two names: a
    task that requires the single capability [a,b] gets the key of [{a, b}],
    so the keyed path offers it to a worker that does not satisfy it. *)
Theorem comma_key_collision :
  let required := ["a,b"] in let caps := ["a"; "b"] in
  capability_key required ∈ satisfiable_capability_keys caps ∧
  worker_satisfies required caps = false ∧ worker_satisfies caps required = false.
Proof.
  split; [|done]. vm_compute. do 2 apply list_elem_of_further. apply list_elem_of_here.
Qed.
