(* ===== verification/Authz.v ===== *)
(** * Agent-to-tool authorization (domain/authz.py)

    [authorize] is a function of the policy frozen at claim time and a tool
    name; the lemmas give its decision in every case. *)

From S2P Require Import Prelude Json.

Module ToolStatus.
Inductive tool_status := ACTIVE | DISABLED.
Definition value (s : tool_status) : text :=
  match s with ACTIVE => "ACTIVE" | DISABLED => "DISABLED" end.
End ToolStatus.
Export ToolStatus (tool_status).

Module ToolType.
Inductive tool_type := SIMULATED | HTTP.
Definition value (s : tool_type) : text :=
  match s with SIMULATED => "SIMULATED" | HTTP => "HTTP" end.
End ToolType.
Export ToolType (tool_type).

Module DenyReason.
Inductive deny_reason :=
  UNKNOWN_TOOL | NOT_GRANTED | TOOL_DISABLED | VERSION_DISABLED | NO_POLICY.
Definition value (r : deny_reason) : text :=
  match r with
  | UNKNOWN_TOOL => "unknown_tool" | NOT_GRANTED => "not_granted"
  | TOOL_DISABLED => "tool_disabled" | VERSION_DISABLED => "version_disabled"
  | NO_POLICY => "no_policy"
  end.
End DenyReason.
Export DenyReason (deny_reason).

#[global] Instance tool_status_eq_dec : EqDecision tool_status.
Proof. solve_decision. Defined.
#[global] Instance tool_type_eq_dec : EqDecision tool_type.
Proof. solve_decision. Defined.
#[global] Instance deny_reason_eq_dec : EqDecision deny_reason.
Proof. solve_decision. Defined.

Record ToolRef := MkToolRef {
  ref_id : uuid;
  ref_name : text;
  ref_tool_type : tool_type;
  ref_status : tool_status;
  ref_config : jdict;
}.

Record ToolPolicy := MkToolPolicy {
  agent_version_id : option uuid;
  granted_tool_ids : gset uuid;
  tools_by_name : gmap text ToolRef;
  version_disabled : bool;
}.

Definition UNGOVERNED : ToolPolicy := MkToolPolicy None ∅ ∅ false.

Record AuthzDecision := MkAuthzDecision {
  allowed : bool;
  decision_tool : option ToolRef;
  decision_reason : option deny_reason;
}.

Definition deny (tool : option ToolRef) (r : deny_reason) : AuthzDecision :=
  MkAuthzDecision false tool (Some r).

Definition authorize (policy : ToolPolicy) (tool_name : text) : AuthzDecision :=
  if version_disabled policy then deny None DenyReason.VERSION_DISABLED
  else match agent_version_id policy with
  | None => deny None DenyReason.NO_POLICY
  | Some _ =>
      match tools_by_name policy !! tool_name with
      | None => deny None DenyReason.UNKNOWN_TOOL
      | Some tool =>
          if bool_decide (ref_status tool = ToolStatus.DISABLED)
          then deny (Some tool) DenyReason.TOOL_DISABLED
          else if bool_decide (ref_id tool ∉ granted_tool_ids policy)
          then deny (Some tool) DenyReason.NOT_GRANTED
          else MkAuthzDecision true (Some tool) None
      end
  end.

(** ** Properties *)

Lemma authorize_allowed p name :
  allowed (authorize p name) = true ↔
  version_disabled p = false ∧ agent_version_id p ≠ None ∧
  ∃ tool, tools_by_name p !! name = Some tool ∧
          ref_status tool = ToolStatus.ACTIVE ∧ ref_id tool ∈ granted_tool_ids p.
Proof.
  unfold authorize. destruct (version_disabled p); simpl; [naive_solver|].
  destruct (agent_version_id p); simpl; [|naive_solver].
  destruct (tools_by_name p !! name) as [tool|] eqn:E; simpl; [|naive_solver].
  case_bool_decide as Hs; simpl.
  { split; [done|]. intros (_ & _ & ? & [= <-] & ? & ?). congruence. }
  case_bool_decide as Hg; simpl.
  { split; [done|]. by intros (_ & _ & ? & [= <-] & ? & ?). }
  split; [|done]. intros _. split_and!; [done|done|].
  exists tool. split_and!; [done|by destruct (ref_status tool)|done].
Qed.

(** A refusal names its reason, an approval its tool. *)
Lemma authorize_shape p name :
  if allowed (authorize p name)
  then decision_reason (authorize p name) = None ∧ is_Some (decision_tool (authorize p name))
  else is_Some (decision_reason (authorize p name)).
Proof. unfold authorize, deny. repeat (case_match; simplify_eq/=); eauto. Qed.

(** Authorization. A tool call is allowed exactly when the version is
    enabled, a version governs the task, the tool exists in the snapshot, is
    active and is granted; a refusal always carries a reason and the kill
    switches come before the grants: a disabled version or tool is refused
    with that reason whatever is granted. *)
Theorem authorize_correct p name :
  (allowed (authorize p name) = true ↔
     version_disabled p = false ∧ agent_version_id p ≠ None ∧
     ∃ tool, tools_by_name p !! name = Some tool ∧
             ref_status tool = ToolStatus.ACTIVE ∧ ref_id tool ∈ granted_tool_ids p) ∧
  (allowed (authorize p name) = false ↔ is_Some (decision_reason (authorize p name))) ∧
  (decision_reason (authorize p name) = Some DenyReason.VERSION_DISABLED ↔
     version_disabled p = true) ∧
  (decision_reason (authorize p name) = Some DenyReason.TOOL_DISABLED ↔
     version_disabled p = false ∧ agent_version_id p ≠ None ∧
     ∃ tool, tools_by_name p !! name = Some tool ∧ ref_status tool = ToolStatus.DISABLED).
Proof.
  split; [apply authorize_allowed|]. split; [|split].
  - pose proof (authorize_shape p name) as H. destruct (allowed _); [|done].
    destruct H as [-> _]. split; [done|]. by intros [? ?].
  - unfold authorize, deny. repeat (case_match; simplify_eq/=); naive_solver.
  - unfold authorize, deny. destruct (version_disabled p); simpl; [naive_solver|].
    destruct (agent_version_id p); simpl; [|naive_solver].
    destruct (tools_by_name p !! name) as [tool|] eqn:E; simpl; [|naive_solver].
    case_bool_decide as Hs; [|case_bool_decide]; simpl.
    + split; [|done]. intros _. eauto.
    + split; [done|]. intros (_ & _ & ? & [= <-] & ?). congruence.
    + split; [done|]. intros (_ & _ & ? & [= <-] & ?). congruence.
Qed.

(** A directly submitted task may call nothing. *)
Lemma ungoverned_denies name : allowed (authorize UNGOVERNED name) = false.
Proof. done. Qed.
