(* ===== verification/Db.v ===== *)
(** * The database (db/models.py, db/sqlutil.py, db/session.py)

    One record per table, with the columns of [db/models.py]; the state of
    the system is the record [db] of all tables.  A query function of the
    source is a computation in the monad [M]: it reads the transaction's
    clock and the rows other transactions hold locked, and either returns a
    value and the new tables or raises, in which case [transaction] rolls
    back.  A statement that would leave a row violating a CHECK constraint,
    a key or an integer width raises, as PostgreSQL does.

    The columns of [tasks] are split in two records: [task_spec], what the
    submission pins (no statement of the source assigns these), and the
    columns statements assign, one constructor of [assign] each. *)

From S2P Require Import Prelude PyStr Codec Json States Authz Capability.

(** ** Rows *)

Record tenant_row := MkTenant {
  te_id : uuid;
  te_name : text;
  te_max_concurrent_tasks : Z;
  te_max_queued_tasks : Z;
  te_priority_weight : Z;
  te_created_at : timestamp;
}.

Record task_spec := MkTaskSpec {
  t_id : uuid;
  t_tenant_id : uuid;
  t_task_type : text;
  t_payload : jdict;
  t_idempotency_key : option text;
  t_priority : Z;
  t_max_attempts : Z;
  t_max_execution_time_s : Z;
  t_agent_version_id : option uuid;
  t_required_capabilities : list text;
  t_capability_key : text;
  t_created_at : timestamp;
}.

Record task_row := MkTask {
  t_spec :> task_spec;
  t_state : state;
  t_attempt : Z;
  t_available_at : timestamp;
  t_lease_worker_id : option text;
  t_lease_expires_at : option timestamp;
  t_cancel_requested : bool;
  t_result : option jdict;
  t_error_class : option text;
  t_error_message : option text;
  t_updated_at : timestamp;
  t_first_started_at : option timestamp;
  t_finished_at : option timestamp;
}.

Record event_row := MkEvent {
  ev_id : nat;
  ev_task_id : uuid;
  ev_attempt : option Z;
  ev_type : event_type;
  ev_worker_id : option text;
  ev_data : jdict;
  ev_created_at : timestamp;
}.

Module WorkerStatus.
Inductive worker_status := ALIVE | DRAINING | DEAD.
End WorkerStatus.
Export WorkerStatus (worker_status).

#[global] Instance worker_status_eq_dec : EqDecision worker_status.
Proof. solve_decision. Defined.

Record worker_row := MkWorker {
  w_id : text;
  w_hostname : text;
  w_pid : Z;
  w_capacity : Z;
  w_capabilities : list text;
  w_status : worker_status;
  w_registered_at : timestamp;
  w_last_heartbeat_at : timestamp;
}.

Module Outcome.
Inductive outcome := SUCCEEDED | FAILED | LOST | ABANDONED | CANCELLED.

Definition value (o : outcome) : text :=
  match o with
  | SUCCEEDED => "SUCCEEDED" | FAILED => "FAILED" | LOST => "LOST" | ABANDONED => "ABANDONED"
  | CANCELLED => "CANCELLED"
  end.
End Outcome.
Export Outcome (outcome).

#[global] Instance outcome_eq_dec : EqDecision outcome.
Proof. solve_decision. Defined.

Record attempt_row := MkAttempt {
  a_task_id : uuid;
  a_attempt : Z;
  a_worker_id : text;
  a_started_at : timestamp;
  a_finished_at : option timestamp;
  a_outcome : option outcome;
  a_error_class : option text;
  a_error_message : option text;
}.

Record agent_row := MkAgent {
  ag_id : uuid;
  ag_tenant_id : uuid;
  ag_name : text;
  ag_description : option text;
  ag_status : agent_status;
  ag_default_version_id : option uuid;
  ag_created_at : timestamp;
  ag_updated_at : timestamp;
}.

Record version_row := MkVersion {
  v_id : uuid;
  v_agent_id : uuid;
  v_version : Z;
  v_runtime_spec : jdict;
  v_required_capabilities : list text;
  v_config : jdict;
  v_max_attempts : Z;
  v_max_execution_time_s : Z;
  v_status : version_status;
  v_created_at : timestamp;
}.

Record route_row := MkRoute {
  ro_tenant_id : uuid;
  ro_request_type : text;
  ro_agent_id : uuid;
  ro_created_at : timestamp;
}.

Record tool_row := MkTool {
  tl_id : uuid;
  tl_tenant_id : uuid;
  tl_name : text;
  tl_description : option text;
  tl_tool_type : tool_type;
  tl_config : jdict;
  tl_status : tool_status;
  tl_created_at : timestamp;
}.

Record grant_row := MkGrant {
  gr_agent_version_id : uuid;
  gr_tool_id : uuid;
  gr_created_at : timestamp;
}.

Record audit_row := MkAudit {
  au_id : nat;
  au_tenant_id : uuid;
  au_actor : text;
  au_action : text;
  au_resource_type : text;
  au_resource_id : option uuid;
  au_outcome : text;
  au_data : jdict;
  au_created_at : timestamp;
}.

#[global] Instance task_spec_eq_dec : EqDecision task_spec.
Proof. solve_decision. Defined.
#[global] Instance task_row_eq_dec : EqDecision task_row.
Proof. solve_decision. Defined.

Record db := MkDb {
  tenants : gmap uuid tenant_row;
  tasks : gmap uuid task_row;
  task_events : list event_row;
  workers : gmap text worker_row;
  task_attempts : gmap (uuid * Z) attempt_row;
  agents : gmap uuid agent_row;
  agent_versions : gmap uuid version_row;
  agent_routes : gmap (uuid * text) route_row;
  tools : gmap uuid tool_row;
  agent_version_tool_grants : gmap (uuid * uuid) grant_row;
  audit_events : list audit_row;
}.

Definition empty_db : db := MkDb ∅ ∅ [] ∅ ∅ ∅ ∅ ∅ ∅ ∅ [].

(** Replacing one table. *)
Definition set_tenants x (d : db) := MkDb x (tasks d) (task_events d) (workers d)
  (task_attempts d) (agents d) (agent_versions d) (agent_routes d) (tools d)
  (agent_version_tool_grants d) (audit_events d).
Definition set_tasks x (d : db) := MkDb (tenants d) x (task_events d) (workers d)
  (task_attempts d) (agents d) (agent_versions d) (agent_routes d) (tools d)
  (agent_version_tool_grants d) (audit_events d).
Definition set_events x (d : db) := MkDb (tenants d) (tasks d) x (workers d)
  (task_attempts d) (agents d) (agent_versions d) (agent_routes d) (tools d)
  (agent_version_tool_grants d) (audit_events d).
Definition set_workers x (d : db) := MkDb (tenants d) (tasks d) (task_events d) x
  (task_attempts d) (agents d) (agent_versions d) (agent_routes d) (tools d)
  (agent_version_tool_grants d) (audit_events d).
Definition set_attempts x (d : db) := MkDb (tenants d) (tasks d) (task_events d) (workers d)
  x (agents d) (agent_versions d) (agent_routes d) (tools d)
  (agent_version_tool_grants d) (audit_events d).
Definition set_agents x (d : db) := MkDb (tenants d) (tasks d) (task_events d) (workers d)
  (task_attempts d) x (agent_versions d) (agent_routes d) (tools d)
  (agent_version_tool_grants d) (audit_events d).
Definition set_versions x (d : db) := MkDb (tenants d) (tasks d) (task_events d) (workers d)
  (task_attempts d) (agents d) x (agent_routes d) (tools d)
  (agent_version_tool_grants d) (audit_events d).
Definition set_routes x (d : db) := MkDb (tenants d) (tasks d) (task_events d) (workers d)
  (task_attempts d) (agents d) (agent_versions d) x (tools d)
  (agent_version_tool_grants d) (audit_events d).
Definition set_tools x (d : db) := MkDb (tenants d) (tasks d) (task_events d) (workers d)
  (task_attempts d) (agents d) (agent_versions d) (agent_routes d) x
  (agent_version_tool_grants d) (audit_events d).
Definition set_grants x (d : db) := MkDb (tenants d) (tasks d) (task_events d) (workers d)
  (task_attempts d) (agents d) (agent_versions d) (agent_routes d) (tools d) x (audit_events d).
Definition set_audit x (d : db) := MkDb (tenants d) (tasks d) (task_events d) (workers d)
  (task_attempts d) (agents d) (agent_versions d) (agent_routes d) (tools d)
  (agent_version_tool_grants d) x.

(** ** Assignments of an UPDATE on [tasks] *)

Inductive assign :=
  | SetState (v : state) | SetAttempt (v : Z) | SetAvailableAt (v : timestamp)
  | SetLeaseWorker (v : option text) | SetLeaseExpires (v : option timestamp)
  | SetCancelRequested (v : bool) | SetResult (v : option jdict)
  | SetErrorClass (v : option text) | SetErrorMessage (v : option text)
  | SetUpdatedAt (v : timestamp) | SetFirstStartedAt (v : option timestamp)
  | SetFinishedAt (v : option timestamp).

Definition assign1 (r : task_row) (c : assign) : task_row :=
  match c with
  | SetState v => MkTask (t_spec r) v (t_attempt r) (t_available_at r) (t_lease_worker_id r)
      (t_lease_expires_at r) (t_cancel_requested r) (t_result r) (t_error_class r)
      (t_error_message r) (t_updated_at r) (t_first_started_at r) (t_finished_at r)
  | SetAttempt v => MkTask (t_spec r) (t_state r) v (t_available_at r) (t_lease_worker_id r)
      (t_lease_expires_at r) (t_cancel_requested r) (t_result r) (t_error_class r)
      (t_error_message r) (t_updated_at r) (t_first_started_at r) (t_finished_at r)
  | SetAvailableAt v => MkTask (t_spec r) (t_state r) (t_attempt r) v (t_lease_worker_id r)
      (t_lease_expires_at r) (t_cancel_requested r) (t_result r) (t_error_class r)
      (t_error_message r) (t_updated_at r) (t_first_started_at r) (t_finished_at r)
  | SetLeaseWorker v => MkTask (t_spec r) (t_state r) (t_attempt r) (t_available_at r) v
      (t_lease_expires_at r) (t_cancel_requested r) (t_result r) (t_error_class r)
      (t_error_message r) (t_updated_at r) (t_first_started_at r) (t_finished_at r)
  | SetLeaseExpires v => MkTask (t_spec r) (t_state r) (t_attempt r) (t_available_at r)
      (t_lease_worker_id r) v (t_cancel_requested r) (t_result r) (t_error_class r)
      (t_error_message r) (t_updated_at r) (t_first_started_at r) (t_finished_at r)
  | SetCancelRequested v => MkTask (t_spec r) (t_state r) (t_attempt r) (t_available_at r)
      (t_lease_worker_id r) (t_lease_expires_at r) v (t_result r) (t_error_class r)
      (t_error_message r) (t_updated_at r) (t_first_started_at r) (t_finished_at r)
  | SetResult v => MkTask (t_spec r) (t_state r) (t_attempt r) (t_available_at r)
      (t_lease_worker_id r) (t_lease_expires_at r) (t_cancel_requested r) v (t_error_class r)
      (t_error_message r) (t_updated_at r) (t_first_started_at r) (t_finished_at r)
  | SetErrorClass v => MkTask (t_spec r) (t_state r) (t_attempt r) (t_available_at r)
      (t_lease_worker_id r) (t_lease_expires_at r) (t_cancel_requested r) (t_result r) v
      (t_error_message r) (t_updated_at r) (t_first_started_at r) (t_finished_at r)
  | SetErrorMessage v => MkTask (t_spec r) (t_state r) (t_attempt r) (t_available_at r)
      (t_lease_worker_id r) (t_lease_expires_at r) (t_cancel_requested r) (t_result r)
      (t_error_class r) v (t_updated_at r) (t_first_started_at r) (t_finished_at r)
  | SetUpdatedAt v => MkTask (t_spec r) (t_state r) (t_attempt r) (t_available_at r)
      (t_lease_worker_id r) (t_lease_expires_at r) (t_cancel_requested r) (t_result r)
      (t_error_class r) (t_error_message r) v (t_first_started_at r) (t_finished_at r)
  | SetFirstStartedAt v => MkTask (t_spec r) (t_state r) (t_attempt r) (t_available_at r)
      (t_lease_worker_id r) (t_lease_expires_at r) (t_cancel_requested r) (t_result r)
      (t_error_class r) (t_error_message r) (t_updated_at r) v (t_finished_at r)
  | SetFinishedAt v => MkTask (t_spec r) (t_state r) (t_attempt r) (t_available_at r)
      (t_lease_worker_id r) (t_lease_expires_at r) (t_cancel_requested r) (t_result r)
      (t_error_class r) (t_error_message r) (t_updated_at r) (t_first_started_at r) v
  end.

Fixpoint assigns (cs : list assign) (r : task_row) : task_row :=
  match cs with [] => r | c :: cs => assigns cs (assign1 r c) end.

Lemma assign1_spec r c : t_spec (assign1 r c) = t_spec r.
Proof. by destruct c. Qed.

Lemma assigns_spec cs r : t_spec (assigns cs r) = t_spec r.
Proof.
  revert r. induction cs as [|c cs IH]; intros r; simpl; [done|]. by rewrite IH, assign1_spec.
Qed.

(** ** Exceptions *)

Inductive exn :=
  | ExnIllegal (e : illegal_transition)
  | ValueError (message : text)
  | LookupError (message : text)
  | AssertionError (message : text)
  | PayloadMismatch (task_id : uuid)
  | AgentNotFound (agent_id : uuid)
  | NoRoute (message : text)
  | NotRoutable (message : text)
  | IntegrityError (constraint : text)
  | DataError (column : text)
  | ApiError (status_code : Z) (code message : text) (retry_after_s : option Z).

(** ** The monad *)

(** What a transaction sees besides the tables: [now()], which PostgreSQL
    fixes at the start of the transaction; the task rows other transactions
    hold locked, which SKIP LOCKED passes over; the value
    [gen_random_uuid()] returns; how the server turns a fractional number of
    seconds into microseconds; and the order it happens to give rows that an
    ORDER BY leaves equal, a rank per row that may differ between the SELECTs
    of one transaction, which differ in the rows they exclude. *)
Record txn := MkTxn {
  now : timestamp;
  locked : gset uuid;
  new_uuid : uuid;
  interval_us : Q → Z;
  tie_rank : gset uuid → uuid → Z;
}.

Definition M (A : Type) : Type := txn → db → exn + (A * db).

#[global] Instance M_ret : MRet M := λ A a t d, inr (a, d).
#[global] Instance M_bind : MBind M := λ A B f m t d,
  match m t d with inl e => inl e | inr (a, d') => f a t d' end.

Definition raise {A} (e : exn) : M A := λ _ _, inl e.
Definition ask : M txn := λ t d, inr (t, d).
Definition get : M db := λ _ d, inr (d, d).
Definition modify (f : db → db) : M unit := λ _ d, inr (tt, f d).

(** [async with transaction()]: commit on success, keep the tables on any
    exception. *)
Definition transaction {A} (m : M A) (t : txn) (d : db) : (exn + A) * db :=
  match m t d with inl e => (inl e, d) | inr (a, d') => (inr a, d') end.

(** [for x in l: body x]. *)
Fixpoint for_each {A} (l : list A) (body : A → M unit) : M unit :=
  match l with [] => mret tt | x :: l => body x ;; for_each l body end.

Lemma bind_run {A B} (m : M A) (f : A → M B) t d :
  (m ≫= f) t d = match m t d with inl e => inl e | inr (a, d') => f a t d' end.
Proof. done. Qed.

Lemma bind_ok {A B} (m : M A) (f : A → M B) t d b d' :
  (m ≫= f) t d = inr (b, d') →
  ∃ a d1, m t d = inr (a, d1) ∧ f a t d1 = inr (b, d').
Proof. rewrite bind_run. destruct (m t d) as [|[a d1]]; [done|]. eauto. Qed.

(** ** Constraints of [tasks] *)

Definition int4_max : Z := 2147483647.
Definition int2_max : Z := 32767.

(** A value an [Integer] column holds. *)
Definition fits_int4 (z : Z) : bool := (- (int4_max + 1) <=? z) && (z <=? int4_max).

(** The CHECK constraints: the first one the row violates. *)
Definition task_check (r : task_row) : option text :=
  if negb (1 <=? t_max_attempts r) then Some "ck_tasks_max_attempts"
  else if negb (1 <=? t_max_execution_time_s r) then Some "ck_tasks_max_execution_time"
  else if negb (0 <=? t_attempt r) then Some "ck_tasks_attempt_nonneg"
  else if negb (0 <=? t_priority r) then Some "ck_tasks_priority_nonneg"
  else if negb (Bool.eqb (bool_decide (t_state r = State.RUNNING))
                  (bool_decide (is_Some (t_lease_worker_id r))
                   && bool_decide (is_Some (t_lease_expires_at r))))
  then Some "ck_tasks_lease_coherence"
  else None.

(** Column widths ([Integer] and [SmallInteger]), then the constraints. *)
Definition task_error (r : task_row) : option exn :=
  if negb (t_attempt r <=? int4_max) then Some (DataError "attempt")
  else if negb (t_max_attempts r <=? int4_max) then Some (DataError "max_attempts")
  else if negb (t_max_execution_time_s r <=? int4_max) then Some (DataError "max_execution_time_s")
  else if negb (t_priority r <=? int2_max) then Some (DataError "priority")
  else IntegrityError <$> task_check r.

Lemma task_error_fits (r : task_row) : task_error r = None → fits_int4 (t_attempt r) = true.
Proof.
  unfold task_error, task_check, fits_int4. intros H.
  destruct (t_attempt r <=? int4_max) eqn:E1; simpl in H; [|done].
  rewrite andb_true_r. apply Z.leb_le. unfold int4_max.
  destruct (0 <=? t_attempt r) eqn:E2; [apply Z.leb_le in E2; lia|]. simpl in H.
  by repeat (destruct (negb _) in H; [done|]).
Qed.

(** ** Statements *)

(** [UPDATE tasks SET f WHERE id = i AND p RETURNING *], one row at most. *)
Definition update_task (i : uuid) (p : task_row → bool) (f : task_row → list assign)
    : M (option task_row) :=
  d ← get;
  match tasks d !! i with
  | Some r =>
      if p r then
        let r' := assigns (f r) r in
        match task_error r' with
        | Some e => raise e
        | None => modify (set_tasks (<[i := r']> (tasks d))) ;; mret (Some r')
        end
      else mret None
  | None => mret None
  end.

(** [UPDATE tasks SET f WHERE p RETURNING *], any number of rows. *)
Definition update_tasks (p : task_row → bool) (f : task_row → list assign)
    : M (list task_row) :=
  d ← get;
  let hit := (λ r, assigns (f r) r) <$> select p (tasks d) in
  match omap task_error hit with
  | e :: _ => raise e
  | [] => modify (set_tasks (update_where p (λ r, assigns (f r) r) (tasks d))) ;; mret hit
  end.

Lemma omap_error_nil {A} (f : task_row → option A) l :
  omap f l = [] ↔ ∀ r, r ∈ l → f r = None.
Proof.
  induction l as [|r l IH]; simpl; [split; [by intros _ ? ?%not_elem_of_nil|done]|].
  split.
  - destruct (f r) eqn:E; [done|]. intros H r' [->|Hr]%elem_of_cons; [done|]. by apply IH.
  - intros H. rewrite (H r) by (by left). apply IH. intros r' Hr. apply H. by right.
Qed.

Lemma update_tasks_run p f t d :
  (∀ r, r ∈ select p (tasks d) → task_error (assigns (f r) r) = None) →
  update_tasks p f t d =
    inr ((λ r, assigns (f r) r) <$> select p (tasks d),
         set_tasks (update_where p (λ r, assigns (f r) r) (tasks d)) d).
Proof.
  intros H. unfold update_tasks. rewrite bind_run. cbn [get].
  rewrite (proj2 (omap_error_nil _ _)); [done|].
  intros r' (r & -> & Hr)%list_elem_of_fmap. auto.
Qed.

Lemma update_tasks_inv p f t d res d' :
  update_tasks p f t d = inr (res, d') →
  res = (λ r, assigns (f r) r) <$> select p (tasks d) ∧
  d' = set_tasks (update_where p (λ r, assigns (f r) r) (tasks d)) d ∧
  ∀ r, r ∈ select p (tasks d) → task_error (assigns (f r) r) = None.
Proof.
  unfold update_tasks. rewrite bind_run. cbn [get].
  destruct (omap _ _) eqn:E; [|done]. intros [= <- <-]. split; [done|]. split; [done|].
  intros r Hr. rewrite omap_error_nil in E. apply E, list_elem_of_fmap. eauto.
Qed.

(** Loops: what each iteration does, the fold does. *)
Lemma for_each_fold {A} (l : list A) (body : A → M unit) (g : db → A → db) (I : db → Prop) t d :
  I d → (∀ x d, x ∈ l → I d → body x t d = inr (tt, g d x) ∧ I (g d x)) →
  for_each l body t d = inr (tt, foldl g d l).
Proof.
  revert d. induction l as [|x l IH]; intros d Hd Hstep; simpl; [done|].
  destruct (Hstep x d) as [Hrun HI]; [by left|done|]. rewrite bind_run, Hrun.
  apply IH; [done|]. intros y d1 Hy. apply Hstep. by right.
Qed.

Lemma foldl_keep {A B} (f : db → B) (g : db → A → db) l d :
  (∀ d x, f (g d x) = f d) → f (foldl g d l) = f d.
Proof. intros H. revert d. induction l as [|x l IH]; intros d; simpl; [done|]. by rewrite IH, H. Qed.

Lemma for_each_inv {A} (l : list A) (body : A → M unit) (g : db → A → db) t d u d' :
  (∀ x d u d', x ∈ l → body x t d = inr (u, d') → d' = g d x) →
  for_each l body t d = inr (u, d') → d' = foldl g d l.
Proof.
  revert d. induction l as [|x l IH]; intros d Hstep; simpl; [by intros [= <- <-]|].
  intros (u1 & d1 & H1 & H2)%bind_ok. apply Hstep in H1 as ->; [|by left].
  eapply IH; [|done]. intros y d2 u2 d3 Hy. apply Hstep. by right.
Qed.

(** [INSERT INTO task_events]: the foreign key to [tasks] is checked. *)
Definition insert_event (task_id : uuid) (attempt : option Z) (ty : event_type)
    (worker_id : option text) (data : jdict) : M unit :=
  d ← get; t ← ask;
  if negb (fits_int4 (default 0 attempt)) then raise (DataError "attempt")
  else
    match tasks d !! task_id with
    | None => raise (IntegrityError "task_events_task_id_fkey")
    | Some _ =>
        modify (set_events (task_events d ++
          [MkEvent (S (length (task_events d))) task_id attempt ty worker_id data (now t)]))
    end.

(** [INSERT INTO task_attempts (task_id, attempt, worker_id)]. *)
Definition insert_attempt (task_id : uuid) (attempt : Z) (worker_id : text) : M unit :=
  d ← get; t ← ask;
  if bool_decide (is_Some (task_attempts d !! (task_id, attempt)))
  then raise (IntegrityError "pk_task_attempts")
  else if bool_decide (tasks d !! task_id = None)
  then raise (IntegrityError "task_attempts_task_id_fkey")
  else if bool_decide (workers d !! worker_id = None)
  then raise (IntegrityError "task_attempts_worker_id_fkey")
  else modify (set_attempts
    (<[(task_id, attempt) :=
        MkAttempt task_id attempt worker_id (now t) None None None None]> (task_attempts d))).

(** [seconds(n)] for an integer: its microseconds. *)
Definition seconds (n : Z) : Z := n * second.

(** An interval holds its microseconds in 64 bits. *)
Definition interval_fits (us : Z) : bool := bool_decide (- 2 ^ 63 ≤ us < 2 ^ 63).

(** [seconds(n)] for an integer setting, which has no upper bound.  (The
    seconds of an [Integer] column always fit.) *)
Definition int_seconds (n : Z) : M Z :=
  if interval_fits (seconds n) then mret (seconds n) else raise (DataError "interval").

(** [seconds(q)] for a float. *)
Definition float_seconds (q : Q) : M Z :=
  t ← ask;
  if interval_fits (interval_us t q) then mret (interval_us t q) else raise (DataError "interval").

(** The driver makes a [datetime] of a column a statement returns, and raises
    outside the years 1 to 9999; the session's time zone is UTC.  Instants the
    server's clock gives are taken to be inside; those computed from a delay
    or sent by a client are checked where they enter a row. *)
Definition loadable (x : timestamp) : bool := bool_decide (datetime_range x).

Definition load_timestamp (x : timestamp) : M unit :=
  if loadable x then mret tt else raise (DataError "timestamp").

(** A lease of [ttl] seconds granted at [t] is a date the driver can load. *)
Definition ttl_fits (t : txn) (ttl : Z) : bool :=
  interval_fits (seconds ttl) && loadable (now t + seconds ttl).

Lemma ttl_fits_spec t ttl :
  ttl_fits t ttl = true ↔
  interval_fits (seconds ttl) = true ∧ loadable (now t + seconds ttl) = true.
Proof. apply andb_true_iff. Qed.

(** [LIMIT n]: a negative count is an error, and the driver sends 64 bits. *)
Definition limit_fits (n : Z) : bool := bool_decide (0 ≤ n < 2 ^ 63).

Definition limit_rows (n : Z) : M nat :=
  if limit_fits n then mret (Z.to_nat n) else raise (DataError "limit").

(** ** SQL comparisons with NULL: false unless both sides are present *)

Definition sql_lt (a : option timestamp) (b : timestamp) : bool :=
  match a with Some x => x <? b | None => false end.
Definition sql_gt (a : option timestamp) (b : timestamp) : bool :=
  match a with Some x => b <? x | None => false end.
Definition sql_eq {A} `{EqDecision A} (a : option A) (b : A) : bool := bool_decide (a = Some b).
