(* ===== verification/Schema.v ===== *)
(** * Relational schemas and DDL (the operations of alembic's [op])

    A schema is what PostgreSQL's catalog holds of the program: enums,
    tables with their columns and constraints, indexes, trigger functions.
    [apply_op] is one operation of a migration, with the errors the server
    raises for a missing or duplicate object and for one others depend on.

    [conforms] says what the server guarantees of the rows under a schema:
    every value fits its column, and every key, foreign key, CHECK and unique
    index holds.  Conditions have SQL's three truth values. *)

From S2P Require Import Prelude PyStr Json Db.

(** ** Types and values *)

Inductive sql_type :=
  | UUID | Text | Integer | SmallInteger | BigInteger | Boolean | TIMESTAMP | JSONB
  | ARRAY_Text | ENUM (name : text).

(** A value of an enum is its label. *)
Inductive value :=
  | VNull
  | VUuid (u : uuid)
  | VText (s : text)
  | VInt (z : Z)
  | VBool (b : bool)
  | VTime (x : timestamp)
  | VJson (d : jdict)
  | VTexts (l : list text).

#[global] Instance sql_type_eq_dec : EqDecision sql_type.
Proof. solve_decision. Defined.
#[global] Instance value_eq_dec : EqDecision value.
Proof. solve_decision. Defined.

Definition is_null (v : value) : bool := match v with VNull => true | _ => false end.

(** A row: its columns with their values. *)
Abbreviation row := (list (text * value)).

Definition cell (r : row) (c : text) : value :=
  match List.find (λ x : text * value, String.eqb x.1 c) r with Some x => x.2 | None => VNull end.

(** ** Conditions of CHECK constraints and partial indexes *)

Inductive cond :=
  | AtLeast (c : text) (n : Z)
  | Is (c : text) (s : text)
  | IsNot (c : text) (s : text)
  | OneOf (c : text) (l : list text)
  | NotNull (c : text)
  | And (a b : cond)
  | Iff (a b : cond).

(** The text the source writes. *)
Definition quoted (s : text) : text := "'" +:+ s +:+ "'".

Fixpoint cond_sql (p : cond) : text :=
  match p with
  | AtLeast c n => c +:+ " >= " +:+ pretty n
  | Is c s => c +:+ " = " +:+ quoted s
  | IsNot c s => c +:+ " <> " +:+ quoted s
  | OneOf c l => c +:+ " IN (" +:+ join ", " (quoted <$> l) +:+ ")"
  | NotNull c => c +:+ " IS NOT NULL"
  | And a b => cond_sql a +:+ " AND " +:+ cond_sql b
  | Iff a b => "(" +:+ cond_sql a +:+ ") = (" +:+ cond_sql b +:+ ")"
  end.

Fixpoint cond_columns (p : cond) : list text :=
  match p with
  | AtLeast c _ | Is c _ | IsNot c _ | OneOf c _ | NotNull c => [c]
  | And a b | Iff a b => cond_columns a ++ cond_columns b
  end.

(** Unknown is [None]. *)
Definition on_text (v : value) (p : text → bool) : option bool :=
  match v with VText s => Some (p s) | _ => None end.

Fixpoint holds (p : cond) (r : row) : option bool :=
  match p with
  | AtLeast c n => match cell r c with VInt z => Some (n <=? z) | _ => None end
  | Is c s => on_text (cell r c) (λ x, bool_decide (x = s))
  | IsNot c s => on_text (cell r c) (λ x, negb (bool_decide (x = s)))
  | OneOf c l => on_text (cell r c) (λ x, bool_decide (x ∈ l))
  | NotNull c => Some (negb (is_null (cell r c)))
  | And a b =>
      match holds a r, holds b r with
      | Some false, _ | _, Some false => Some false
      | Some true, Some true => Some true
      | _, _ => None
      end
  | Iff a b =>
      match holds a r, holds b r with
      | Some x, Some y => Some (Bool.eqb x y)
      | _, _ => None
      end
  end.

(** ** Tables *)

Inductive action := NO_ACTION | RESTRICT | CASCADE.

(** [server_default="s"], [server_default=sa.text("s")], or the sequence of
    a BIGSERIAL column. *)
Inductive default_value := Literal (s : text) | Expression (s : text) | Sequence.

Record column := MkColumn {
  col_type : sql_type;
  col_nullable : bool;
  col_default : option default_value;
}.

Inductive table_constraint :=
  | PrimaryKey (columns : list text)
  | Unique (columns : list text)
  | ForeignKey (columns : list text) (target : text) (target_columns : list text) (ondelete : action)
  | Check (condition : cond).

Record table := MkTable {
  columns : gmap text column;
  constraints : gmap text table_constraint;
  triggers : gmap text text;      (* BEFORE UPDATE .. EXECUTE FUNCTION *)
}.

Inductive index_column := Asc (c : text) | Desc (c : text).

Definition index_column_name (x : index_column) : text := match x with Asc c | Desc c => c end.

Record index := MkIndex {
  ix_table : text;
  ix_columns : list index_column;
  ix_unique : bool;
  ix_where : option cond;
}.

(** A trigger function of this program rejects an UPDATE that changes one of
    some columns; it is the list of them. *)
Record schema := MkSchema {
  extensions : gset text;
  enums : gmap text (list text);
  tables : gmap text table;
  indexes : gmap text index;
  functions : gmap text (list text);
}.

Definition empty_schema : schema := MkSchema ∅ ∅ ∅ ∅ ∅.

#[global] Instance cond_eq_dec : EqDecision cond.
Proof. solve_decision. Defined.
#[global] Instance action_eq_dec : EqDecision action.
Proof. solve_decision. Defined.
#[global] Instance default_value_eq_dec : EqDecision default_value.
Proof. solve_decision. Defined.
#[global] Instance column_eq_dec : EqDecision column.
Proof. solve_decision. Defined.
#[global] Instance table_constraint_eq_dec : EqDecision table_constraint.
Proof. solve_decision. Defined.
#[global] Instance table_eq_dec : EqDecision table.
Proof. solve_decision. Defined.
#[global] Instance index_column_eq_dec : EqDecision index_column.
Proof. solve_decision. Defined.
#[global] Instance index_eq_dec : EqDecision index.
Proof. solve_decision. Defined.
#[global] Instance schema_eq_dec : EqDecision schema.
Proof. solve_decision. Defined.

Definition set_extensions x (s : schema) := MkSchema x (enums s) (tables s) (indexes s) (functions s).
Definition set_enums x (s : schema) := MkSchema (extensions s) x (tables s) (indexes s) (functions s).
Definition set_table_map x (s : schema) :=
  MkSchema (extensions s) (enums s) x (indexes s) (functions s).
Definition set_indexes x (s : schema) := MkSchema (extensions s) (enums s) (tables s) x (functions s).
Definition set_functions x (s : schema) := MkSchema (extensions s) (enums s) (tables s) (indexes s) x.

(** ** What a migration writes *)

(** The options of [sa.Column]. *)
Inductive column_option :=
  | primary_key
  | autoincrement
  | not_null                             (* nullable=False *)
  | unique
  | server_default (v : default_value)
  | references (target target_column : text) (ondelete : action).

#[global] Instance column_option_eq_dec : EqDecision column_option.
Proof. solve_decision. Defined.

Abbreviation column_def := (text * sql_type * list column_option)%type.
Abbreviation constraint_def := (text * table_constraint)%type.

Inductive op :=
  | create_extension (name : text)
  | create_type (name : text) (labels : list text)
  | drop_type (name : text)
  | create_table (name : text) (cols : list column_def) (checks : list constraint_def)
  | drop_table (name : text)
  | create_index (name tbl : text) (cols : list index_column) (uniq : bool) (where_ : option cond)
  | drop_index (name tbl : text)
  | add_column (tbl : text) (c : column_def)
  | drop_column (tbl : text) (name : text)
  | create_constraint (tbl : text) (c : constraint_def)
  | drop_constraint (name tbl : text)
  | create_function (name : text) (frozen : list text)
  | drop_function (name : text)
  | create_trigger (name tbl fn : text)
  | drop_trigger (name tbl : text).

(** ** The objects a definition makes *)

Definition column_of (d : column_def) : column :=
  let '(_, ty, opts) := d in
  MkColumn ty (negb (bool_decide (not_null ∈ opts) || bool_decide (primary_key ∈ opts)))
    (head (omap (λ o, match o with
            | server_default v => Some v
            | autoincrement => Some Sequence
            | _ => None
            end) opts)).

(** The constraints written inside a column get the server's names. *)
Definition option_constraint (tbl c : text) (o : column_option) : option constraint_def :=
  match o with
  | primary_key => Some (tbl +:+ "_pkey", PrimaryKey [c])
  | unique => Some (tbl +:+ "_" +:+ c +:+ "_key", Unique [c])
  | references t tc a => Some (tbl +:+ "_" +:+ c +:+ "_fkey", ForeignKey [c] t [tc] a)
  | _ => None
  end.

Definition column_constraints (tbl : text) (d : column_def) : list constraint_def :=
  let '(c, _, opts) := d in omap (option_constraint tbl c) opts.

Definition column_name (d : column_def) : text := d.1.1.

(** PRIMARY KEY makes its columns NOT NULL. *)
Definition key_columns (checks : list constraint_def) : list text :=
  mjoin (omap (λ c : constraint_def, match c.2 with PrimaryKey cs => Some cs | _ => None end) checks).

Definition table_of (name : text) (cols : list column_def) (checks : list constraint_def) : table :=
  let all := mjoin (column_constraints name <$> cols) ++ checks in
  MkTable
    (list_to_map ((λ d, (column_name d,
       if bool_decide (column_name d ∈ key_columns checks)
       then MkColumn (col_type (column_of d)) false (col_default (column_of d))
       else column_of d)) <$> cols))
    (list_to_map all) ∅.

(** ** Dependencies *)

Definition constraint_columns (c : table_constraint) : list text :=
  match c with
  | PrimaryKey cs | Unique cs | ForeignKey cs _ _ _ => cs
  | Check p => cond_columns p
  end.

(** Constraint [c] is a foreign key to table [t]. *)
Definition targets (t : text) (c : table_constraint) : bool :=
  match c with ForeignKey _ t' _ _ => bool_decide (t' = t) | _ => false end.

(** Constraint [c] refers to columns [p] of table [t]. *)
Definition refers (t : text) (p : list text → bool) (c : table_constraint) : bool :=
  match c with ForeignKey _ t' cs _ => bool_decide (t' = t) && p cs | _ => false end.

(** Some constraint of a table named as [on] says satisfies [p]. *)
Definition some_constraint (on : text → bool) (p : table_constraint → bool) (s : schema) : bool :=
  existsb (λ x : text * table, on x.1 && existsb (λ y, p y.2) (map_to_list (constraints x.2)))
    (map_to_list (tables s)).

Definition referenced (s : schema) (t : text) : bool :=
  some_constraint (λ n, negb (bool_decide (n = t))) (targets t) s.

(** Some foreign key of the schema needs the key [cs] of table [t]. *)
Definition key_needed (s : schema) (t : text) (cs : list text) : bool :=
  some_constraint (λ _, true) (refers t (λ cs', bool_decide (cs' = cs))) s.

Definition column_needed (s : schema) (t c : text) : bool :=
  some_constraint (λ _, true) (refers t (λ cs, bool_decide (c ∈ cs))) s.

(** [cs] is a key of [t]: what a foreign key may refer to. *)
Definition is_key (t : table) (cs : list text) : bool :=
  existsb (λ x : text * table_constraint,
    bool_decide (x.2 = PrimaryKey cs) || bool_decide (x.2 = Unique cs)) (map_to_list (constraints t)).

Definition type_known (s : schema) (ty : sql_type) : bool :=
  match ty with ENUM n => bool_decide (is_Some (enums s !! n)) | _ => true end.

Definition has_columns (t : table) (cs : list text) : bool :=
  forallb (λ c, bool_decide (is_Some (columns t !! c))) cs.

(** A constraint that can be added to table [t] of [s]. *)
Definition constraint_ok (s : schema) (t : table) (c : table_constraint) : bool :=
  has_columns t (constraint_columns c) &&
  match c with
  | ForeignKey cs t' cs' _ =>
      (length cs =? length cs')%nat &&
      match tables s !! t' with Some tb => is_key tb cs' | None => false end
  | _ => true
  end.

(** ** One operation *)

Inductive ddl_error :=
  | Duplicate (what name : text)
  | Undefined (what name : text)
  | Dependent (what name : text)
  | Invalid (what name : text).

Abbreviation result A := (ddl_error + A)%type.

#[global] Instance result_bind : MBind (sum ddl_error) := λ A B f x,
  match x with inl e => inl e | inr a => f a end.
#[global] Instance result_ret : MRet (sum ddl_error) := λ A a, inr a.

Definition guard_that (b : bool) (e : ddl_error) : result unit := if b then inr tt else inl e.

Definition the {A} (what name : text) (m : gmap text A) : result A :=
  match m !! name with Some a => inr a | None => inl (Undefined what name) end.
Definition fresh {A} (what name : text) (m : gmap text A) : result unit :=
  guard_that (bool_decide (m !! name = None)) (Duplicate what name).

Definition with_constraints (f : gmap text table_constraint → gmap text table_constraint)
    (t : table) : table := MkTable (columns t) (f (constraints t)) (triggers t).
Definition with_triggers (f : gmap text text → gmap text text) (t : table) : table :=
  MkTable (columns t) (constraints t) (f (triggers t)).
Definition set_table (n : text) (t : table) (s : schema) : schema :=
  set_table_map (<[n := t]> (tables s)) s.

(** An index over, or a condition on, column [c] of table [t]. *)
Definition index_uses (t c : text) (ix : index) : bool :=
  bool_decide (ix_table ix = t) &&
  bool_decide (c ∈ (index_column_name <$> ix_columns ix) ++ default [] (cond_columns <$> ix_where ix)).

Definition apply_op (o : op) (s : schema) : result schema :=
  match o with
  | create_extension n => inr (set_extensions ({[n]} ∪ extensions s) s)     (* IF NOT EXISTS *)
  | create_type n ls => fresh "type" n (enums s);; inr (set_enums (<[n := ls]> (enums s)) s)
  | drop_type n =>
      the "type" n (enums s);;
      guard_that (bool_decide (map_Forall (λ _ t, map_Forall (λ _ c, col_type c ≠ ENUM n) (columns t))
                    (tables s))) (Dependent "type" n);;
      inr (set_enums (delete n (enums s)) s)
  | create_table n cols checks =>
      fresh "relation" n (tables s);; fresh "relation" n (indexes s);;
      guard_that (bool_decide (NoDup (column_name <$> cols))) (Duplicate "column" n);;
      guard_that (forallb (λ d, type_known s (d.1.2)) cols) (Undefined "type" n);;
      let all := mjoin (column_constraints n <$> cols) ++ checks in
      guard_that (bool_decide (NoDup all.*1)) (Duplicate "constraint" n);;
      let t := table_of n cols checks in
      guard_that (forallb (λ c, constraint_ok s t c.2) all) (Invalid "constraint" n);;
      inr (set_table n t s)
  | drop_table n =>
      the "relation" n (tables s);;
      guard_that (negb (referenced s n)) (Dependent "relation" n);;
      inr (set_indexes (filter (λ x, ix_table x.2 ≠ n) (indexes s))
            (set_table_map (delete n (tables s)) s))
  | create_index n tn cols u w =>
      fresh "relation" n (indexes s);; fresh "relation" n (tables s);;
      t ← the "relation" tn (tables s);
      guard_that (has_columns t ((index_column_name <$> cols) ++ default [] (cond_columns <$> w)))
        (Undefined "column" n);;
      inr (set_indexes (<[n := MkIndex tn cols u w]> (indexes s)) s)
  | drop_index n _ =>             (* PostgreSQL needs no table name here *)
      the "index" n (indexes s);;
      inr (set_indexes (delete n (indexes s)) s)
  | add_column tn d =>
      t ← the "relation" tn (tables s);
      fresh "column" (column_name d) (columns t);;
      guard_that (type_known s d.1.2) (Undefined "type" tn);;
      guard_that (bool_decide (column_constraints tn d = [])) (Invalid "constraint" tn);;
      inr (set_table tn (MkTable (<[column_name d := column_of d]> (columns t)) (constraints t)
                           (triggers t)) s)
  | drop_column tn c =>
      t ← the "relation" tn (tables s);
      the "column" c (columns t);;
      guard_that (negb (column_needed s tn c)) (Dependent "column" c);;
      inr (set_indexes (filter (λ x, index_uses tn c x.2 = false) (indexes s))
            (set_table tn (MkTable (delete c (columns t))
               (filter (λ x, c ∉ constraint_columns x.2) (constraints t)) (triggers t)) s))
  | create_constraint tn (n, c) =>
      t ← the "relation" tn (tables s);
      fresh "constraint" n (constraints t);;
      guard_that (constraint_ok s t c) (Invalid "constraint" n);;
      inr (set_table tn (with_constraints (insert n c) t) s)
  | drop_constraint n tn =>
      t ← the "relation" tn (tables s);
      c ← the "constraint" n (constraints t);
      guard_that (match c with PrimaryKey cs | Unique cs => negb (key_needed s tn cs) | _ => true end)
        (Dependent "constraint" n);;
      inr (set_table tn (with_constraints (delete n) t) s)
  | create_function n frozen =>
      fresh "function" n (functions s);; inr (set_functions (<[n := frozen]> (functions s)) s)
  | drop_function n =>
      the "function" n (functions s);;
      guard_that (bool_decide (map_Forall (λ _ t, map_Forall (λ _ fn, fn ≠ n) (triggers t)) (tables s)))
        (Dependent "function" n);;
      inr (set_functions (delete n (functions s)) s)
  | create_trigger n tn fn =>
      t ← the "relation" tn (tables s);
      fresh "trigger" n (triggers t);; the "function" fn (functions s);;
      inr (set_table tn (with_triggers (insert n fn) t) s)
  | drop_trigger n tn =>
      t ← the "relation" tn (tables s); the "trigger" n (triggers t);;
      inr (set_table tn (with_triggers (delete n) t) s)
  end.

(** A migration's operations, in order; the first error aborts it. *)
Fixpoint apply_ops (ops : list op) (s : schema) : result schema :=
  match ops with [] => inr s | o :: ops => s' ← apply_op o s; apply_ops ops s' end.

(** ** What the server guarantees of the rows *)

Definition fits_int2 (z : Z) : bool := (- (int2_max + 1) <=? z) && (z <=? int2_max).
Definition fits_int8 (z : Z) : bool := bool_decide (- 2 ^ 63 ≤ z < 2 ^ 63).

Definition fits (labels : gmap text (list text)) (ty : sql_type) (v : value) : bool :=
  match ty, v with
  | _, VNull => true
  | UUID, VUuid _ | Text, VText _ | Boolean, VBool _ | TIMESTAMP, VTime _ | JSONB, VJson _
  | ARRAY_Text, VTexts _ => true
  | Integer, VInt z => fits_int4 z
  | SmallInteger, VInt z => fits_int2 z
  | BigInteger, VInt z => fits_int8 z
  | ENUM n, VText s => bool_decide (s ∈ default [] (labels !! n))
  | _, _ => false
  end.

Definition column_ok (labels : gmap text (list text)) (c : column) (v : value) : bool :=
  fits labels (col_type c) v && (col_nullable c || negb (is_null v)).

(** A row of table [t]: its columns and no others, each with a value that fits. *)
Definition row_ok (labels : gmap text (list text)) (t : table) (r : row) : Prop :=
  NoDup r.*1 ∧ (list_to_set r.*1 : gset text) = dom (columns t) ∧
  map_Forall (λ c col, column_ok labels col (cell r c) = true) (columns t).

Definition key (cs : list text) (r : row) : list value := cell r <$> cs.
Definition total (k : list value) : bool := forallb (λ v, negb (is_null v)) k.

(** No two rows have the same key; a key with a NULL equals none. *)
Definition unique_on (cs : list text) (rs : list row) : Prop :=
  NoDup (filter (λ k, total k = true) (key cs <$> rs)).

(** The rows of each table. *)
Abbreviation data := (text → list row).

Definition constraint_holds (dt : data) (rs : list row) (c : table_constraint) : Prop :=
  match c with
  | PrimaryKey cs => unique_on cs rs ∧ ∀ r, r ∈ rs → total (key cs r) = true
  | Unique cs => unique_on cs rs
  | ForeignKey cs t cs' _ =>                    (* MATCH SIMPLE *)
      ∀ r, r ∈ rs → total (key cs r) = true →
        ∃ r', r' ∈ dt t ∧ key cs' r' = key cs r
  | Check p => ∀ r, r ∈ rs → holds p r ≠ Some false
  end.

(** The rows a partial index has. *)
Definition indexed (w : option cond) (rs : list row) : list row :=
  match w with Some p => filter (λ r, holds p r = Some true) rs | None => rs end.

Record conforms (s : schema) (dt : data) : Prop := {
  cf_tables : ∀ n, tables s !! n = None → dt n = [];
  cf_rows : map_Forall (λ n t, Forall (row_ok (enums s) t) (dt n)) (tables s);
  cf_constraints :
    map_Forall (λ n t, map_Forall (λ _ c, constraint_holds dt (dt n) c) (constraints t)) (tables s);
  cf_indexes :
    map_Forall (λ _ ix, ix_unique ix = true →
      unique_on (index_column_name <$> ix_columns ix) (indexed (ix_where ix) (dt (ix_table ix))))
      (indexes s);
}.

(** BEFORE UPDATE: some trigger's function rejects a change of a column it
    freezes. *)
Definition update_allowed (s : schema) (t : table) (old new : row) : bool :=
  forallb (λ fn : text * text,
    forallb (λ c, bool_decide (cell new c = cell old c)) (default [] (functions s !! fn.2)))
    (map_to_list (triggers t)).
