(* ===== verification/Migrations.v ===== *)
(** * Migrations (migrations/versions, migrations/env.py) and metadata (db/models.py)

    The nine revisions as lists of DDL operations, in the order of the
    source, and the chain alembic follows through [down_revision].  The
    tables of [metadata] are given the same way, so that the schema the
    migrations leave can be compared with the one the queries are written
    against. *)

From S2P Require Import Prelude PyStr Json Db Schema.
#[local] Open Scope Z_scope.

(** Spellings of the source. *)
Definition TS : sql_type := TIMESTAMP.
Definition str (s : text) : column_option := server_default (Literal s).
Definition sql (s : text) : column_option := server_default (Expression s).

(** The conditions written as SQL text. *)
Definition is_queued : cond := Is "state" "QUEUED".
Definition is_running_sql : cond := Is "state" "RUNNING".
Definition lease_coherence : cond :=
  Iff (Is "state" "RUNNING") (And (NotNull "lease_worker_id") (NotNull "lease_expires_at")).

(** ** 0001: tenants, tasks, task_events *)

Definition task_state_labels : list text := ["QUEUED"; "RUNNING"; "SUCCEEDED"; "FAILED"; "CANCELLED"].

Definition tenants_0001 : op :=
  create_table "tenants"
    [("id", UUID, [primary_key; sql "gen_random_uuid()"]);
     ("name", Text, [not_null; unique]);
     ("max_concurrent_tasks", Integer, [not_null; str "10"]);
     ("max_queued_tasks", Integer, [not_null; str "1000"]);
     ("priority_weight", Integer, [not_null; str "1"]);
     ("created_at", TS, [not_null; sql "now()"])] [].

Definition tasks_0001 : op :=
  create_table "tasks"
    [("id", UUID, [primary_key; sql "gen_random_uuid()"]);
     ("tenant_id", UUID, [references "tenants" "id" RESTRICT; not_null]);
     ("task_type", Text, [not_null]);
     ("payload", JSONB, [not_null; sql "'{}'::jsonb"]);
     ("idempotency_key", Text, []);
     ("priority", SmallInteger, [not_null; str "100"]);
     ("state", ENUM "task_state", [not_null; str "QUEUED"]);
     ("attempt", Integer, [not_null; str "0"]);
     ("max_attempts", Integer, [not_null; str "3"]);
     ("available_at", TS, [not_null; sql "now()"]);
     ("lease_worker_id", Text, []);
     ("lease_expires_at", TS, []);
     ("cancel_requested", Boolean, [not_null; sql "false"]);
     ("result", JSONB, []);
     ("error_class", Text, []);
     ("error_message", Text, []);
     ("created_at", TS, [not_null; sql "now()"]);
     ("updated_at", TS, [not_null; sql "now()"]);
     ("first_started_at", TS, []);
     ("finished_at", TS, [])]
    [("ck_tasks_max_attempts", Check (AtLeast "max_attempts" 1));
     ("ck_tasks_attempt_nonneg", Check (AtLeast "attempt" 0));
     ("ck_tasks_priority_nonneg", Check (AtLeast "priority" 0));
     ("ck_tasks_lease_coherence", Check lease_coherence)].

Definition task_events_0001 : op :=
  create_table "task_events"
    [("id", BigInteger, [primary_key; autoincrement]);
     ("task_id", UUID, [references "tasks" "id" CASCADE; not_null]);
     ("attempt", Integer, []);
     ("event_type", Text, [not_null]);
     ("worker_id", Text, []);
     ("data", JSONB, [not_null; sql "'{}'::jsonb"]);
     ("created_at", TS, [not_null; sql "now()"])] [].

Definition upgrade_0001 : list op :=
  [create_extension "pgcrypto";
   create_type "task_state" task_state_labels;
   tenants_0001;
   tasks_0001;
   create_index "idx_tasks_idem" "tasks" [Asc "tenant_id"; Asc "idempotency_key"] true
     (Some (NotNull "idempotency_key"));
   task_events_0001;
   create_index "idx_events_task" "task_events" [Asc "task_id"; Asc "id"] false None].

Definition downgrade_0001 : list op :=
  [drop_table "task_events";
   drop_index "idx_tasks_idem" "tasks";
   drop_table "tasks";
   drop_table "tenants";
   drop_type "task_state"].

(** ** 0002: the listing *)

Definition upgrade_0002 : list op :=
  [create_index "idx_tasks_tenant_created" "tasks" [Asc "tenant_id"; Desc "created_at"; Desc "id"]
     false None].
Definition downgrade_0002 : list op := [drop_index "idx_tasks_tenant_created" "tasks"].

(** ** 0003: workers and attempts *)

Definition workers_0003 : op :=
  create_table "workers"
    [("id", Text, [primary_key]);
     ("hostname", Text, [not_null]);
     ("pid", Integer, [not_null]);
     ("capacity", Integer, [not_null]);
     ("capabilities", ARRAY_Text, [not_null; sql "'{}'::text[]"]);
     ("status", ENUM "worker_status", [not_null; str "ALIVE"]);
     ("registered_at", TS, [not_null; sql "now()"]);
     ("last_heartbeat_at", TS, [not_null; sql "now()"])]
    [("ck_workers_capacity", Check (AtLeast "capacity" 1))].

Definition task_attempts_0003 : op :=
  create_table "task_attempts"
    [("task_id", UUID, [references "tasks" "id" CASCADE; not_null]);
     ("attempt", Integer, [not_null]);
     ("worker_id", Text, [references "workers" "id" RESTRICT; not_null]);
     ("started_at", TS, [not_null; sql "now()"]);
     ("finished_at", TS, []);
     ("outcome", ENUM "attempt_outcome", []);
     ("error_class", Text, []);
     ("error_message", Text, [])]
    [("pk_task_attempts", PrimaryKey ["task_id"; "attempt"])].

Definition upgrade_0003 : list op :=
  [create_type "worker_status" ["ALIVE"; "DRAINING"; "DEAD"];
   create_type "attempt_outcome" ["SUCCEEDED"; "FAILED"; "LOST"; "ABANDONED"; "CANCELLED"];
   workers_0003;
   task_attempts_0003;
   create_index "idx_tasks_ready" "tasks" [Asc "priority"; Asc "available_at"; Asc "id"] false
     (Some is_queued)].

Definition downgrade_0003 : list op :=
  [drop_index "idx_tasks_ready" "tasks";
   drop_table "task_attempts";
   drop_table "workers";
   drop_type "attempt_outcome";
   drop_type "worker_status"].

(** ** 0004, 0005: the reaper's scans and the concurrency count *)

Definition upgrade_0004 : list op :=
  [create_index "idx_tasks_lease_expiry" "tasks" [Asc "lease_expires_at"] false (Some is_running_sql);
   create_index "idx_workers_heartbeat" "workers" [Asc "last_heartbeat_at"] false
     (Some (IsNot "status" "DEAD"))].
Definition downgrade_0004 : list op :=
  [drop_index "idx_workers_heartbeat" "workers"; drop_index "idx_tasks_lease_expiry" "tasks"].

Definition upgrade_0005 : list op :=
  [create_index "idx_tasks_tenant_running" "tasks" [Asc "tenant_id"] false (Some is_running_sql)].
Definition downgrade_0005 : list op := [drop_index "idx_tasks_tenant_running" "tasks"].

(** ** 0006: the agent registry *)

Definition agents_0006 : op :=
  create_table "agents"
    [("id", UUID, [primary_key; sql "gen_random_uuid()"]);
     ("tenant_id", UUID, [references "tenants" "id" RESTRICT; not_null]);
     ("name", Text, [not_null]);
     ("description", Text, []);
     ("status", ENUM "agent_status", [not_null; str "ACTIVE"]);
     ("default_version_id", UUID, []);
     ("created_at", TS, [not_null; sql "now()"]);
     ("updated_at", TS, [not_null; sql "now()"])]
    [("uq_agents_tenant_name", Unique ["tenant_id"; "name"])].

Definition agent_versions_0006 : op :=
  create_table "agent_versions"
    [("id", UUID, [primary_key; sql "gen_random_uuid()"]);
     ("agent_id", UUID, [references "agents" "id" RESTRICT; not_null]);
     ("version", Integer, [not_null]);
     ("runtime_spec", JSONB, [not_null; sql "'{}'::jsonb"]);
     ("required_capabilities", ARRAY_Text, [not_null; sql "'{}'::text[]"]);
     ("config", JSONB, [not_null; sql "'{}'::jsonb"]);
     ("max_attempts", Integer, [not_null; str "3"]);
     ("max_execution_time_s", Integer, [not_null; str "300"]);
     ("status", ENUM "version_status", [not_null; str "DRAFT"]);
     ("created_at", TS, [not_null; sql "now()"])]
    [("uq_agent_versions_agent_version", Unique ["agent_id"; "version"]);
     ("ck_agent_versions_version", Check (AtLeast "version" 1));
     ("ck_agent_versions_max_attempts", Check (AtLeast "max_attempts" 1));
     ("ck_agent_versions_max_execution_time", Check (AtLeast "max_execution_time_s" 1))].

(** [acp_agent_versions_immutable]: the columns compared. *)
Definition frozen_columns : list text :=
  ["agent_id"; "version"; "runtime_spec"; "required_capabilities"; "config"; "max_attempts";
   "max_execution_time_s"].

Definition agent_routes_0006 : op :=
  create_table "agent_routes"
    [("tenant_id", UUID, [references "tenants" "id" CASCADE; not_null]);
     ("request_type", Text, [not_null]);
     ("agent_id", UUID, [references "agents" "id" RESTRICT; not_null]);
     ("created_at", TS, [not_null; sql "now()"])]
    [("pk_agent_routes", PrimaryKey ["tenant_id"; "request_type"])].

Definition upgrade_0006 : list op :=
  [create_type "agent_status" ["ACTIVE"; "DEPRECATED"; "DISABLED"];
   create_type "version_status" ["DRAFT"; "ACTIVE"; "DEPRECATED"; "DISABLED"];
   agents_0006;
   agent_versions_0006;
   create_constraint "agents"
     ("fk_agents_default_version", ForeignKey ["default_version_id"] "agent_versions" ["id"] RESTRICT);
   create_function "acp_agent_versions_immutable" frozen_columns;
   create_trigger "trg_agent_versions_immutable" "agent_versions" "acp_agent_versions_immutable";
   agent_routes_0006;
   add_column "tasks" ("agent_version_id", UUID, []);
   create_constraint "tasks"
     ("fk_tasks_agent_version", ForeignKey ["agent_version_id"] "agent_versions" ["id"] RESTRICT);
   add_column "tasks" ("required_capabilities", ARRAY_Text, [not_null; sql "'{}'::text[]"]);
   add_column "tasks" ("capability_key", Text, [not_null; str ""]);
   create_index "idx_tasks_agent_version_active" "tasks" [Asc "agent_version_id"] false
     (Some (OneOf "state" ["QUEUED"; "RUNNING"]))].

Definition downgrade_0006 : list op :=
  [drop_index "idx_tasks_agent_version_active" "tasks";
   drop_constraint "fk_tasks_agent_version" "tasks";
   drop_column "tasks" "capability_key";
   drop_column "tasks" "required_capabilities";
   drop_column "tasks" "agent_version_id";
   drop_table "agent_routes";
   drop_trigger "trg_agent_versions_immutable" "agent_versions";
   drop_function "acp_agent_versions_immutable";
   drop_constraint "fk_agents_default_version" "agents";
   drop_table "agent_versions";
   drop_table "agents";
   drop_type "version_status";
   drop_type "agent_status"].

(** ** 0007: tools, grants, audit *)

Definition tools_0007 : op :=
  create_table "tools"
    [("id", UUID, [primary_key; sql "gen_random_uuid()"]);
     ("tenant_id", UUID, [references "tenants" "id" RESTRICT; not_null]);
     ("name", Text, [not_null]);
     ("description", Text, []);
     ("tool_type", Text, [not_null; str "SIMULATED"]);
     ("config", JSONB, [not_null; sql "'{}'::jsonb"]);
     ("status", ENUM "tool_status", [not_null; str "ACTIVE"]);
     ("created_at", TS, [not_null; sql "now()"])]
    [("uq_tools_tenant_name", Unique ["tenant_id"; "name"]);
     ("ck_tools_type", Check (OneOf "tool_type" ["SIMULATED"; "HTTP"]))].

Definition grants_0007 : op :=
  create_table "agent_version_tool_grants"
    [("agent_version_id", UUID, [references "agent_versions" "id" CASCADE; not_null]);
     ("tool_id", UUID, [references "tools" "id" RESTRICT; not_null]);
     ("created_at", TS, [not_null; sql "now()"])]
    [("pk_agent_version_tool_grants", PrimaryKey ["agent_version_id"; "tool_id"])].

Definition audit_events_0007 : op :=
  create_table "audit_events"
    [("id", BigInteger, [primary_key; autoincrement]);
     ("tenant_id", UUID, [not_null]);
     ("actor", Text, [not_null; str "system"]);
     ("action", Text, [not_null]);
     ("resource_type", Text, [not_null]);
     ("resource_id", UUID, []);
     ("outcome", Text, [not_null]);
     ("data", JSONB, [not_null; sql "'{}'::jsonb"]);
     ("created_at", TS, [not_null; sql "now()"])] [].

Definition upgrade_0007 : list op :=
  [create_type "tool_status" ["ACTIVE"; "DISABLED"];
   tools_0007;
   grants_0007;
   create_index "idx_grants_by_tool" "agent_version_tool_grants"
     [Asc "tool_id"; Asc "agent_version_id"] false None;
   audit_events_0007;
   create_index "idx_audit_tenant_time" "audit_events" [Asc "tenant_id"; Desc "created_at"] false None;
   create_index "idx_audit_resource" "audit_events"
     [Asc "resource_type"; Asc "resource_id"; Asc "id"] false None].

Definition downgrade_0007 : list op :=
  [drop_index "idx_audit_resource" "audit_events";
   drop_index "idx_audit_tenant_time" "audit_events";
   drop_table "audit_events";
   drop_index "idx_grants_by_tool" "agent_version_tool_grants";
   drop_table "agent_version_tool_grants";
   drop_table "tools";
   drop_type "tool_status"].

(** ** 0008, 0009 *)

Definition upgrade_0008 : list op :=
  [create_index "idx_tasks_tenant_queued" "tasks" [Asc "tenant_id"] false (Some is_queued)].
Definition downgrade_0008 : list op := [drop_index "idx_tasks_tenant_queued" "tasks"].

Definition upgrade_0009 : list op :=
  [add_column "tasks" ("max_execution_time_s", Integer, [not_null; str "300"]);
   create_constraint "tasks" ("ck_tasks_max_execution_time", Check (AtLeast "max_execution_time_s" 1));
   create_index "idx_tasks_ready_by_capability" "tasks"
     [Asc "capability_key"; Asc "priority"; Asc "available_at"; Asc "id"] false (Some is_queued)].
Definition downgrade_0009 : list op :=
  [drop_index "idx_tasks_ready_by_capability" "tasks";
   drop_constraint "ck_tasks_max_execution_time" "tasks";
   drop_column "tasks" "max_execution_time_s"].

(** ** The chain *)

Record migration := MkMigration {
  revision : text;
  down_revision : option text;
  upgrade : list op;
  downgrade : list op;
}.

Definition versions : list migration :=
  [MkMigration "0001" None upgrade_0001 downgrade_0001;
   MkMigration "0002" (Some "0001") upgrade_0002 downgrade_0002;
   MkMigration "0003" (Some "0002") upgrade_0003 downgrade_0003;
   MkMigration "0004" (Some "0003") upgrade_0004 downgrade_0004;
   MkMigration "0005" (Some "0004") upgrade_0005 downgrade_0005;
   MkMigration "0006" (Some "0005") upgrade_0006 downgrade_0006;
   MkMigration "0007" (Some "0006") upgrade_0007 downgrade_0007;
   MkMigration "0008" (Some "0007") upgrade_0008 downgrade_0008;
   MkMigration "0009" (Some "0008") upgrade_0009 downgrade_0009].

(** A database: the revision it is at and its schema. *)
Abbreviation versioned := (option text * schema)%type.

(** [alembic upgrade +1] and [alembic downgrade -1]. *)
Definition step_up (st : versioned) : result versioned :=
  match List.find (λ m, bool_decide (down_revision m = st.1)) versions with
  | None => inl (Undefined "revision" "+1")
  | Some m => s ← apply_ops (upgrade m) st.2; inr (Some (revision m), s)
  end.

Definition step_down (st : versioned) : result versioned :=
  match List.find (λ m, bool_decide (Some (revision m) = st.1)) versions with
  | None => inl (Undefined "revision" "-1")
  | Some m => s ← apply_ops (downgrade m) st.2; inr (down_revision m, s)
  end.

Fixpoint go (f : versioned → result versioned) (n : nat) (st : versioned) : result versioned :=
  match n with O => inr st | S n => st' ← f st; go f n st' end.

(** [alembic upgrade head]. *)
Definition upgrade_head : versioned → result versioned := go step_up (length versions).

(** ** models.py *)

Module Metadata.

Definition tenants : op :=
  create_table "tenants"
    [("id", UUID, [primary_key; sql "gen_random_uuid()"]);
     ("name", Text, [not_null; unique]);
     ("max_concurrent_tasks", Integer, [not_null; str "10"]);
     ("max_queued_tasks", Integer, [not_null; str "1000"]);
     ("priority_weight", Integer, [not_null; str "1"]);
     ("created_at", TS, [not_null; sql "now()"])] [].

Definition tasks : op :=
  create_table "tasks"
    [("id", UUID, [primary_key; sql "gen_random_uuid()"]);
     ("tenant_id", UUID, [references "tenants" "id" RESTRICT; not_null]);
     ("task_type", Text, [not_null]);
     ("payload", JSONB, [not_null; sql "'{}'::jsonb"]);
     ("idempotency_key", Text, []);
     ("priority", SmallInteger, [not_null; str "100"]);
     ("state", ENUM "task_state", [not_null; str "QUEUED"]);
     ("attempt", Integer, [not_null; str "0"]);
     ("max_attempts", Integer, [not_null; str "3"]);
     ("max_execution_time_s", Integer, [not_null; str "300"]);
     ("available_at", TS, [not_null; sql "now()"]);
     ("lease_worker_id", Text, []);
     ("lease_expires_at", TS, []);
     ("agent_version_id", UUID, []);
     ("required_capabilities", ARRAY_Text, [not_null; sql "'{}'::text[]"]);
     ("capability_key", Text, [not_null; str ""]);
     ("cancel_requested", Boolean, [not_null; sql "false"]);
     ("result", JSONB, []);
     ("error_class", Text, []);
     ("error_message", Text, []);
     ("created_at", TS, [not_null; sql "now()"]);
     ("updated_at", TS, [not_null; sql "now()"]);
     ("first_started_at", TS, []);
     ("finished_at", TS, [])]
    [("ck_tasks_max_attempts", Check (AtLeast "max_attempts" 1));
     ("ck_tasks_max_execution_time", Check (AtLeast "max_execution_time_s" 1));
     ("ck_tasks_attempt_nonneg", Check (AtLeast "attempt" 0));
     ("ck_tasks_priority_nonneg", Check (AtLeast "priority" 0));
     ("ck_tasks_lease_coherence", Check lease_coherence)].

Definition task_events : op :=
  create_table "task_events"
    [("id", BigInteger, [primary_key; autoincrement]);
     ("task_id", UUID, [references "tasks" "id" CASCADE; not_null]);
     ("attempt", Integer, []);
     ("event_type", Text, [not_null]);
     ("worker_id", Text, []);
     ("data", JSONB, [not_null; sql "'{}'::jsonb"]);
     ("created_at", TS, [not_null; sql "now()"])] [].

Definition workers : op :=
  create_table "workers"
    [("id", Text, [primary_key]);
     ("hostname", Text, [not_null]);
     ("pid", Integer, [not_null]);
     ("capacity", Integer, [not_null]);
     ("capabilities", ARRAY_Text, [not_null; sql "'{}'::text[]"]);
     ("status", ENUM "worker_status", [not_null; str "ALIVE"]);
     ("registered_at", TS, [not_null; sql "now()"]);
     ("last_heartbeat_at", TS, [not_null; sql "now()"])]
    [("ck_workers_capacity", Check (AtLeast "capacity" 1))].

Definition task_attempts : op :=
  create_table "task_attempts"
    [("task_id", UUID, [references "tasks" "id" CASCADE; not_null]);
     ("attempt", Integer, [not_null]);
     ("worker_id", Text, [references "workers" "id" RESTRICT; not_null]);
     ("started_at", TS, [not_null; sql "now()"]);
     ("finished_at", TS, []);
     ("outcome", ENUM "attempt_outcome", []);
     ("error_class", Text, []);
     ("error_message", Text, [])]
    [("pk_task_attempts", PrimaryKey ["task_id"; "attempt"])].

Definition agents : op :=
  create_table "agents"
    [("id", UUID, [primary_key; sql "gen_random_uuid()"]);
     ("tenant_id", UUID, [references "tenants" "id" NO_ACTION; not_null]);
     ("name", Text, [not_null]);
     ("description", Text, []);
     ("status", ENUM "agent_status", [not_null; str "ACTIVE"]);
     ("default_version_id", UUID, []);
     ("created_at", TS, [not_null; sql "now()"]);
     ("updated_at", TS, [not_null; sql "now()"])]
    [("uq_agents_tenant_name", Unique ["tenant_id"; "name"])].

Definition agent_versions : op :=
  create_table "agent_versions"
    [("id", UUID, [primary_key; sql "gen_random_uuid()"]);
     ("agent_id", UUID, [references "agents" "id" NO_ACTION; not_null]);
     ("version", Integer, [not_null]);
     ("runtime_spec", JSONB, [not_null; sql "'{}'::jsonb"]);
     ("required_capabilities", ARRAY_Text, [not_null; sql "'{}'::text[]"]);
     ("config", JSONB, [not_null; sql "'{}'::jsonb"]);
     ("max_attempts", Integer, [not_null; str "3"]);
     ("max_execution_time_s", Integer, [not_null; str "300"]);
     ("status", ENUM "version_status", [not_null; str "DRAFT"]);
     ("created_at", TS, [not_null; sql "now()"])]
    [("uq_agent_versions_agent_version", Unique ["agent_id"; "version"])].

Definition agent_routes : op :=
  create_table "agent_routes"
    [("tenant_id", UUID, [references "tenants" "id" CASCADE; not_null]);
     ("request_type", Text, [not_null]);
     ("agent_id", UUID, [references "agents" "id" NO_ACTION; not_null]);
     ("created_at", TS, [not_null; sql "now()"])]
    [("pk_agent_routes", PrimaryKey ["tenant_id"; "request_type"])].

Definition tools : op :=
  create_table "tools"
    [("id", UUID, [primary_key; sql "gen_random_uuid()"]);
     ("tenant_id", UUID, [references "tenants" "id" NO_ACTION; not_null]);
     ("name", Text, [not_null]);
     ("description", Text, []);
     ("tool_type", Text, [not_null; str "SIMULATED"]);
     ("config", JSONB, [not_null; sql "'{}'::jsonb"]);
     ("status", ENUM "tool_status", [not_null; str "ACTIVE"]);
     ("created_at", TS, [not_null; sql "now()"])]
    [("uq_tools_tenant_name", Unique ["tenant_id"; "name"])].

Definition agent_version_tool_grants : op :=
  create_table "agent_version_tool_grants"
    [("agent_version_id", UUID, [references "agent_versions" "id" CASCADE; not_null]);
     ("tool_id", UUID, [references "tools" "id" NO_ACTION; not_null]);
     ("created_at", TS, [not_null; sql "now()"])]
    [("pk_agent_version_tool_grants", PrimaryKey ["agent_version_id"; "tool_id"])].

Definition audit_events : op :=
  create_table "audit_events"
    [("id", BigInteger, [primary_key; autoincrement]);
     ("tenant_id", UUID, [not_null]);
     ("actor", Text, [not_null; str "system"]);
     ("action", Text, [not_null]);
     ("resource_type", Text, [not_null]);
     ("resource_id", UUID, []);
     ("outcome", Text, [not_null]);
     ("data", JSONB, [not_null; sql "'{}'::jsonb"]);
     ("created_at", TS, [not_null; sql "now()"])] [].

Definition metadata : list op :=
  [tenants; tasks; task_events; workers; task_attempts; agents; agent_versions; agent_routes; tools;
   agent_version_tool_grants; audit_events].

(** The enums, all [create_type=False]: declared, not created. *)
Definition enums : list op :=
  [create_type "task_state" ["QUEUED"; "RUNNING"; "SUCCEEDED"; "FAILED"; "CANCELLED"];
   create_type "worker_status" ["ALIVE"; "DRAINING"; "DEAD"];
   create_type "tool_status" ["ACTIVE"; "DISABLED"];
   create_type "agent_status" ["ACTIVE"; "DEPRECATED"; "DISABLED"];
   create_type "version_status" ["DRAFT"; "ACTIVE"; "DEPRECATED"; "DISABLED"];
   create_type "attempt_outcome" ["SUCCEEDED"; "FAILED"; "LOST"; "ABANDONED"; "CANCELLED"]].

End Metadata.

(** The conditions are the strings of the source. *)
Example lease_coherence_sql : cond_sql lease_coherence =
  "(state = 'RUNNING') = (lease_worker_id IS NOT NULL AND lease_expires_at IS NOT NULL)".
Proof. reflexivity. Qed.
Example conditions_sql :
  cond_sql <$> [AtLeast "max_attempts" 1; AtLeast "attempt" 0; OneOf "tool_type" ["SIMULATED"; "HTTP"];
    OneOf "state" ["QUEUED"; "RUNNING"]; IsNot "status" "DEAD"; is_queued; is_running_sql;
    NotNull "idempotency_key"] =
  ["max_attempts >= 1"; "attempt >= 0"; "tool_type IN ('SIMULATED', 'HTTP')";
   "state IN ('QUEUED', 'RUNNING')"; "status <> 'DEAD'"; "state = 'QUEUED'"; "state = 'RUNNING'";
   "idempotency_key IS NOT NULL"].
Proof. reflexivity. Qed.

(** ** What the migrations leave *)

(** The schema after the first [n] revisions; the theorems below show that
    no operation fails. *)
Definition at_revision (n : nat) : versioned :=
  match go step_up n (None, empty_schema) with inr st => st | inl _ => (None, empty_schema) end.
Definition head_schema : schema := (at_revision 9).2.

Definition metadata_schema : schema :=
  match apply_ops (Metadata.enums ++ Metadata.metadata) empty_schema with
  | inr s => s | inl _ => empty_schema
  end.

(** The constraints of [head_schema] that models.py lacks, or has without the
    ON DELETE action. *)
Definition migration_only : gmap text (list constraint_def) := list_to_map
  [("agents",
     [("agents_tenant_id_fkey", ForeignKey ["tenant_id"] "tenants" ["id"] RESTRICT);
      ("fk_agents_default_version", ForeignKey ["default_version_id"] "agent_versions" ["id"] RESTRICT)]);
   ("agent_versions",
     [("agent_versions_agent_id_fkey", ForeignKey ["agent_id"] "agents" ["id"] RESTRICT);
      ("ck_agent_versions_version", Check (AtLeast "version" 1));
      ("ck_agent_versions_max_attempts", Check (AtLeast "max_attempts" 1));
      ("ck_agent_versions_max_execution_time", Check (AtLeast "max_execution_time_s" 1))]);
   ("agent_routes",
     [("agent_routes_agent_id_fkey", ForeignKey ["agent_id"] "agents" ["id"] RESTRICT)]);
   ("tasks",
     [("fk_tasks_agent_version", ForeignKey ["agent_version_id"] "agent_versions" ["id"] RESTRICT)]);
   ("tools",
     [("tools_tenant_id_fkey", ForeignKey ["tenant_id"] "tenants" ["id"] RESTRICT);
      ("ck_tools_type", Check (OneOf "tool_type" ["SIMULATED"; "HTTP"]))]);
   ("agent_version_tool_grants",
     [("agent_version_tool_grants_tool_id_fkey", ForeignKey ["tool_id"] "tools" ["id"] RESTRICT)])].

(** A table with the constraints of [migration_only] for it. *)
Definition with_migration_only (name : text) (t : table) : table :=
  with_constraints (λ m, list_to_map (default [] (migration_only !! name)) ∪ m) t.

Definition succeeds {A} (r : result A) : bool := match r with inr _ => true | inl _ => false end.

Lemma at_revision_run n : (n <= 9)%nat → go step_up n (None, empty_schema) = inr (at_revision n).
Proof.
  intros H. unfold at_revision.
  assert (succeeds (go step_up n (None, empty_schema)) = true) as Hok.
  { do 10 (destruct n as [|n]; [vm_compute; reflexivity|]). lia. }
  by destruct (go step_up n _).
Qed.

(** A downgrade to the base leaves the extension. *)
Definition base : versioned := (None, set_extensions {["pgcrypto"]} empty_schema).
Definition rolled_back (n : nat) : versioned := match n with O => base | S _ => at_revision n end.

#[global] Instance ddl_error_eq_dec : EqDecision ddl_error.
Proof. solve_decision. Defined.

Lemma one_revision n : (n < 9)%nat →
  step_down (at_revision (S n)) = inr (rolled_back n) ∧
  step_up (rolled_back n) = inr (at_revision (S n)).
Proof. intros H. do 9 (destruct n as [|n]; [split; decide_closed|]). lia. Qed.

Lemma go_add f n m st st' : go f n st = inr st' → go f (n + m) st = go f m st'.
Proof.
  revert st. induction n as [|n IH]; intros st; simpl; [by intros [= ->]|].
  unfold mbind, result_bind. destruct (f st); [done|]. apply IH.
Qed.

Lemma go_down k n : (1 <= n <= 9)%nat → (k <= n)%nat →
  go step_down k (at_revision n) = inr (rolled_back (n - k)).
Proof.
  revert n. induction k as [|k IH]; intros n Hn Hk; [by destruct n as [|n]; [lia|]|].
  destruct n as [|n]; [lia|]. simpl. rewrite (proj1 (one_revision n ltac:(lia))).
  unfold mbind, result_bind. destruct n as [|n]; [by destruct k; [|lia]|]. apply IH; lia.
Qed.

Lemma go_up_again k n : (1 <= n <= 9)%nat → (k <= n)%nat →
  go step_up k (rolled_back (n - k)) = inr (rolled_back n).
Proof.
  revert n. induction k as [|k IH]; intros n Hn Hk; [by rewrite Nat.sub_0_r|].
  simpl. destruct (one_revision (n - S k)) as [_ Hup]; [lia|]. rewrite Hup.
  unfold mbind, result_bind. replace (S (n - S k)) with (n - k)%nat by lia.
  specialize (IH n Hn ltac:(lia)). destruct (n - k)%nat eqn:E; [lia|done].
Qed.

(** ** Properties *)

(** C31: the migrations build the schema the queries are written against: from
    an empty database [alembic upgrade head] runs all nine revisions without
    an error; the enums it leaves are those of models.py; and its tables have
    exactly the columns of models.py, with the same types, nullability and
    defaults, and exactly its constraints but for those of [migration_only]. *)
Theorem migrations_match_models :
  upgrade_head (None, empty_schema) = inr (Some "0009", head_schema) ∧
  apply_ops (Metadata.enums ++ Metadata.metadata) empty_schema = inr metadata_schema ∧
  enums head_schema = enums metadata_schema ∧
  with_triggers (λ _, ∅) <$> tables head_schema
    = map_imap (λ n t, Some (with_migration_only n t)) (tables metadata_schema).
Proof.
  split_and!; [| |decide_closed..].
  - unfold upgrade_head. change (length versions) with 9%nat. rewrite at_revision_run by lia.
    unfold head_schema. by rewrite (surjective_pairing (at_revision 9)) at 1.
  - unfold metadata_schema.
    assert (succeeds (apply_ops (Metadata.enums ++ Metadata.metadata) empty_schema) = true) as Hok
      by (vm_compute; reflexivity).
    by destruct (apply_ops _ _).
Qed.

(** Every downgrade undoes its upgrade: from any revision, any number of
    downgrades succeeds and leaves exactly the schema of the revision reached
    (at the base, nothing but the extension), and upgrading as many times
    again restores the schema it started from. *)
Theorem downgrade_undoes n k : (1 <= n <= 9)%nat → (k <= n)%nat →
  go step_up n (None, empty_schema) = inr (at_revision n) ∧
  go step_down k (at_revision n) = inr (rolled_back (n - k)) ∧
  go step_up k (rolled_back (n - k)) = inr (at_revision n).
Proof.
  intros Hn Hk. split_and!; [apply at_revision_run; lia|by apply go_down|].
  rewrite go_up_again by done. by destruct n; [lia|].
Qed.

Lemma downgrade_undoes_witness :
  go step_up 9 (None, empty_schema) = inr (at_revision 9) ∧
  go step_down 9 (at_revision 9) = inr base ∧ go step_up 9 base = inr (at_revision 9).
Proof. apply (downgrade_undoes 9 9); lia. Defined.

(** The ready indexes serve the claim's order, the second one per key. *)
Lemma ready_indexes :
  indexes head_schema !! "idx_tasks_ready" =
    Some (MkIndex "tasks" [Asc "priority"; Asc "available_at"; Asc "id"] false (Some is_queued)) ∧
  indexes head_schema !! "idx_tasks_ready_by_capability" =
    Some (MkIndex "tasks" [Asc "capability_key"; Asc "priority"; Asc "available_at"; Asc "id"] false
            (Some is_queued)).
Proof. split; decide_closed. Qed.

(** ** The head schema, written out *)

Record listed_table := MkListed {
  li_name : text;
  li_columns : list (text * column);
  li_constraints : list (text * table_constraint);
}.

Definition listed (x : text * table) : listed_table :=
  MkListed x.1 (map_to_list (columns x.2)) (map_to_list (constraints x.2)).

Definition head_tables : list listed_table :=
  Eval vm_compute in listed <$> map_to_list (tables head_schema).

Definition head_indexes : list (text * index) := Eval vm_compute in map_to_list (indexes head_schema).

Definition head_enums : list (text * list text) := Eval vm_compute in map_to_list (enums head_schema).

#[local] Instance listed_table_eq_dec : EqDecision listed_table.
Proof. solve_decision. Defined.

Lemma head_tables_listed : listed <$> map_to_list (tables head_schema) = head_tables.
Proof. decide_closed. Qed.

Lemma head_indexes_listed : map_to_list (indexes head_schema) = head_indexes.
Proof. decide_closed. Qed.

Lemma head_enums_listed : enums head_schema = list_to_map head_enums.
Proof. decide_closed. Qed.

(** Rows conform when they do table by table, column by column, as listed. *)
Definition listed_ok (dt : data) (l : listed_table) : Prop :=
  Forall (λ r : row, r.*1 ≡ₚ (li_columns l).*1 ∧
    Forall (λ c, column_ok (list_to_map head_enums) c.2 (cell r c.1) = true) (li_columns l))
    (dt (li_name l)) ∧
  Forall (λ c, constraint_holds dt (dt (li_name l)) c.2) (li_constraints l).

Lemma listed_columns (t : table) : NoDup (map_to_list (columns t)).*1.
Proof. apply NoDup_fst_map_to_list. Qed.

Lemma head_conforms dt :
  (∀ n, dt n ≠ [] → n ∈ li_name <$> head_tables) →
  Forall (listed_ok dt) head_tables →
  Forall (λ x, ix_unique x.2 = true →
    unique_on (index_column_name <$> ix_columns x.2) (indexed (ix_where x.2) (dt (ix_table x.2))))
    head_indexes →
  conforms head_schema dt.
Proof.
  intros Hdom Hts Hix. rewrite <-head_tables_listed, Forall_fmap, Forall_forall in Hts.
  rewrite <-head_tables_listed, <-list_fmap_compose in Hdom.
  assert (∀ n t, tables head_schema !! n = Some t → listed_ok dt (listed (n, t))) as Hl.
  { intros n t Ht%elem_of_map_to_list. by apply Hts. }
  split.
  - intros n Hn. destruct (dt n) as [|r rs] eqn:E; [done|]. exfalso.
    assert (dt n ≠ []) as ((m, t) & -> & Hm%elem_of_map_to_list)%Hdom%list_elem_of_fmap by (by rewrite E).
    simpl in Hn. congruence.
  - intros n t Ht. destruct (Hl n t Ht) as [Hrows _]. simpl in Hrows.
    eapply Forall_impl; [done|]. intros r [Hp Hc]. split_and!.
    + rewrite Hp. apply listed_columns.
    + rewrite Hp. symmetry. apply leibniz_equiv, dom_alt.
    + apply map_Forall_to_list. rewrite head_enums_listed. eapply Forall_impl; [done|].
      by intros [].
  - intros n t Ht. apply map_Forall_to_list. destruct (Hl n t Ht) as [_ Hc].
    eapply Forall_impl; [done|]. by intros [].
  - apply map_Forall_to_list. rewrite head_indexes_listed. eapply Forall_impl; [done|]. by intros [].
Qed.
