(* ===== verification/Upgrade.v ===== *)
(** * Migrating a database with rows in it

    [alters] is one DDL operation on a schema and its rows: what the server
    scans before it accepts a constraint, an index or a column, and what it
    does to the rows.  Every operation keeps [conforms]
    ([alters_conforms]); the migrations are then shown never to be stopped
    by rows that conform, and to be undone, rows included, by their
    downgrades. *)

From S2P Require Import Prelude PyStr Json Db Schema Migrations.
#[local] Open Scope Z_scope.

(** ** Defaults *)

Fixpoint decimal (s : text) (acc : Z) : option Z :=
  match s with
  | EmptyString => Some acc
  | String c s =>
      let n := Ascii.nat_of_ascii c in
      if ((48 <=? n) && (n <=? 57))%nat then decimal s (acc * 10 + (Z.of_nat n - 48)) else None
  end.

(** The value rows that exist already get in a new column; an expression
    that is no constant has none here. *)
Definition default_cell (ty : sql_type) (v : option default_value) : option value :=
  match v, ty with
  | None, _ => Some VNull
  | Some (Literal s), (Integer | SmallInteger | BigInteger) => VInt <$> decimal s 0
  | Some (Literal s), (Text | ENUM _) => Some (VText s)
  | Some (Expression s), ARRAY_Text => if bool_decide (s = "'{}'::text[]") then Some (VTexts []) else None
  | Some (Expression s), JSONB => if bool_decide (s = "'{}'::jsonb") then Some (VJson ∅) else None
  | Some (Expression s), Boolean => if bool_decide (s = "false") then Some (VBool false) else None
  | _, _ => None
  end.

(** ** Operations on rows *)

Definition new_cell (d : column_def) : value :=
  default VNull (default_cell (d.1.2) (col_default (column_of d))).

Definition change_table (t : text) (f : list row → list row) (dt : data) : data :=
  λ n, if bool_decide (n = t) then f (dt n) else dt n.

Definition without (c : text) (r : row) : row := filter (λ x : text * value, x.1 ≠ c) r.

Definition rows_after (o : op) (dt : data) : data :=
  match o with
  | add_column t d => change_table t (fmap (λ r : row, r ++ [(column_name d, new_cell d)])) dt
  | drop_column t c => change_table t (fmap (without c)) dt
  | drop_table t => change_table t (λ _, []) dt
  | _ => dt
  end.

(** What the rows must satisfy for the operation to be accepted. *)
Definition accepted (o : op) (s : schema) (dt : data) : Prop :=
  match o with
  | add_column t d =>
      dt t = [] ∨ (is_Some (default_cell (d.1.2) (col_default (column_of d))) ∧
                   column_ok (enums s) (column_of d) (new_cell d) = true)
  | create_constraint t (_, c) => constraint_holds dt (dt t) c
  | create_index _ t cols u w =>
      u = true → unique_on (index_column_name <$> cols) (indexed w (dt t))
  | _ => True
  end.

Inductive alters : list op → schema * data → schema * data → Prop :=
  | alters_nil st : alters [] st st
  | alters_cons o ops s s' dt st :
      apply_op o s = inr s' → accepted o s dt → alters ops (s', rows_after o dt) st →
      alters (o :: ops) (s, dt) st.

(** ** Rows whose cells are kept *)

Lemma find_filter {A} (p : A → bool) (P : A → Prop) `{!∀ x, Decision (P x)} l :
  (∀ x, p x = true → P x) → List.find p (filter P l) = List.find p l.
Proof.
  intros Hp. induction l as [|x l IH]; [done|]. rewrite filter_cons. simpl. case_decide as HP; simpl.
  - by rewrite IH.
  - rewrite IH. destruct (p x) eqn:E; [|done]. by apply Hp in E.
Qed.

Lemma cell_without c x r : x ≠ c → cell (without c r) x = cell r x.
Proof.
  intros Hx. unfold cell, without. rewrite find_filter; [done|].
  intros [y v] Hy%String.eqb_eq. simpl in *. by subst.
Qed.

Lemma find_app {A} (p : A → bool) l k :
  List.find p (l ++ k) = match List.find p l with Some x => Some x | None => List.find p k end.
Proof. induction l as [|x l IH]; simpl; [done|]. by destruct (p x). Qed.

Lemma cell_extended c v x r : x ≠ c → cell (r ++ [(c, v)]) x = cell r x.
Proof.
  intros Hx. unfold cell. rewrite find_app. destruct (List.find _ r); [done|]. simpl.
  destruct (String.eqb_spec c x); [by subst|done].
Qed.

Lemma cell_new c v r : c ∉ r.*1 → cell (r ++ [(c, v)]) c = v.
Proof.
  intros Hc. unfold cell. rewrite find_app.
  destruct (List.find _ r) as [[x w]|] eqn:E.
  - apply List.find_some in E as [Hin Heq%String.eqb_eq]. simpl in Heq. subst x.
    destruct Hc. apply list_elem_of_fmap. exists (c, w). split; [done|]. by apply list_elem_of_In.
  - simpl. by rewrite String.eqb_refl.
Qed.

(** [f] keeps the cells of columns [cs]. *)
Definition keeps_cells (cs : list text) (f : row → row) : Prop :=
  ∀ r c, c ∈ cs → cell (f r) c = cell r c.

Lemma keeps_cells_id cs : keeps_cells cs id.
Proof. done. Qed.

Lemma key_kept cs f r : keeps_cells cs f → key cs (f r) = key cs r.
Proof. intros H. apply list_fmap_ext. intros i c Hc%list_elem_of_lookup_2. by apply H. Qed.

Lemma keys_kept cs f (rs : list row) : keeps_cells cs f → key cs <$> (f <$> rs) = key cs <$> rs.
Proof.
  intros H. rewrite <-list_fmap_compose. apply list_fmap_ext. intros i r _. by apply key_kept.
Qed.

Lemma holds_kept p f r : keeps_cells (cond_columns p) f → holds p (f r) = holds p r.
Proof.
  unfold keeps_cells. induction p; intros H; simpl in *; try (rewrite H by set_solver; done).
  - by rewrite IHp1, IHp2 by (intros; apply H; set_solver).
  - by rewrite IHp1, IHp2 by (intros; apply H; set_solver).
Qed.

Lemma unique_kept cs f (rs : list row) : keeps_cells cs f → unique_on cs (f <$> rs) ↔ unique_on cs rs.
Proof. intros H. unfold unique_on. by rewrite keys_kept. Qed.

Lemma indexed_kept w f (rs : list row) :
  keeps_cells (default [] (cond_columns <$> w)) f → indexed w (f <$> rs) = f <$> indexed w rs.
Proof.
  destruct w as [p|]; [|done]. simpl. intros H.
  induction rs as [|r rs IH]; [done|]. rewrite fmap_cons, !filter_cons, holds_kept, IH by done.
  by case_decide.
Qed.

Lemma constraint_kept (dt dt' : data) (rs : list row) c f g :
  keeps_cells (constraint_columns c) f →
  (∀ cs t cs' a, c = ForeignKey cs t cs' a → dt' t = g <$> dt t ∧ keeps_cells cs' g) →
  constraint_holds dt rs c → constraint_holds dt' (f <$> rs) c.
Proof.
  intros Hf Hg. destruct c as [cs|cs|cs t cs' a|p]; simpl in *.
  - intros [Hu Ht]. split; [by apply unique_kept|]. intros r (x & -> & Hx)%list_elem_of_fmap.
    rewrite key_kept by done. auto.
  - intros Hu. by apply unique_kept.
  - intros Hk r (x & -> & Hx)%list_elem_of_fmap Ht. rewrite key_kept in Ht |- * by done.
    destruct (Hk x Hx Ht) as (y & Hy & Heq). destruct (Hg cs t cs' a eq_refl) as [Hdt Hkc].
    exists (g y). rewrite key_kept by done. split; [|done]. rewrite Hdt. by apply list_elem_of_fmap_2.
  - intros Hp r (x & -> & Hx)%list_elem_of_fmap. rewrite holds_kept by done. auto.
Qed.

(** ** Inverting an operation *)

Lemma bind_inr {A B} (x : result A) (f : A → result B) b :
  (x ≫= f) = inr b → ∃ a, x = inr a ∧ f a = inr b.
Proof. destruct x as [e|a]; [done|]. intros H. by exists a. Qed.

Lemma guard_inr b e u : guard_that b e = inr u → b = true.
Proof. by destruct b. Qed.

Lemma the_inr {A} what n (m : gmap text A) a : the what n m = inr a → m !! n = Some a.
Proof. unfold the. destruct (m !! n); [by intros [= ->]|done]. Qed.

Lemma fresh_inr {A} what n (m : gmap text A) u : fresh what n m = inr u → m !! n = None.
Proof. intros H%guard_inr. by apply bool_decide_eq_true in H. Qed.

(** Everything [apply_op] checked, as hypotheses. *)
Ltac ddl_inv H :=
  repeat lazymatch type of H with
  | (_ ≫= _) = inr _ =>
      let a := fresh "a" in let E := fresh "E" in
      apply bind_inr in H as (a & E & H);
      first [apply the_inr in E|apply fresh_inr in E|apply guard_inr in E]
  end; try (injection H as H; subst).

Lemma has_columns_spec t cs : has_columns t cs = true ↔ ∀ c, c ∈ cs → is_Some (columns t !! c).
Proof.
  unfold has_columns. rewrite forallb_forall. setoid_rewrite bool_decide_eq_true.
  by setoid_rewrite list_elem_of_In.
Qed.

(** ** Schemas whose constraints and indexes speak of columns that exist *)

Definition target_ok (s : schema) (c : table_constraint) : bool :=
  match c with
  | ForeignKey _ t cs _ => match tables s !! t with Some tb => has_columns tb cs | None => false end
  | _ => true
  end.

Definition index_names (ix : index) : list text :=
  (index_column_name <$> ix_columns ix) ++ default [] (cond_columns <$> ix_where ix).

Definition well_formed (s : schema) : bool :=
  forallb (λ x : text * table,
    forallb (λ y : text * table_constraint,
      has_columns x.2 (constraint_columns y.2) && target_ok s y.2) (map_to_list (constraints x.2)))
    (map_to_list (tables s)) &&
  forallb (λ x : text * index,
    match tables s !! ix_table x.2 with Some t => has_columns t (index_names x.2) | None => false end)
    (map_to_list (indexes s)).

Lemma forallb_map {A} (p : text * A → bool) (m : gmap text A) :
  forallb p (map_to_list m) = true ↔ ∀ n a, m !! n = Some a → p (n, a) = true.
Proof.
  rewrite forallb_forall. split.
  - intros H n a Ha. apply H, list_elem_of_In. by apply elem_of_map_to_list.
  - intros H [n a] Hin%list_elem_of_In%elem_of_map_to_list. by apply H.
Qed.

Lemma well_formed_spec s : well_formed s = true →
  (∀ n t k c, tables s !! n = Some t → constraints t !! k = Some c →
     has_columns t (constraint_columns c) = true ∧ target_ok s c = true) ∧
  (∀ n ix, indexes s !! n = Some ix →
     ∃ t, tables s !! ix_table ix = Some t ∧ has_columns t (index_names ix) = true).
Proof.
  unfold well_formed. rewrite andb_true_iff, !forallb_map. intros [Ht Hix]. split.
  - intros n t k c Hn Hk. specialize (Ht n t Hn). rewrite forallb_map in Ht.
    by apply andb_true_iff, (Ht k c).
  - intros n ix Hn. specialize (Hix n ix Hn). simpl in Hix.
    destruct (tables s !! ix_table ix) as [t|]; [|done]. by exists t.
Qed.

(** ** Operations that leave the rows *)

Lemma row_ok_mono es es' t t' r :
  columns t' = columns t →
  (∀ c col v, columns t !! c = Some col → fits es (col_type col) v = true →
     fits es' (col_type col) v = true) →
  row_ok es t r → row_ok es' t' r.
Proof.
  intros Hcol Hes (Hnd & Hdom & Hc). split_and!; [done|by rewrite Hcol|].
  rewrite Hcol. intros c col Hcc. specialize (Hc c col Hcc). unfold column_ok in *.
  apply andb_true_iff in Hc as [Hf Hn]. by rewrite (Hes c col _ Hcc Hf), Hn.
Qed.

(** Fewer constraints and indexes, tables without rows, more labels. *)
Lemma conforms_weaken s s' dt :
  conforms s dt →
  (∀ n t', tables s' !! n = Some t' → dt n = [] ∨
     ∃ t, tables s !! n = Some t ∧ columns t' = columns t ∧ constraints t' ⊆ constraints t) →
  (∀ n, tables s' !! n = None → tables s !! n = None) →
  (∀ n t c col v, tables s !! n = Some t → columns t !! c = Some col →
     fits (enums s) (col_type col) v = true → fits (enums s') (col_type col) v = true) →
  indexes s' ⊆ indexes s →
  conforms s' dt.
Proof.
  intros [Ht Hr Hc Hi] Htab Hnone Hes Hix. split.
  - auto.
  - intros n t' Hn. destruct (Htab n t' Hn) as [->|(t & Hnt & Hcol & _)]; [constructor|].
    eapply Forall_impl; [exact (Hr n t Hnt)|]. intros r. apply row_ok_mono; eauto.
  - intros n t' Hn k c Hk. destruct (Htab n t' Hn) as [->|(t & Hnt & _ & Hsub)].
    + destruct c; simpl; try (split; [constructor|]); try (by intros ? ?%not_elem_of_nil); constructor.
    + eapply (Hc n t Hnt). by eapply lookup_weaken.
  - intros n ix Hn. eapply (Hi n). by eapply lookup_weaken.
Qed.

Lemma with_same_columns s n t g :
  tables s !! n = Some t → (∀ t, columns (g t) = columns t ∧ constraints (g t) ⊆ constraints t) →
  ∀ m t', tables (set_table n (g t) s) !! m = Some t' →
    ∃ t0, tables s !! m = Some t0 ∧ columns t' = columns t0 ∧ constraints t' ⊆ constraints t0.
Proof.
  intros Hn Hg m t'. simpl. intros [[<- <-]|[_ Hm]]%lookup_insert_Some.
  - exists t. destruct (Hg t). done.
  - exists t'. done.
Qed.

Lemma set_table_none s n t m :
  tables s !! n = Some t → ∀ t', tables (set_table n t' s) !! m = None → tables s !! m = None.
Proof. intros Hn t'. simpl. by intros [? _]%lookup_insert_None. Qed.

Lemma fits_new_label es n ls ty v :
  es !! n = None → fits es ty v = true → fits (<[n := ls]> es) ty v = true.
Proof.
  intros Hn. unfold fits. destruct ty, v; try done. rewrite !bool_decide_eq_true.
  destruct (decide (name = n)) as [->|Hne]; [by rewrite Hn; intros ?%not_elem_of_nil|].
  by rewrite lookup_insert_ne.
Qed.

Lemma fits_dropped_label es n ty v :
  ty ≠ ENUM n → fits es ty v = true → fits (delete n es) ty v = true.
Proof.
  intros Hne. unfold fits. destruct ty, v; try done. rewrite lookup_delete_ne by congruence. done.
Qed.

Lemma conforms_same_tables s s' dt :
  conforms s dt → tables s' = tables s →
  (∀ n t c col v, tables s !! n = Some t → columns t !! c = Some col →
     fits (enums s) (col_type col) v = true → fits (enums s') (col_type col) v = true) →
  indexes s' ⊆ indexes s → conforms s' dt.
Proof.
  intros Hcf Ht Hes Hix. apply (conforms_weaken s); [done| | |done|done]; rewrite Ht; [|done].
  intros n t' Hn. right. by exists t'.
Qed.

Lemma conforms_one_table s n t g dt :
  conforms s dt → tables s !! n = Some t →
  (∀ t, columns (g t) = columns t ∧ constraints (g t) ⊆ constraints t) →
  conforms (set_table n (g t) s) dt.
Proof.
  intros Hcf Hn Hg. apply (conforms_weaken s); [done| | |done|done].
  - intros m t' Hm. right. by eapply with_same_columns.
  - intros m. by eapply set_table_none.
Qed.

(** The operations that add no condition on rows and drop no column. *)
Definition plain (o : op) : bool :=
  match o with
  | create_constraint _ _ | create_index _ _ _ _ _ | add_column _ _ | drop_column _ _ | drop_table _ =>
      false
  | _ => true
  end.

Lemma plain_conforms o s s' dt :
  plain o = true → conforms s dt → apply_op o s = inr s' → conforms s' dt.
Proof.
  intros Hp Hcf H. destruct o as [n|n ls|n|n cols checks|n|n tn cols u w|n tn|tn d|tn c|tn [n c]|n tn
    |n frozen|n|n tn fn|n tn]; try done; cbn [apply_op] in H; ddl_inv H.
  - by apply (conforms_same_tables s).
  - apply (conforms_same_tables s); [done..| |done]. intros m t c col v _ _. by apply fits_new_label.
  - apply (conforms_same_tables s); [done..| |done]. intros m t c col v Hm Hc.
    apply fits_dropped_label. apply bool_decide_eq_true in E0. exact (E0 m t Hm c col Hc).
  - apply (conforms_weaken s); [done| | |done|done]; simpl.
    + intros m t' [[<- <-]|[_ Hm]]%lookup_insert_Some; [left; by apply (cf_tables _ _ Hcf)|].
      right. by exists t'.
    + by intros m [? _]%lookup_insert_None.
  - apply (conforms_same_tables s); [done..|]. apply delete_subseteq.
  - apply (conforms_one_table s tn a (with_constraints (delete n))); [done..|].
    intros t. split; [done|]. apply delete_subseteq.
  - by apply (conforms_same_tables s).
  - by apply (conforms_same_tables s).
  - by apply (conforms_one_table s tn a (with_triggers (insert n fn))).
  - by apply (conforms_one_table s tn a (with_triggers (delete n))).
Qed.

(** ** Operations that scan or change rows *)

Lemma add_constraint_conforms s tn t n c dt :
  conforms s dt → tables s !! tn = Some t → constraint_holds dt (dt tn) c →
  conforms (set_table tn (with_constraints (insert n c) t) s) dt.
Proof.
  intros [Ht Hr Hc Hi] Hn Hk. split; [| | |done]; simpl.
  - intros m [? _]%lookup_insert_None. by apply Ht.
  - intros m t' [[<- <-]|[_ Hm]]%lookup_insert_Some; [|by apply Hr].
    eapply Forall_impl; [by apply Hr|]. intros r. by apply row_ok_mono.
  - intros m t' [[<- <-]|[_ Hm]]%lookup_insert_Some; [|by apply Hc].
    simpl. intros k c' [[<- <-]|[_ Hk']]%lookup_insert_Some; [done|]. by eapply Hc.
Qed.

Lemma add_index_conforms s n ix dt :
  conforms s dt →
  (ix_unique ix = true →
     unique_on (index_column_name <$> ix_columns ix) (indexed (ix_where ix) (dt (ix_table ix)))) →
  conforms (set_indexes (<[n := ix]> (indexes s)) s) dt.
Proof.
  intros [Ht Hr Hc Hi] Hk. split; [done..|]. simpl.
  intros m ix' [[<- <-]|[_ Hm]]%lookup_insert_Some; [done|by apply (Hi m)].
Qed.

(** Table [tn] gets other columns, each row the cells they need; the
    constraints and indexes left speak of cells that are kept. *)
Lemma remap_conforms s s' tn t t' f dt :
  well_formed s = true → conforms s dt → tables s !! tn = Some t →
  tables s' = <[tn := t']> (tables s) → enums s' = enums s → indexes s' ⊆ indexes s →
  constraints t' ⊆ constraints t →
  (∀ r, r ∈ dt tn → row_ok (enums s) t r → row_ok (enums s) t' (f r)) →
  (∀ k c, constraints t' !! k = Some c → keeps_cells (constraint_columns c) f) →
  (∀ n x k cs cs' a, tables s' !! n = Some x → constraints x !! k = Some (ForeignKey cs tn cs' a) →
     keeps_cells cs' f) →
  (∀ n ix, indexes s' !! n = Some ix → ix_table ix = tn → keeps_cells (index_names ix) f) →
  conforms s' (change_table tn (fmap f) dt).
Proof.
  intros Hwf [Ht Hr Hc Hi] Htn Hts Hes Hix Hsub Hrow Hk Hfk Hik.
  assert (∀ n, change_table tn (fmap f) dt n = (if decide (n = tn) then f else id) <$> dt n) as Hdt.
  { intros n. unfold change_table. case_decide as Hd.
    - by rewrite bool_decide_eq_true_2.
    - rewrite bool_decide_eq_false_2 by done. by rewrite list_fmap_id. }
  split.
  - intros n. rewrite Hts, Hdt. intros [Hn Hne]%lookup_insert_None. by rewrite (Ht n Hn).
  - intros n x. rewrite Hts, Hes, Hdt. intros [[<- <-]|[Hne Hn]]%lookup_insert_Some.
    + rewrite decide_True by done. apply Forall_fmap, Forall_forall. intros r Hin. simpl.
      apply Hrow; [done|]. by eapply Forall_forall in Hin; [|exact (Hr tn t Htn)].
    + rewrite decide_False, list_fmap_id by done. by apply Hr.
  - intros n x Hn k c Hkc. rewrite Hdt. rewrite Hts in Hn.
    assert (∃ x0, tables s !! n = Some x0 ∧ constraints x0 !! k = Some c) as (x0 & Hx0 & Hk0).
    { apply lookup_insert_Some in Hn as [[<- <-]|[_ Hn]]; [|by exists x].
      exists t. split; [done|]. by eapply lookup_weaken. }
    apply (constraint_kept dt _ _ _ _ (if decide (match c with ForeignKey _ t _ _ => t | _ => tn end = tn)
                                       then f else id)).
    + case_decide as Hd; [|apply keeps_cells_id]. subst n. rewrite lookup_insert_eq in Hn.
      simplify_eq. by eapply Hk.
    + intros cs t1 cs' a ->. rewrite Hdt. split; [done|]. case_decide as Hd; [|apply keeps_cells_id].
      subst t1. eapply (Hfk n x k cs cs' a); [by rewrite Hts|done].
    + by eapply Hc.
  - intros n ix Hn Hu. rewrite Hdt. assert (indexes s !! n = Some ix) as Hn0 by by eapply lookup_weaken.
    assert (keeps_cells (index_names ix) (if decide (ix_table ix = tn) then f else id)) as Hkeep.
    { case_decide as Hd; [by eapply Hik|apply keeps_cells_id]. }
    rewrite indexed_kept, unique_kept; [by eapply Hi| |].
    + intros r c Hin. apply Hkeep. apply elem_of_app. by left.
    + intros r c Hin. apply Hkeep. apply elem_of_app. by right.
Qed.

Lemma no_constraint on p s n t k c :
  some_constraint on p s = false → on n = true → tables s !! n = Some t → constraints t !! k = Some c →
  p c = false.
Proof.
  intros Hs Hon Hn Hk. destruct (p c) eqn:Hp; [|done]. rewrite <-Hs. symmetry.
  apply existsb_exists. exists (n, t). split; [by apply list_elem_of_In, elem_of_map_to_list|].
  simpl. rewrite Hon. simpl. apply existsb_exists. exists (k, c).
  split; [by apply list_elem_of_In, elem_of_map_to_list|done].
Qed.

Lemma keeps_known t cs n f :
  has_columns t cs = true → columns t !! n = None →
  (∀ r x, x ≠ n → cell (f r) x = cell r x) → keeps_cells cs f.
Proof.
  intros Hcs Hn Hf r x Hx. apply Hf. intros ->.
  rewrite has_columns_spec in Hcs. destruct (Hcs n Hx). congruence.
Qed.

Lemma row_extended es t n col v r :
  columns t !! n = None → column_ok es col v = true → row_ok es t r →
  row_ok es (MkTable (<[n := col]> (columns t)) (constraints t) (triggers t)) (r ++ [(n, v)]).
Proof.
  intros Hn Hv (Hnd & Hdom & Hc).
  assert (n ∉ r.*1) as Hfree.
  { intros Hin. assert (n ∈ dom (columns t)) as [x Hx]%elem_of_dom by (rewrite <-Hdom; set_solver).
    congruence. }
  split_and!; simpl.
  - rewrite fmap_app. apply NoDup_app. split; [done|]. split; [|apply NoDup_singleton].
    intros x Hx ->%list_elem_of_singleton. done.
  - rewrite fmap_app, list_to_set_app_L, Hdom, dom_insert_L. set_solver.
  - intros x cx [[<- <-]|[Hne Hx]]%lookup_insert_Some; [by rewrite cell_new|].
    rewrite cell_extended by done. by apply Hc.
Qed.

Lemma row_shrunk es t n k r :
  row_ok es t r → row_ok es (MkTable (delete n (columns t)) k (triggers t)) (without n r).
Proof.
  intros (Hnd & Hdom & Hc).
  assert (∀ x, x ∈ (without n r).*1 ↔ x ≠ n ∧ x ∈ r.*1) as Hin.
  { intros x. unfold without. rewrite !list_elem_of_fmap. setoid_rewrite list_elem_of_filter.
    naive_solver. }
  split_and!; simpl.
  - clear Hdom Hc Hin. unfold without. induction r as [|[x v] r IH]; [constructor|].
    rewrite fmap_cons in Hnd. apply NoDup_cons in Hnd as [Hx Hnd]. rewrite filter_cons.
    case_decide; [|auto]. rewrite fmap_cons. constructor; [|auto].
    intros (y & Heq & [_ Hy]%list_elem_of_filter)%list_elem_of_fmap.
    apply Hx, list_elem_of_fmap. by exists y.
  - apply set_eq. intros x. rewrite elem_of_list_to_set, Hin, dom_delete_L, elem_of_difference,
      <-Hdom, elem_of_list_to_set, elem_of_singleton. tauto.
  - intros x cx [Hne Hx]%lookup_delete_Some. rewrite cell_without by done. by apply Hc.
Qed.

Lemma add_column_conforms tn d s s' dt :
  well_formed s = true → conforms s dt → apply_op (add_column tn d) s = inr s' →
  accepted (add_column tn d) s dt → conforms s' (rows_after (add_column tn d) dt).
Proof.
  intros Hwf Hcf H Hacc. cbn [apply_op] in H. ddl_inv H.
  destruct (well_formed_spec s Hwf) as [Hwc Hwi].
  assert (∀ r x, x ≠ column_name d → cell (r ++ [(column_name d, new_cell d)]) x = cell r x) as Hkeep.
  { intros r x Hx. by apply cell_extended. }
  eapply remap_conforms; [done|done|exact E|done|done|done|done|..]; simpl.
  - intros r Hin Hrow. apply row_extended; [done| |done].
    destruct Hacc as [Hnil|[_ Hok]]; [|done]. rewrite Hnil in Hin. by apply not_elem_of_nil in Hin.
  - intros k c Hk. eapply keeps_known; [by eapply Hwc|done|done].
  - intros n x k cs cs' a' Hx Hk.
    assert (∃ x0, tables s !! n = Some x0 ∧ constraints x0 !! k = Some (ForeignKey cs tn cs' a')) as (x0 & Hx0 & Hk0).
    { apply lookup_insert_Some in Hx as [[<- <-]|[_ Hx]]; eauto. }
    destruct (Hwc n x0 k _ Hx0 Hk0) as [_ Ht]. simpl in Ht. rewrite E in Ht.
    by eapply keeps_known.
  - intros n ix Hn <-. destruct (Hwi n ix Hn) as (t & Ht & Hcols). simplify_eq. by eapply keeps_known.
Qed.

Lemma drop_column_conforms tn c s s' dt :
  well_formed s = true → conforms s dt → apply_op (drop_column tn c) s = inr s' →
  conforms s' (rows_after (drop_column tn c) dt).
Proof.
  intros Hwf Hcf H. cbn [apply_op] in H. ddl_inv H. apply negb_true_iff in E1.
  assert (∀ cs, c ∉ cs → keeps_cells cs (without c)) as Hkeep.
  { intros cs Hc r x Hx. apply cell_without. by intros ->. }
  eapply remap_conforms; [done|done|exact E|done|done|apply map_filter_subseteq|apply map_filter_subseteq|..];
    simpl.
  - intros r _. apply row_shrunk.
  - intros k x [_ Hx]%map_lookup_filter_Some. by apply Hkeep.
  - intros n x k cs cs' a' Hx Hk.
    assert (∃ x0, tables s !! n = Some x0 ∧ constraints x0 !! k = Some (ForeignKey cs tn cs' a')) as (x0 & Hx0 & Hk0).
    { apply lookup_insert_Some in Hx as [[<- <-]|[_ Hx]]; [|eauto]. exists a.
      by apply map_lookup_filter_Some in Hk as [? _]. }
    pose proof (no_constraint _ _ _ _ _ _ _ E1 eq_refl Hx0 Hk0) as Hno. simpl in Hno.
    rewrite bool_decide_eq_true_2 in Hno by done. apply bool_decide_eq_false in Hno. by apply Hkeep.
  - intros n ix [_ Hu]%map_lookup_filter_Some <-. apply Hkeep. simpl in Hu. unfold index_uses in Hu.
    rewrite bool_decide_eq_true_2 in Hu by done. by apply bool_decide_eq_false in Hu.
Qed.

Lemma drop_table_conforms n s s' dt :
  conforms s dt → apply_op (drop_table n) s = inr s' → conforms s' (rows_after (drop_table n) dt).
Proof.
  intros [Ht Hr Hc Hi] H. cbn [apply_op] in H. ddl_inv H. apply negb_true_iff in E0.
  assert (∀ m, m ≠ n → change_table n (λ _, []) dt m = dt m) as Hdt.
  { intros m Hm. unfold change_table. by rewrite bool_decide_eq_false_2. }
  split; simpl.
  - intros m Hm. unfold change_table. case_bool_decide as Hd; [done|]. apply Ht.
    apply lookup_delete_None in Hm as [->|?]; done.
  - intros m t [Hne Hm]%lookup_delete_Some. rewrite Hdt by done. by apply Hr.
  - intros m t [Hne Hm]%lookup_delete_Some k c Hk. rewrite Hdt by done.
    rewrite <-(list_fmap_id (dt m)). apply (constraint_kept dt _ _ _ id id); [apply keeps_cells_id| |by eapply Hc].
    intros cs t' cs' act ->. split; [|apply keeps_cells_id]. rewrite list_fmap_id. apply Hdt. intros ->.
    assert (negb (bool_decide (m = n)) = true) as Hon by (by rewrite bool_decide_eq_false_2).
    pose proof (no_constraint _ _ _ _ _ _ _ E0 Hon Hm Hk) as Hno. simpl in Hno.
    by apply bool_decide_eq_false in Hno.
  - intros m ix [Hm Hne]%map_lookup_filter_Some Hu. rewrite Hdt by done. by eapply Hi.
Qed.

(** Whatever the server accepts keeps the rows conforming. *)
Lemma apply_op_conforms o s s' dt :
  well_formed s = true → conforms s dt → apply_op o s = inr s' → accepted o s dt →
  conforms s' (rows_after o dt).
Proof.
  intros Hwf Hcf H Hacc. destruct (plain o) eqn:Hp.
  { assert (rows_after o dt = dt) as -> by (by destruct o). by eapply plain_conforms. }
  destruct o as [| | | |n|n tn cols u w| |tn d|tn c|tn [n c]| | | | | ]; try done.
  - by eapply drop_table_conforms.
  - cbn [apply_op] in H. ddl_inv H. by apply add_index_conforms.
  - by eapply add_column_conforms.
  - by eapply drop_column_conforms.
  - cbn [apply_op] in H. ddl_inv H. by apply add_constraint_conforms.
Qed.

(** ** A migration *)

Fixpoint well_formed_along (ops : list op) (s : schema) : bool :=
  well_formed s &&
  match ops with
  | [] => true
  | o :: ops => match apply_op o s with inr s' => well_formed_along ops s' | inl _ => false end
  end.

Definition rows_after_all (ops : list op) (dt : data) : data := foldl (λ dt o, rows_after o dt) dt ops.

Lemma alters_conforms ops s dt st :
  well_formed_along ops s = true → alters ops (s, dt) st → conforms s dt → conforms st.1 st.2.
Proof.
  revert s dt. induction ops as [|o ops IH]; intros s dt Hwf Ha Hcf; inversion Ha; subst; [done|].
  simpl in Hwf. apply andb_true_iff in Hwf as [Hwf Hrest].
  match goal with H : apply_op o s = _ |- _ => rewrite H in Hrest end.
  eapply IH; [done|done|]. by eapply apply_op_conforms.
Qed.

Lemma alters_total ops s s' dt :
  apply_ops ops s = inr s' →
  (∀ i o si, ops !! i = Some o → accepted o si (rows_after_all (take i ops) dt)) →
  alters ops (s, dt) (s', rows_after_all ops dt).
Proof.
  revert s dt. induction ops as [|o ops IH]; intros s dt H Hacc.
  { injection H as <-. constructor. }
  apply bind_inr in H as (s1 & H1 & H). econstructor; [done|by apply (Hacc 0%nat)|].
  apply IH; [done|]. intros i o' si Hi. by apply (Hacc (S i)).
Qed.

(** The cells revision [k + 1] gives the rows of table [n]. *)
Definition added (k : nat) (n : text) : row :=
  if bool_decide (n = "tasks") then
    match k with
    | 5%nat => [("agent_version_id", VNull); ("required_capabilities", VTexts []);
                ("capability_key", VText "")]
    | 8%nat => [("max_execution_time_s", VInt 300)]
    | _ => []
    end
  else [].

Lemma table_absent s dt n : conforms s dt → bool_decide (tables s !! n = None) = true → dt n = [].
Proof. intros Hcf H%bool_decide_eq_true. by apply (cf_tables _ _ Hcf). Qed.

Lemma column_absent s dt n t c r :
  conforms s dt → tables s !! n = Some t → r ∈ dt n → columns t !! c = None → c ∉ r.*1.
Proof.
  intros Hcf Ht Hr Hc Hin. pose proof (cf_rows _ _ Hcf n t Ht) as Hrows.
  rewrite Forall_forall in Hrows. destruct (Hrows r Hr) as (_ & Hdom & _).
  assert (c ∈ dom (columns t)) as [x Hx]%elem_of_dom by (rewrite <-Hdom; set_solver). congruence.
Qed.

Definition lacks_column (s : schema) (n c : text) : bool :=
  match tables s !! n with Some t => bool_decide (columns t !! c = None) | None => false end.

Lemma lacks_cell s dt n c r : conforms s dt → lacks_column s n c = true → r ∈ dt n → c ∉ r.*1.
Proof.
  unfold lacks_column. intros Hcf H Hr. destruct (tables s !! n) as [t|] eqn:Ht; [|done].
  apply bool_decide_eq_true in H. by eapply column_absent.
Qed.

Lemma without_app c r k : c ∉ r.*1 → without c (r ++ k) = r ++ without c k.
Proof.
  intros Hc. unfold without. rewrite filter_app. f_equal.
  induction r as [|[x v] r IH]; [done|]. rewrite filter_cons, decide_True.
  - f_equal. apply IH. intros Hin. apply Hc. by right.
  - simpl. intros ->. apply Hc. by left.
Qed.

(** One goal for each of the nine revisions. *)
Ltac destruct_revision k Hm :=
  destruct k as [|[|[|[|[|[|[|[|[|?]]]]]]]]]; [..|done]; injection Hm as <-.

Lemma fmap_nil_cells (l : list row) : (λ r : row, r ++ []) <$> l = l.
Proof. rewrite <-(list_fmap_id l) at 2. apply list_fmap_ext. intros. apply app_nil_r. Qed.

Lemma upgraded_rows k m dt n : versions !! k = Some m →
  rows_after_all (upgrade m) dt n = (λ r : row, r ++ added k n) <$> dt n.
Proof.
  intros Hm. unfold added, rows_after_all.
  destruct_revision k Hm; simpl; try (case_bool_decide; by rewrite fmap_nil_cells).
  - unfold change_table. case_bool_decide as Hd; [|by rewrite fmap_nil_cells].
    rewrite <-!list_fmap_compose. apply list_fmap_ext. intros i r _. simpl. by rewrite <-!app_assoc.
  - unfold change_table. case_bool_decide as Hd; [|by rewrite fmap_nil_cells]. done.
Qed.

Lemma upgrade_accepted k m dt i o si : versions !! k = Some m →
  conforms (at_revision k).2 dt → upgrade m !! i = Some o →
  accepted o si (rows_after_all (take i (upgrade m)) dt).
Proof.
  intros Hm Hcf Ho. destruct_revision k Hm.
  all: repeat (destruct i as [|i]; [injection Ho as <-; try exact I; try (by intros [=])|]); try done.
  all: unfold rows_after_all; cbn [take foldl rows_after upgrade upgrade_0001 upgrade_0006 upgrade_0009
    tenants_0001 tasks_0001 agents_0006 agent_versions_0006 agent_routes_0006 accepted column_name fst snd].
  3, 5, 6, 7: right; split; [by eexists|reflexivity].
  - intros _. rewrite (table_absent _ _ "tasks" Hcf) by (vm_compute; reflexivity). constructor.
  - rewrite (table_absent _ _ "agents" Hcf) by (vm_compute; reflexivity).
    by intros r ?%not_elem_of_nil.
  - unfold change_table at 2. rewrite bool_decide_eq_true_2 by done.
    intros x (r & -> & Hr)%list_elem_of_fmap Ht.
    change (new_cell _) with VNull in Ht. unfold key in Ht. simpl in Ht.
    rewrite cell_new in Ht; [done|]. eapply lacks_cell; [done| |done]. vm_compute. reflexivity.
  - unfold change_table. rewrite bool_decide_eq_true_2 by done.
    intros x (r & -> & Hr)%list_elem_of_fmap. change (new_cell _) with (VInt 300). simpl.
    rewrite cell_new; [done|]. eapply lacks_cell; [done| |done]. vm_compute. reflexivity.
Qed.

Lemma downgrade_accepted k m dt i o si : versions !! k = Some m →
  downgrade m !! i = Some o → accepted o si dt.
Proof.
  intros Hm Ho. destruct_revision k Hm.
  all: repeat (destruct i as [|i]; [injection Ho as <-; exact I|]); done.
Qed.

(** What a downgrade does to rows that conform, [added] cells included. *)
Lemma downgraded_rows k m dt n : versions !! k = Some m → conforms (at_revision k).2 dt →
  rows_after_all (downgrade m) (rows_after_all (upgrade m) dt) n = dt n.
Proof.
  intros Hm Hcf. pose proof (upgraded_rows k m dt) as Hup.
  revert Hup. generalize (rows_after_all (upgrade m) dt). intros dt' Hup. specialize (λ n, Hup n Hm).
  destruct_revision k Hm.
  all: unfold rows_after_all; cbn [foldl rows_after downgrade downgrade_0001 downgrade_0002 downgrade_0003
    downgrade_0004 downgrade_0005 downgrade_0006 downgrade_0007 downgrade_0008 downgrade_0009].
  all: unfold change_table; rewrite ?Hup; unfold added;
    repeat (case_bool_decide; subst; try discriminate; try contradiction);
    try (symmetry; apply (table_absent _ _ _ Hcf); vm_compute; reflexivity);
    try apply fmap_nil_cells.
  - rewrite <-?list_fmap_compose. etrans; [|apply list_fmap_id]. apply list_fmap_ext.
    intros i r Hr%list_elem_of_lookup_2. simpl.
    rewrite !without_app by (eapply (lacks_cell _ _ "tasks"); [done|vm_compute; reflexivity|done]).
    apply app_nil_r.
  - rewrite <-?list_fmap_compose. etrans; [|apply list_fmap_id]. apply list_fmap_ext.
    intros i r Hr%list_elem_of_lookup_2. simpl.
    rewrite !without_app by (eapply (lacks_cell _ _ "tasks"); [done|vm_compute; reflexivity|done]).
    apply app_nil_r.
Qed.

Lemma well_formed_revisions k m : versions !! k = Some m →
  well_formed_along (upgrade m) (at_revision k).2 = true ∧
  apply_ops (upgrade m) (at_revision k).2 = inr (at_revision (S k)).2 ∧
  well_formed_along (downgrade m) (at_revision (S k)).2 = true ∧
  apply_ops (downgrade m) (at_revision (S k)).2 = inr (rolled_back k).2.
Proof.
  intros Hm. destruct_revision k Hm.
  all: split_and!; [vm_compute; reflexivity|decide_closed|vm_compute; reflexivity|decide_closed].
Qed.

Lemma downgrade_alters k m dt : versions !! k = Some m →
  alters (downgrade m) ((at_revision (S k)).2, dt) ((rolled_back k).2, rows_after_all (downgrade m) dt).
Proof.
  intros Hm. destruct (well_formed_revisions k m Hm) as (_ & _ & _ & Hdown).
  apply alters_total; [done|]. intros i o si. by apply (downgrade_accepted k m).
Qed.

Lemma downgrade_conforms k m dt : versions !! k = Some m → conforms (at_revision (S k)).2 dt →
  conforms (rolled_back k).2 (rows_after_all (downgrade m) dt).
Proof.
  intros Hm Hcf. destruct (well_formed_revisions k m Hm) as (_ & _ & Hwf & _).
  exact (alters_conforms _ _ _ _ Hwf (downgrade_alters k m dt Hm) Hcf).
Qed.

(** C32: migrating a database in service. Rows that conform at some revision
    never stop the next upgrade: the server accepts every operation of it,
    each row keeps its cells and gets those of [added] at its end (a task of
    before revision 0009 the cap of 300 seconds, one of before 0006 no pinned
    version and no required capabilities), and the result conforms to the
    schema of the next revision. Its downgrade is accepted as well, conforms
    to the schema it leads back to, and gives back every row as it was. *)
Theorem migrations_keep_rows k m dt :
  versions !! k = Some m → conforms (at_revision k).2 dt →
  ∃ dt' dt'',
    alters (upgrade m) ((at_revision k).2, dt) ((at_revision (S k)).2, dt') ∧
    conforms (at_revision (S k)).2 dt' ∧
    (∀ n, dt' n = (λ r : row, r ++ added k n) <$> dt n) ∧
    alters (downgrade m) ((at_revision (S k)).2, dt') ((rolled_back k).2, dt'') ∧
    conforms (rolled_back k).2 dt'' ∧ (∀ n, dt'' n = dt n).
Proof.
  intros Hm Hcf. destruct (well_formed_revisions k m Hm) as (Hwf & Hup & _).
  assert (alters (upgrade m) ((at_revision k).2, dt)
            ((at_revision (S k)).2, rows_after_all (upgrade m) dt)) as Ha.
  { apply alters_total; [done|]. intros i o si. by apply (upgrade_accepted k m). }
  pose proof (alters_conforms _ _ _ _ Hwf Ha Hcf) as Hcf'. simpl in Hcf'.
  do 2 eexists. split_and!; [exact Ha|done| |by apply downgrade_alters| |].
  - intros n. by apply (upgraded_rows k).
  - by apply downgrade_conforms.
  - intros n. by apply (downgraded_rows k).
Qed.
