(* ===== verification/Config.v ===== *)
(** * Settings (config.py)

    The settings the control plane reads, with the defaults of the source,
    the worker's capability list and the timing check that [settings()] runs
    once at start-up.  Connection strings, logging and tracing settings are
    not modelled. *)

From S2P Require Import Prelude PyStr Json Capability Db.

Record Settings := MkSettings {
  health_probe_timeout_s : Q;
  lease_ttl_s : Z;
  lease_renew_interval_s : Z;
  heartbeat_interval_s : Z;
  worker_dead_after_s : Z;
  reaper_period_s : Z;
  poll_interval_ms : Z;
  claim_batch_size : Z;
  worker_capabilities : text;
  global_queue_shed_threshold : Z;
  drain_grace_s : Q;
}.

(** The field defaults. *)
Definition default_settings : Settings :=
  MkSettings 2 30 7 5 15 1 250 5 EmptyString 0 5.

(** [Settings.capabilities]: the comma-separated list, normalised. *)
Definition capabilities (s : Settings) : list text :=
  order_by String.le (remove_dups
    (norm1 <$> filter (λ c, truthy (strip c) = true) (split_on "," (worker_capabilities s)))).

(** [Settings.validate_timing]. *)
Definition validate_timing (s : Settings) : exn + unit :=
  if lease_ttl_s s <=? 3 * lease_renew_interval_s s then
    inl (ValueError ("lease_ttl_s=" +:+ pretty (lease_ttl_s s) +:+ " must exceed 3 renew intervals ("
      +:+ pretty (3 * lease_renew_interval_s s)
      +:+ "s); otherwise a single dropped renewal costs a worker its lease."))
  else if worker_dead_after_s s <=? 2 * heartbeat_interval_s s then
    inl (ValueError ("worker_dead_after_s=" +:+ pretty (worker_dead_after_s s)
      +:+ " must exceed 2 heartbeat intervals (" +:+ pretty (2 * heartbeat_interval_s s) +:+ "s)."))
  else inr tt.

(** [settings()]: a configuration that fails the check is never returned. *)
Definition settings (s : Settings) : exn + Settings :=
  match validate_timing s with inl e => inl e | inr _ => inr s end.

Example default_settings_valid : settings default_settings = inr default_settings.
Proof. reflexivity. Qed.

(** ** The worker and the domain normalise alike *)

Lemma kept_strip c : truthy (strip c) = true → kept c = true.
Proof. unfold kept. by destruct c. Qed.

Lemma capabilities_normalised s :
  capabilities s = normalised (split_on "," (worker_capabilities s)).
Proof.
  unfold capabilities, normalised, norm_set. f_equal. f_equal. f_equal.
  apply list_filter_iff. intros c. split; [apply kept_strip|].
  by intros [_ ?]%andb_true_iff.
Qed.

(** What the check buys: a lease renewed once survives two missed renewals,
    and a worker that misses one heartbeat is not declared dead. *)
Lemma settings_margins s s' :
  settings s = inr s' →
  s' = s ∧ 3 * lease_renew_interval_s s < lease_ttl_s s ∧
  2 * heartbeat_interval_s s < worker_dead_after_s s.
Proof.
  unfold settings, validate_timing.
  destruct (Z.leb_spec (lease_ttl_s s) (3 * lease_renew_interval_s s)); [done|].
  destruct (Z.leb_spec (worker_dead_after_s s) (2 * heartbeat_interval_s s)); [done|].
  intros [= <-]. auto.
Qed.
