(* ===== verification/Adapters.v ===== *)
(** * Adapters (agent/adapters/base.py, demo.py, tool_demo.py)

    An adapter turns a payload into a result.  What it may do on the way is
    an interaction tree: poll [is_cancelled], call a tool, and return or
    raise; it may also run forever.  It has no other access to the system.

    The demonstration adapters show the shapes: they return, raise, and call
    tools in a loop.  [SlowAdapter], which sleeps for a random time and returns
    a fraction, is an argument of the registry; of [ToolCallingAdapter] what is
    left open is a payload whose tools are no list of strings. *)

From ITree Require Import ITree.
From S2P Require Import Prelude PyStr Json Errors.
#[local] Open Scope Z_scope.

(** What an attempt may ask of the worker around it. *)
Variant AdapterE : Type → Type :=
  | IsCancelled : AdapterE bool
  | CallTool (tool_name : text) (request : jdict) : AdapterE (py_exc + jdict).

(** One run: a result, or the exception that left [run]. *)
Definition adapter_run : Type := itree AdapterE (py_exc + jdict).

(** [Adapter.run], applied to a payload. *)
Definition Adapter : Type := jdict → adapter_run.

(** ** The registry *)

(** [AdapterRegistry]: a factory gives a fresh adapter, here the adapter. *)
Definition AdapterRegistry : Type := gmap text Adapter.

Definition register (task_type : text) (factory : Adapter) (reg : AdapterRegistry)
    : AdapterRegistry := <[task_type := factory]> reg.

Definition get_adapter (reg : AdapterRegistry) (task_type : text) : py_exc + Adapter :=
  match reg !! task_type with
  | Some factory => inr factory
  | None => inl (UnknownTaskType task_type)
  end.

Definition known_types (reg : AdapterRegistry) : gset text := dom reg.

(** ** The demonstration adapters *)

Definition EchoAdapter : Adapter := λ payload, Ret (inr {[ "echo" := jobj payload ]}).

Definition AlwaysFailAdapter : Adapter := λ _, Ret (inl (Retryable "demo.fail always fails" None)).

Definition PermanentFailAdapter : Adapter :=
  λ _, Ret (inl (PermanentFailure "demo.permanent will never succeed" None)).

(** [v * 2] on a decoded JSON value. *)
Definition py_double (v : json) : py_exc + json :=
  match v with
  | JNum n => inr (JNum (n * 2))
  | JBool b => inr (JNum (if b then 2 else 0))
  | JStr s => inr (JStr (s +:+ s))
  | JArr l => inr (JArr (l ++ l))
  | JNull => inl (foreign "TypeError" [TypeErrorC]
      "unsupported operand type(s) for *: 'NoneType' and 'int'")
  | JObj _ => inl (foreign "TypeError" [TypeErrorC]
      "unsupported operand type(s) for *: 'dict' and 'int'")
  end.

Definition ValidatingAdapter : Adapter := λ payload,
  match payload !! "n" with
  | None => Ret (inl (InvalidInput "payload requires an 'n' field" None))
  | Some n =>
      match py_double n with
      | inl e => Ret (inl e)
      | inr n2 => Ret (inr {[ "n" := n; "doubled" := n2 ]})
      end
  end.

(** [float(text)]: a run of digits, single underscores between them. *)
Definition digit10 (c : ascii) : option Z :=
  let n := Ascii.nat_of_ascii c in
  if ((48 <=? n) && (n <=? 57))%nat then Some (Z.of_nat n - 48) else None.

(** The value read so far, how many digits, and the rest. *)
Fixpoint read_digits (s : text) (acc : Z) (n : nat) : Z * nat * text :=
  match s with
  | EmptyString => (acc, n, s)
  | String c s' =>
      match digit10 c with
      | Some d => read_digits s' (acc * 10 + d) (S n)
      | None =>
          match s' with
          | String c' s'' =>
              match digit10 c' with
              | Some d =>
                  if bool_decide (c = "_"%char) && (0 <? n)%nat
                  then read_digits s'' (acc * 10 + d) (S n) else (acc, n, s)
              | None => (acc, n, s)
              end
          | EmptyString => (acc, n, s)
          end
      end
  end.

Definition read_sign (s : text) : Z * text :=
  match s with
  | String c s' =>
      if bool_decide (c = "-"%char) then (-1, s')
      else if bool_decide (c = "+"%char) then (1, s') else (1, s)
  | EmptyString => (1, s)
  end.

Definition read_exponent (s : text) : option Z :=
  match s with
  | EmptyString => Some 0
  | String c s =>
      if bool_decide (lower_ascii c = "e"%char) then
        let '(sign, s) := read_sign s in
        let '(x, n, s) := read_digits s 0 0 in
        if (0 <? n)%nat && negb (truthy s) then Some (sign * x) else None
      else None
  end.

(** [m * 10 ** e]. *)
Definition scaled (m e : Z) : Q :=
  if 0 <=? e then inject_Z (m * 10 ^ e) else m # Z.to_pos (10 ^ (- e)).

(** An infinity: a number past every finite float. *)
Definition py_inf : Z := 2 ^ 1024.

Definition read_float (s : text) : option py_attr :=
  let '(sign, s) := read_sign (strip s) in
  if bool_decide (lower s ∈ ["inf"; "infinity"]) then Some (AttrNum (inject_Z (sign * py_inf)))
  else if bool_decide (lower s = "nan") then Some AttrOther
  else
    let '(m, n, s) := read_digits s 0 0 in
    let '(m, k, s) :=
      match s with
      | String c s' => if bool_decide (c = "."%char) then read_digits s' m 0 else (m, 0%nat, s)
      | EmptyString => (m, 0%nat, s)
      end in
    if (n + k =? 0)%nat then None
    else e ← read_exponent s; Some (AttrNum (scaled (sign * m) (e - Z.of_nat k))).

Definition not_a_number (ty : text) : py_exc :=
  foreign "TypeError" [TypeErrorC]
    ("float() argument must be a string or a real number, not '" +:+ ty +:+ "'").

(** [float(v)] on a decoded JSON value. *)
Definition py_float (v : json) : py_exc + py_attr :=
  match v with
  | JNum n =>
      if Z.abs n <? py_inf then inr (AttrNum (inject_Z n))
      else inl (foreign "OverflowError" [] "int too large to convert to float")
  | JBool b => inr (AttrNum (if b then 1 else 0)%Q)
  | JStr s =>
      match read_float s with
      | Some x => inr x
      | None => inl (foreign "ValueError" [ValueErrorC]
                       ("could not convert string to float: " +:+ repr s))
      end
  | JNull => inl (not_a_number "NoneType")
  | JArr _ => inl (not_a_number "list")
  | JObj _ => inl (not_a_number "dict")
  end.

Definition RateLimitedAdapter : Adapter := λ payload,
  match py_float (default (JNum 5) (payload !! "retry_after")) with
  | inl e => Ret (inl e)
  | inr x => Ret (inl (PyExc "RateLimited" [AdapterErrorC] FailureClass.RATE_LIMITED x
                         "demo.rate_limited"))
  end.

Example float_1 : read_float " -1_0.5e1 " = Some (AttrNum (-105 # 1)). Proof. reflexivity. Qed.
Example float_2 : read_float ".5" = Some (AttrNum (5 # 10)). Proof. reflexivity. Qed.
Example float_3 : read_float "1__0" = None. Proof. reflexivity. Qed.
Example float_4 : read_float "+Infinity" = Some (AttrNum (inject_Z py_inf)). Proof. reflexivity. Qed.
Example float_5 : read_float "e5" = None. Proof. reflexivity. Qed.

(** What the demonstration adapter asks for is what the retry policy reads. *)
Lemma rate_limited_hint n payload :
  payload !! "retry_after" = Some (JNum n) → 0 ≤ n < py_inf →
  ∃ e, RateLimitedAdapter payload = Ret (inl e) ∧ classify e = FailureClass.RATE_LIMITED ∧
    retry_after_of e = Some (inject_Z n).
Proof.
  intros Hp [H0 H1]. unfold RateLimitedAdapter. rewrite Hp. simpl. rewrite (Z.abs_eq n) by done.
  rewrite (proj2 (Z.ltb_lt _ _) H1). eexists. split; [done|]. split; [done|].
  unfold retry_after_of. simpl. rewrite (proj2 (Qle_bool_iff 0 (inject_Z n))); [done|].
  change 0%Q with (inject_Z 0). by rewrite <-Zle_Qle.
Qed.

(** The loop of [ToolCallingAdapter] over the names in its payload; an
    exception of a call leaves it. *)
Fixpoint call_each (names : list text) (request : jdict) (results : list json) : adapter_run :=
  match names with
  | [] => Ret (inr {[ "tool_results" := JArr results ]})
  | name :: names =>
      Vis (CallTool name request) (λ answer,
        match answer with
        | inl e => Ret (inl e)
        | inr result => call_each names request (results ++ [jobj result])
        end)
  end.

Definition not_iterable (ty : text) : py_exc :=
  foreign "TypeError" [TypeErrorC] ("'" +:+ ty +:+ "' object is not iterable").

(** [ToolCallingAdapter.run].  Where the payload names its tools otherwise
    than as a list of strings, but with something that can be iterated over,
    the run is [other]. *)
Definition ToolCallingAdapter (other : Adapter) : Adapter := λ payload,
  let request : jdict := {[ "task" := default JNull (payload !! "topic") ]} in
  match payload !! "tools" with
  | None => call_each [] request []
  | Some (JArr l) =>
      match mapM (λ v, match v with JStr name => Some name | _ => None end) l with
      | Some names => call_each names request []
      | None => other payload
      end
  | Some JNull => Ret (inl (not_iterable "NoneType"))
  | Some (JNum _) => Ret (inl (not_iterable "int"))
  | Some (JBool _) => Ret (inl (not_iterable "bool"))
  | Some (JStr _) | Some (JObj _) => other payload
  end.

(** ** The worker's registry (demo.py, tool_demo.py, worker/__main__.py)

    [SlowAdapter] is whatever adapter it is. *)

Definition register_demo_adapters (SlowAdapter : Adapter) (reg : AdapterRegistry) : AdapterRegistry :=
  register "demo.validate" ValidatingAdapter
    (register "demo.permanent" PermanentFailAdapter
      (register "demo.rate_limited" RateLimitedAdapter
        (register "demo.fail" AlwaysFailAdapter
          (register "demo.slow" SlowAdapter
            (register "demo.agent" EchoAdapter reg))))).

Definition register_tool_adapters (other : Adapter) (reg : AdapterRegistry) : AdapterRegistry :=
  register "demo.tools" (ToolCallingAdapter other) reg.

Definition build_registry (SlowAdapter other : Adapter) : AdapterRegistry :=
  register_tool_adapters other (register_demo_adapters SlowAdapter ∅).

(** These types are served, and no others. *)
Lemma build_registry_types slow other :
  known_types (build_registry slow other) =
    {[ "demo.agent"; "demo.slow"; "demo.fail"; "demo.rate_limited"; "demo.permanent"; "demo.validate";
       "demo.tools" ]}.
Proof. vm_compute. reflexivity. Qed.

(** A task of another type is refused, whatever its payload. *)
Lemma build_registry_unknown slow other ty :
  ty ∉ known_types (build_registry slow other) →
  get_adapter (build_registry slow other) ty = inl (UnknownTaskType ty).
Proof.
  unfold get_adapter. destruct (build_registry slow other !! ty) eqn:E; [|done].
  intros []. by eapply elem_of_dom_2.
Qed.
