(* ===== verification/Samples.v ===== *)
(** * A small concrete database

    The tables the witnesses of the other files run on: two tenants, two
    workers, and one task in each interesting situation. *)

From S2P Require Import Prelude PyStr Json States Authz Capability Db.

Definition us (s : Z) : timestamp := s * second.

(** A transaction at [s] seconds, nothing locked; a fraction of a second is
    rounded down to microseconds. *)
Definition txn_at (s : Z) : txn :=
  MkTxn (us s) ∅ 99 (λ q, (Qnum q * second) / Zpos (Qden q)) (λ _ _, 0).

Definition ex_spec (i : uuid) (key : option text) (priority : Z) : task_spec :=
  MkTaskSpec i 1 "demo" {[ "n" := JNum 1 ]} key priority 3 300 None [] EmptyString (us 1).

(** Waiting since second 1. *)
Definition ex_queued (i : uuid) (priority : Z) : task_row :=
  MkTask (ex_spec i None priority) State.QUEUED 0 (us 1) None None false None None None (us 1) None None.

(** Held by [w] under attempt 1, lease until second 40. *)
Definition ex_running (i : uuid) (w : text) (cancel : bool) : task_row :=
  MkTask (ex_spec i (Some "key-1") 100) State.RUNNING 1 (us 1) (Some w) (Some (us 40)) cancel None
    None None (us 10) (Some (us 10)) None.

(** Retried long after its first start, ready again. *)
Definition ex_retried (i : uuid) : task_row :=
  MkTask (ex_spec i None 100) State.QUEUED 1 (us 300) None None false None (Some "TIMEOUT")
    (Some "slow") (us 300) (Some (us 2)) None.

Definition ex_tenant : tenant_row := MkTenant 1 "acme" 2 10 1 0.

Definition ex_worker (w : text) (s : worker_status) : worker_row :=
  MkWorker w "host" 1 4 [] s (us 1) (us 1).

Definition ex_attempt (i : uuid) (w : text) : attempt_row :=
  MkAttempt i 1 w (us 10) None None None None.

(** Tasks 10 and 11 wait, 12 runs under [w1]. *)
Definition ex_db : db :=
  MkDb {[ 1%N := ex_tenant ]}
    (<[ 10%N := ex_queued 10 100 ]> (<[ 11%N := ex_queued 11 50 ]> {[ 12%N := ex_running 12 "w1" true ]}))
    [] (<[ "w1" := ex_worker "w1" WorkerStatus.ALIVE ]> {[ "w2" := ex_worker "w2" WorkerStatus.DEAD ]})
    {[ (12%N, 1) := ex_attempt 12 "w1" ]} ∅ ∅ ∅ ∅ ∅ [].

(** Every capability set of the samples is empty. *)
Lemma ex_tasks_cases (P : uuid → task_row → Prop) :
  P 10%N (ex_queued 10 100) → P 11%N (ex_queued 11 50) → P 12%N (ex_running 12 "w1" true) →
  ∀ i r, tasks ex_db !! i = Some r → P i r.
Proof.
  intros H1 H2 H3. unfold ex_db. simpl. apply map_Forall_insert_2; [done|].
  apply map_Forall_insert_2; [done|]. by apply map_Forall_singleton.
Qed.

(** Agent 20 with its released version 21, routed for "research"; tools 30
    (granted) and 31 (not granted). *)
Definition ex_agent : agent_row :=
  MkAgent 20 1 "researcher" None AgentStatus.ACTIVE (Some 21%N) (us 1) (us 1).
Definition ex_version : version_row :=
  MkVersion 21 20 1 {[ "task_type" := JStr "demo.tools" ]} ["Internet"] ∅ 2 60 VersionStatus.ACTIVE (us 1).
Definition ex_tool (i : uuid) (name : text) : tool_row :=
  MkTool i 1 name None ToolType.SIMULATED ∅ ToolStatus.ACTIVE (us 1).

Definition ex_registry : db :=
  MkDb {[ 1%N := ex_tenant ]} ∅ [] ∅ ∅ {[ 20%N := ex_agent ]} {[ 21%N := ex_version ]}
    {[ (1%N, "research") := MkRoute 1 "research" 20 (us 1) ]}
    (<[ 30%N := ex_tool 30 "search" ]> {[ 31%N := ex_tool 31 "shell" ]})
    {[ (21%N, 30%N) := MkGrant 21 30 (us 1) ]} [].
