(* ===== verification/Transitions.v ===== *)
(** * Compare-and-set transitions (db/queries/transitions.py)

    [transition] is the guarded UPDATE followed by its event, [explain] the
    classification of a rejected one, [record_event] the bare event. *)

From S2P Require Import Prelude PyStr Json States Db Samples.

Module Rejection.
Inductive reason :=
  | NOT_FOUND | STATE_MISMATCH | ATTEMPT_MISMATCH | WORKER_MISMATCH
  | LEASE_NOT_EXPIRED | EXECUTION_TIME_NOT_EXCEEDED.

Definition value (r : reason) : text :=
  match r with
  | NOT_FOUND => "not_found" | STATE_MISMATCH => "state_mismatch"
  | ATTEMPT_MISMATCH => "attempt_mismatch" | WORKER_MISMATCH => "worker_mismatch"
  | LEASE_NOT_EXPIRED => "lease_not_expired"
  | EXECUTION_TIME_NOT_EXCEEDED => "execution_time_not_exceeded"
  end.
End Rejection.

#[global] Instance rejection_eq_dec : EqDecision Rejection.reason.
Proof. solve_decision. Defined.

(** The columns [_explain] reads back. *)
Record observed_row := MkObserved {
  ob_state : state;
  ob_attempt : Z;
  ob_lease_worker_id : option text;
  ob_lease_expires_at : option timestamp;
  ob_first_started_at : option timestamp;
  ob_max_execution_time_s : Z;
}.

Record TransitionResult := MkResult {
  applied : bool;
  task : option task_row;
  rejection : option Rejection.reason;
  observed : option observed_row;
}.

(** The keyword arguments that form the predicate. *)
Record expectation := Expect {
  expect_state : list state;
  expect_attempt : option Z;
  expect_worker : option text;
  expect_lease_expired : bool;
  expect_execution_time_exceeded : bool;
}.

Definition lease_expired (now : timestamp) (r : task_row) : bool :=
  sql_lt (t_lease_expires_at r) now.

Definition execution_time_exceeded (now : timestamp) (r : task_row) : bool :=
  sql_lt ((λ s, s + seconds (t_max_execution_time_s r)) <$> t_first_started_at r) now.

(** The WHERE clause, after [id = task_id]. *)
Definition cas_holds (now : timestamp) (e : expectation) (r : task_row) : bool :=
  bool_decide (t_state r ∈ expect_state e)
  && match expect_attempt e with Some a => t_attempt r =? a | None => true end
  && match expect_worker e with Some w => sql_eq (t_lease_worker_id r) w | None => true end
  && (if expect_lease_expired e then lease_expired now r else true)
  && (if expect_execution_time_exceeded e then execution_time_exceeded now r else true).

Definition observe (r : task_row) : observed_row :=
  MkObserved (t_state r) (t_attempt r) (t_lease_worker_id r) (t_lease_expires_at r)
    (t_first_started_at r) (t_max_execution_time_s r).

(** Which conjunct of the predicate the re-read row fails, in the source's order. *)
Definition explain_row (now : timestamp) (e : expectation) (r : task_row) : Rejection.reason :=
  if bool_decide (t_state r ∉ expect_state e) then Rejection.STATE_MISMATCH
  else if match expect_attempt e with Some a => negb (t_attempt r =? a) | None => false end
  then Rejection.ATTEMPT_MISMATCH
  else if match expect_worker e with
          | Some w => bool_decide (t_lease_worker_id r ≠ Some w) | None => false end
  then Rejection.WORKER_MISMATCH
  else if expect_lease_expired e && negb (lease_expired now r)
  then Rejection.LEASE_NOT_EXPIRED
  else if expect_execution_time_exceeded e && negb (execution_time_exceeded now r)
  then Rejection.EXECUTION_TIME_NOT_EXCEEDED
  else Rejection.STATE_MISMATCH.

Definition explain (task_id : uuid) (e : expectation) : M TransitionResult :=
  t ← ask; d ← get;
  match tasks d !! task_id with
  | None => mret (MkResult false None (Some Rejection.NOT_FOUND) None)
  | Some r => mret (MkResult false None (Some (explain_row (now t) e r)) (Some (observe r)))
  end.

Definition require_legal (to_state : state) (src : state) : M unit :=
  match assert_legal src to_state with inl ex => raise (ExnIllegal ex) | inr _ => mret tt end.

Definition transition (task_id : uuid) (e : expectation) (to_state : state)
    (ty : event_type) (set_fields : list assign) (event_data : jdict) : M TransitionResult :=
  if bool_decide (expect_state e = []) then
    raise (ValueError "expect_state is required; it is the CAS anchor, not an optimisation")
  else
    for_each (expect_state e) (require_legal to_state) ;;
    t ← ask;
    row ← update_task task_id (cas_holds (now t) e)
            (λ _, SetState to_state :: SetUpdatedAt (now t) :: set_fields);
    match row with
    | None => explain task_id e
    | Some r =>
        insert_event task_id (Some (t_attempt r)) ty
          (or_text (t_lease_worker_id r) (expect_worker e)) event_data ;;
        mret (MkResult true (Some r) None None)
    end.

Definition record_event (task_id : uuid) (ty : event_type) (attempt : option Z)
    (worker_id : option text) (data : jdict) : M unit :=
  insert_event task_id attempt ty worker_id data.

(** ** Running a transition *)

Definition mk_event (d : db) (t : txn) (i : uuid) (a : option Z) ty w data : event_row :=
  MkEvent (S (length (task_events d))) i a ty w data (now t).

Definition add_event (d : db) (ev : event_row) : db :=
  set_events (task_events d ++ [ev]) d.

(** A task's timeline: its events in insertion order. *)
Definition log (d : db) (i : uuid) : list event_row :=
  filter (λ ev, ev_task_id ev = i) (task_events d).

Lemma log_add_event d ev i :
  log (add_event d ev) i = if decide (ev_task_id ev = i) then log d i ++ [ev] else log d i.
Proof.
  unfold log, add_event. simpl. rewrite filter_app, filter_cons, filter_nil.
  case_decide; [done|]. by rewrite app_nil_r.
Qed.

(** The row a transition writes. *)
Definition moved_row (t : txn) (to_state : state) (set_fields : list assign) (r : task_row) :=
  assigns (SetState to_state :: SetUpdatedAt (now t) :: set_fields) r.

Definition moved_db (t : txn) (d : db) (i : uuid) (r' : task_row) ty w data : db :=
  add_event (set_tasks (<[i := r']> (tasks d)) d)
    (mk_event d t i (Some (t_attempt r')) ty (or_text (t_lease_worker_id r') w) data).

Lemma for_each_legal srcs to t d :
  (∀ s, s ∈ srcs → is_legal s to = true) →
  for_each srcs (require_legal to) t d = inr (tt, d).
Proof.
  induction srcs as [|s srcs IH]; intros H; simpl; [done|].
  rewrite bind_run. unfold require_legal at 1. rewrite (proj2 (assert_legal_spec s to)).
  - apply IH. intros. apply H. by right.
  - apply H. by left.
Qed.

Lemma for_each_illegal srcs to t d :
  (∃ s, s ∈ srcs ∧ is_legal s to = false) →
  ∃ s, s ∈ srcs ∧ is_legal s to = false ∧
    for_each srcs (require_legal to) t d = inl (ExnIllegal (IllegalTransition s to)).
Proof.
  induction srcs as [|s srcs IH]; [by intros (? & ?%not_elem_of_nil & _)|].
  intros (u & Hu & Hill). simpl. rewrite bind_run. unfold require_legal at 1, assert_legal.
  destruct (is_legal s to) eqn:E; simpl.
  - destruct IH as (v & Hv & ? & Heq).
    { exists u. apply elem_of_cons in Hu as [->|]; [congruence|done]. }
    exists v. split; [by right|]. done.
  - exists s. split; [by left|]. done.
Qed.

Lemma insert_event_run i a ty w data t d :
  is_Some (tasks d !! i) → fits_int4 (default 0 a) = true →
  insert_event i a ty w data t d = inr (tt, add_event d (mk_event d t i a ty w data)).
Proof.
  intros [r Hr] Hf. unfold insert_event. rewrite bind_run. cbn [get]. rewrite bind_run. cbn [ask].
  by rewrite Hf, Hr.
Qed.

Lemma insert_event_inv i a ty w data t d u d' :
  insert_event i a ty w data t d = inr (u, d') →
  is_Some (tasks d !! i) ∧ fits_int4 (default 0 a) = true ∧
  d' = add_event d (mk_event d t i a ty w data).
Proof.
  unfold insert_event. rewrite bind_run. cbn [get]. rewrite bind_run. cbn [ask].
  destruct (fits_int4 _); [|done]. destruct (tasks d !! i) as [r|]; [|done]. intros [= _ <-]. eauto.
Qed.

(** ** One event per row of a batch *)

Definition ids_of (rs : list task_row) : list uuid := (λ r : task_row, t_id r) <$> rs.

Section row_events.
Context (t : txn) (ty : event_type) (w : option text) (data : jdict).

Definition row_event (d : db) (r : task_row) : db :=
  add_event d (mk_event d t (t_id r) (Some (t_attempt r)) ty w data).

Lemma row_events_run (rows : list task_row) d :
  (∀ r : task_row, r ∈ rows → is_Some (tasks d !! t_id r) ∧ task_error r = None) →
  for_each rows (λ r : task_row, insert_event (t_id r) (Some (t_attempt r)) ty w data) t d
  = inr (tt, foldl row_event d rows).
Proof using.
  intros H. apply for_each_fold with (I := λ d', tasks d' = tasks d); [done|].
  intros r d' Hr Ht. split; [|done]. destruct (H r Hr) as [Hrow Hok%task_error_fits].
  apply insert_event_run; [by rewrite Ht|done].
Qed.

Lemma row_events_log_ne (rows : list task_row) d i :
  i ∉ ids_of rows → log (foldl row_event d rows) i = log d i.
Proof using.
  revert d. induction rows as [|r rows IH]; intros d; simpl; [done|].
  rewrite not_elem_of_cons. intros [Hne Hi]. rewrite IH by done.
  unfold row_event. rewrite log_add_event. simpl. by rewrite decide_False.
Qed.

Lemma row_events_log (rows : list task_row) d (r : task_row) :
  NoDup (ids_of rows) → r ∈ rows → ∃ n,
    log (foldl row_event d rows) (t_id r) =
    log d (t_id r) ++ [MkEvent n (t_id r) (Some (t_attempt r)) ty w data (now t)].
Proof using.
  revert d. induction rows as [|r' rows IH]; intros d Hnd; [by intros ?%not_elem_of_nil|].
  apply NoDup_cons in Hnd as [Hnin Hnd]. intros [<-|Hr]%elem_of_cons; simpl.
  - rewrite row_events_log_ne by done. unfold row_event. rewrite log_add_event. simpl.
    rewrite decide_True by done. eexists. done.
  - destruct (IH (row_event d r') Hnd Hr) as [n Hn]. exists n. rewrite Hn.
    unfold row_event. rewrite log_add_event. simpl. rewrite decide_False; [done|].
    intros Heq. destruct Hnin. unfold ids_of. rewrite Heq. apply list_elem_of_fmap. eauto.
Qed.

Lemma row_events_tasks (rows : list task_row) d : tasks (foldl row_event d rows) = tasks d.
Proof using. by rewrite foldl_keep. Qed.

Lemma row_events_attempts (rows : list task_row) d :
  task_attempts (foldl row_event d rows) = task_attempts d.
Proof using. by rewrite foldl_keep. Qed.
End row_events.

Section run.
Context (i : uuid) (e : expectation) (to : state) (ty : event_type)
        (sets : list assign) (data : jdict) (t : txn) (d : db).
Hypothesis Hne : expect_state e ≠ [].
Hypothesis Hlegal : ∀ s, s ∈ expect_state e → is_legal s to = true.

Lemma transition_applied r :
  tasks d !! i = Some r → cas_holds (now t) e r = true →
  task_error (moved_row t to sets r) = None →
  transition i e to ty sets data t d =
    let r' := moved_row t to sets r in
    inr (MkResult true (Some r') None None, moved_db t d i r' ty (expect_worker e) data).
Proof using Hne Hlegal.
  intros Hr Hcas Hok. unfold transition.
  rewrite bool_decide_eq_false_2 by done. rewrite bind_run, for_each_legal by done.
  rewrite bind_run. cbn [ask]. rewrite bind_run. unfold update_task at 1.
  rewrite bind_run. cbn [get]. rewrite Hr, Hcas. cbv zeta.
  fold (moved_row t to sets r). rewrite Hok. rewrite bind_run. cbn [modify mret M_ret].
  rewrite bind_run, insert_event_run; [done| |by apply task_error_fits].
  simpl. rewrite lookup_insert_eq. eauto.
Qed.

Lemma transition_constraint r ex :
  tasks d !! i = Some r → cas_holds (now t) e r = true →
  task_error (moved_row t to sets r) = Some ex →
  transition i e to ty sets data t d = inl ex.
Proof using Hne Hlegal.
  intros Hr Hcas Hok. unfold transition.
  rewrite bool_decide_eq_false_2 by done. rewrite bind_run, for_each_legal by done.
  rewrite bind_run. cbn [ask]. rewrite bind_run. unfold update_task at 1.
  rewrite bind_run. cbn [get]. rewrite Hr, Hcas. cbv zeta.
  fold (moved_row t to sets r). by rewrite Hok.
Qed.

Lemma transition_rejected r :
  tasks d !! i = Some r → cas_holds (now t) e r = false →
  transition i e to ty sets data t d =
    inr (MkResult false None (Some (explain_row (now t) e r)) (Some (observe r)), d).
Proof using Hne Hlegal.
  intros Hr Hcas. unfold transition.
  rewrite bool_decide_eq_false_2 by done. rewrite bind_run, for_each_legal by done.
  rewrite bind_run. cbn [ask]. rewrite bind_run. unfold update_task at 1.
  rewrite bind_run. cbn [get]. rewrite Hr, Hcas. cbn [mret M_ret].
  unfold explain. rewrite bind_run. cbn [ask]. rewrite bind_run. cbn [get]. by rewrite Hr.
Qed.

Lemma transition_missing :
  tasks d !! i = None →
  transition i e to ty sets data t d =
    inr (MkResult false None (Some Rejection.NOT_FOUND) None, d).
Proof using Hne Hlegal.
  intros Hr. unfold transition.
  rewrite bool_decide_eq_false_2 by done. rewrite bind_run, for_each_legal by done.
  rewrite bind_run. cbn [ask]. rewrite bind_run. unfold update_task at 1.
  rewrite bind_run. cbn [get]. rewrite Hr. cbn [mret M_ret].
  unfold explain. rewrite bind_run. cbn [ask]. rewrite bind_run. cbn [get]. by rewrite Hr.
Qed.

(** Inversion: what a transition that returned did. *)
Lemma transition_inv res d' :
  transition i e to ty sets data t d = inr (res, d') →
  (applied res = false ∧ d' = d ∧
     ∀ r, tasks d !! i = Some r → cas_holds (now t) e r = false) ∨
  (applied res = true ∧ ∃ r, tasks d !! i = Some r ∧ cas_holds (now t) e r = true ∧
     let r' := moved_row t to sets r in
     task_error r' = None ∧ task res = Some r' ∧
     d' = moved_db t d i r' ty (expect_worker e) data).
Proof using Hne Hlegal.
  destruct (tasks d !! i) as [r|] eqn:Hr.
  - destruct (cas_holds (now t) e r) eqn:Hcas.
    + destruct (task_error (moved_row t to sets r)) eqn:Hok.
      * rewrite (transition_constraint _ _ Hr Hcas Hok). done.
      * rewrite (transition_applied _ Hr Hcas Hok). intros [= <- <-].
        right. simpl. split; [done|]. exists r. done.
    + rewrite (transition_rejected _ Hr Hcas). intros [= <- <-].
      left. simpl. split_and!; [done|done|]. by intros ? [= <-].
  - rewrite (transition_missing Hr). intros [= <- <-]. left. simpl. split_and!; done.
Qed.
End run.

(** ** The rejection reasons *)

Lemma cas_holds_spec now e r :
  cas_holds now e r = true ↔
  t_state r ∈ expect_state e ∧
  (∀ a, expect_attempt e = Some a → t_attempt r = a) ∧
  (∀ w, expect_worker e = Some w → t_lease_worker_id r = Some w) ∧
  (expect_lease_expired e = true → lease_expired now r = true) ∧
  (expect_execution_time_exceeded e = true → execution_time_exceeded now r = true).
Proof.
  unfold cas_holds, sql_eq. rewrite !andb_true_iff, bool_decide_eq_true.
  destruct (expect_attempt e), (expect_worker e), (expect_lease_expired e),
    (expect_execution_time_exceeded e);
    rewrite ?Z.eqb_eq, ?bool_decide_eq_true; naive_solver.
Qed.

(** On the row the UPDATE saw, the reason names the first conjunct that
    failed: STATE_MISMATCH is only reported when the state does differ. *)
Lemma explain_row_exact now e r :
  cas_holds now e r = false →
  match explain_row now e r with
  | Rejection.NOT_FOUND => False
  | Rejection.STATE_MISMATCH => t_state r ∉ expect_state e
  | Rejection.ATTEMPT_MISMATCH =>
      t_state r ∈ expect_state e ∧ ∃ a, expect_attempt e = Some a ∧ t_attempt r ≠ a
  | Rejection.WORKER_MISMATCH =>
      t_state r ∈ expect_state e ∧ ∃ w, expect_worker e = Some w ∧ t_lease_worker_id r ≠ Some w
  | Rejection.LEASE_NOT_EXPIRED => lease_expired now r = false
  | Rejection.EXECUTION_TIME_NOT_EXCEEDED => execution_time_exceeded now r = false
  end.
Proof.
  unfold cas_holds, explain_row, sql_eq. intros H.
  destruct (decide (t_state r ∈ expect_state e)) as [Hs|Hs].
  2: { by rewrite bool_decide_eq_true_2. }
  rewrite bool_decide_eq_false_2 by (intros ?; done).
  rewrite bool_decide_eq_true_2 in H by done. simpl in H.
  destruct (expect_attempt e) as [a|]; [destruct (t_attempt r =? a) eqn:Ea; simpl in *|simpl in *];
    try (split; [done|]; exists a; split; [done|]; by apply Z.eqb_neq).
  all: destruct (expect_worker e) as [w|];
    [destruct (decide (t_lease_worker_id r = Some w)) as [Hw|Hw]|];
    rewrite ?(bool_decide_eq_true_2 (_ ≠ _)) by done; eauto.
  all: rewrite ?(bool_decide_eq_false_2 (_ ≠ _)) by (intros ?; done).
  all: rewrite ?bool_decide_eq_true_2 in H by done; simpl in H.
  all: destruct (expect_lease_expired e), (lease_expired now r); simpl in *; try done.
  all: destruct (expect_execution_time_exceeded e), (execution_time_exceeded now r); simpl in *; done.
Qed.

(** C26: the transition contract. For a legal, non-empty set of expected
    states: when the row exists and satisfies the whole predicate the
    transition writes exactly that row and one event in the same step (or
    the write is refused by a column constraint, and nothing is written);
    otherwise nothing changes and the result is a value, NOT_FOUND or the
    first conjunct that failed. An illegal source state raises and changes
    nothing. *)
Theorem transition_correct i e to ty sets data t d :
  expect_state e ≠ [] →
  ((∃ s, s ∈ expect_state e ∧ is_legal s to = false) →
     ∃ s, s ∈ expect_state e ∧
       transition i e to ty sets data t d = inl (ExnIllegal (IllegalTransition s to))) ∧
  ((∀ s, s ∈ expect_state e → is_legal s to = true) →
     match tasks d !! i with
     | None => transition i e to ty sets data t d
               = inr (MkResult false None (Some Rejection.NOT_FOUND) None, d)
     | Some r =>
         if cas_holds (now t) e r then
           match task_error (moved_row t to sets r) with
           | None => transition i e to ty sets data t d =
               inr (MkResult true (Some (moved_row t to sets r)) None None,
                    moved_db t d i (moved_row t to sets r) ty (expect_worker e) data)
           | Some ex => transition i e to ty sets data t d = inl ex
           end
         else transition i e to ty sets data t d =
               inr (MkResult false None (Some (explain_row (now t) e r)) (Some (observe r)), d)
              ∧ (explain_row (now t) e r = Rejection.STATE_MISMATCH ↔ t_state r ∉ expect_state e)
     end).
Proof.
  intros Hne. split.
  - intros (s & Hs & Hill & Hf)%(for_each_illegal _ _ t d). exists s. split; [done|].
    unfold transition. rewrite bool_decide_eq_false_2 by done. by rewrite bind_run, Hf.
  - intros Hlegal. destruct (tasks d !! i) as [r|] eqn:Hr.
    + destruct (cas_holds (now t) e r) eqn:Hcas.
      * destruct (task_error (moved_row t to sets r)) eqn:Hok.
        -- by eapply transition_constraint.
        -- by eapply transition_applied.
      * split; [by apply transition_rejected|]. pose proof (explain_row_exact _ _ _ Hcas) as Hx.
        split; [intros E; by rewrite E in Hx|].
        intros Hs. unfold explain_row. by rewrite bool_decide_eq_true_2.
    + by apply transition_missing.
Qed.

Lemma transition_correct_witness :
  let e := Expect [State.RUNNING] (Some 1) (Some "w1") false false in
  transition 12 e State.SUCCEEDED EventType.TASK_SUCCEEDED
    [SetLeaseWorker None; SetLeaseExpires None] ∅ (txn_at 20) ex_db
  = inr (MkResult true (Some (moved_row (txn_at 20) State.SUCCEEDED
                          [SetLeaseWorker None; SetLeaseExpires None] (ex_running 12 "w1" true))) None None,
      moved_db (txn_at 20) ex_db 12
        (moved_row (txn_at 20) State.SUCCEEDED [SetLeaseWorker None; SetLeaseExpires None]
           (ex_running 12 "w1" true)) EventType.TASK_SUCCEEDED (Some "w1") ∅).
Proof.
  intros e. apply (proj2 (transition_correct 12 e State.SUCCEEDED EventType.TASK_SUCCEEDED
    [SetLeaseWorker None; SetLeaseExpires None] ∅ (txn_at 20) ex_db ltac:(discriminate))).
  intros s ->%list_elem_of_singleton. reflexivity.
Defined.
