(* ===== verification/Completion.v ===== *)
(** * How an attempt ends (db/queries/completion.py)

    The five endings a worker chooses, each a [transition] fenced on the
    attempt and the worker, paired with the update of the attempt's row.
    [run_completion] dispatches on the ending, so that one statement covers
    all five. *)

From S2P Require Import Prelude PyStr Json States Db Samples Transitions.

Definition finish_attempt (task_id : uuid) (attempt : Z) (o : outcome)
    (error_class error_message : option text) : M unit :=
  t ← ask;
  modify (λ d, set_attempts (alter (λ a,
    MkAttempt (a_task_id a) (a_attempt a) (a_worker_id a) (a_started_at a)
      (Some (now t)) (Some o) error_class error_message)
    (task_id, attempt) (task_attempts d)) d).

(** [expect_state=RUNNING, expect_attempt=attempt, expect_worker=worker_id]. *)
Definition owned_by (attempt : Z) (worker_id : text) : expectation :=
  Expect [State.RUNNING] (Some attempt) (Some worker_id) false false.

Definition complete_success (task_id : uuid) (attempt : Z) (worker_id : text) (result : jdict)
    : M TransitionResult :=
  t ← ask;
  res ← transition task_id (owned_by attempt worker_id) State.SUCCEEDED EventType.TASK_SUCCEEDED
    [SetResult (Some result); SetFinishedAt (Some (now t)); SetLeaseWorker None;
     SetLeaseExpires None] ∅;
  (if applied res then finish_attempt task_id attempt Outcome.SUCCEEDED None None else mret tt) ;;
  mret res.

Definition complete_retry (task_id : uuid) (attempt : Z) (worker_id : text)
    (error_class error_message : text) (backoff_s : Q) : M TransitionResult :=
  t ← ask;
  delay ← float_seconds backoff_s;
  res ← transition task_id (owned_by attempt worker_id) State.QUEUED EventType.RETRY_SCHEDULED
    [SetAvailableAt (now t + delay); SetLeaseWorker None; SetLeaseExpires None;
     SetErrorClass (Some error_class); SetErrorMessage (Some error_message)]
    {[ "error_class" := JStr error_class ]};
  (if applied res then
     load_timestamp (now t + delay) ;;    (* of the row the UPDATE returns *)
     finish_attempt task_id attempt Outcome.FAILED (Some error_class) (Some error_message)
   else mret tt) ;;
  mret res.

Definition complete_failed (task_id : uuid) (attempt : Z) (worker_id : text)
    (error_class error_message : text) : M TransitionResult :=
  t ← ask;
  res ← transition task_id (owned_by attempt worker_id) State.FAILED EventType.TASK_FAILED
    [SetFinishedAt (Some (now t)); SetErrorClass (Some error_class);
     SetErrorMessage (Some error_message); SetLeaseWorker None; SetLeaseExpires None] ∅;
  (if applied res then
     finish_attempt task_id attempt Outcome.FAILED (Some error_class) (Some error_message)
   else mret tt) ;;
  mret res.

Definition complete_cancelled (task_id : uuid) (attempt : Z) (worker_id : text)
    : M TransitionResult :=
  t ← ask;
  res ← transition task_id (owned_by attempt worker_id) State.CANCELLED EventType.TASK_CANCELLED
    [SetFinishedAt (Some (now t)); SetLeaseWorker None; SetLeaseExpires None] ∅;
  (if applied res then finish_attempt task_id attempt Outcome.CANCELLED None None else mret tt) ;;
  mret res.

Definition complete_abandoned (task_id : uuid) (attempt : Z) (worker_id : text) (reason : text)
    : M TransitionResult :=
  t ← ask;
  res ← transition task_id (owned_by attempt worker_id) State.QUEUED EventType.TASK_ABANDONED
    [SetAvailableAt (now t); SetLeaseWorker None; SetLeaseExpires None]
    {[ "reason" := JStr reason ]};
  (if applied res then finish_attempt task_id attempt Outcome.ABANDONED (Some reason) None
   else mret tt) ;;
  mret res.

(** ** One shape for the five *)

Inductive completion :=
  | CSuccess (result : jdict)
  | CRetry (error_class error_message : text) (backoff_s : Q)
  | CFailed (error_class error_message : text)
  | CCancelled
  | CAbandoned (reason : text).

Definition run_completion (c : completion) (i : uuid) (attempt : Z) (w : text)
    : M TransitionResult :=
  match c with
  | CSuccess result => complete_success i attempt w result
  | CRetry ec em b => complete_retry i attempt w ec em b
  | CFailed ec em => complete_failed i attempt w ec em
  | CCancelled => complete_cancelled i attempt w
  | CAbandoned reason => complete_abandoned i attempt w reason
  end.

Definition c_state (c : completion) : state :=
  match c with
  | CSuccess _ => State.SUCCEEDED | CRetry _ _ _ => State.QUEUED
  | CFailed _ _ => State.FAILED | CCancelled => State.CANCELLED | CAbandoned _ => State.QUEUED
  end.

Definition c_event (c : completion) : event_type :=
  match c with
  | CSuccess _ => EventType.TASK_SUCCEEDED | CRetry _ _ _ => EventType.RETRY_SCHEDULED
  | CFailed _ _ => EventType.TASK_FAILED | CCancelled => EventType.TASK_CANCELLED
  | CAbandoned _ => EventType.TASK_ABANDONED
  end.

Definition c_outcome (c : completion) : outcome :=
  match c with
  | CSuccess _ => Outcome.SUCCEEDED | CRetry _ _ _ => Outcome.FAILED
  | CFailed _ _ => Outcome.FAILED | CCancelled => Outcome.CANCELLED
  | CAbandoned _ => Outcome.ABANDONED
  end.

Definition c_errors (c : completion) : option text * option text :=
  match c with
  | CRetry ec em _ | CFailed ec em => (Some ec, Some em)
  | CAbandoned reason => (Some reason, None)
  | _ => (None, None)
  end.

(** The row each ending leaves behind. *)
Definition c_sets (c : completion) (t : txn) : list assign :=
  match c with
  | CSuccess result => [SetResult (Some result); SetFinishedAt (Some (now t));
                        SetLeaseWorker None; SetLeaseExpires None]
  | CRetry ec em b => [SetAvailableAt (now t + interval_us t b); SetLeaseWorker None;
                       SetLeaseExpires None; SetErrorClass (Some ec); SetErrorMessage (Some em)]
  | CFailed ec em => [SetFinishedAt (Some (now t)); SetErrorClass (Some ec);
                      SetErrorMessage (Some em); SetLeaseWorker None; SetLeaseExpires None]
  | CCancelled => [SetFinishedAt (Some (now t)); SetLeaseWorker None; SetLeaseExpires None]
  | CAbandoned _ => [SetAvailableAt (now t); SetLeaseWorker None; SetLeaseExpires None]
  end.

Definition c_row (c : completion) (t : txn) (r : task_row) : task_row :=
  moved_row t (c_state c) (c_sets c t) r.

Definition c_data (c : completion) : jdict :=
  match c with
  | CRetry ec _ _ => {[ "error_class" := JStr ec ]}
  | CAbandoned reason => {[ "reason" := JStr reason ]}
  | _ => ∅
  end.

Definition finish_row (t : txn) (o : outcome) (ec em : option text) (a : attempt_row) :=
  MkAttempt (a_task_id a) (a_attempt a) (a_worker_id a) (a_started_at a)
    (Some (now t)) (Some o) ec em.

Definition finished_db (t : txn) (d : db) (i : uuid) (attempt : Z) (o : outcome)
    (ec em : option text) : db :=
  set_attempts (alter (finish_row t o ec em) (i, attempt) (task_attempts d)) d.

Lemma finish_attempt_run i attempt o ec em t d :
  finish_attempt i attempt o ec em t d = inr (tt, finished_db t d i attempt o ec em).
Proof. done. Qed.

(** A retry's delay fits an interval; its due time can be handed back. *)
Definition c_fits (c : completion) (t : txn) : bool :=
  match c with CRetry _ _ b => interval_fits (interval_us t b) | _ => true end.
Definition c_loads (c : completion) (t : txn) : bool :=
  match c with CRetry _ _ b => loadable (now t + interval_us t b) | _ => true end.
Definition storable (c : completion) (t : txn) : bool := c_fits c t && c_loads c t.

Lemma run_completion_shape c i attempt w t d :
  c_fits c t = true →
  run_completion c i attempt w t d =
  match transition i (owned_by attempt w) (c_state c) (c_event c) (c_sets c t) (c_data c) t d with
  | inl e => inl e
  | inr (res, d1) =>
      if applied res then
        if c_loads c t
        then inr (res, finished_db t d1 i attempt (c_outcome c) (c_errors c).1 (c_errors c).2)
        else inl (DataError "timestamp")
      else inr (res, d1)
  end.
Proof.
  destruct c; unfold run_completion, complete_success, complete_retry, complete_failed,
    complete_cancelled, complete_abandoned, c_fits, c_loads; intros Hfit; rewrite bind_run; cbn [ask];
    rewrite bind_run; try (unfold float_seconds; rewrite bind_run; cbn [ask]; rewrite Hfit;
      cbn [mret M_ret]; rewrite bind_run);
    simpl; match goal with |- context [transition ?a ?b ?c ?d ?e ?f ?g ?h] =>
      destruct (transition a b c d e f g h) as [|[res d1]] end; try done;
    rewrite bind_run; destruct (applied res); try done.
  rewrite bind_run. unfold load_timestamp. by destruct (loadable _).
Qed.

Lemma run_completion_unfit c i attempt w t d :
  c_fits c t = false → run_completion c i attempt w t d = inl (DataError "interval").
Proof.
  destruct c; try done. unfold c_fits. intros Hfit. simpl. unfold complete_retry, float_seconds.
  rewrite bind_run. cbn [ask]. rewrite bind_run, bind_run. cbn [ask]. by rewrite Hfit.
Qed.

Lemma storable_fits c t : storable c t = true → c_fits c t = true.
Proof. unfold storable. by intros [? _]%andb_true_iff. Qed.

(** ** Who owns a task *)

Definition owns (r : task_row) (attempt : Z) (w : text) : Prop :=
  t_state r = State.RUNNING ∧ t_attempt r = attempt ∧ t_lease_worker_id r = Some w.

#[global] Instance owns_dec r a w : Decision (owns r a w).
Proof. unfold owns. apply _. Defined.

Lemma owned_by_spec now r a w : cas_holds now (owned_by a w) r = true ↔ owns r a w.
Proof.
  rewrite cas_holds_spec. unfold owns, owned_by. simpl. rewrite list_elem_of_singleton. naive_solver.
Qed.

Lemma owned_by_false now r a w : cas_holds now (owned_by a w) r = false ↔ ¬ owns r a w.
Proof. rewrite <-(owned_by_spec now). by destruct (cas_holds _ _ _). Qed.

Lemma c_legal c s : s ∈ [State.RUNNING] → is_legal s (c_state c) = true.
Proof. intros ->%list_elem_of_singleton. by destruct c. Qed.

(** ** Rows the constraints accept *)

Definition task_ok (r : task_row) : Prop := task_error r = None.

Definition coherent (r : task_row) : Prop :=
  t_state r = State.RUNNING ↔ is_Some (t_lease_worker_id r) ∧ is_Some (t_lease_expires_at r).

Definition pinned_ok (s : task_spec) : Prop :=
  1 ≤ t_max_attempts s ≤ int4_max ∧ 1 ≤ t_max_execution_time_s s ≤ int4_max ∧
  0 ≤ t_priority s ≤ int2_max.

Lemma coherent_bool r :
  Bool.eqb (bool_decide (t_state r = State.RUNNING))
    (bool_decide (is_Some (t_lease_worker_id r)) && bool_decide (is_Some (t_lease_expires_at r)))
  = true ↔ coherent r.
Proof.
  rewrite Bool.eqb_true_iff. unfold coherent. rewrite <-bool_decide_and.
  split; [|apply bool_decide_ext]. intros H. do 2 case_bool_decide; tauto || done.
Qed.

Lemma task_ok_spec r :
  task_ok r ↔ pinned_ok (t_spec r) ∧ 0 ≤ t_attempt r ≤ int4_max ∧ coherent r.
Proof.
  unfold task_ok, task_error, task_check, pinned_ok, int4_max, int2_max.
  destruct (t_attempt r <=? _) eqn:E1; simpl; [|to_prop; split; [done|lia]].
  destruct (t_max_attempts r <=? _) eqn:E2; simpl; [|to_prop; split; [done|lia]].
  destruct (t_max_execution_time_s r <=? _) eqn:E3; simpl; [|to_prop; split; [done|lia]].
  destruct (t_priority r <=? _) eqn:E4; simpl; [|to_prop; split; [done|lia]].
  destruct (1 <=? t_max_attempts r) eqn:E5; simpl; [|to_prop; split; [done|lia]].
  destruct (1 <=? t_max_execution_time_s r) eqn:E6; simpl; [|to_prop; split; [done|lia]].
  destruct (0 <=? t_attempt r) eqn:E7; simpl; [|to_prop; split; [done|lia]].
  destruct (0 <=? t_priority r) eqn:E8; simpl; [|to_prop; split; [done|lia]].
  destruct (Bool.eqb _ _) eqn:E; simpl.
  - apply coherent_bool in E. to_prop. split; [|done]. intros _.
    split; [lia|]. split; [lia|done].
  - split; [done|]. intros (_ & _ & Hc%coherent_bool). congruence.
Qed.

(** Leaving RUNNING with the lease cleared keeps every constraint. *)
Lemma moved_row_ok t to sets r :
  task_ok r → to ≠ State.RUNNING →
  (let r' := moved_row t to sets r in
   t_state r' = to ∧ t_attempt r' = t_attempt r ∧ t_lease_worker_id r' = None) →
  task_ok (moved_row t to sets r).
Proof.
  rewrite !task_ok_spec. intros (Hp & Ha & _) Hto (Hs & Hatt & Hw).
  unfold coherent. rewrite Hs, Hatt, Hw. unfold moved_row. rewrite assigns_spec.
  split; [done|]. split; [done|]. split; [done|]. by intros [[? ?] _].
Qed.

Lemma c_row_cols c t r :
  t_state (c_row c t r) = c_state c ∧ t_attempt (c_row c t r) = t_attempt r ∧
  t_lease_worker_id (c_row c t r) = None ∧ t_lease_expires_at (c_row c t r) = None ∧
  t_cancel_requested (c_row c t r) = t_cancel_requested r ∧
  t_first_started_at (c_row c t r) = t_first_started_at r ∧
  t_spec (c_row c t r) = t_spec r.
Proof. by destruct c. Qed.

Lemma c_row_ok c t r : task_ok r → task_ok (c_row c t r).
Proof.
  intros Hok. apply moved_row_ok; [done|by destruct c|]. by destruct c.
Qed.

(** The tables after an ending that applied. *)
Definition completed_db (c : completion) (t : txn) (d : db) (i : uuid) (a : Z) (w : text)
    (r : task_row) : db :=
  finished_db t (moved_db t d i (c_row c t r) (c_event c) (Some w) (c_data c))
    i a (c_outcome c) (c_errors c).1 (c_errors c).2.

Lemma run_completion_owned c i a w t d r :
  tasks d !! i = Some r → owns r a w → task_ok r → storable c t = true →
  run_completion c i a w t d =
    inr (MkResult true (Some (c_row c t r)) None None, completed_db c t d i a w r).
Proof.
  intros Hr Ho Hok [Hf Hl]%andb_true_iff. rewrite run_completion_shape, Hl by done.
  erewrite transition_applied; [done|done|apply c_legal|done|by apply owned_by_spec|].
  by apply c_row_ok.
Qed.

(** A due time that cannot be stored: the transaction raises. *)
Lemma run_completion_late c i a w t d r :
  tasks d !! i = Some r → owns r a w → task_ok r → storable c t = false →
  ∃ column, run_completion c i a w t d = inl (DataError column).
Proof.
  intros Hr Ho Hok Hst. destruct (c_fits c t) eqn:Hf.
  - unfold storable in Hst. rewrite Hf in Hst. simpl in Hst. eexists.
    rewrite run_completion_shape, Hst by done.
    erewrite transition_applied; [done|done|apply c_legal|done|by apply owned_by_spec|].
    by apply c_row_ok.
  - eexists. by apply run_completion_unfit.
Qed.

Lemma run_completion_stale c i a w t d r :
  tasks d !! i = Some r → ¬ owns r a w → c_fits c t = true →
  run_completion c i a w t d =
    inr (MkResult false None (Some (explain_row (now t) (owned_by a w) r)) (Some (observe r)), d).
Proof.
  intros Hr Ho Hf. rewrite run_completion_shape by done.
  erewrite transition_rejected; [done|done|apply c_legal|done|by apply owned_by_false].
Qed.

Lemma run_completion_missing c i a w t d :
  tasks d !! i = None → c_fits c t = true →
  run_completion c i a w t d = inr (MkResult false None (Some Rejection.NOT_FOUND) None, d).
Proof.
  intros Hr Hf. rewrite run_completion_shape by done.
  erewrite transition_missing; [done|done|apply c_legal|done].
Qed.

Lemma run_completion_inv c i a w t d res d' :
  run_completion c i a w t d = inr (res, d') →
  (applied res = false ∧ d' = d ∧ ∀ r, tasks d !! i = Some r → ¬ owns r a w) ∨
  (applied res = true ∧ ∃ r, tasks d !! i = Some r ∧ owns r a w ∧
     task_ok (c_row c t r) ∧ storable c t = true ∧ d' = completed_db c t d i a w r).
Proof.
  destruct (c_fits c t) eqn:Hf; [|by rewrite run_completion_unfit].
  rewrite run_completion_shape by done. intros H.
  destruct (transition _ _ _ _ _ _ t d) as [|[res1 d1]] eqn:E; [done|].
  apply transition_inv in E; [|done|apply c_legal].
  destruct E as [(Hn & -> & Hall)|(Ha & r & Hr & Hcas & Hok & _ & ->)]; [left|right].
  - rewrite Hn in H. injection H as <- <-. split_and!; [done|done|]. intros r Hr.
    apply (owned_by_false (now t)). auto.
  - rewrite Ha in H. destruct (c_loads c t) eqn:Hl; [|done]. injection H as <- <-.
    split; [done|]. exists r. unfold storable. rewrite Hf, Hl. by apply owned_by_spec in Hcas.
Qed.

(** Fencing. Each of the five endings is decided by ownership alone: a
    worker that holds the task under the attempt it presents succeeds,
    writing the task row, its attempt row and one event together, unless it
    asks for a retry due after the year 9999, which raises; a worker that
    does not changes no table at all, whatever it tries to write, and is
    told why. *)
Theorem completion_fenced c i a w t d r :
  tasks d !! i = Some r → task_ok r →
  (owns r a w → storable c t = true →
     run_completion c i a w t d =
       inr (MkResult true (Some (c_row c t r)) None None, completed_db c t d i a w r)) ∧
  (owns r a w → storable c t = false →
     ∃ column, run_completion c i a w t d = inl (DataError column)) ∧
  (¬ owns r a w → c_fits c t = true →
     ∃ why, run_completion c i a w t d =
              inr (MkResult false None (Some why) (Some (observe r)), d)).
Proof.
  intros Hr Hok. split; [|split]; intros Ho.
  - by apply run_completion_owned.
  - by eapply run_completion_late.
  - eexists. by apply run_completion_stale.
Qed.

Lemma completion_fenced_witness :
  let r := ex_running 12 "w1" true in
  tasks ex_db !! 12%N = Some r ∧ task_ok r ∧ owns r 1 "w1" ∧ ¬ owns r 1 "w2" ∧
  (∃ d', run_completion (CSuccess ∅) 12 1 "w1" (txn_at 20) ex_db
         = inr (MkResult true (Some (c_row (CSuccess ∅) (txn_at 20) r)) None None, d')) ∧
  (∃ column, run_completion (CRetry "RATE_LIMITED" "slow down" 1e12) 12 1 "w1" (txn_at 20) ex_db
             = inl (DataError column)) ∧
  (∃ why, run_completion (CSuccess ∅) 12 1 "w2" (txn_at 20) ex_db
          = inr (MkResult false None (Some why) (Some (observe r)), ex_db)).
Proof.
  intros r. assert (tasks ex_db !! 12%N = Some r) as Hr by reflexivity.
  assert (task_ok r) as Hok by reflexivity.
  assert (owns r 1 "w1") as H1 by (repeat split).
  assert (¬ owns r 1 "w2") as H2 by (intros (_ & _ & ?); discriminate).
  split; [exact Hr|]. split; [exact Hok|]. split; [exact H1|]. split; [exact H2|].
  split; [|split].
  - eexists. exact (proj1 (completion_fenced (CSuccess ∅) 12 1 "w1" (txn_at 20) ex_db r Hr Hok)
      H1 eq_refl).
  - exact (proj1 (proj2 (completion_fenced (CRetry "RATE_LIMITED" "slow down" 1e12) 12 1 "w1"
      (txn_at 20) ex_db r Hr Hok)) H1 eq_refl).
  - exact (proj2 (proj2 (completion_fenced (CSuccess ∅) 12 1 "w2" (txn_at 20) ex_db r Hr Hok))
      H2 eq_refl).
Defined.
