(* ===== verification/Lease.v ===== *)
(** * Lease renewal (db/queries/lease.py) *)

From S2P Require Import Prelude PyStr Json States Db Samples Transitions Completion.

(** The two columns RETURNING gives back. *)
Record renewal := MkRenewal {
  rn_cancel_requested : bool;
  rn_lease_expires_at : option timestamp;
}.

Definition renew_lease (task_id : uuid) (worker_id : text) (expect_attempt lease_ttl_s : Z)
    : M (option renewal) :=
  t ← ask; ttl ← int_seconds lease_ttl_s;
  row ← update_task task_id
    (λ r, bool_decide (t_state r = State.RUNNING)
          && (t_attempt r =? expect_attempt)
          && sql_eq (t_lease_worker_id r) worker_id
          && sql_gt (t_lease_expires_at r) (now t))
    (λ _, [SetLeaseExpires (Some (now t + ttl)); SetUpdatedAt (now t)]);
  match row with
  | None => mret None
  | Some r =>
      load_timestamp (now t + ttl) ;;
      mret (Some (MkRenewal (t_cancel_requested r) (t_lease_expires_at r)))
  end.

(** ** Properties *)

(** The lease is this worker's and still runs. *)
Definition renewable (now : timestamp) (r : task_row) (a : Z) (w : text) : Prop :=
  owns r a w ∧ ∃ e, t_lease_expires_at r = Some e ∧ now < e.

Definition renewed_row (t : txn) (ttl : Z) (r : task_row) : task_row :=
  assigns [SetLeaseExpires (Some (now t + seconds ttl)); SetUpdatedAt (now t)] r.

Lemma renewed_row_ok t ttl r a w : task_ok r → owns r a w → task_ok (renewed_row t ttl r).
Proof.
  rewrite !task_ok_spec. intros (Hp & Ha & Hc) (Hs & _ & Hw). simpl.
  split; [done|]. split; [done|]. unfold coherent. simpl. rewrite Hs, Hw.
  split; [|done]. intros _. split; eauto.
Qed.

Lemma renew_guard t r a w :
  (bool_decide (t_state r = State.RUNNING) && (t_attempt r =? a)
   && sql_eq (t_lease_worker_id r) w && sql_gt (t_lease_expires_at r) (now t)) = true
  ↔ renewable (now t) r a w.
Proof.
  unfold renewable, owns, sql_eq, sql_gt. rewrite !andb_true_iff, !bool_decide_eq_true, Z.eqb_eq.
  destruct (t_lease_expires_at r) as [e|]; [rewrite Z.ltb_lt|]; naive_solver.
Qed.

(** The statement, once the interval fits. *)
Lemma renew_lease_run i w a ttl t d :
  renew_lease i w a ttl t d =
  if interval_fits (seconds ttl) then
    match tasks d !! i with
    | Some r =>
        if bool_decide (t_state r = State.RUNNING) && (t_attempt r =? a)
           && sql_eq (t_lease_worker_id r) w && sql_gt (t_lease_expires_at r) (now t) then
          match task_error (renewed_row t ttl r) with
          | Some e => inl e
          | None =>
              if loadable (now t + seconds ttl) then
                inr (Some (MkRenewal (t_cancel_requested r) (Some (now t + seconds ttl))),
                     set_tasks (<[i := renewed_row t ttl r]> (tasks d)) d)
              else inl (DataError "timestamp")
          end
        else inr (None, d)
    | None => inr (None, d)
    end
  else inl (DataError "interval").
Proof.
  unfold renew_lease. rewrite bind_run. cbn [ask]. rewrite bind_run. unfold int_seconds.
  destruct (interval_fits (seconds ttl)); [|done]. cbn [mret M_ret].
  rewrite bind_run. unfold update_task. rewrite bind_run. cbn [get].
  destruct (tasks d !! i) as [r|]; [|done]. destruct (_ && _ && _ && _); [|done].
  fold (renewed_row t ttl r). cbv zeta. destruct (task_error (renewed_row t ttl r)); [done|].
  cbn. rewrite bind_run. unfold load_timestamp. by destruct (loadable _).
Qed.

Lemma renew_lease_ok i w a ttl t d r :
  tasks d !! i = Some r → renewable (now t) r a w → task_ok r → ttl_fits t ttl = true →
  renew_lease i w a ttl t d =
    inr (Some (MkRenewal (t_cancel_requested r) (Some (now t + seconds ttl))),
         set_tasks (<[i := renewed_row t ttl r]> (tasks d)) d).
Proof.
  intros Hr Hren Hok [Hi Hl]%ttl_fits_spec. rewrite renew_lease_run, Hi, Hr.
  rewrite (proj2 (renew_guard t r a w)) by done.
  by rewrite (renewed_row_ok t ttl r a w), Hl by (try done; apply Hren).
Qed.

Lemma renew_lease_refused i w a ttl t d :
  (∀ r, tasks d !! i = Some r → ¬ renewable (now t) r a w) →
  renew_lease i w a ttl t d =
    if interval_fits (seconds ttl) then inr (None, d) else inl (DataError "interval").
Proof.
  intros H. rewrite renew_lease_run. destruct (interval_fits _); [|done].
  destruct (tasks d !! i) as [r|]; [|done].
  assert (∀ b, (b = true ↔ renewable (now t) r a w) → b = false) as Hb.
  { intros [] Hb; [|done]. destruct (H r eq_refl). by apply Hb. }
  by rewrite (Hb _ (renew_guard t r a w)).
Qed.

Lemma renew_lease_lost i w a ttl t d :
  interval_fits (seconds ttl) = true →
  (∀ r, tasks d !! i = Some r → ¬ renewable (now t) r a w) →
  renew_lease i w a ttl t d = inr (None, d).
Proof. intros Hi H. by rewrite renew_lease_refused, Hi. Qed.

Lemma renew_lease_inv i w a ttl t d res d' :
  renew_lease i w a ttl t d = inr (res, d') →
  (res = None ∧ d' = d) ∨
  (∃ r, tasks d !! i = Some r ∧ renewable (now t) r a w ∧ task_ok (renewed_row t ttl r) ∧
     ttl_fits t ttl = true ∧
     res = Some (MkRenewal (t_cancel_requested r) (Some (now t + seconds ttl))) ∧
     d' = set_tasks (<[i := renewed_row t ttl r]> (tasks d)) d).
Proof.
  rewrite renew_lease_run. destruct (interval_fits (seconds ttl)) eqn:Hi; [|done].
  destruct (tasks d !! i) as [r|] eqn:Hr; [|intros [= <- <-]; by left].
  destruct (_ && _ && _ && _) eqn:Hg; [|intros [= <- <-]; by left].
  apply renew_guard in Hg. destruct (task_error (renewed_row t ttl r)) eqn:E; [done|].
  destruct (loadable _) eqn:Hl; [|done]. intros [= <- <-]. right. exists r.
  rewrite ttl_fits_spec. done.
Qed.

(** Renewal. With a term that gives a date within year 9999 it succeeds
    exactly for the worker that owns the attempt while the lease still runs;
    it then only moves the deadline to [now + ttl] and hands back the
    cancellation flag, and in every other case, an expired but unclaimed lease
    included, it changes nothing and answers None. *)
Theorem renew_lease_correct i w a ttl t d r :
  tasks d !! i = Some r → task_ok r → ttl_fits t ttl = true →
  (renewable (now t) r a w →
     renew_lease i w a ttl t d =
       inr (Some (MkRenewal (t_cancel_requested r) (Some (now t + seconds ttl))),
            set_tasks (<[i := renewed_row t ttl r]> (tasks d)) d)) ∧
  (¬ renewable (now t) r a w → renew_lease i w a ttl t d = inr (None, d)).
Proof.
  intros Hr Hok Hf. split; intros H; [by apply renew_lease_ok|].
  apply renew_lease_lost; [by apply ttl_fits_spec in Hf as [? _]|].
  by intros ? [= <-]%(eq_trans (eq_sym Hr)).
Qed.

(** Any other term makes the renewal of a running lease raise, and the
    worker's call with it. *)
Theorem renew_lease_overflow i w a ttl t d r :
  tasks d !! i = Some r → renewable (now t) r a w → task_ok r → ttl_fits t ttl = false →
  ∃ column, renew_lease i w a ttl t d = inl (DataError column).
Proof.
  intros Hr Hren Hok Hf. rewrite renew_lease_run, Hr. unfold ttl_fits in Hf.
  destruct (interval_fits (seconds ttl)); [|eauto]. simpl in Hf.
  rewrite (proj2 (renew_guard t r a w)) by done.
  rewrite (renewed_row_ok t ttl r a w), Hf by (try done; apply Hren). eauto.
Qed.

Lemma renew_lease_correct_witness :
  let r := ex_running 12 "w1" true in
  (∃ d', renew_lease 12 "w1" 1 30 (txn_at 20) ex_db
         = inr (Some (MkRenewal true (Some (us 50))), d')) ∧
  renew_lease 12 "w1" 1 30 (txn_at 40) ex_db = inr (None, ex_db).
Proof.
  intros r. assert (tasks ex_db !! 12%N = Some r) as Hr by reflexivity.
  assert (task_ok r) as Hok by reflexivity. split.
  - eexists. apply (proj1 (renew_lease_correct 12 "w1" 1 30 (txn_at 20) ex_db r Hr Hok eq_refl)).
    split; [repeat split|]. exists (us 40). split; reflexivity.
  - apply (proj2 (renew_lease_correct 12 "w1" 1 30 (txn_at 40) ex_db r Hr Hok eq_refl)).
    intros (_ & e & [= <-] & Hlt). by apply Z.lt_irrefl in Hlt.
Defined.
