(* ===== verification/Workers.v ===== *)
(** * Worker registry (db/queries/workers.py) *)

From S2P Require Import Prelude PyStr Json States Db Samples.

Definition with_status (s : worker_status) (w : worker_row) : worker_row :=
  MkWorker (w_id w) (w_hostname w) (w_pid w) (w_capacity w) (w_capabilities w) s
    (w_registered_at w) (w_last_heartbeat_at w).

Definition with_heartbeat (at_ : timestamp) (w : worker_row) : worker_row :=
  MkWorker (w_id w) (w_hostname w) (w_pid w) (w_capacity w) (w_capabilities w) (w_status w)
    (w_registered_at w) at_.

Definition register_worker (worker_id hostname : text) (pid capacity : Z)
    (capabilities : list text) : M worker_row :=
  t ← ask; d ← get;
  let row := MkWorker worker_id hostname pid capacity capabilities WorkerStatus.ALIVE
               (now t) (now t) in
  if negb (fits_int4 pid && fits_int4 capacity) then raise (DataError "workers")
  else if bool_decide (is_Some (workers d !! worker_id)) then raise (IntegrityError "workers_pkey")
  else if negb (1 <=? capacity) then raise (IntegrityError "ck_workers_capacity")
  else modify (set_workers (<[worker_id := row]> (workers d))) ;; mret row.

(** The answer is [result.rowcount == 1]. *)
Definition heartbeat (worker_id : text) : M bool :=
  t ← ask; d ← get;
  match workers d !! worker_id with
  | Some w =>
      if bool_decide (w_status w ≠ WorkerStatus.DEAD) then
        modify (set_workers (<[worker_id := with_heartbeat (now t) w]> (workers d))) ;; mret true
      else mret false
  | None => mret false
  end.

Definition set_worker_status (worker_id : text) (status : worker_status) : M unit :=
  modify (λ d, set_workers (alter (with_status status) worker_id (workers d)) d).

(** Missed its window: alive or draining, last heard from too long ago. *)
Definition stale_worker (at_ : timestamp) (dead_after_s : Z) (w : worker_row) : bool :=
  bool_decide (w_status w ≠ WorkerStatus.DEAD)
  && (w_last_heartbeat_at w <? at_ - seconds dead_after_s).

Definition mark_dead_workers (dead_after_s : Z) : M (list text) :=
  t ← ask; d ← get;
  let p := stale_worker (now t) dead_after_s in
  let hit := select p (workers d) in
  modify (set_workers (update_where p (with_status WorkerStatus.DEAD) (workers d))) ;;
  mret (w_id <$> hit).

(** ** Properties *)

Definition is_dead (d : db) (w : text) : Prop :=
  ∃ r, workers d !! w = Some r ∧ w_status r = WorkerStatus.DEAD.

Lemma heartbeat_dead w t d :
  is_dead d w → heartbeat w t d = inr (false, d).
Proof.
  intros (r & Hr & Hs). unfold heartbeat. rewrite bind_run. cbn [ask]. rewrite bind_run. cbn [get].
  rewrite Hr.
  rewrite bool_decide_eq_false_2; [reflexivity|]. rewrite Hs. intros Hn. by apply Hn.
Qed.

Lemma mark_dead_lookup n t d w :
  ∃ ids, mark_dead_workers n t d =
    inr (ids, set_workers (update_where (stale_worker (now t) n) (with_status WorkerStatus.DEAD)
                             (workers d)) d) ∧
    (w ∈ ids ↔ ∃ k r, workers d !! k = Some r ∧ w_id r = w ∧ stale_worker (now t) n r = true).
Proof.
  exists (w_id <$> select (stale_worker (now t) n) (workers d)).
  split; [reflexivity|]. rewrite list_elem_of_fmap. split.
  - intros (r & -> & (Hp & k & Hk)%elem_of_select). eauto.
  - intros (k & r & Hk & <- & Hp). exists r. split; [done|]. apply elem_of_select. eauto.
Qed.

(** Liveness sweep and self-fencing. The sweep declares dead exactly the
    workers that are not dead yet and were last heard from more than
    [dead_after_s] ago; from then on every heartbeat of such a worker is
    refused and leaves the tables as they are, until the row's status is set
    by hand. *)
Theorem dead_worker_is_fenced n t d w r :
  workers d !! w = Some r → w_id r = w →
  let d' := set_workers (update_where (stale_worker (now t) n) (with_status WorkerStatus.DEAD)
                           (workers d)) d in
  (∃ ids, mark_dead_workers n t d = inr (ids, d') ∧
     (stale_worker (now t) n r = true → w ∈ ids)) ∧
  (is_dead d' w ↔ w_status r = WorkerStatus.DEAD ∨
                  w_last_heartbeat_at r < now t - seconds n) ∧
  (is_dead d' w → ∀ t2, heartbeat w t2 d' = inr (false, d')).
Proof.
  intros Hr Hid d'. split; [|split].
  - destruct (mark_dead_lookup n t d w) as (ids & Hm & Hin). exists ids. split; [done|].
    intros Hs. apply Hin. eauto.
  - unfold is_dead. simpl. setoid_rewrite lookup_update_where. rewrite Hr. simpl.
    unfold stale_worker. case_bool_decide as Hd; simpl.
    + destruct (_ <? _) eqn:E; to_prop; split.
      * intros _. by right.
      * intros _. eexists. split; [done|]. done.
      * intros (r' & [= <-] & ?). by left.
      * intros [?|?]; [done|lia].
    + split; [intros (r' & [= <-] & ?); by left|].
      intros _. exists r. split; [done|]. by destruct (w_status r).
  - intros Hdead t2. by apply heartbeat_dead.
Qed.

(** A dead worker can come back. Setting the status on shutdown has no
    guard, so a worker the sweep declared dead and that drains before its
    next heartbeat turns its own row from DEAD to DRAINING, and its
    heartbeats are then accepted again. *)
Theorem draining_resurrects w t d r :
  workers d !! w = Some r → w_status r = WorkerStatus.DEAD →
  ∃ d', set_worker_status w WorkerStatus.DRAINING t d = inr (tt, d') ∧
        ¬ is_dead d' w ∧ ∃ d'', heartbeat w t d' = inr (true, d'').
Proof.
  intros Hr Hs. eexists. split; [done|]. split.
  - intros (r' & Hr' & Hs'). simpl in Hr'. rewrite lookup_alter_eq, Hr in Hr'.
    simplify_eq/=.
  - unfold heartbeat. rewrite bind_run. cbn [ask]. rewrite bind_run. cbn [get].
    simpl. rewrite lookup_alter_eq, Hr. simpl. eexists. done.
Qed.

Lemma dead_worker_is_fenced_witness :
  let d' := set_workers (update_where (stale_worker (us 100) 30) (with_status WorkerStatus.DEAD)
                           (workers ex_db)) ex_db in
  is_dead d' "w1" ∧ heartbeat "w1" (txn_at 101) d' = inr (false, d').
Proof.
  intros d'.
  destruct (dead_worker_is_fenced 30 (txn_at 100) ex_db "w1" (ex_worker "w1" WorkerStatus.ALIVE)
              eq_refl eq_refl) as (_ & [_ Hdead] & Hbeat).
  assert (is_dead d' "w1") as H by (apply Hdead; right; reflexivity).
  split; [exact H|]. apply (Hbeat H).
Defined.

Lemma draining_resurrects_witness :
  ∃ d', set_worker_status "w2" WorkerStatus.DRAINING (txn_at 5) ex_db = inr (tt, d') ∧
        ¬ is_dead d' "w2" ∧ ∃ d'', heartbeat "w2" (txn_at 5) d' = inr (true, d'').
Proof.
  apply (draining_resurrects "w2" (txn_at 5) ex_db (ex_worker "w2" WorkerStatus.DEAD));
    reflexivity.
Defined.
