(* ===== verification/Claim.v ===== *)
(** * The claim query (db/queries/claim.py)

    [fetch_candidates] is one round's SELECT .. FOR UPDATE SKIP LOCKED, keyed
    or filtered; [claim_rounds] the bounded rounds with per-tenant slack;
    [claim_tasks] the whole transaction: rounds, UPDATE, events, attempts.

    Rows locked by other transactions are the set [locked] of the
    transaction; ties that an ORDER BY leaves open are broken by the server,
    by the transaction's [tie_rank]. *)

From S2P Require Import Prelude PyStr Json States Capability Policy Db Samples Transitions.
From S2P Require Import Completion.

Definition MAX_ROUNDS : nat := 4.

(** ** Orders *)

(** Lexicographic order on sort keys, as tuples compare. *)
Fixpoint lex_le (l1 l2 : list Z) : bool :=
  match l1, l2 with
  | [], _ => true
  | _ :: _, [] => false
  | x :: l1, y :: l2 => (x <? y) || (x =? y) && lex_le l1 l2
  end.

Definition key_le (key : task_row → list Z) (r1 r2 : task_row) : Prop :=
  lex_le (key r1) (key r2) = true.

(** [key=lambda r: (r.priority, r.available_at, r.id)], also the ORDER BY of
    the keyed branches. *)
Definition cand_key (r : task_row) : list Z :=
  [t_priority r; t_available_at r; Z.of_N (t_id r)].

(** [ORDER BY] of a policy. *)
Definition sort_column (k : sort_key) (r : task_row) : Z :=
  match k with
  | SortKey.PRIORITY => t_priority r
  | SortKey.AVAILABLE_AT => t_available_at r
  | SortKey.CREATED_AT => t_created_at r
  | SortKey.ID => Z.of_N (t_id r)
  end.

Definition policy_columns (p : ClaimPolicy) (r : task_row) : list Z :=
  (λ '(k, d), match d with Direction.ASC => sort_column k r | Direction.DESC => - sort_column k r end)
    <$> policy_order_by p.

(** What the server does with rows the ORDER BY leaves equal: any order, which
    [tie_rank] gives (the id only makes a rank shared by two rows an order). *)
Definition tied (t : txn) (seen : gset uuid) (r : task_row) : list Z :=
  [tie_rank t seen (t_id r); Z.of_N (t_id r)].

Definition policy_key (p : ClaimPolicy) (t : txn) (seen : gset uuid) (r : task_row) : list Z :=
  policy_columns p r ++ tied t seen r.

#[global] Instance key_le_dec key : RelDecision (key_le key).
Proof. intros ??. unfold key_le. apply _. Defined.

(** ** Candidates *)

(** [state = 'QUEUED' AND available_at <= now()], not seen, not locked. *)
Definition ready (t : txn) (seen : gset uuid) (r : task_row) : bool :=
  bool_decide (t_state r = State.QUEUED) && (t_available_at r <=? now t)
  && bool_decide (t_id r ∉ seen) && bool_decide (t_id r ∉ locked t).

(** One LATERAL branch. *)
Definition keyed_branch (t : txn) (d : db) (seen : gset uuid) (need : nat) (key : text)
    : list task_row :=
  take need (order_by (key_le cand_key)
    (select (λ r, ready t seen r && bool_decide (t_capability_key r = key)) (tasks d))).

Definition fetch_candidates (t : txn) (d : db) (worker_capabilities : list text)
    (policy : ClaimPolicy) (need : nat) (seen : gset uuid) : list task_row :=
  let normalised_caps := normalised worker_capabilities in
  if (length normalised_caps <=? MAX_KEYED_CLAIM_CAPABILITIES)%nat then
    let keys := satisfiable_capability_keys normalised_caps in
    take need (order_by (key_le cand_key) (keys ≫= keyed_branch t d seen need))
  else
    take need (order_by (key_le (policy_key policy t seen))
      (select (λ r, ready t seen r
                    && forallb (λ c, bool_decide (c ∈ worker_capabilities))
                         (t_required_capabilities r)) (tasks d))).

(** ** Tenant slack *)

Definition running_count (d : db) (tenant : uuid) : Z :=
  Z.of_nat (length (select (λ r : task_row, bool_decide (t_tenant_id r = tenant)
                                 && bool_decide (t_state r = State.RUNNING)) (tasks d))).

(** [max_concurrent_tasks - count of RUNNING], for the tenants that exist. *)
Definition tenant_slack (d : db) (tenant : uuid) : option Z :=
  (λ te, te_max_concurrent_tasks te - running_count d tenant) <$> tenants d !! tenant.

Record claim_state := MkClaim {
  cl_claimed : list uuid;
  cl_seen : gset uuid;
  cl_slack : gmap uuid Z;
  cl_known : gset uuid;
}.

Definition slack_of (slack : gmap uuid Z) (tenant : uuid) : Z := default 0 (slack !! tenant).

(** One row of [slack.update({row[0]: row[1] for row in slack_rows})]. *)
Definition learn1 (d : db) (te : uuid) (slack : gmap uuid Z) : gmap uuid Z :=
  match tenant_slack d te with Some n => <[te := n]> slack | None => slack end.

Definition new_tenant_ids (batch : list task_row) (st : claim_state) : list uuid :=
  filter (λ te, te ∉ cl_known st) (remove_dups (t_tenant_id ∘ t_spec <$> batch)).

(** [slack.update(..)] for the tenants of this batch not known yet. *)
Definition learn_slack (d : db) (batch : list task_row) (st : claim_state) : claim_state :=
  MkClaim (cl_claimed st) (cl_seen st)
    (foldr (learn1 d) (cl_slack st) (new_tenant_ids batch st))
    (cl_known st ∪ list_to_set (new_tenant_ids batch st)).

(** The loop over one batch; [break] at the limit, [continue] without slack. *)
Fixpoint spend (limit : Z) (batch : list task_row) (claimed : list uuid) (slack : gmap uuid Z)
    : list uuid * gmap uuid Z :=
  match batch with
  | [] => (claimed, slack)
  | r :: batch =>
      if limit <=? Z.of_nat (length claimed) then (claimed, slack)
      else
        let remaining := slack_of slack (t_tenant_id r) in
        if remaining <=? 0 then spend limit batch claimed slack
        else spend limit batch (claimed ++ [t_id r]) (<[t_tenant_id r := remaining - 1]> slack)
  end.

Fixpoint claim_rounds (t : txn) (d : db) (limit : Z) (caps : list text) (policy : ClaimPolicy)
    (rounds : nat) (st : claim_state) : claim_state :=
  match rounds with
  | O => st
  | S rounds =>
      let need := limit - Z.of_nat (length (cl_claimed st)) in
      if need <=? 0 then st
      else
        let batch := fetch_candidates t d caps policy (Z.to_nat need) (cl_seen st) in
        match batch with
        | [] => st
        | _ =>
            let st := MkClaim (cl_claimed st) (cl_seen st ∪ list_to_set (t_id ∘ t_spec <$> batch))
                        (cl_slack st) (cl_known st) in
            let st := learn_slack d batch st in
            let '(claimed, slack) := spend limit batch (cl_claimed st) (cl_slack st) in
            claim_rounds t d limit caps policy rounds
              (MkClaim claimed (cl_seen st) slack (cl_known st))
        end
  end.

Definition no_claim : claim_state := MkClaim [] ∅ ∅ ∅.

(** ** The transaction *)

Definition claim_sets (t : txn) (worker_id : text) (lease_ttl_s : Z) (r : task_row) : list assign :=
  [SetState State.RUNNING; SetAttempt (t_attempt r + 1); SetLeaseWorker (Some worker_id);
   SetLeaseExpires (Some (now t + seconds lease_ttl_s));
   SetFirstStartedAt (Some (default (now t) (t_first_started_at r))); SetUpdatedAt (now t)].

Definition find_row (i : uuid) (rs : list task_row) : option task_row :=
  snd <$> list_find (λ r, t_id (t_spec r) = i) rs.

(** The claim after the rounds: the UPDATE, whose returned rows the driver
    loads, the events, the attempts. *)
Definition grant_claimed (worker_id : text) (lease_ttl_s : Z) (claimed_ids : list uuid)
    : M (list task_row) :=
  t ← ask;
  match claimed_ids with
  | [] => mret []
  | _ =>
      _ ← int_seconds lease_ttl_s;
      updated ← update_tasks (λ r, bool_decide (t_id r ∈ claimed_ids))
                  (claim_sets t worker_id lease_ttl_s);
      for_each updated (λ _, load_timestamp (now t + seconds lease_ttl_s)) ;;
      let rows := omap (λ i, find_row i updated) claimed_ids in
      for_each rows (λ r : task_row, insert_event (t_id r) (Some (t_attempt r)) EventType.TASK_CLAIMED
                            (Some worker_id) ∅) ;;
      for_each rows (λ r : task_row, insert_attempt (t_id r) (t_attempt r) worker_id) ;;
      mret rows
  end.

Definition claim_tasks (worker_id : text) (limit lease_ttl_s : Z) (policy : ClaimPolicy)
    (worker_capabilities : list text) : M (list task_row) :=
  t ← ask; d ← get;
  grant_claimed worker_id lease_ttl_s
    (cl_claimed (claim_rounds t d limit worker_capabilities policy MAX_ROUNDS no_claim)).

(** ** Orders: proofs *)

Lemma lex_le_total l1 l2 : lex_le l1 l2 = true ∨ lex_le l2 l1 = true.
Proof.
  revert l2. induction l1 as [|x l1 IH]; intros [|y l2]; simpl; auto.
  destruct (Z.lt_trichotomy x y) as [H|[->|H]].
  - left. by rewrite (proj2 (Z.ltb_lt x y)).
  - rewrite Z.ltb_irrefl, Z.eqb_refl. apply IH.
  - right. by rewrite (proj2 (Z.ltb_lt y x)).
Qed.

Lemma lex_le_cons x y l1 l2 :
  lex_le (x :: l1) (y :: l2) = true ↔ x < y ∨ x = y ∧ lex_le l1 l2 = true.
Proof. simpl. by rewrite orb_true_iff, andb_true_iff, Z.ltb_lt, Z.eqb_eq. Qed.

Lemma lex_le_trans l1 l2 l3 :
  lex_le l1 l2 = true → lex_le l2 l3 = true → lex_le l1 l3 = true.
Proof.
  revert l2 l3. induction l1 as [|x l1 IH]; [done|]. intros [|y l2] [|z l3]; try done.
  rewrite !lex_le_cons. intros [?|[-> ?]] [?|[-> ?]]; [left; lia|by left|by left|].
  right. split; [done|]. by eapply IH.
Qed.

Lemma lex_le_antisym l1 l2 :
  length l1 = length l2 → lex_le l1 l2 = true → lex_le l2 l1 = true → l1 = l2.
Proof.
  revert l2. induction l1 as [|x l1 IH]; intros [|y l2]; try done.
  rewrite !lex_le_cons. intros [= Hl] [?|[-> ?]] [?|[? ?]]; try lia. f_equal. auto.
Qed.

#[global] Instance key_le_trans key : Transitive (key_le key).
Proof. intros ???. apply lex_le_trans. Qed.
#[global] Instance key_le_total key : Total (key_le key).
Proof. intros ??. apply lex_le_total. Qed.

(** ** Candidates: one description of both strategies *)

(** Rows are keyed by their id column. *)
Definition ids_ok (d : db) : Prop := ∀ i (r : task_row), tasks d !! i = Some r → t_id r = i.

Definition keyed (caps : list text) : bool :=
  (length (normalised caps) <=? MAX_KEYED_CLAIM_CAPABILITIES)%nat.

Definition claim_eligible (caps : list text) (r : task_row) : bool :=
  if keyed caps then
    bool_decide (t_capability_key r ∈ satisfiable_capability_keys (normalised caps))
  else forallb (λ c, bool_decide (c ∈ caps)) (t_required_capabilities r).

Definition claim_key (policy : ClaimPolicy) (caps : list text) (t : txn) (seen : gset uuid)
    : task_row → list Z :=
  if keyed caps then cand_key else policy_key policy t seen.

Definition candidates (t : txn) (d : db) (caps : list text) (seen : gset uuid) : list task_row :=
  select (λ r : task_row, ready t seen r && claim_eligible caps r) (tasks d).

Section fetch.
Context (t : txn) (d : db) (caps : list text) (policy : ClaimPolicy).
Hypothesis Hids : ids_ok d.

Lemma select_ids_NoDup p : NoDup ((λ r : task_row, t_id r) <$> select p (tasks d)).
Proof using Hids.
  eapply sublist_NoDup; [apply (NoDup_rows (λ r : task_row, t_id r) (tasks d) Hids)|].
  apply fmap_sublist, sublist_filter.
Qed.

Lemma select_NoDup p : NoDup (select p (tasks d)).
Proof using Hids. eapply NoDup_fmap_1, (select_ids_NoDup p). Qed.

Lemma rows_same_id (r1 r2 : task_row) :
  r1 ∈ rows (tasks d) → r2 ∈ rows (tasks d) → t_id r1 = t_id r2 → r1 = r2.
Proof using Hids.
  intros [k1 H1]%elem_of_rows [k2 H2]%elem_of_rows Heq.
  rewrite (Hids _ _ H1), (Hids _ _ H2) in Heq. congruence.
Qed.

Lemma key_antisym_on key l :
  (∀ r : task_row, ∃ k, key r = k ++ [Z.of_N (t_id r)]) →
  (∀ r1 r2 : task_row, length (key r1) = length (key r2)) →
  (∀ r : task_row, r ∈ l → r ∈ rows (tasks d)) → antisym_on (key_le key) l.
Proof using Hids.
  intros Hkey Hlen Hl r1 r2 H1 H2 Hle Hge. apply rows_same_id; auto.
  pose proof (lex_le_antisym _ _ (Hlen r1 r2) Hle Hge) as Heq.
  destruct (Hkey r1) as [k1 E1], (Hkey r2) as [k2 E2]. rewrite E1, E2 in Heq.
  apply app_inj_tail in Heq as [_ Heq]. lia.
Qed.

Lemma claim_key_antisym_on seen l :
  (∀ r : task_row, r ∈ l → r ∈ rows (tasks d)) →
  antisym_on (key_le (claim_key policy caps t seen)) l.
Proof using Hids.
  intros. apply key_antisym_on; [..|done]; unfold claim_key; destruct (keyed caps).
  - intros r. by exists [t_priority r; t_available_at r].
  - intros r. exists (policy_columns policy r ++ [tie_rank t seen (t_id r)]).
    unfold policy_key, tied. by rewrite <-app_assoc.
  - done.
  - intros. unfold policy_key, policy_columns. by rewrite !length_app, !length_fmap.
Qed.

Lemma NoDup_bind_key {K} (keys : list K) (f : K → list task_row) (g : task_row → K) :
  NoDup keys → (∀ k, NoDup (f k)) → (∀ k (r : task_row), r ∈ f k → g r = k) → NoDup (keys ≫= f).
Proof.
  intros Hk Hf Hg. induction Hk as [|k keys Hnin Hk IH]; [constructor|].
  rewrite bind_cons. apply NoDup_app. split; [done|]. split; [|done].
  intros r Hr (k' & Hr' & Hk')%list_elem_of_bind.
  apply Hg in Hr, Hr'. congruence.
Qed.

(** Both strategies return the first [need] rows, in their key's order, of
    one set of candidates. *)
Lemma fetch_spec need seen :
  fetch_candidates t d caps policy need seen =
  take need (order_by (key_le (claim_key policy caps t seen)) (candidates t d caps seen)).
Proof using Hids.
  unfold fetch_candidates, candidates, claim_key, claim_eligible.
  fold (keyed caps). destruct (keyed caps); [|done].
  set (keys := satisfiable_capability_keys _).
  set (branch := λ k, select (λ r : task_row,
                   ready t seen r && bool_decide (t_capability_key r = k)) (tasks d)).
  assert (∀ k (r : task_row), r ∈ branch k ↔
            ready t seen r = true ∧ t_capability_key r = k ∧ r ∈ rows (tasks d)) as Hbr.
  { intros k r. unfold branch. rewrite elem_of_select, elem_of_rows.
    rewrite andb_true_iff, bool_decide_eq_true. tauto. }
  assert (NoDup (keys ≫= branch)) as Hnd.
  { apply (NoDup_bind_key _ _ (λ r : task_row, t_capability_key r)).
    - apply NoDup_satisfiable.
    - intros. apply select_NoDup.
    - intros k r. rewrite Hbr. tauto. }
  assert (antisym_on (key_le cand_key) (keys ≫= branch)) as Hanti.
  { apply key_antisym_on; [intros r; by exists [t_priority r; t_available_at r]|done|].
    intros r (k & Hr & _)%list_elem_of_bind. rewrite Hbr in Hr. tauto. }
  pose proof (take_order_by_merge (key_le cand_key) need branch keys []) as Hmerge.
  etrans; [exact (Hmerge Hnd Hanti)|]. simpl. f_equal.
  apply order_by_perm_eq; [apply _..|done|].
  apply NoDup_Permutation; [done|apply select_NoDup|]. intros r.
  rewrite list_elem_of_bind, elem_of_select, andb_true_iff, bool_decide_eq_true.
  setoid_rewrite Hbr. setoid_rewrite elem_of_rows. naive_solver.
Qed.

Lemma elem_of_candidates seen (r : task_row) :
  r ∈ candidates t d caps seen ↔
  tasks d !! t_id r = Some r ∧ t_state r = State.QUEUED ∧ t_available_at r ≤ now t ∧
  (t_id r ∉ seen) ∧ (t_id r ∉ locked t) ∧ claim_eligible caps r = true.
Proof using Hids.
  unfold candidates, ready. rewrite elem_of_select, !andb_true_iff, !bool_decide_eq_true.
  rewrite Z.leb_le. split.
  - intros ([[[[? ?] ?] ?] ?] & k & Hk). pose proof (Hids _ _ Hk) as <-. done.
  - intros (? & ? & ? & ? & ? & ?). eauto 10.
Qed.
End fetch.

(** ** Spending slack *)

Definition tenant_count (te : uuid) (rs : list task_row) : Z :=
  Z.of_nat (length (filter (λ r : task_row, t_tenant_id r = te) rs)).

Definition slack0 (d : db) (te : uuid) : Z := default 0 (tenant_slack d te).

Lemma tenant_count_cons te (r : task_row) rs :
  tenant_count te (r :: rs) = (if decide (t_tenant_id r = te) then 1 else 0) + tenant_count te rs.
Proof. unfold tenant_count. rewrite filter_cons. case_decide; simpl; lia. Qed.

Lemma tenant_count_app te rs1 rs2 :
  tenant_count te (rs1 ++ rs2) = tenant_count te rs1 + tenant_count te rs2.
Proof. unfold tenant_count. rewrite filter_app, length_app. lia. Qed.

Lemma tenant_count_nonneg te rs : 0 ≤ tenant_count te rs.
Proof. unfold tenant_count. lia. Qed.

Lemma tenant_count_pos te rs :
  tenant_count te rs ≠ 0 → ∃ r : task_row, r ∈ rs ∧ t_tenant_id r = te.
Proof.
  unfold tenant_count. intros H. destruct (filter _ rs) as [|r l] eqn:E; [done|].
  exists r. assert (r ∈ r :: l) as Hr by (by left). rewrite <-E in Hr.
  by apply list_elem_of_filter in Hr as [? ?].
Qed.

Lemma slack_of_insert te te' n slack :
  slack_of (<[te := n]> slack) te' = if decide (te = te') then n else slack_of slack te'.
Proof.
  unfold slack_of. case_decide as H.
  - by rewrite H, lookup_insert_eq.
  - by rewrite lookup_insert_ne.
Qed.

(** What one batch claims: part of it, in order, within the limit, within
    each tenant's slack. *)
Lemma spend_spec limit batch claimed slack :
  ∃ rs, rs `sublist_of` batch ∧
    (spend limit batch claimed slack).1 = claimed ++ ids_of rs ∧
    (∀ te, slack_of (spend limit batch claimed slack).2 te
           = slack_of slack te - tenant_count te rs) ∧
    (∀ te, tenant_count te rs = 0 ∨ 0 ≤ slack_of slack te - tenant_count te rs) ∧
    (Z.of_nat (length claimed + length rs) ≤ Z.max limit (Z.of_nat (length claimed))).
Proof.
  revert claimed slack. induction batch as [|r batch IH]; intros claimed slack; simpl.
  { exists []. split; [done|]. split; [by rewrite app_nil_r|].
    split; [intros; unfold tenant_count; simpl; lia|]. split; [by left|]. simpl. lia. }
  destruct (limit <=? _) eqn:El; to_prop.
  { exists []. split; [apply sublist_nil_l|]. split; [by rewrite app_nil_r|].
    split; [intros; unfold tenant_count; simpl; lia|]. split; [by left|]. simpl. lia. }
  destruct (_ <=? 0) eqn:Es; to_prop.
  { destruct (IH claimed slack) as (rs & Hsub & H). exists rs. split; [by constructor|done]. }
  destruct (IH (claimed ++ [t_id r]) (<[t_tenant_id r := slack_of slack (t_tenant_id r) - 1]> slack))
    as (rs & Hsub & Hc & Hs & Hnn & Hlen).
  exists (r :: rs). split; [by constructor|].
  split; [by rewrite Hc, <-app_assoc|].
  split.
  { intros te. rewrite Hs, tenant_count_cons, slack_of_insert. case_decide as E; [subst|]; lia. }
  split.
  { intros te. rewrite tenant_count_cons. specialize (Hnn te). rewrite slack_of_insert in Hnn.
    case_decide as E; [subst|destruct Hnn; [left|right]; lia]. right.
    destruct Hnn; lia. }
  rewrite length_app in Hlen. simpl in *. lia.
Qed.

Lemma learn_slack_of d l m te :
  slack_of m te = 0 →
  slack_of (foldr (learn1 d) m l) te = if decide (te ∈ l) then slack0 d te else 0.
Proof.
  intros Hm. induction l as [|te' l IH]; [by rewrite decide_False by apply not_elem_of_nil|]. simpl foldr.
  unfold learn1 at 1. destruct (decide (te' = te)) as [->|Hne].
  - rewrite decide_True by (by left). unfold slack0. destruct (tenant_slack d te) eqn:E.
    + by rewrite slack_of_insert, decide_True.
    + rewrite IH. unfold slack0. rewrite E. by case_decide.
  - transitivity (slack_of (foldr (learn1 d) m l) te).
    { destruct (tenant_slack d te'); [by rewrite slack_of_insert, decide_False|done]. }
    rewrite IH. apply decide_ext. rewrite elem_of_cons. naive_solver.
Qed.

Lemma learn_slack_of_ne d l m te :
  te ∉ l → slack_of (foldr (learn1 d) m l) te = slack_of m te.
Proof.
  induction l as [|te' l IH]; simpl; [done|]. rewrite not_elem_of_cons. intros [Hne Hl].
  rewrite <-(IH Hl). unfold learn1 at 1.
  destruct (tenant_slack d te'); [by rewrite slack_of_insert, decide_False|done].
Qed.

(** ** Rounds *)

Section rounds.
Context (t : txn) (d : db) (limit : Z) (caps : list text) (policy : ClaimPolicy).
Hypothesis Hids : ids_ok d.

Record claim_inv (rs : list task_row) (st : claim_state) : Prop := {
  ci_ids : cl_claimed st = ids_of rs;
  ci_nodup : NoDup rs;
  ci_elig : ∀ r : task_row, r ∈ rs → r ∈ candidates t d caps ∅ ∧ t_id r ∈ cl_seen st;
  ci_len : Z.of_nat (length rs) ≤ Z.max limit 0;
  ci_unknown : ∀ te, te ∉ cl_known st → slack_of (cl_slack st) te = 0 ∧ tenant_count te rs = 0;
  ci_slack : ∀ te, te ∈ cl_known st → slack_of (cl_slack st) te + tenant_count te rs = slack0 d te;
  ci_cap : ∀ te, tenant_count te rs = 0 ∨ 0 ≤ slack_of (cl_slack st) te;
}.

Lemma no_claim_inv : claim_inv [] no_claim.
Proof using.
  split; simpl; try done; [constructor|..].
  - by intros r ?%not_elem_of_nil.
  - lia.
  - by left.
Qed.

Lemma elem_of_new_tenants te batch st :
  te ∈ new_tenant_ids batch st ↔
  (te ∉ cl_known st) ∧ ∃ r : task_row, r ∈ batch ∧ t_tenant_id r = te.
Proof using.
  unfold new_tenant_ids. rewrite list_elem_of_filter, elem_of_remove_dups, list_elem_of_fmap.
  unfold compose. naive_solver.
Qed.

Lemma learn_slack_inv batch rs st :
  claim_inv rs st →
  claim_inv rs (learn_slack d batch st) ∧
  ∀ r : task_row, r ∈ batch → t_tenant_id r ∈ cl_known (learn_slack d batch st).
Proof using.
  intros [Hi Hnd He Hl Hu Hs Hc]. unfold learn_slack. set (new := new_tenant_ids _ _).
  pose proof (λ te, elem_of_new_tenants te batch st) as Hnew. fold new in Hnew.
  split.
  - split; simpl; try done.
    + intros te H. rewrite not_elem_of_union, elem_of_list_to_set in H. destruct H as [H1 H2].
      rewrite learn_slack_of_ne by done. auto.
    + intros te. rewrite elem_of_union, elem_of_list_to_set. intros H.
      destruct (decide (te ∈ new)) as [Hin|Hin].
      * pose proof Hin as [Huk _]%Hnew. apply Hu in Huk as [Hz ->].
        rewrite learn_slack_of, decide_True by done. lia.
      * rewrite learn_slack_of_ne by done. destruct H; [auto|done].
    + intros te. destruct (decide (te ∈ new)) as [Hin|Hin].
      * left. apply Hnew in Hin as [Hin _]. by apply Hu in Hin as [_ ?].
      * rewrite learn_slack_of_ne by done. auto.
  - intros r Hr. simpl. rewrite elem_of_union, elem_of_list_to_set, Hnew.
    destruct (decide (t_tenant_id r ∈ cl_known st)); [by left|right]. eauto.
Qed.

(** The batch of one round. *)
Lemma fetch_batch need seen (r : task_row) :
  r ∈ fetch_candidates t d caps policy need seen →
  r ∈ candidates t d caps seen.
Proof using Hids. rewrite fetch_spec by done. apply elem_of_take_order_by; apply _. Qed.

Lemma fetch_NoDup need seen : NoDup (fetch_candidates t d caps policy need seen).
Proof using Hids.
  rewrite fetch_spec by done. eapply sublist_NoDup, sublist_take.
  rewrite order_by_perm by apply _. by apply select_NoDup.
Qed.

Lemma spend_inv batch rs st claimed slack :
  claim_inv rs st → NoDup batch →
  (∀ r : task_row, r ∈ batch → t_tenant_id r ∈ cl_known st ∧ (r ∉ rs) ∧
     r ∈ candidates t d caps ∅ ∧ t_id r ∈ cl_seen st) →
  spend limit batch (cl_claimed st) (cl_slack st) = (claimed, slack) →
  ∃ rs', claim_inv (rs ++ rs') (MkClaim claimed (cl_seen st) slack (cl_known st)).
Proof using.
  intros [Hi Hnd He Hl Hu Hs Hc] Hndb Hb Hsp.
  destruct (spend_spec limit batch (cl_claimed st) (cl_slack st))
    as (rs' & Hsub & Hcl & Hsl & Hnn & Hlen). rewrite Hsp in *. simpl in *.
  assert (∀ r : task_row, r ∈ rs' → r ∈ batch) as Hin.
  { intros r Hr. by eapply elem_of_submseteq; [|apply sublist_submseteq]. }
  exists rs'. split; simpl.
  - rewrite Hcl, Hi. unfold ids_of. by rewrite fmap_app.
  - apply NoDup_app. split; [done|]. split; [|by eapply sublist_NoDup].
    intros r Hr Hr'%Hin. by apply Hb in Hr' as (_ & ? & _).
  - intros r [Hr|Hr%Hin]%elem_of_app; [by apply He|]. by apply Hb in Hr as (_ & _ & ? & ?).
  - rewrite length_app, Hi in *. unfold ids_of in Hlen. rewrite length_fmap in Hlen. lia.
  - intros te Hte. destruct (Hu te Hte) as [Hnone Hz].
    assert (tenant_count te rs' = 0) as Hz'.
    { destruct (decide (tenant_count te rs' = 0)) as [|Hne]; [done|].
      apply tenant_count_pos in Hne as (r & Hr%Hin & <-). by apply Hb in Hr as [? _]. }
    rewrite tenant_count_app, Hsl, Hnone, Hz, Hz'. done.
  - intros te Hte. rewrite tenant_count_app, Hsl, <-(Hs te Hte). lia.
  - intros te. rewrite tenant_count_app, Hsl. specialize (Hc te). specialize (Hnn te).
    pose proof (tenant_count_nonneg te rs). pose proof (tenant_count_nonneg te rs'). lia.
Qed.

Lemma claim_rounds_inv rounds rs st :
  claim_inv rs st → ∃ rs', claim_inv rs' (claim_rounds t d limit caps policy rounds st).
Proof using Hids.
  revert rs st. induction rounds as [|n IH]; intros rs st Hinv; simpl; [eauto|].
  destruct (_ <=? 0); [eauto|].
  set (batch := fetch_candidates _ _ _ _ _ _).
  destruct batch as [|b bs] eqn:Eb; [eauto|]. rewrite <-Eb.
  set (st1 := MkClaim (cl_claimed st) (cl_seen st ∪ list_to_set (t_id ∘ t_spec <$> batch)) (cl_slack st)
                (cl_known st)).
  assert (claim_inv rs st1) as Hinv1.
  { destruct Hinv as [Hi Hnd He Hl Hu Hs Hc]. split; simpl; try done.
    intros r Hr. apply He in Hr as [? ?]. split; [done|]. apply elem_of_union. by left. }
  destruct (learn_slack_inv batch rs st1 Hinv1) as [Hinv2 Hknown].
  set (st2 := learn_slack d batch st1) in *.
  destruct (spend _ _ _ _) as [claimed slack] eqn:Esp.
  destruct (spend_inv batch rs st2 claimed slack) as [rs' H']; try done.
  - apply fetch_NoDup.
  - intros r Hr. split; [by apply Hknown|].
    pose proof (fetch_batch _ _ _ Hr) as Hcand.
    rewrite elem_of_candidates in Hcand by done. destruct Hcand as (? & ? & ? & Hns & ? & ?).
    split_and!.
    + intros Hrs. apply (ci_elig _ _ Hinv) in Hrs as [_ ?]. done.
    + rewrite elem_of_candidates by done. split_and!; try done.
    + simpl. apply elem_of_union. right. apply elem_of_list_to_set, list_elem_of_fmap. eauto.
  - by eapply IH.
Qed.
End rounds.

(** ** What the transaction writes *)

Definition claimed_row (t : txn) (w : text) (ttl : Z) (r : task_row) : task_row :=
  assigns (claim_sets t w ttl r) r.

Definition claim_event (t : txn) (w : text) : db → task_row → db :=
  row_event t EventType.TASK_CLAIMED (Some w) ∅.

Definition new_attempt (t : txn) (w : text) (r : task_row) : attempt_row :=
  MkAttempt (t_id r) (t_attempt r) w (now t) None None None None.

Definition add_attempt (t : txn) (w : text) (d : db) (r : task_row) : db :=
  set_attempts (<[(t_id r, t_attempt r) := new_attempt t w r]> (task_attempts d)) d.

(** The tables after claiming [rs]: the rows, then the events, then the
    attempts. *)
Definition claimed_db (t : txn) (w : text) (ttl : Z) (rs : list task_row) (d : db) : db :=
  let rows := claimed_row t w ttl <$> rs in
  foldl (add_attempt t w)
    (foldl (claim_event t w)
       (set_tasks (update_where (λ r : task_row, bool_decide (t_id r ∈ ids_of rs))
                     (claimed_row t w ttl) (tasks d)) d) rows) rows.

(** The rows a claim picks. *)
Definition picks (t : txn) (d : db) (limit : Z) (policy : ClaimPolicy) (caps : list text)
    (rs : list task_row) : Prop :=
  cl_claimed (claim_rounds t d limit caps policy MAX_ROUNDS no_claim) = ids_of rs ∧
  NoDup rs ∧ (∀ r, r ∈ rs → r ∈ candidates t d caps ∅) ∧
  Z.of_nat (length rs) ≤ Z.max limit 0 ∧
  (∀ te, tenant_count te rs ≤ Z.max 0 (slack0 d te)).

Lemma picks_exist t d limit policy caps :
  ids_ok d → ∃ rs, picks t d limit policy caps rs.
Proof.
  intros Hids.
  destruct (claim_rounds_inv t d limit caps policy Hids MAX_ROUNDS [] no_claim) as [rs [Hi Hnd He Hl Hu Hs Hc]].
  { apply no_claim_inv. }
  exists rs. split; [done|]. split; [done|]. split; [by intros r [? _]%He|]. split; [done|].
  intros te. destruct (Hc te) as [->|H]; [lia|].
  destruct (decide (te ∈ cl_known (claim_rounds t d limit caps policy MAX_ROUNDS no_claim))) as [Hk|Hk].
  - rewrite <-(Hs te Hk). lia.
  - apply Hu in Hk as [_ ->]. lia.
Qed.

Lemma claimed_row_spec t w ttl r : t_spec (claimed_row t w ttl r) = t_spec r.
Proof. apply assigns_spec. Qed.

Lemma find_row_unique i (r : task_row) rs :
  r ∈ rs → t_id r = i → (∀ r' : task_row, r' ∈ rs → t_id r' = i → r' = r) →
  find_row i rs = Some r.
Proof.
  intros Hr Hi Hu. unfold find_row.
  destruct (list_find_elem_of (λ r : task_row, t_id r = i) rs r Hr Hi) as [[k r'] E].
  rewrite E. simpl. apply list_find_Some in E as (Hk & Hi' & _).
  f_equal. apply Hu; [by eapply list_elem_of_lookup_2|done].
Qed.

(** The UPDATE .. RETURNING rows, put back in claim order. *)
Lemma reorder_rows t d w ttl rs :
  ids_ok d → (∀ r : task_row, r ∈ rs → tasks d !! t_id r = Some r) →
  omap (λ i, find_row i (claimed_row t w ttl
                <$> select (λ r : task_row, bool_decide (t_id r ∈ ids_of rs)) (tasks d)))
    (ids_of rs)
  = claimed_row t w ttl <$> rs.
Proof.
  intros Hids Hrs. set (p := λ r : task_row, bool_decide (t_id r ∈ ids_of rs)).
  assert (∀ r : task_row, r ∈ rs → find_row (t_id r)
            (claimed_row t w ttl <$> select p (tasks d)) = Some (claimed_row t w ttl r)) as Hf.
  { intros r Hr. apply find_row_unique.
    - apply list_elem_of_fmap. exists r. split; [done|]. apply elem_of_select.
      split; [|eauto]. apply bool_decide_eq_true, list_elem_of_fmap. eauto.
    - by rewrite claimed_row_spec.
    - intros r' (r0 & -> & (_ & k & Hk)%elem_of_select)%list_elem_of_fmap.
      rewrite claimed_row_spec. intros Heq. apply Hrs in Hr.
      rewrite <-Heq, (Hids _ _ Hk), Hk in Hr. congruence. }
  revert Hf. generalize (claimed_row t w ttl <$> select p (tasks d)) as upd.
  clear. intros upd. induction rs as [|r rs IH]; intros Hf; simpl; [done|].
  rewrite Hf by (by left). f_equal. apply IH. intros r' Hr'. apply Hf. by right.
Qed.

Lemma claimed_row_ok t w ttl r :
  task_ok r → t_attempt r < int4_max → task_ok (claimed_row t w ttl r).
Proof.
  rewrite !task_ok_spec, claimed_row_spec. intros (Hp & Ha & _) Hlt.
  split; [done|]. split; [simpl; lia|]. unfold coherent. simpl. split; [|done]. eauto.
Qed.

Lemma claimed_db_nil t w ttl d : claimed_db t w ttl [] d = d.
Proof.
  unfold claimed_db. simpl. transitivity (set_tasks (tasks d) d); [|by destruct d]. f_equal.
  apply map_eq. intros i. rewrite lookup_update_where. by destruct (tasks d !! i).
Qed.

Section claimed_tables.
Context (t : txn) (w : text) (ttl : Z).

Lemma claimed_tasks rs d :
  tasks (claimed_db t w ttl rs d)
  = update_where (λ r : task_row, bool_decide (t_id r ∈ ids_of rs)) (claimed_row t w ttl) (tasks d).
Proof. unfold claimed_db. by rewrite !foldl_keep by done. Qed.

Lemma claimed_workers rs d : workers (claimed_db t w ttl rs d) = workers d.
Proof. unfold claimed_db. by rewrite !foldl_keep by done. Qed.

Lemma claimed_tenants rs d : tenants (claimed_db t w ttl rs d) = tenants d.
Proof. unfold claimed_db. by rewrite !foldl_keep by done. Qed.

Definition attempt_keys (rows : list task_row) : list (uuid * Z) :=
  (λ r : task_row, (t_id r, t_attempt r)) <$> rows.

Lemma add_attempts_lookup (rows : list task_row) d i a :
  task_attempts (foldl (add_attempt t w) d rows) !! (i, a) =
  if decide ((i, a) ∈ attempt_keys rows)
  then Some (MkAttempt i a w (now t) None None None None) else task_attempts d !! (i, a).
Proof.
  revert d. induction rows as [|r rows IH]; intros d.
  { rewrite decide_False by apply not_elem_of_nil. done. }
  simpl foldl. rewrite IH. unfold attempt_keys. rewrite fmap_cons.
  fold (attempt_keys rows).
  destruct (decide ((i, a) ∈ attempt_keys rows)) as [H1|H1].
  { rewrite decide_True; [done|]. by right. }
  destruct (decide ((i, a) = (t_id r, t_attempt r))) as [H2|H2].
  - rewrite decide_True by (rewrite H2; left). unfold add_attempt. simpl.
    injection H2 as -> ->. by rewrite lookup_insert_eq.
  - rewrite decide_False by (rewrite elem_of_cons; tauto). unfold add_attempt. simpl.
    by rewrite lookup_insert_ne.
Qed.

Lemma add_attempts_log (rows : list task_row) d i :
  log (foldl (add_attempt t w) d rows) i = log d i.
Proof. by rewrite (foldl_keep (λ d, log d i)). Qed.
End claimed_tables.

Lemma ids_of_claimed t w ttl rs : ids_of (claimed_row t w ttl <$> rs) = ids_of rs.
Proof.
  unfold ids_of. rewrite <-list_fmap_compose. apply list_fmap_ext. intros k r _. unfold compose.
  by rewrite claimed_row_spec.
Qed.

Lemma picks_ids_NoDup t d limit policy caps rs :
  ids_ok d → picks t d limit policy caps rs → NoDup (ids_of rs).
Proof.
  intros Hids (_ & Hnd & Hc & _). apply NoDup_fmap_2_strong; [|done].
  intros r1 r2 H1%Hc H2%Hc Heq. rewrite elem_of_candidates in H1, H2 by done.
  destruct H1 as [H1 _], H2 as [H2 _]. rewrite Heq in H1. congruence.
Qed.

(** Distinct rows as they are stored. *)
Definition taken (d : db) (rs : list task_row) : Prop :=
  NoDup (ids_of rs) ∧ ∀ r : task_row, r ∈ rs → tasks d !! t_id r = Some r.

Lemma picks_taken t d limit policy caps rs :
  ids_ok d → picks t d limit policy caps rs → taken d rs.
Proof.
  intros Hids Hp. split; [by eapply picks_ids_NoDup|]. destruct Hp as (_ & _ & Hc & _). intros r Hr%Hc.
  rewrite elem_of_candidates in Hr by done. by destruct Hr.
Qed.

(** ** Running [claim_tasks] *)

Lemma insert_attempt_inv i a w t d u d' :
  insert_attempt i a w t d = inr (u, d') →
  task_attempts d !! (i, a) = None ∧ is_Some (workers d !! w) ∧
  d' = set_attempts (<[(i, a) := MkAttempt i a w (now t) None None None None]> (task_attempts d)) d.
Proof.
  unfold insert_attempt. rewrite bind_run. cbn [get]. rewrite bind_run. cbn [ask].
  case_bool_decide as H1; [done|]. case_bool_decide as H2; [done|].
  case_bool_decide as H3; [done|]. intros [= <- <-].
  split; [by apply eq_None_not_Some|]. split; [|done].
  destruct (workers d !! w); [eauto|done].
Qed.

Lemma insert_attempt_run i a w t d :
  task_attempts d !! (i, a) = None → is_Some (workers d !! w) → is_Some (tasks d !! i) →
  insert_attempt i a w t d = inr (tt,
    set_attempts (<[(i, a) := MkAttempt i a w (now t) None None None None]> (task_attempts d)) d).
Proof.
  intros H1 [x H2] [r H3]. unfold insert_attempt. rewrite bind_run. cbn [get]. rewrite bind_run.
  cbn [ask]. rewrite H1, H2, H3. done.
Qed.

Lemma insert_attempts_inv t w (rows : list task_row) d u d' :
  for_each rows (λ r : task_row, insert_attempt (t_id r) (t_attempt r) w) t d = inr (u, d') →
  d' = foldl (add_attempt t w) d rows ∧
  ∀ r : task_row, r ∈ rows → task_attempts d !! (t_id r, t_attempt r) = None ∧ is_Some (workers d !! w).
Proof.
  revert d. induction rows as [|r rows IH]; intros d; simpl.
  { intros [= <- <-]. split; [done|]. by intros r ?%not_elem_of_nil. }
  intros (u1 & d1 & (Hf & Hw & ->)%insert_attempt_inv & [-> Hrest]%IH)%bind_ok.
  split; [done|]. intros r' [->|Hr]%elem_of_cons; [done|].
  apply Hrest in Hr as [Hfr ?]. split; [|done]. simpl in Hfr.
  by apply lookup_insert_None in Hfr as [? _].
Qed.

Lemma insert_attempts_run t w (rows : list task_row) d :
  NoDup (ids_of rows) → is_Some (workers d !! w) →
  (∀ r : task_row, r ∈ rows → task_attempts d !! (t_id r, t_attempt r) = None ∧ is_Some (tasks d !! t_id r)) →
  for_each rows (λ r : task_row, insert_attempt (t_id r) (t_attempt r) w) t d
  = inr (tt, foldl (add_attempt t w) d rows).
Proof.
  revert d. induction rows as [|r rows IH]; intros d Hnd Hw H; simpl; [done|].
  apply NoDup_cons in Hnd as [Hnin Hnd]. destruct (H r) as [H1 H2]; [by left|].
  rewrite bind_run, insert_attempt_run by done. apply IH; [done..|].
  intros r' Hr'. simpl. destruct (H r') as [H3 H4]; [by right|]. split; [|done].
  rewrite lookup_insert_ne; [done|]. intros [= Heq _]. destruct Hnin. rewrite Heq.
  apply list_elem_of_fmap. eauto.
Qed.

Section run.
Context (t : txn) (d : db) (w : text) (ttl : Z).
Hypothesis Hids : ids_ok d.

(** [grant_claimed] when there is something to claim. *)
Definition grant (rs : list task_row) : M (list task_row) :=
  _ ← int_seconds ttl;
  updated ← update_tasks (λ r : task_row, bool_decide (t_id r ∈ ids_of rs))
              (claim_sets t w ttl);
  for_each updated (λ _, load_timestamp (now t + seconds ttl)) ;;
  let rows := omap (λ i, find_row i updated) (ids_of rs) in
  for_each rows (λ r : task_row, insert_event (t_id r) (Some (t_attempt r))
                                   EventType.TASK_CLAIMED (Some w) ∅) ;;
  for_each rows (λ r : task_row, insert_attempt (t_id r) (t_attempt r) w) ;;
  mret rows.

Lemma grant_claimed_rows rs :
  grant_claimed w ttl (ids_of rs) t d =
    match rs with [] => inr ([], d) | _ => grant rs t d end.
Proof using. unfold grant_claimed. rewrite bind_run. cbn [ask]. by destruct rs. Qed.

Context (rs : list task_row).
Hypothesis Hp : taken d rs.

Lemma picked_row (r : task_row) : r ∈ rs → tasks d !! t_id r = Some r.
Proof using Hp. apply Hp. Qed.

Lemma picked_selected (r : task_row) :
  r ∈ select (λ r : task_row, bool_decide (t_id r ∈ ids_of rs)) (tasks d) ↔ r ∈ rs.
Proof using Hids Hp.
  rewrite elem_of_select, bool_decide_eq_true. unfold ids_of. rewrite list_elem_of_fmap. split.
  - intros [(r' & Heq & Hr') [k Hk]]. pose proof (picked_row _ Hr') as Hl.
    rewrite <-Heq, (Hids _ _ Hk), Hk in Hl. by simplify_eq.
  - intros Hr. split; [eauto|]. exists (t_id r). by apply picked_row.
Qed.

Definition updated_db : db :=
  set_tasks (update_where (λ r : task_row, bool_decide (t_id r ∈ ids_of rs))
               (claimed_row t w ttl) (tasks d)) d.

Lemma claim_events_run :
  (∀ r : task_row, r ∈ rs → task_ok (claimed_row t w ttl r)) →
  for_each (claimed_row t w ttl <$> rs)
    (λ r : task_row, insert_event (t_id r) (Some (t_attempt r)) EventType.TASK_CLAIMED (Some w) ∅)
    t updated_db = inr (tt, foldl (claim_event t w) updated_db (claimed_row t w ttl <$> rs)).
Proof using Hids Hp.
  intros Hok. apply row_events_run. intros r Hr.
  apply list_elem_of_fmap in Hr as (r0 & -> & Hr). split; [|by apply Hok].
  rewrite claimed_row_spec. simpl. rewrite lookup_update_where, picked_row by done. eauto.
Qed.

Lemma claimed_attempt_keys (r : task_row) :
  r ∈ rs → t_id (claimed_row t w ttl r) = t_id r ∧
           t_attempt (claimed_row t w ttl r) = t_attempt r + 1.
Proof using. by rewrite claimed_row_spec. Qed.

(** Loading the dates of the returned rows. *)
Lemma load_each {A} (l : list A) x t0 d0 u d1 :
  for_each l (λ _, load_timestamp x) t0 d0 = inr (u, d1) →
  d1 = d0 ∧ (l ≠ [] → loadable x = true).
Proof using.
  revert d0. induction l as [|y l IH]; intros d0; simpl; [by intros [= <- <-]|].
  rewrite bind_run. unfold load_timestamp at 1.
  destruct (loadable x); [|done]. by intros [-> _]%IH.
Qed.

Lemma load_each_run {A} (l : list A) x t0 d0 :
  loadable x = true → for_each l (λ _, load_timestamp x) t0 d0 = inr (tt, d0).
Proof using.
  intros Hx. induction l as [|y l IH]; simpl; [done|]. rewrite bind_run.
  unfold load_timestamp at 1. by rewrite Hx.
Qed.

(** Nothing prevents the grant from committing. *)
Lemma grant_run :
  is_Some (workers d !! w) → ttl_fits t ttl = true →
  (∀ r : task_row, r ∈ rs → task_ok r ∧ t_attempt r < int4_max ∧
     task_attempts d !! (t_id r, t_attempt r + 1) = None) →
  grant rs t d = inr (claimed_row t w ttl <$> rs, claimed_db t w ttl rs d).
Proof using Hids Hp.
  intros Hw [Hi Hl]%ttl_fits_spec Hrs. unfold grant. rewrite bind_run. unfold int_seconds.
  rewrite Hi. cbn [mret M_ret]. rewrite bind_run, update_tasks_run.
  2: { intros r Hr%picked_selected. apply Hrs in Hr as (Hok & Hlt & _).
       by apply claimed_row_ok. }
  rewrite bind_run, load_each_run by done.
  cbv zeta. change (λ r, assigns (claim_sets t w ttl r) r) with (claimed_row t w ttl). rewrite reorder_rows by (try done; apply picked_row).
  fold updated_db. rewrite bind_run, claim_events_run.
  2: { intros r Hr. destruct (Hrs r Hr) as (Hok & Hlt & _). by apply claimed_row_ok. }
  rewrite bind_run, insert_attempts_run.
  - done.
  - rewrite ids_of_claimed. apply Hp.
  - by rewrite foldl_keep.
  - intros r (r0 & -> & Hr)%list_elem_of_fmap.
    destruct (claimed_attempt_keys r0 Hr) as [-> ->]. unfold claim_event; rewrite row_events_attempts. simpl.
    split; [by apply Hrs|]. rewrite foldl_keep by done. simpl.
    rewrite lookup_update_where, picked_row by done. eauto.
Qed.

Lemma grant_inv rows d' :
  grant rs t d = inr (rows, d') →
  rows = claimed_row t w ttl <$> rs ∧ d' = claimed_db t w ttl rs d ∧
  ∀ r : task_row, r ∈ rs → task_ok (claimed_row t w ttl r) ∧ is_Some (workers d !! w) ∧
     task_attempts d !! (t_id r, t_attempt r + 1) = None ∧ ttl_fits t ttl = true.
Proof using Hids Hp.
  unfold grant. intros (? & ? & Hint & H)%bind_ok. unfold int_seconds in Hint.
  destruct (interval_fits (seconds ttl)) eqn:Hfit; [|done]. injection Hint as <- <-.
  apply bind_ok in H as (upd & d1 & (-> & -> & Hok)%update_tasks_inv & H).
  apply bind_ok in H as (? & ? & [-> Hload]%load_each & H).
  cbv zeta in H. change (λ r, assigns (claim_sets t w ttl r) r) with (claimed_row t w ttl) in H.
  rewrite reorder_rows in H by (try done; apply picked_row). fold updated_db in H.
  rewrite bind_run, claim_events_run in H by (intros r Hr; by apply Hok, picked_selected).
  apply bind_ok in H as (u & d2 & [-> Ha]%insert_attempts_inv & [= <- <-]).
  split; [done|]. split; [done|]. intros r Hr. split.
  - by apply Hok, picked_selected.
  - destruct (Ha (claimed_row t w ttl r)) as [H1 H2].
    { apply list_elem_of_fmap. eauto. }
    rewrite foldl_keep in H2 by done. split; [done|].
    unfold claim_event in H1. rewrite row_events_attempts in H1. destruct (claimed_attempt_keys r Hr) as [Ei Ea].
    rewrite Ei, Ea in H1. split; [done|]. apply ttl_fits_spec. split; [done|]. apply Hload.
    intros He%fmap_nil_inv. apply picked_selected in Hr. rewrite He in Hr.
    by apply not_elem_of_nil in Hr.
Qed.
End run.

(** Claiming any tasks that are there. *)
Lemma grant_claimed_run t d w ttl rs :
  ids_ok d → taken d rs → is_Some (workers d !! w) → ttl_fits t ttl = true →
  (∀ r : task_row, r ∈ rs → task_ok r ∧ t_attempt r < int4_max ∧
     task_attempts d !! (t_id r, t_attempt r + 1) = None) →
  grant_claimed w ttl (ids_of rs) t d = inr (claimed_row t w ttl <$> rs, claimed_db t w ttl rs d).
Proof.
  intros. rewrite grant_claimed_rows. destruct rs as [|r0 rs'] eqn:E.
  - by rewrite claimed_db_nil.
  - by apply grant_run.
Qed.

Lemma grant_claimed_inv t d w ttl rs rows d' :
  ids_ok d → taken d rs → grant_claimed w ttl (ids_of rs) t d = inr (rows, d') →
  rows = claimed_row t w ttl <$> rs ∧ d' = claimed_db t w ttl rs d ∧
  ∀ r : task_row, r ∈ rs → task_ok (claimed_row t w ttl r) ∧ is_Some (workers d !! w) ∧
     task_attempts d !! (t_id r, t_attempt r + 1) = None ∧ ttl_fits t ttl = true.
Proof.
  intros Hids Hp. rewrite grant_claimed_rows. destruct rs as [|r0 rs'] eqn:E.
  - intros [= <- <-]. rewrite claimed_db_nil. split; [done|]. split; [done|].
    by intros r ?%not_elem_of_nil.
  - by apply grant_inv.
Qed.

Lemma claim_tasks_grant t d w limit ttl policy caps rs :
  picks t d limit policy caps rs →
  claim_tasks w limit ttl policy caps t d = grant_claimed w ttl (ids_of rs) t d.
Proof.
  intros (Hcl & _). unfold claim_tasks. rewrite bind_run. cbn [ask]. rewrite bind_run.
  cbn [get]. by rewrite Hcl.
Qed.

Lemma claim_tasks_run t d w limit ttl policy caps rs :
  ids_ok d → picks t d limit policy caps rs → is_Some (workers d !! w) → ttl_fits t ttl = true →
  (∀ r : task_row, r ∈ rs → task_ok r ∧ t_attempt r < int4_max ∧
     task_attempts d !! (t_id r, t_attempt r + 1) = None) →
  claim_tasks w limit ttl policy caps t d
  = inr (claimed_row t w ttl <$> rs, claimed_db t w ttl rs d).
Proof.
  intros. erewrite claim_tasks_grant by done. apply grant_claimed_run; [done| |done..].
  by eapply picks_taken.
Qed.

Lemma claim_tasks_inv t d w limit ttl policy caps rows d' :
  ids_ok d → claim_tasks w limit ttl policy caps t d = inr (rows, d') →
  ∃ rs, picks t d limit policy caps rs ∧
    rows = claimed_row t w ttl <$> rs ∧ d' = claimed_db t w ttl rs d ∧
    ∀ r : task_row, r ∈ rs → task_ok (claimed_row t w ttl r) ∧ is_Some (workers d !! w) ∧
       task_attempts d !! (t_id r, t_attempt r + 1) = None ∧ ttl_fits t ttl = true.
Proof.
  intros Hids H. destruct (picks_exist t d limit policy caps Hids) as [rs Hp].
  exists rs. split; [done|]. erewrite claim_tasks_grant in H by done.
  apply grant_claimed_inv; [done| |done]. by eapply picks_taken.
Qed.

(** ** Claims that overlap

    What a claim is sure to have picked when it commits, whatever other claims
    did since it read: [ClaimRace] runs the statements apart. *)

Definition chosen (t : txn) (d : db) (limit : Z) (caps : list text) (ids : list uuid) : Prop :=
  NoDup ids ∧ Z.of_nat (length ids) ≤ Z.max limit 0 ∧
  ∀ i, i ∈ ids → ∃ r : task_row, tasks d !! i = Some r ∧ t_state r = State.QUEUED ∧
    t_available_at r ≤ now t ∧ claim_eligible caps r = true.

Lemma picks_chosen t d limit policy caps rs :
  ids_ok d → picks t d limit policy caps rs → chosen t d limit caps (ids_of rs).
Proof.
  intros Hids Hp. split; [by eapply picks_ids_NoDup|]. destruct Hp as (_ & _ & Hc & Hl & _).
  split; [unfold ids_of; by rewrite length_fmap|].
  intros i (r & -> & Hr%Hc)%list_elem_of_fmap. exists r.
  rewrite elem_of_candidates in Hr by done. tauto.
Qed.

(** The rows behind the ids. *)
Lemma chosen_rows t d limit caps ids :
  ids_ok d → chosen t d limit caps ids →
  ∃ rs, ids = ids_of rs ∧ taken d rs ∧ ∀ r : task_row, r ∈ rs → t_state r = State.QUEUED.
Proof.
  intros Hids (Hnd & _ & Hq).
  assert (∃ rs, ids = ids_of rs ∧ ∀ r : task_row, r ∈ rs → tasks d !! t_id r = Some r ∧ t_state r = State.QUEUED)
    as (rs & -> & Hrs).
  { clear Hnd. induction ids as [|i ids IH]; [exists []; split; [done|]; by intros r ?%not_elem_of_nil|].
    destruct IH as (rs & -> & Hrs); [intros j Hj; apply Hq; by right|].
    destruct (Hq i) as (r & Hr & Hs & _); [by left|]. exists (r :: rs).
    split; [by rewrite <-(Hids _ _ Hr)|]. intros r' [->|Hr']%elem_of_cons; [|by apply Hrs].
    by rewrite (Hids _ _ Hr). }
  exists rs. split; [done|]. split; [split; [done|]|]; intros r Hr; by apply Hrs.
Qed.

Lemma chosen_inv t d limit caps ids w ttl rows d' :
  ids_ok d → chosen t d limit caps ids → grant_claimed w ttl ids t d = inr (rows, d') →
  ∃ rs, ids = ids_of rs ∧ taken d rs ∧ (∀ r : task_row, r ∈ rs → t_state r = State.QUEUED) ∧
    rows = claimed_row t w ttl <$> rs ∧ d' = claimed_db t w ttl rs d ∧
    ∀ r : task_row, r ∈ rs → task_ok (claimed_row t w ttl r) ∧ is_Some (workers d !! w) ∧
       task_attempts d !! (t_id r, t_attempt r + 1) = None ∧ ttl_fits t ttl = true.
Proof.
  intros Hids (rs & -> & Ht & Hq)%chosen_rows H; [|done]. exists rs. split; [done|].
  split; [done|]. split; [done|]. by apply grant_claimed_inv.
Qed.

(** A claim alone on its rows picks such tasks. *)
Lemma claim_is_chosen w limit ttl policy caps t d :
  ids_ok d → ∃ ids, chosen t d limit caps ids ∧
    claim_tasks w limit ttl policy caps t d = grant_claimed w ttl ids t d.
Proof.
  intros Hids. destruct (picks_exist t d limit policy caps Hids) as [rs Hp]. exists (ids_of rs).
  split; [by eapply picks_chosen|by apply claim_tasks_grant].
Qed.

(** ** The tenant cap *)

Lemma rows_update_where p f (m : gmap uuid task_row) :
  rows (update_where p f m) ≡ₚ (λ r, if p r then f r else r) <$> rows m.
Proof.
  unfold rows, update_where. rewrite map_to_list_fmap, <-!list_fmap_compose. reflexivity.
Qed.

Lemma count_update {A} (p : A → bool) (R : A → Prop) (g : A → A) `{∀ x, Decision (R x)}
    (l : list A) :
  (∀ x, x ∈ l → (p (g x) = true ↔ p x = true ∨ R x) ∧ ¬ (p x = true ∧ R x)) →
  length (filter (λ x, p x = true) (g <$> l)) =
  (length (filter (λ x, p x = true) l) + length (filter R l))%nat.
Proof.
  induction l as [|x l IH]; intros H2; [done|]. rewrite fmap_cons, !filter_cons.
  destruct (H2 x) as [Hx Hd]; [by left|].
  pose proof (IH (λ y Hy, H2 y (list_elem_of_further _ _ _ Hy))) as IH'.
  destruct (decide (p (g x) = true)), (decide (p x = true)), (decide (R x));
    simpl; rewrite ?IH'; try lia; tauto.
Qed.

Lemma running_count_claimed t w ttl d rs te :
  ids_ok d → NoDup rs →
  (∀ r : task_row, r ∈ rs → tasks d !! t_id r = Some r ∧ t_state r = State.QUEUED) →
  running_count (claimed_db t w ttl rs d) te = running_count d te + tenant_count te rs.
Proof.
  intros Hids Hnd Hrs. unfold running_count, select. rewrite claimed_tasks, rows_update_where.
  assert (∀ r : task_row, Decision (r ∈ rs ∧ t_tenant_id r = te)) as Hdec by apply _.
  rewrite (@count_update _ _ (λ r : task_row, r ∈ rs ∧ t_tenant_id r = te) _ Hdec).
  - rewrite Nat2Z.inj_add. f_equal. unfold tenant_count. f_equal. apply Permutation_length.
    apply NoDup_Permutation.
    + apply NoDup_filter. by eapply NoDup_fmap_1, (NoDup_rows (λ r : task_row, t_id r)).
    + by apply NoDup_filter.
    + intros r. rewrite !list_elem_of_filter, elem_of_rows. split; [naive_solver|].
      intros [? Hr]. split; [done|]. exists (t_id r). by apply Hrs.
  - intros r [k Hk]%elem_of_rows. pose proof (Hids _ _ Hk) as <-.
    assert (t_id r ∈ ids_of rs ↔ r ∈ rs) as Hin.
    { unfold ids_of. rewrite list_elem_of_fmap. split; [|eauto].
      intros (r' & Heq & Hr'). destruct (Hrs _ Hr') as [Hl _]. rewrite <-Heq, Hk in Hl.
      by simplify_eq. }
    destruct (decide (r ∈ rs)) as [Hr|Hr].
    + rewrite (bool_decide_eq_true_2 (t_id r ∈ ids_of rs)) by tauto. destruct (Hrs _ Hr) as [_ Hq].
      rewrite claimed_row_spec, Hq. rewrite !andb_true_iff, !bool_decide_eq_true. simpl.
      split; [|naive_solver]. split; [|naive_solver]. intros [? _]. by right.
    + rewrite (bool_decide_eq_false_2 (t_id r ∈ ids_of rs)) by tauto. tauto.
Qed.

(** C25: the keyed merge. When no capability name holds a comma and each
    stored key encodes its row's requirements, a worker under the keyed bound
    gets from the per-key limited branches exactly what one scan would give:
    the first [need] rows by (priority, available_at, id) among all rows that
    are ready, unseen, unlocked and satisfied by the worker. *)
Theorem fetch_correct t d caps policy need seen :
  ids_ok d → (length (normalised caps) ≤ MAX_KEYED_CLAIM_CAPABILITIES)%nat → comma_free caps →
  (∀ i (r : task_row), tasks d !! i = Some r →
     t_capability_key r = capability_key (t_required_capabilities r) ∧
     comma_free (t_required_capabilities r)) →
  fetch_candidates t d caps policy need seen =
  take need (order_by (key_le cand_key)
    (select (λ r : task_row, ready t seen r && worker_satisfies (t_required_capabilities r) caps)
       (tasks d))).
Proof.
  intros Hids Hk Hcf Hrows. rewrite fetch_spec by done. unfold claim_key, candidates, claim_eligible.
  assert (keyed caps = true) as -> by (by apply Nat.leb_le). f_equal. f_equal.
  unfold select. apply filter_ext_on. intros r [i Hr]%elem_of_rows.
  destruct (Hrows _ _ Hr) as [-> Hcr]. rewrite !andb_true_iff, bool_decide_eq_true.
  assert (satisfiable_capability_keys (normalised caps) = satisfiable_capability_keys caps) as ->.
  { unfold satisfiable_capability_keys. by rewrite normalised_idemp. }
  split; intros [? ?]; split; try done; [by apply key_satisfies|by apply satisfies_key].
Qed.

Lemma ex_ids_ok : ids_ok ex_db.
Proof. unfold ids_ok. by apply ex_tasks_cases. Qed.

Lemma fetch_correct_witness :
  fetch_candidates (txn_at 20) ex_db [] DEFAULT_POLICY 1 ∅ = [ex_queued 11 50].
Proof.
  rewrite (fetch_correct (txn_at 20) ex_db [] DEFAULT_POLICY 1 ∅ ex_ids_ok).
  - vm_compute. reflexivity.
  - simpl. lia.
  - constructor.
  - apply ex_tasks_cases; (split; [reflexivity|constructor]).
Defined.

(** C21: claim safety. Whatever the queue and the other transactions' locks,
    a claim that commits returns at most [limit] distinct tasks; each was
    QUEUED, due, eligible for the worker and locked by nobody, and is now
    written as RUNNING under the next attempt number with this worker's
    lease; no other task row changes; and no tenant ends above both its
    concurrency cap and what it was already running. *)
Theorem claim_correct w limit ttl policy caps t d rows d' :
  ids_ok d → claim_tasks w limit ttl policy caps t d = inr (rows, d') →
  NoDup (ids_of rows) ∧ Z.of_nat (length rows) ≤ Z.max limit 0 ∧
  (∀ row : task_row, row ∈ rows → ∃ r : task_row,
     tasks d !! t_id row = Some r ∧ t_state r = State.QUEUED ∧ t_available_at r ≤ now t ∧
     (t_id row ∉ locked t) ∧ claim_eligible caps r = true ∧
     task_attempts d !! (t_id row, t_attempt r + 1) = None ∧
     row = claimed_row t w ttl r ∧ tasks d' !! t_id row = Some row) ∧
  (∀ i, i ∉ ids_of rows → tasks d' !! i = tasks d !! i) ∧
  (∀ te tr, tenants d !! te = Some tr →
     running_count d' te ≤ Z.max (running_count d te) (te_max_concurrent_tasks tr)).
Proof.
  intros Hids (rs & Hp & -> & -> & Hok)%claim_tasks_inv; [|done].
  pose proof (picks_ids_NoDup _ _ _ _ _ _ Hids Hp) as Hndi.
  pose proof Hp as (_ & Hnd & Hc & Hlen & Hcap). rewrite ids_of_claimed, length_fmap.
  assert (∀ r : task_row, r ∈ rs → tasks d !! t_id r = Some r ∧ t_state r = State.QUEUED) as Hq.
  { intros r Hr%Hc. rewrite elem_of_candidates in Hr by done. tauto. }
  split; [done|]. split; [done|]. split; [|split].
  - intros row (r & -> & Hr)%list_elem_of_fmap. exists r. rewrite claimed_row_spec.
    pose proof (Hc _ Hr) as Hcr. rewrite elem_of_candidates in Hcr by done.
    destruct Hcr as (Hl & ? & ? & _ & ? & ?). destruct (Hok _ Hr) as (_ & _ & ? & _).
    split_and!; try done. rewrite claimed_tasks, lookup_update_where, Hl. simpl.
    rewrite bool_decide_eq_true_2; [done|]. apply list_elem_of_fmap. eauto.
  - intros i Hi. rewrite claimed_tasks, lookup_update_where.
    destruct (tasks d !! i) as [r|] eqn:Hl; simpl; [|done].
    rewrite (Hids _ _ Hl). by rewrite bool_decide_eq_false_2.
  - intros te tr Hte. rewrite running_count_claimed by done. specialize (Hcap te).
    unfold slack0, tenant_slack in Hcap. rewrite Hte in Hcap. simpl in Hcap. lia.
Qed.

Lemma claim_correct_witness :
  ∃ rows d', claim_tasks "w1" 2 30 DEFAULT_POLICY [] (txn_at 20) ex_db = inr (rows, d') ∧
    ids_of rows = [11%N] ∧ NoDup (ids_of rows) ∧ running_count d' 1 ≤ 2.
Proof.
  destruct (claim_tasks "w1" 2 30 DEFAULT_POLICY [] (txn_at 20) ex_db) as [|[rows d']] eqn:E.
  { vm_compute in E. discriminate. }
  exists rows, d'. split; [reflexivity|].
  destruct (claim_correct "w1" 2 30 DEFAULT_POLICY [] (txn_at 20) ex_db rows d' ex_ids_ok E)
    as (Hnd & _ & _ & _ & Hcap).
  split; [|split; [exact Hnd|apply (Hcap 1%N ex_tenant eq_refl)]].
  vm_compute in E. injection E as <- _. reflexivity.
Defined.

(** ** Without blocked tenants, one round decides *)

Lemma spend_all limit batch claimed slack :
  Z.of_nat (length claimed + length batch) ≤ limit →
  (∀ r : task_row, r ∈ batch → Z.of_nat (length batch) ≤ slack_of slack (t_tenant_id r)) →
  (spend limit batch claimed slack).1 = claimed ++ ids_of batch.
Proof.
  revert claimed slack. induction batch as [|r batch IH]; intros claimed slack Hlen Hs; simpl.
  { by rewrite app_nil_r. }
  simpl in Hlen. pose proof (Hs r ltac:(by left)) as Hr. simpl in Hr.
  rewrite (proj2 (Z.leb_gt _ _)) by lia. rewrite (proj2 (Z.leb_gt _ _)) by lia.
  rewrite IH.
  - by rewrite <-app_assoc.
  - rewrite length_app. simpl. lia.
  - intros r' Hr'. rewrite slack_of_insert. pose proof (Hs r' ltac:(by right)) as H'. simpl in H'.
    case_decide; lia.
Qed.

Lemma candidates_seen_nil t d caps seen :
  ids_ok d → (∀ r : task_row, r ∈ candidates t d caps ∅ → t_id r ∈ seen) →
  candidates t d caps seen = [].
Proof.
  intros Hids H. destruct (candidates t d caps seen) as [|r l] eqn:E; [done|]. exfalso.
  assert (r ∈ candidates t d caps seen) as Hr by (rewrite E; by left).
  rewrite elem_of_candidates in Hr by done. destruct Hr as (? & ? & ? & Hns & ? & ?).
  apply Hns, H. rewrite elem_of_candidates by done. split_and!; done.
Qed.

Lemma claim_rounds_done t d limit caps policy n st :
  ids_ok d →
  limit ≤ Z.of_nat (length (cl_claimed st)) ∨ candidates t d caps (cl_seen st) = [] →
  claim_rounds t d limit caps policy n st = st.
Proof.
  intros Hids H. destruct n as [|n]; simpl; [done|]. destruct (_ <=? 0) eqn:E; [done|].
  destruct H as [H|H]; to_prop; [lia|]. rewrite fetch_spec, H by done. by destruct (Z.to_nat _).
Qed.

Definition first_round (d : db) (B : list task_row) : claim_state :=
  learn_slack d B (MkClaim [] (∅ ∪ list_to_set (t_id ∘ t_spec <$> B)) ∅ ∅).

Lemma claim_rounds_first t d limit caps policy n :
  0 < limit →
  claim_rounds t d limit caps policy (S n) no_claim =
  match fetch_candidates t d caps policy (Z.to_nat limit) ∅ with
  | [] => no_claim
  | B => let st1 := first_round d B in
         let '(claimed, slack) := spend limit B [] (cl_slack st1) in
         claim_rounds t d limit caps policy n (MkClaim claimed (cl_seen st1) slack (cl_known st1))
  end.
Proof.
  intros H. cbn [claim_rounds no_claim cl_claimed length]. rewrite Z.sub_0_r.
  rewrite (proj2 (Z.leb_gt _ _)) by done. by destruct (fetch_candidates _ _ _ _ _ _).
Qed.

Lemma picks_unblocked t d limit caps policy rs :
  ids_ok d → 0 < limit →
  (∀ r : task_row, r ∈ candidates t d caps ∅ → limit ≤ slack0 d (t_tenant_id r)) →
  picks t d limit policy caps rs →
  rs = take (Z.to_nat limit)
         (order_by (key_le (claim_key policy caps t ∅)) (candidates t d caps ∅)).
Proof.
  intros Hids Hlim Hslack (Hcl & _ & Hc & _).
  set (cands := candidates t d caps ∅) in *.
  set (B := take _ _).
  assert (∀ r : task_row, r ∈ B → r ∈ cands) as HB by (intros r; apply elem_of_take_order_by; apply _).
  assert (ids_of rs = ids_of B) as Heq.
  { rewrite <-Hcl. unfold MAX_ROUNDS. rewrite claim_rounds_first, fetch_spec by done. fold cands. fold B. destruct B as [|b B'] eqn:EB; [done|].
    rewrite <-EB in *. clear b B' EB.
    cbv zeta. set (st1 := first_round d B).
    assert (Z.of_nat (length B) ≤ limit) as HlenB.
    { unfold B. rewrite length_take. lia. }
    assert (∀ r : task_row, r ∈ B → Z.of_nat (length B) ≤ slack_of (cl_slack st1) (t_tenant_id r)) as Hs1.
    { intros r Hr. etrans; [exact HlenB|]. etrans; [apply Hslack, HB, Hr|].
      apply Z.eq_le_incl. symmetry.
      assert (slack_of (cl_slack st1) (t_tenant_id r) = slack0 d (t_tenant_id r)) as ->; [|done].
      unfold st1, first_round, learn_slack. simpl. rewrite learn_slack_of by done. rewrite decide_True; [done|].
      apply list_elem_of_filter. split; [apply not_elem_of_empty|].
      apply elem_of_remove_dups, list_elem_of_fmap. exists r. by split. }
    pose proof (spend_all limit B [] (cl_slack st1) HlenB Hs1) as Hsp.
    destruct (spend _ _ _ _) as [claimed slack]. simpl in Hsp. subst claimed.
    rewrite claim_rounds_done; [done|done|]. simpl.
    destruct (decide (limit ≤ Z.of_nat (length (ids_of B)))) as [|Hlt]; [by left|right].
    apply candidates_seen_nil; [done|]. intros r Hr. fold cands in Hr.
    apply elem_of_union. right. apply elem_of_list_to_set, list_elem_of_fmap. exists r.
    split; [done|]. unfold B. unfold ids_of in Hlt. rewrite length_fmap in Hlt.
    rewrite take_ge; [by apply elem_of_order_by; [apply _..|]|].
    unfold B in Hlt. rewrite length_take in Hlt. lia. }
  assert (∀ l1 l2 : list task_row, (∀ r, r ∈ l1 → r ∈ rows (tasks d)) →
            (∀ r, r ∈ l2 → r ∈ rows (tasks d)) → ids_of l1 = ids_of l2 → l1 = l2) as Hinj.
  { clear -Hids. induction l1 as [|x l1 IH]; intros [|y l2] H1 H2; try done.
    unfold ids_of. rewrite !fmap_cons. intros [= Hxy Hl]. f_equal.
    - apply (rows_same_id d Hids); [apply H1|apply H2|done]; by left.
    - apply IH; [|by intros; apply H2; right|done]. intros; apply H1; by right. }
  apply Hinj; [..|done]; intros r Hr.
  - apply Hc in Hr. by apply elem_of_select in Hr as [_ ?%elem_of_rows].
  - apply HB in Hr. by apply elem_of_select in Hr as [_ ?%elem_of_rows].
Qed.

(** *** With room for everyone who waits *)

(** The rows in one state. *)
Definition in_state (st : state) (d : db) : list task_row :=
  select (λ r : task_row, bool_decide (t_state r = st)) (tasks d).

Lemma length_select_le (p q : task_row → bool) (m : gmap uuid task_row) :
  (∀ r, p r = true → q r = true) → (length (select p m) ≤ length (select q m))%nat.
Proof.
  intros Hpq. unfold select. induction (rows m) as [|r l IH]; [done|]. rewrite !filter_cons.
  destruct (decide (p r = true)) as [Hp|], (decide (q r = true)) as [|Hq]; simpl; try lia.
  by apply Hpq in Hp.
Qed.

Lemma tenant_count_perm te rs rs' : rs ≡ₚ rs' → tenant_count te rs = tenant_count te rs'.
Proof. intros H. unfold tenant_count. by rewrite H. Qed.

Lemma tenant_count_select_le te (p q : task_row → bool) (m : gmap uuid task_row) :
  (∀ r, p r = true → q r = true) → tenant_count te (select p m) ≤ tenant_count te (select q m).
Proof.
  intros Hpq. unfold select. induction (rows m) as [|r l IH]; [done|]. rewrite !filter_cons.
  destruct (decide (p r = true)) as [Hp|], (decide (q r = true)) as [|Hq];
    rewrite ?tenant_count_cons; try (case_decide; lia); try lia. by apply Hpq in Hp.
Qed.

(** A row whose tenant has slack for all its rows of the batch is taken. *)
Lemma spend_takes limit batch claimed slack (r : task_row) :
  Z.of_nat (length claimed + length batch) ≤ limit → r ∈ batch →
  tenant_count (t_tenant_id r) batch ≤ slack_of slack (t_tenant_id r) →
  t_id r ∈ (spend limit batch claimed slack).1.
Proof.
  assert (∀ batch claimed slack i, i ∈ claimed → i ∈ (spend limit batch claimed slack).1) as Hkeep.
  { clear. intros batch. induction batch as [|b batch IH]; intros claimed slack i Hi; simpl; [done|].
    destruct (limit <=? _); [done|]. destruct (_ <=? 0); [by apply IH|].
    apply IH, elem_of_app. by left. }
  revert claimed slack. induction batch as [|b batch IH]; intros claimed slack Hlen Hr Hs.
  { by apply not_elem_of_nil in Hr. }
  simpl in Hlen |- *. rewrite (proj2 (Z.leb_gt _ _)) by lia. rewrite tenant_count_cons in Hs.
  pose proof (tenant_count_nonneg (t_tenant_id r) batch) as Hnn.
  destruct (decide (r = b)) as [->|Hne].
  { rewrite decide_True in Hs by done. rewrite (proj2 (Z.leb_gt _ _)) by lia.
    apply Hkeep, elem_of_app. right. by left. }
  assert (r ∈ batch) as Hr' by (by apply elem_of_cons in Hr as [?|?]).
  destruct (_ <=? 0) eqn:Hz; to_prop.
  - apply IH; [lia|done|]. case_decide; lia.
  - apply IH; [rewrite length_app; simpl; lia|done|]. rewrite slack_of_insert.
    destruct (decide (t_tenant_id b = t_tenant_id r)) as [E|E]; [rewrite E in *|]; lia.
Qed.

Lemma spend_keeps limit batch claimed slack i :
  i ∈ claimed → i ∈ (spend limit batch claimed slack).1.
Proof.
  destruct (spend_spec limit batch claimed slack) as (rs & _ & -> & _). intros Hi.
  apply elem_of_app. by left.
Qed.

Lemma claim_rounds_keeps t d limit caps policy n st i :
  i ∈ cl_claimed st → i ∈ cl_claimed (claim_rounds t d limit caps policy n st).
Proof.
  revert st. induction n as [|n IH]; intros st Hi; cbn [claim_rounds]; [done|].
  destruct (_ <=? 0); [done|]. destruct (fetch_candidates _ _ _ _ _ _) as [|b bs]; [done|].
  cbv zeta.
  match goal with |- context [learn_slack d (b :: bs) ?s0] => set (st1 := learn_slack d (b :: bs) s0) end.
  pose proof (spend_keeps limit (b :: bs) (cl_claimed st) (cl_slack st1) i Hi) as H.
  change (cl_claimed st1) with (cl_claimed st).
  destruct (spend limit (b :: bs) (cl_claimed st) (cl_slack st1)) as [claimed slack].
  by apply IH.
Qed.

Lemma candidates_queued t d caps :
  (length (candidates t d caps ∅) ≤ length (in_state State.QUEUED d))%nat ∧
  ∀ te, tenant_count te (candidates t d caps ∅) ≤ tenant_count te (in_state State.QUEUED d).
Proof.
  assert (∀ r : task_row, ready t ∅ r && claim_eligible caps r = true →
            bool_decide (t_state r = State.QUEUED) = true) as H.
  { intros r. unfold ready. rewrite !andb_true_iff. tauto. }
  split; [by apply length_select_le|]. intros te. by apply tenant_count_select_le.
Qed.

(** When the limit has room for every queued task and the task's tenant has
    slack for all of its own, the task is picked. *)
Lemma picks_takes t d limit policy caps rs (r : task_row) :
  ids_ok d → picks t d limit policy caps rs →
  r ∈ candidates t d caps ∅ → Z.of_nat (length (in_state State.QUEUED d)) ≤ limit →
  tenant_count (t_tenant_id r) (in_state State.QUEUED d) ≤ slack0 d (t_tenant_id r) →
  r ∈ rs.
Proof.
  intros Hids (Hcl & _ & Hc & _) Hr Hlim Hslack.
  destruct (candidates_queued t d caps) as [Hlen Hten].
  set (B := order_by (key_le (claim_key policy caps t ∅)) (candidates t d caps ∅)).
  assert (B ≡ₚ candidates t d caps ∅) as HB by (apply order_by_perm; apply _).
  assert (r ∈ B) as HrB by (by rewrite HB).
  assert (0 < limit) as Hpos.
  { apply Permutation_length in HB. destruct B; [by apply not_elem_of_nil in HrB|]. simpl in HB. lia. }
  assert (t_id r ∈ ids_of rs) as Hin.
  { rewrite <-Hcl. unfold MAX_ROUNDS. rewrite claim_rounds_first, fetch_spec by done. fold B.
    rewrite take_ge by (rewrite HB; lia).
    destruct B as [|b bs] eqn:EB; [by apply not_elem_of_nil in HrB|]. cbv zeta.
    rewrite <-EB in *. set (st1 := first_round d B).
    assert (t_id r ∈ (spend limit B [] (cl_slack st1)).1) as Hsp.
    { apply spend_takes; [rewrite HB; simpl; lia|done|].
      unfold st1, first_round, learn_slack. simpl. rewrite learn_slack_of by done.
      rewrite decide_True.
      - rewrite (tenant_count_perm _ _ _ HB). specialize (Hten (t_tenant_id r)). lia.
      - apply list_elem_of_filter. split; [apply not_elem_of_empty|].
        apply elem_of_remove_dups, list_elem_of_fmap. by exists r. }
    destruct (spend limit B [] (cl_slack st1)) as [claimed slack].
    by apply claim_rounds_keeps. }
  apply list_elem_of_fmap in Hin as (r' & Hid & Hr').
  enough (r = r') as -> by done.
  apply (rows_same_id d Hids); [..|done]; apply elem_of_rows; eexists.
  - rewrite elem_of_candidates in Hr by done. apply Hr.
  - apply Hc in Hr'. rewrite elem_of_candidates in Hr' by done. apply Hr'.
Qed.

(** C24: claim progress and order. When every tenant with a candidate can
    still start [limit] tasks, a registered worker's claim commits and grants
    exactly the first [limit] candidates, no fewer: by priority, available_at
    and id for a worker with at most [MAX_KEYED_CLAIM_CAPABILITIES]
    capabilities, whatever the policy, and by the policy's columns for any
    other, rows the policy leaves equal in the order the server gives them. *)
Theorem claim_takes_first w limit ttl policy caps t d :
  ids_ok d → 0 < limit → is_Some (workers d !! w) → ttl_fits t ttl = true →
  (∀ r : task_row, r ∈ candidates t d caps ∅ →
     limit ≤ slack0 d (t_tenant_id r) ∧ task_ok r ∧ t_attempt r < int4_max ∧
     task_attempts d !! (t_id r, t_attempt r + 1) = None) →
  let first := take (Z.to_nat limit)
                 (order_by (key_le (claim_key policy caps t ∅)) (candidates t d caps ∅)) in
  claim_tasks w limit ttl policy caps t d =
    inr (claimed_row t w ttl <$> first, claimed_db t w ttl first d).
Proof.
  intros Hids Hlim Hw Hfit Hc first.
  destruct (picks_exist t d limit policy caps Hids) as [rs Hp].
  assert (rs = first) as ->.
  { eapply picks_unblocked; [done|done| |done]. intros r Hr. by apply Hc. }
  apply claim_tasks_run; [done..|]. destruct Hp as (_ & _ & Hin & _).
  intros r Hr%Hin. by apply Hc.
Qed.

Lemma claim_takes_first_witness :
  ∃ d', claim_tasks "w1" 1 30 DEFAULT_POLICY [] (txn_at 20) ex_db
        = inr ([claimed_row (txn_at 20) "w1" 30 (ex_queued 11 50)], d').
Proof.
  eexists. rewrite (claim_takes_first "w1" 1 30 DEFAULT_POLICY [] (txn_at 20) ex_db ex_ids_ok).
  - assert (take (Z.to_nat 1) (order_by (key_le (claim_key DEFAULT_POLICY [] (txn_at 20) ∅))
              (candidates (txn_at 20) ex_db [] ∅)) = [ex_queued 11 50]) as ->
      by (vm_compute; reflexivity).
    reflexivity.
  - reflexivity.
  - eexists. reflexivity.
  - reflexivity.
  - apply Forall_forall. apply (bool_decide_unpack _). vm_compute. exact I.
Defined.
