(* ===== verification/Reap.v ===== *)
(** * Reclaiming RUNNING tasks (db/queries/reap.py)

    The two scans (expired leases, exceeded execution times), the two
    recoveries and the two batch loops.  Recovery of either kind has the same
    shape, [reap_shape]; the properties are stated for both at once. *)

From S2P Require Import Prelude PyStr Json States Policy Db Samples Transitions Completion Claim.

(** One row of either scan. *)
Record lost_row := MkLost {
  lo_id : uuid;
  lo_attempt : Z;
  lo_max_attempts : Z;
  lo_lease_worker_id : option text;
  lo_overdue_s : Q;
}.

(** [extract('epoch', interval)] of a difference of timestamps. *)
Definition epoch_s (us : Z) : Q := us # 1000000.

Definition overdue_lease (t : txn) (r : task_row) : Q :=
  epoch_s (now t - default 0 (t_lease_expires_at r)).

Definition overdue_execution (t : txn) (r : task_row) : Q :=
  epoch_s (now t - default 0 (t_first_started_at r) - seconds (t_max_execution_time_s r)).

Definition lost_of (overdue : Q) (r : task_row) : lost_row :=
  MkLost (t_id r) (t_attempt r) (t_max_attempts r) (t_lease_worker_id r) overdue.

(** ORDER BY one timestamp. *)
Definition time_key (column : task_row → option timestamp) (t : txn) (r : task_row) : list Z :=
  default 0 (column r) :: tied t ∅ r.

Definition find_expired_leases (limit : Z) : M (list lost_row) :=
  t ← ask; n ← limit_rows limit; d ← get;
  mret ((λ r, lost_of (overdue_lease t r) r) <$>
    take n (order_by (key_le (time_key t_lease_expires_at t))
      (select (λ r : task_row, bool_decide (t_state r = State.RUNNING) && lease_expired (now t) r
                    && bool_decide (t_id r ∉ locked t)) (tasks d)))).

Definition find_hung_tasks (limit : Z) : M (list lost_row) :=
  t ← ask; n ← limit_rows limit; d ← get;
  mret ((λ r, lost_of (overdue_execution t r) r) <$>
    take n (order_by (key_le (time_key t_first_started_at t))
      (select (λ r : task_row, bool_decide (t_state r = State.RUNNING)
                    && bool_decide (is_Some (t_first_started_at r))
                    && execution_time_exceeded (now t) r
                    && bool_decide (t_id r ∉ locked t)) (tasks d)))).

Definition json_opt (o : option text) : json :=
  match o with Some s => JStr s | None => JNull end.

Definition reap_task (task_id : uuid) (attempt max_attempts : Z) (lease_worker_id : option text)
    : M bool :=
  t ← ask;
  let error_message := "lease expired; worker " +:+ repr_opt lease_worker_id +:+ " presumed dead" in
  let expired := Expect [State.RUNNING] None None true false in
  res ← (if attempt <? max_attempts then
           transition task_id expired State.QUEUED EventType.TASK_RECOVERED
             [SetAvailableAt (now t); SetLeaseWorker None; SetLeaseExpires None;
              SetErrorClass (Some "LeaseExpired"); SetErrorMessage (Some error_message)]
             {[ "lease_worker_id" := json_opt lease_worker_id ]}
         else
           transition task_id expired State.FAILED EventType.TASK_FAILED
             [SetFinishedAt (Some (now t)); SetLeaseWorker None; SetLeaseExpires None;
              SetErrorClass (Some "LeaseExpired"); SetErrorMessage (Some error_message)]
             (<[ "lease_worker_id" := json_opt lease_worker_id ]>
                {[ "reason" := JStr "attempts_exhausted" ]}));
  if negb (applied res) then mret false
  else
    record_event task_id EventType.WORKER_LOST (Some attempt) lease_worker_id ∅ ;;
    finish_attempt task_id attempt Outcome.LOST (Some "LeaseExpired") (Some error_message) ;;
    mret true.

Definition reap_hung_task (task_id : uuid) (attempt max_attempts : Z)
    (lease_worker_id : option text) : M bool :=
  t ← ask;
  let error_message :=
    "execution time exceeded; worker " +:+ repr_opt lease_worker_id +:+ " presumed stuck" in
  let exceeded := Expect [State.RUNNING] None None false true in
  res ← (if attempt <? max_attempts then
           transition task_id exceeded State.QUEUED EventType.TASK_RECOVERED
             [SetAvailableAt (now t); SetLeaseWorker None; SetLeaseExpires None;
              SetErrorClass (Some "ExecutionTimeExceeded"); SetErrorMessage (Some error_message)]
             {[ "lease_worker_id" := json_opt lease_worker_id ]}
         else
           transition task_id exceeded State.FAILED EventType.TASK_FAILED
             [SetFinishedAt (Some (now t)); SetLeaseWorker None; SetLeaseExpires None;
              SetErrorClass (Some "ExecutionTimeExceeded"); SetErrorMessage (Some error_message)]
             (<[ "lease_worker_id" := json_opt lease_worker_id ]>
                {[ "reason" := JStr "attempts_exhausted" ]}));
  if negb (applied res) then mret false
  else
    record_event task_id EventType.WORKER_LOST (Some attempt) lease_worker_id
      {[ "reason" := JStr "execution_time_exceeded" ]} ;;
    finish_attempt task_id attempt Outcome.LOST (Some "ExecutionTimeExceeded")
      (Some error_message) ;;
    mret true.

Record ReapResult := MkReap {
  requeued : Z;
  failed_exhausted : Z;
  overdue_s : list Q;
}.

Definition reaped (r : ReapResult) : Z := requeued r + failed_exhausted r.

(** The body of both loops. *)
Definition count_reaped (row : lost_row) (r : ReapResult) : ReapResult :=
  if lo_max_attempts row <=? lo_attempt row
  then MkReap (requeued r) (failed_exhausted r + 1) (overdue_s r ++ [lo_overdue_s row])
  else MkReap (requeued r + 1) (failed_exhausted r) (overdue_s r ++ [lo_overdue_s row]).

Fixpoint reap_loop (reap : uuid → Z → Z → option text → M bool) (candidates : list lost_row)
    (result : ReapResult) : M ReapResult :=
  match candidates with
  | [] => mret result
  | row :: candidates =>
      ok ← reap (lo_id row) (lo_attempt row) (lo_max_attempts row) (lo_lease_worker_id row);
      reap_loop reap candidates (if ok : bool then count_reaped row result else result)
  end.

Definition reap_expired_leases (limit : Z) : M ReapResult :=
  candidates ← find_expired_leases limit;
  reap_loop reap_task candidates (MkReap 0 0 []).

Definition reap_hung_tasks (limit : Z) : M ReapResult :=
  candidates ← find_hung_tasks limit;
  reap_loop reap_hung_task candidates (MkReap 0 0 []).

(** ** One shape for both kinds *)

Inductive lost_kind := Lease | Hung.

Definition reap (k : lost_kind) : uuid → Z → Z → option text → M bool :=
  match k with Lease => reap_task | Hung => reap_hung_task end.

(** What the kind's scan and CAS both test. *)
Definition lost (k : lost_kind) (now : timestamp) (r : task_row) : bool :=
  match k with Lease => lease_expired now r | Hung => execution_time_exceeded now r end.

Definition k_expect (k : lost_kind) : expectation :=
  match k with
  | Lease => Expect [State.RUNNING] None None true false
  | Hung => Expect [State.RUNNING] None None false true
  end.

Definition k_class (k : lost_kind) : text :=
  match k with Lease => "LeaseExpired" | Hung => "ExecutionTimeExceeded" end.

Definition k_message (k : lost_kind) (lw : option text) : text :=
  match k with
  | Lease => "lease expired; worker " +:+ repr_opt lw +:+ " presumed dead"
  | Hung => "execution time exceeded; worker " +:+ repr_opt lw +:+ " presumed stuck"
  end.

Definition k_data (k : lost_kind) : jdict :=
  match k with Lease => ∅ | Hung => {[ "reason" := JStr "execution_time_exceeded" ]} end.

Definition k_overdue (k : lost_kind) : txn → task_row → Q :=
  match k with Lease => overdue_lease | Hung => overdue_execution end.

Definition k_column (k : lost_kind) : task_row → option timestamp :=
  match k with Lease => t_lease_expires_at | Hung => t_first_started_at end.

(** Attempts remain, or not. *)
Definition lost_state (a m : Z) : state := if a <? m then State.QUEUED else State.FAILED.
Definition lost_event (a m : Z) : event_type :=
  if a <? m then EventType.TASK_RECOVERED else EventType.TASK_FAILED.
Definition lost_data (a m : Z) (lw : option text) : jdict :=
  if a <? m then {[ "lease_worker_id" := json_opt lw ]}
  else <[ "lease_worker_id" := json_opt lw ]> {[ "reason" := JStr "attempts_exhausted" ]}.
Definition lost_sets (k : lost_kind) (t : txn) (a m : Z) (lw : option text) : list assign :=
  [if a <? m then SetAvailableAt (now t) else SetFinishedAt (Some (now t));
   SetLeaseWorker None; SetLeaseExpires None;
   SetErrorClass (Some (k_class k)); SetErrorMessage (Some (k_message k lw))].

Lemma reap_shape k i a m lw t d :
  reap k i a m lw t d =
  match transition i (k_expect k) (lost_state a m) (lost_event a m) (lost_sets k t a m lw)
          (lost_data a m lw) t d with
  | inl e => inl e
  | inr (res, d1) =>
      if applied res then
        (insert_event i (Some a) EventType.WORKER_LOST lw (k_data k) ;;
         finish_attempt i a Outcome.LOST (Some (k_class k)) (Some (k_message k lw)) ;;
         mret true) t d1
      else inr (false, d1)
  end.
Proof.
  destruct k; unfold reap, reap_task, reap_hung_task, lost_state, lost_event, lost_data, lost_sets;
    rewrite bind_run; cbn [ask]; rewrite bind_run; destruct (a <? m); simpl;
    match goal with |- context [transition ?a ?b ?c ?d ?e ?f ?g ?h] =>
      destruct (transition a b c d e f g h) as [|[res d1]] end; try done;
    by destruct (applied res).
Qed.

(** The row a recovery leaves, from what the scan read. *)
Definition reaped_row (k : lost_kind) (t : txn) (r : task_row) : task_row :=
  moved_row t (lost_state (t_attempt r) (t_max_attempts r))
    (lost_sets k t (t_attempt r) (t_max_attempts r) (t_lease_worker_id r)) r.

Definition reaped_db (k : lost_kind) (t : txn) (d : db) (r : task_row) : db :=
  let i := t_id r in let a := t_attempt r in let lw := t_lease_worker_id r in
  let d1 := moved_db t d i (reaped_row k t r) (lost_event a (t_max_attempts r)) None
              (lost_data a (t_max_attempts r) lw) in
  finished_db t (add_event d1 (mk_event d1 t i (Some a) EventType.WORKER_LOST lw (k_data k)))
    i a Outcome.LOST (Some (k_class k)) (Some (k_message k lw)).

Lemma reaped_row_cols k t r :
  t_state (reaped_row k t r) = lost_state (t_attempt r) (t_max_attempts r) ∧
  t_attempt (reaped_row k t r) = t_attempt r ∧
  t_lease_worker_id (reaped_row k t r) = None ∧ t_lease_expires_at (reaped_row k t r) = None ∧
  t_cancel_requested (reaped_row k t r) = t_cancel_requested r ∧
  t_first_started_at (reaped_row k t r) = t_first_started_at r ∧
  t_spec (reaped_row k t r) = t_spec r.
Proof. unfold reaped_row, lost_sets. by destruct (_ <? _). Qed.

Lemma reaped_row_ok k t r : task_ok r → task_ok (reaped_row k t r).
Proof.
  intros H. pose proof (reaped_row_cols k t r) as (H1 & H2 & H3 & _).
  apply moved_row_ok; [done| |done]. unfold lost_state. by destruct (_ <? _).
Qed.

Lemma lost_legal a m s : s ∈ [State.RUNNING] → is_legal s (lost_state a m) = true.
Proof. intros ->%list_elem_of_singleton. unfold lost_state. by destruct (a <? m). Qed.

Lemma k_expect_state k : expect_state (k_expect k) = [State.RUNNING].
Proof. by destruct k. Qed.

Lemma lost_cas k now (r : task_row) :
  cas_holds now (k_expect k) r = true ↔ t_state r = State.RUNNING ∧ lost k now r = true.
Proof.
  rewrite cas_holds_spec, k_expect_state, list_elem_of_singleton. destruct k; simpl; naive_solver.
Qed.

Lemma reap_run k t d (r : task_row) :
  tasks d !! t_id r = Some r → t_state r = State.RUNNING → lost k (now t) r = true → task_ok r →
  reap k (t_id r) (t_attempt r) (t_max_attempts r) (t_lease_worker_id r) t d
  = inr (true, reaped_db k t d r).
Proof.
  intros Hr Hs Hl Hok. rewrite reap_shape.
  erewrite (transition_applied _ _ _ _ _ _ _ _ _ _ r Hr).
  - cbv zeta. fold (reaped_row k t r). cbn [applied].
    rewrite bind_run, insert_event_run; [by destruct k| |by apply task_error_fits].
    simpl. rewrite lookup_insert_eq. eauto.
  - by apply lost_cas.
  - by apply reaped_row_ok.
  Unshelve.
  + by destruct k.
  + rewrite k_expect_state. apply lost_legal.
Qed.

Lemma reap_refused k i a m lw t d (r : task_row) :
  tasks d !! i = Some r → ¬ (t_state r = State.RUNNING ∧ lost k (now t) r = true) →
  reap k i a m lw t d = inr (false, d).
Proof.
  intros Hr Hn. rewrite reap_shape. erewrite transition_rejected; [done|..].
  - by destruct k.
  - rewrite k_expect_state. apply lost_legal.
  - done.
  - rewrite <-lost_cas in Hn. by apply not_true_is_false.
Qed.

(** ** The batch *)

Definition scan (k : lost_kind) : Z → M (list lost_row) :=
  match k with Lease => find_expired_leases | Hung => find_hung_tasks end.

Definition reap_batch (k : lost_kind) : Z → M ReapResult :=
  match k with Lease => reap_expired_leases | Hung => reap_hung_tasks end.

(** The rows a scan returns, oldest first. *)
Definition lost_rows (k : lost_kind) (t : txn) (d : db) (limit : Z) : list task_row :=
  take (Z.to_nat limit) (order_by (key_le (time_key (k_column k) t))
    (select (λ r : task_row, bool_decide (t_state r = State.RUNNING) && lost k (now t) r
                  && bool_decide (t_id r ∉ locked t)) (tasks d))).

Lemma scan_run k limit t d :
  limit_fits limit = true →
  scan k limit t d =
  inr ((λ r, lost_of (k_overdue k t r) r) <$> lost_rows k t d limit, d).
Proof.
  intros Hfit.
  destruct k; unfold scan, find_expired_leases, find_hung_tasks; rewrite bind_run; cbn [ask];
    rewrite bind_run; unfold limit_rows; rewrite Hfit; cbn [mret M_ret];
    rewrite bind_run; cbn [get mret M_ret]; [done|].
  unfold lost_rows. erewrite select_ext; [done|]. intros r.
  rewrite !andb_true_iff, !bool_decide_eq_true. unfold lost, execution_time_exceeded, sql_lt.
  destruct (t_first_started_at r) as [s|]; simpl; [|naive_solver].
  assert (is_Some (Some s)) by eauto. tauto.
Qed.

Definition is_lost (k : lost_kind) (t : txn) (d : db) (r : task_row) : Prop :=
  tasks d !! t_id r = Some r ∧ t_state r = State.RUNNING ∧ lost k (now t) r = true.

Lemma elem_of_lost_rows k t d limit (r : task_row) :
  ids_ok d → r ∈ lost_rows k t d limit → is_lost k t d r ∧ t_id r ∉ locked t.
Proof.
  intros Hids Hr%elem_of_take_order_by; [|apply _..].
  apply elem_of_select in Hr as [Hp [i Hi]]. rewrite !andb_true_iff, !bool_decide_eq_true in Hp.
  pose proof (Hids _ _ Hi) as <-. unfold is_lost. tauto.
Qed.

Lemma lost_rows_NoDup k t d limit : ids_ok d → NoDup (ids_of (lost_rows k t d limit)).
Proof.
  intros Hids. eapply sublist_NoDup; [|apply fmap_sublist, sublist_take].
  unfold ids_of. rewrite order_by_perm by apply _. by apply select_ids_NoDup.
Qed.

(** How the loop counts. *)
Definition exhausted (r : task_row) : bool := t_max_attempts r <=? t_attempt r.

Definition reap_result (k : lost_kind) (t : txn) (rs : list task_row) (acc : ReapResult) : ReapResult :=
  MkReap (requeued acc + Z.of_nat (length (filter (λ r, exhausted r = false) rs)))
    (failed_exhausted acc + Z.of_nat (length (filter (λ r, exhausted r = true) rs)))
    (overdue_s acc ++ (k_overdue k t <$> rs)).

Lemma reap_result_cons k t r rs acc :
  reap_result k t rs (count_reaped (lost_of (k_overdue k t r) r) acc) = reap_result k t (r :: rs) acc.
Proof.
  unfold reap_result, count_reaped. simpl. fold (exhausted r). rewrite !filter_cons.
  destruct (exhausted r); simpl; f_equal; rewrite <-?app_assoc; try done; simpl; lia.
Qed.

Lemma reaped_tasks k t d (r : task_row) :
  tasks (reaped_db k t d r) = <[t_id r := reaped_row k t r]> (tasks d).
Proof. done. Qed.

Lemma reap_loop_run k t rs acc d :
  NoDup (ids_of rs) → (∀ r : task_row, r ∈ rs → is_lost k t d r ∧ task_ok r) →
  reap_loop (reap k) ((λ r, lost_of (k_overdue k t r) r) <$> rs) acc t d
  = inr (reap_result k t rs acc, foldl (reaped_db k t) d rs).
Proof.
  revert acc d. induction rs as [|r rs IH]; intros acc d Hnd Hrs.
  { simpl. destruct acc as [a b c]. unfold reap_result. simpl.
    by rewrite !Z.add_0_r, app_nil_r. }
  apply NoDup_cons in Hnd as [Hnin Hnd].
  destruct (Hrs r) as [(Hr & Hs & Hl) Hok]; [by left|].
  rewrite fmap_cons. cbn [reap_loop]. rewrite bind_run. cbn [lo_id lo_attempt lo_max_attempts
    lo_lease_worker_id lost_of]. rewrite reap_run by done. rewrite IH; [|done|].
  - by rewrite reap_result_cons.
  - intros r' Hr'. destruct (Hrs r') as [(H1 & H2 & H3) H4]; [by right|]. split; [|done].
    split; [|done]. rewrite reaped_tasks, lookup_insert_ne; [done|].
    intros Heq. destruct Hnin. rewrite Heq. apply list_elem_of_fmap. eauto.
Qed.

Lemma reap_batch_scan k limit :
  reap_batch k limit =
  (candidates ← scan k limit; reap_loop (reap k) candidates (MkReap 0 0 [])).
Proof. by destruct k. Qed.

(** A LIMIT the server or the driver refuses ends the batch before it reads. *)
Lemma reap_batch_refused k limit t d :
  limit_fits limit = false → reap_batch k limit t d = inl (DataError "limit").
Proof.
  intros Hfit. rewrite reap_batch_scan, bind_run.
  destruct k; unfold scan, find_expired_leases, find_hung_tasks; rewrite bind_run; cbn [ask];
    rewrite bind_run; unfold limit_rows; by rewrite Hfit.
Qed.

Lemma reap_batch_run k limit t d :
  ids_ok d → (∀ i r, tasks d !! i = Some r → task_ok r) → limit_fits limit = true →
  reap_batch k limit t d =
  inr (reap_result k t (lost_rows k t d limit) (MkReap 0 0 []),
       foldl (reaped_db k t) d (lost_rows k t d limit)).
Proof.
  intros Hids Hok Hfit. rewrite reap_batch_scan, bind_run, scan_run by done. apply reap_loop_run; [by apply lost_rows_NoDup|].
  intros r [[Hr ?] ?]%elem_of_lost_rows; [|done]. split; [done|]. by eapply Hok.
Qed.

Lemma reap_batch_inv k limit t d res d' :
  ids_ok d → (∀ i r, tasks d !! i = Some r → task_ok r) →
  reap_batch k limit t d = inr (res, d') →
  limit_fits limit = true ∧ res = reap_result k t (lost_rows k t d limit) (MkReap 0 0 []) ∧
  d' = foldl (reaped_db k t) d (lost_rows k t d limit).
Proof.
  intros Hids Hok H. destruct (limit_fits limit) eqn:Hfit; [|by rewrite reap_batch_refused in H].
  rewrite reap_batch_run in H by done. by injection H as <- <-.
Qed.

(** The rows after a batch. *)
Lemma reaped_fold_ne k t rs d i :
  i ∉ ids_of rs → tasks (foldl (reaped_db k t) d rs) !! i = tasks d !! i.
Proof.
  revert d. induction rs as [|r rs IH]; intros d; simpl; [done|].
  rewrite not_elem_of_cons. intros [Hne Hi]. rewrite IH by done.
  rewrite reaped_tasks. by rewrite lookup_insert_ne.
Qed.

Lemma reaped_fold_in k t rs d (r : task_row) :
  NoDup (ids_of rs) → r ∈ rs →
  tasks (foldl (reaped_db k t) d rs) !! t_id r = Some (reaped_row k t r).
Proof.
  revert d. induction rs as [|r' rs IH]; intros d Hnd; [by intros ?%not_elem_of_nil|].
  apply NoDup_cons in Hnd as [Hnin Hnd]. intros [<-|Hr]%elem_of_cons; simpl.
  - rewrite reaped_fold_ne by done. by rewrite reaped_tasks, lookup_insert_eq.
  - by apply IH.
Qed.

(** ** Properties *)

Lemma reaped_attempts k t d (r : task_row) key :
  task_attempts (reaped_db k t d r) !! key =
  if decide (key = (t_id r, t_attempt r))
  then finish_row t Outcome.LOST (Some (k_class k)) (Some (k_message k (t_lease_worker_id r)))
         <$> task_attempts d !! key
  else task_attempts d !! key.
Proof.
  unfold reaped_db, finished_db. simpl. case_decide as H.
  - subst. by rewrite lookup_alter_eq.
  - by rewrite lookup_alter_ne.
Qed.

(** Recovery of one task, for an expired lease and for an exceeded
    execution time alike. A RUNNING task the CAS still finds lost goes back
    to QUEUED when attempts remain and to FAILED otherwise; its lease is
    cleared, its attempt number is not touched, and its attempt row, if
    present, is closed as LOST. A task that was renewed or finished in the
    meantime is left exactly as it is and the answer is false. *)
Theorem reap_correct k t d (r : task_row) :
  tasks d !! t_id r = Some r → task_ok r →
  (t_state r = State.RUNNING ∧ lost k (now t) r = true →
     ∃ d' r', reap k (t_id r) (t_attempt r) (t_max_attempts r) (t_lease_worker_id r) t d
              = inr (true, d') ∧
       tasks d' = <[t_id r := r']> (tasks d) ∧ task_ok r' ∧
       t_state r' = (if t_attempt r <? t_max_attempts r then State.QUEUED else State.FAILED) ∧
       t_attempt r' = t_attempt r ∧ t_lease_worker_id r' = None ∧ t_spec r' = t_spec r ∧
       (∀ a, task_attempts d !! (t_id r, t_attempt r) = Some a →
          a_outcome <$> task_attempts d' !! (t_id r, t_attempt r) = Some (Some Outcome.LOST))) ∧
  (¬ (t_state r = State.RUNNING ∧ lost k (now t) r = true) →
     ∀ a m lw, reap k (t_id r) a m lw t d = inr (false, d)).
Proof.
  intros Hr Hok. split.
  - intros [Hs Hl]. exists (reaped_db k t d r), (reaped_row k t r).
    pose proof (reaped_row_cols k t r) as (H1 & H2 & H3 & _ & _ & _ & H7).
    split; [by apply reap_run|]. split; [done|]. split; [by apply reaped_row_ok|].
    split; [done|]. split; [done|]. split; [done|]. split; [done|].
    intros a Ha. rewrite reaped_attempts, decide_True, Ha by done. done.
  - intros Hn a m lw. by eapply reap_refused.
Qed.

Lemma reap_correct_witness :
  let r := ex_running 12 "w1" true in
  (∃ d' r', reap Lease 12 1 3 (Some "w1") (txn_at 50) ex_db = inr (true, d') ∧
     tasks d' !! 12%N = Some r' ∧ t_state r' = State.QUEUED) ∧
  reap Lease 12 1 3 (Some "w1") (txn_at 30) ex_db = inr (false, ex_db).
Proof.
  intros r. assert (tasks ex_db !! t_id r = Some r) as Hr by reflexivity.
  assert (task_ok r) as Hok by reflexivity. split.
  - destruct (proj1 (reap_correct Lease (txn_at 50) ex_db r Hr Hok)) as (d' & r' & H1 & H2 & _ & H3 & _).
    { split; reflexivity. }
    exists d', r'. split; [exact H1|]. split; [|exact H3]. rewrite H2. apply lookup_insert_eq.
  - apply (proj2 (reap_correct Lease (txn_at 30) ex_db r Hr Hok)). intros [_ H]. discriminate.
Defined.

Lemma reap_batch_spec k limit t d :
  ids_ok d → (∀ i r, tasks d !! i = Some r → task_ok r) → limit_fits limit = true →
  let rs := lost_rows k t d limit in
  ∃ res d', reap_batch k limit t d = inr (res, d') ∧
    reaped res = Z.of_nat (length rs) ∧ length (overdue_s res) = length rs ∧
    (length rs ≤ Z.to_nat limit)%nat ∧
    (∀ i, tasks d' !! i = if decide (i ∈ ids_of rs) then reaped_row k t <$> tasks d !! i
                          else tasks d !! i) ∧
    ((length rs < Z.to_nat limit)%nat →
       ∀ i (r : task_row), tasks d' !! i = Some r → t_state r = State.RUNNING → i ∉ locked t →
         lost k (now t) r = false).
Proof.
  intros Hids Hok Hfit rs. eexists _, _. split; [by apply reap_batch_run|]. fold rs.
  assert (∀ i, tasks (foldl (reaped_db k t) d rs) !! i =
            if decide (i ∈ ids_of rs) then reaped_row k t <$> tasks d !! i else tasks d !! i) as Hrows.
  { intros i. case_decide as Hi; [|by apply reaped_fold_ne].
    apply list_elem_of_fmap in Hi as (r & -> & Hr). rewrite reaped_fold_in; [|by apply lost_rows_NoDup|done].
    apply elem_of_lost_rows in Hr as [(-> & _) _]; [done|done]. }
  split.
  { unfold reaped, reap_result. cbn [requeued failed_exhausted]. clear.
    induction rs as [|r rs IH]; [done|]. rewrite !filter_cons.
    destruct (exhausted r); simpl; lia. }
  split; [unfold reap_result; simpl; by rewrite length_fmap|].
  split; [unfold rs, lost_rows; rewrite length_take; lia|]. split; [exact Hrows|].
  intros Hlen i r Hr Hs Hlock. rewrite Hrows in Hr. case_decide as Hi.
  - apply list_elem_of_fmap in Hi as (r0 & -> & Hr0).
    apply elem_of_lost_rows in Hr0 as [(Hr0 & _) _]; [|done]. rewrite Hr0 in Hr. simpl in Hr.
    injection Hr as <-. pose proof (reaped_row_cols k t r0) as [Hst _]. rewrite Hs in Hst.
    unfold lost_state in Hst. by destruct (_ <? _).
  - apply not_true_is_false. intros Hl. apply Hi, list_elem_of_fmap. exists r.
    pose proof (Hids _ _ Hr) as Hid. split; [done|]. unfold rs, lost_rows in *.
    rewrite length_take in Hlen. rewrite take_ge by lia.
    apply elem_of_order_by; [apply _..|]. apply elem_of_select. split; [|eauto].
    rewrite !andb_true_iff, !bool_decide_eq_true, <-Hid in *. done.
Qed.


Lemma ex_tasks_ok i r : tasks ex_db !! i = Some r → task_ok r.
Proof. revert i r. by apply ex_tasks_cases. Qed.


(** The hung check measures from the first claim, not from the attempt.
    Once a task's first start plus its cap has passed, a later attempt is
    lost to the hung check from the moment it is claimed, whatever its lease:
    its execution time counts the earlier attempts and the waits between. *)
Theorem hung_from_first_start t t2 w ttl (r : task_row) s :
  t_first_started_at r = Some s → s + seconds (t_max_execution_time_s r) < now t → now t ≤ now t2 →
  let r' := claimed_row t w ttl r in
  t_state r' = State.RUNNING ∧ lost Hung (now t2) r' = true ∧
  t_lease_expires_at r' = Some (now t + seconds ttl).
Proof.
  intros Hs Hlt Hle r'. split; [done|]. split; [|done].
  unfold lost, execution_time_exceeded. subst r'. rewrite claimed_row_spec. simpl.
  rewrite Hs. simpl. apply Z.ltb_lt. lia.
Qed.

Lemma hung_from_first_start_witness :
  let r' := claimed_row (txn_at 400) "w1" 30 (ex_retried 13) in
  t_state r' = State.RUNNING ∧ lost Hung (us 400) r' = true ∧
  t_lease_expires_at r' = Some (us 430).
Proof.
  apply (hung_from_first_start (txn_at 400) (txn_at 400) "w1" 30 (ex_retried 13) (us 2));
    [reflexivity|vm_compute; reflexivity|vm_compute; discriminate].
Defined.

(** The reaper does not honour the cancellation flag. A RUNNING task
    whose cancellation was requested and whose worker died goes back to
    QUEUED with the flag still set while attempts remain, and an idle worker
    that satisfies it may claim it again at once. *)
Theorem reaper_requeues_cancelled t d caps (r : task_row) :
  ids_ok d → tasks d !! t_id r = Some r → task_ok r →
  t_state r = State.RUNNING → t_cancel_requested r = true →
  lease_expired (now t) r = true → t_attempt r < t_max_attempts r →
  claim_eligible caps r = true → t_id r ∉ locked t →
  ∃ d' r', reap_task (t_id r) (t_attempt r) (t_max_attempts r) (t_lease_worker_id r) t d
           = inr (true, d') ∧
    tasks d' !! t_id r = Some r' ∧ t_state r' = State.QUEUED ∧ t_cancel_requested r' = true ∧
    r' ∈ candidates t d' caps ∅.
Proof.
  intros Hids Hr Hok Hs Hc Hl Hatt He Hlk.
  exists (reaped_db Lease t d r), (reaped_row Lease t r).
  pose proof (reaped_row_cols Lease t r) as (H1 & H2 & H3 & _ & H5 & _ & H7).
  unfold lost_state in H1. rewrite (proj2 (Z.ltb_lt _ _)) in H1 by done.
  split; [by apply (reap_run Lease)|]. split; [by rewrite reaped_tasks, lookup_insert_eq|].
  split; [done|]. split; [by rewrite H5|]. rewrite elem_of_candidates.
  - rewrite H7, reaped_tasks, lookup_insert_eq. split; [done|]. split; [done|].
    split; [|split; [apply not_elem_of_empty|split; [done|]]].
    + unfold reaped_row, lost_sets. rewrite (proj2 (Z.ltb_lt _ _)) by done. simpl. lia.
    + unfold claim_eligible in *. by rewrite H7.
  - intros i r0. rewrite reaped_tasks. rewrite lookup_insert_Some.
    intros [[<- <-]|[_ H]]; [by rewrite H7|by apply Hids].
Qed.

Lemma reaper_requeues_cancelled_witness :
  ∃ d' r', reap_task 12 1 3 (Some "w1") (txn_at 50) ex_db = inr (true, d') ∧
    tasks d' !! 12%N = Some r' ∧ t_state r' = State.QUEUED ∧ t_cancel_requested r' = true ∧
    r' ∈ candidates (txn_at 50) d' [] ∅.
Proof.
  apply (reaper_requeues_cancelled (txn_at 50) ex_db [] (ex_running 12 "w1" true));
    try reflexivity; [exact ex_ids_ok|]. apply not_elem_of_empty.
Defined.
