(* ===== verification/Tasks.v ===== *)
(** * Submission, queries and cancellation (db/queries/tasks.py) *)

From S2P Require Import Prelude PyStr Json States Capability Policy Db Samples Transitions.
From S2P Require Import Completion Claim.

(** ** Submission *)

Record SubmitResult := MkSubmit {
  created : bool;
  submitted : task_row;
}.

Definition without_trace (payload : jdict) : jdict := delete "_trace" payload.

(** The row of the INSERT, its column defaults included. *)
Definition submitted_row (t : txn) (tenant_id : uuid) (task_type : text) (payload : jdict)
    (idempotency_key : option text) (priority max_attempts max_execution_time_s : Z)
    (available_at : option timestamp) (agent_version_id : option uuid)
    (required_capabilities : list text) : task_row :=
  MkTask
    (MkTaskSpec (new_uuid t) tenant_id task_type payload idempotency_key priority max_attempts
       max_execution_time_s agent_version_id required_capabilities
       (capability_key required_capabilities) (now t))
    State.QUEUED 0 (default (now t) available_at) None None false None None None (now t) None None.

(** [tenant_id = .. AND idempotency_key = ..]: NULL equals nothing. *)
Definition same_key (tenant_id : uuid) (idempotency_key : option text) (r : task_row) : bool :=
  match idempotency_key with
  | Some k => bool_decide (t_tenant_id r = tenant_id) && sql_eq (t_idempotency_key r) k
  | None => false
  end.

(** The foreign key of [agent_version_id]: NULL references nothing. *)
Definition version_exists (d : db) (v : option uuid) : bool :=
  match v with Some v => bool_decide (is_Some (agent_versions d !! v)) | None => true end.

(** [INSERT .. ON CONFLICT (tenant_id, idempotency_key) DO NOTHING RETURNING]. *)
Definition insert_task (row : task_row) : M (option task_row) :=
  d ← get;
  match task_error row with
  | Some e => raise e
  | None =>
      match select (same_key (t_tenant_id row) (t_idempotency_key row)) (tasks d) with
      | _ :: _ => mret None
      | [] =>
          if bool_decide (is_Some (tasks d !! t_id row)) then raise (IntegrityError "tasks_pkey")
          else if bool_decide (tenants d !! t_tenant_id row = None)
          then raise (IntegrityError "tasks_tenant_id_fkey")
          else if negb (version_exists d (t_agent_version_id row))
          then raise (IntegrityError "fk_tasks_agent_version")
          else modify (set_tasks (<[t_id row := row]> (tasks d))) ;; mret (Some row)
      end
  end.

(** The [available_at] a client sends comes back with the row inserted. *)
Definition sent_loads (available_at : option timestamp) : bool :=
  match available_at with Some x => loadable x | None => true end.

Definition submit_task (tenant_id : uuid) (task_type : text) (payload : jdict)
    (idempotency_key : option text) (priority max_attempts max_execution_time_s : Z)
    (available_at : option timestamp) (agent_version_id : option uuid)
    (required_capabilities : list text) : M SubmitResult :=
  t ← ask;
  row ← insert_task (submitted_row t tenant_id task_type payload idempotency_key priority
          max_attempts max_execution_time_s available_at agent_version_id required_capabilities);
  match row with
  | Some r =>
      (if sent_loads available_at then mret tt else raise (DataError "timestamp")) ;;
      record_event (t_id r) EventType.TASK_CREATED (Some 0) None
        (<[ "task_type" := JStr task_type ]> {[ "priority" := JNum priority ]}) ;;
      mret (MkSubmit true r)
  | None =>
      d ← get;
      match select (same_key tenant_id idempotency_key) (tasks d) with
      | [] => raise (LookupError "insert conflicted but no row is visible; retry the submission")
      | existing :: _ =>
          if negb (dict_eqb (without_trace (t_payload existing)) (without_trace payload))
          then raise (PayloadMismatch (t_id existing))
          else mret (MkSubmit false existing)
      end
  end.

(** ** Reads *)

Definition get_task (task_id : uuid) : M (option task_row) :=
  d ← get; mret (tasks d !! task_id).

Definition get_task_events (task_id : uuid) (limit : nat) : M (list event_row) :=
  d ← get; mret (take limit (log d task_id)).

Definition queued_count_for_tenant (tenant_id : uuid) : M Z :=
  d ← get;
  mret (Z.of_nat (length (select (λ r : task_row, bool_decide (t_tenant_id r = tenant_id)
                                    && bool_decide (t_state r = State.QUEUED)) (tasks d)))).

(** ** Tenants *)

Definition create_tenant (name : text) (max_concurrent_tasks max_queued_tasks : Z) : M tenant_row :=
  t ← ask; d ← get;
  let row := MkTenant (new_uuid t) name max_concurrent_tasks max_queued_tasks 1 (now t) in
  if negb (fits_int4 max_concurrent_tasks && fits_int4 max_queued_tasks)
  then raise (DataError "tenants")
  else if bool_decide (Exists (λ te, te_name te = name) (rows (tenants d)))
  then raise (IntegrityError "tenants_name_key")
  else if bool_decide (is_Some (tenants d !! new_uuid t)) then raise (IntegrityError "tenants_pkey")
  else modify (set_tenants (<[new_uuid t := row]> (tenants d))) ;; mret row.

Definition get_tenant (tenant_id : uuid) : M (option tenant_row) :=
  d ← get; mret (tenants d !! tenant_id).

(** ** Cancellation *)

Module CancelOutcome.
Inductive cancel_outcome :=
  | NOT_FOUND | CANCELLED | REQUESTED | ALREADY_REQUESTED | ALREADY_CANCELLED | ALREADY_TERMINAL.
End CancelOutcome.
Export CancelOutcome (cancel_outcome).

#[global] Instance cancel_outcome_eq_dec : EqDecision cancel_outcome.
Proof. solve_decision. Defined.

Record CancelResult := MkCancel {
  cn_outcome : cancel_outcome;
  cn_task : option task_row;
}.

Definition cancel_task (task_id : uuid) : M CancelResult :=
  t ← ask; d ← get;
  match tasks d !! task_id with
  | None => mret (MkCancel CancelOutcome.NOT_FOUND None)
  | Some row =>
      if bool_decide (t_state row = State.CANCELLED) then
        cur ← get_task task_id; mret (MkCancel CancelOutcome.ALREADY_CANCELLED cur)
      else if is_terminal (t_state row) then
        cur ← get_task task_id; mret (MkCancel CancelOutcome.ALREADY_TERMINAL cur)
      else if bool_decide (t_state row = State.QUEUED) then
        res ← transition task_id (Expect [State.QUEUED] None None false false) State.CANCELLED
                EventType.TASK_CANCELLED [SetCancelRequested true; SetFinishedAt (Some (now t))]
                {[ "reason" := JStr "cancelled_before_start" ]};
        if applied res then mret (MkCancel CancelOutcome.CANCELLED (task res))
        else raise (AssertionError "cancel lost a race it holds the row lock for")
      else if t_cancel_requested row then
        cur ← get_task task_id; mret (MkCancel CancelOutcome.ALREADY_REQUESTED cur)
      else
        update_task task_id (λ _, true) (λ _, [SetCancelRequested true; SetUpdatedAt (now t)]) ;;
        record_event task_id EventType.CANCEL_REQUESTED (Some (t_attempt row)) None
          {[ "source" := JStr "api" ]} ;;
        cur ← get_task task_id; mret (MkCancel CancelOutcome.REQUESTED cur)
  end.

(** [agent_version_id IN (..)]: NULL is in nothing. *)
Definition of_versions (agent_version_ids : list uuid) (r : task_row) : bool :=
  match t_agent_version_id r with Some v => bool_decide (v ∈ agent_version_ids) | None => false end.

Definition disabled_sets (t : txn) (reason : text) (_ : task_row) : list assign :=
  [SetState State.CANCELLED; SetCancelRequested true; SetFinishedAt (Some (now t));
   SetUpdatedAt (now t); SetErrorClass (Some "AgentDisabled"); SetErrorMessage (Some reason)].

Definition flag_sets (t : txn) (_ : task_row) : list assign :=
  [SetCancelRequested true; SetUpdatedAt (now t)].

(** The two UPDATEs are statements, each with a snapshot of its own: [q] and
    [rn] say of which rows each finds the current version.  A row that changes
    after the UPDATE looked may escape it. *)
Definition cancel_found (q rn : task_row → bool) (agent_version_ids : list uuid) (reason : text)
    : M Z :=
  if bool_decide (agent_version_ids = []) then mret 0
  else
    t ← ask;
    queued_rows ← update_tasks
      (λ r, q r && of_versions agent_version_ids r && bool_decide (t_state r = State.QUEUED))
      (disabled_sets t reason);
    running_rows ← update_tasks
      (λ r, rn r && of_versions agent_version_ids r && bool_decide (t_state r = State.RUNNING)
            && negb (t_cancel_requested r))
      (flag_sets t);
    for_each queued_rows (λ row : task_row,
      record_event (t_id row) EventType.TASK_CANCELLED (Some (t_attempt row)) None
        {[ "reason" := JStr reason ]}) ;;
    for_each running_rows (λ row : task_row,
      record_event (t_id row) EventType.CANCEL_REQUESTED (Some (t_attempt row)) None
        (<[ "reason" := JStr reason ]> {[ "source" := JStr "agent_disabled" ]})) ;;
    mret (Z.of_nat (length queued_rows) + Z.of_nat (length running_rows)).

(** With no other transaction in between, each finds every row. *)
Definition every_row (_ : task_row) : bool := true.

Definition cancel_agent_tasks : list uuid → text → M Z := cancel_found every_row every_row.

(** ** Submission: properties *)

(** The partial unique index: one task per (tenant, key). *)
Definition keys_unique (d : db) : Prop :=
  ∀ i j (ri rj : task_row) k, tasks d !! i = Some ri → tasks d !! j = Some rj →
    t_tenant_id ri = t_tenant_id rj →
    t_idempotency_key ri = Some k → t_idempotency_key rj = Some k → i = j.

Lemma same_key_spec te key (r : task_row) :
  same_key te key r = true ↔
  ∃ k, key = Some k ∧ t_tenant_id r = te ∧ t_idempotency_key r = Some k.
Proof.
  unfold same_key, sql_eq. destruct key as [k|]; [|naive_solver].
  rewrite andb_true_iff, !bool_decide_eq_true. naive_solver.
Qed.

Lemma select_same_key d te key (r : task_row) k :
  keys_unique d → ids_ok d → tasks d !! t_id r = Some r →
  t_tenant_id r = te → t_idempotency_key r = Some k → key = Some k →
  select (same_key te key) (tasks d) = [r].
Proof.
  intros Hu Hids Hr Hte Hk ->.
  assert (∀ x, x ∈ select (same_key te (Some k)) (tasks d) ↔ x = r) as Hin.
  { intros x. rewrite elem_of_select. setoid_rewrite same_key_spec. split.
    - intros ((k' & [= <-] & Hx & Hxk) & j & Hj).
      assert (j = t_id r) as -> by (eapply Hu; eauto; congruence). congruence.
    - intros ->. eauto 10. }
  assert (NoDup (select (same_key te (Some k)) (tasks d))) as Hnd by (by apply select_NoDup).
  destruct (select _ _) as [|x [|y l]] eqn:E.
  - exfalso. apply (not_elem_of_nil r). by apply Hin.
  - f_equal. apply Hin. by left.
  - exfalso. apply NoDup_cons in Hnd as [Hnd _]. apply Hnd.
    assert (x = r) as -> by (apply Hin; by left). assert (y = r) as -> by (apply Hin; right; by left).
    by left.
Qed.

(** The tables after a creation. *)
Definition created_db (t : txn) (row : task_row) (d : db) : db :=
  let d1 := set_tasks (<[t_id row := row]> (tasks d)) d in
  add_event d1 (mk_event d1 t (t_id row) (Some 0) EventType.TASK_CREATED None
    (<[ "task_type" := JStr (t_task_type row) ]> {[ "priority" := JNum (t_priority row) ]})).

Section submit.
Context (te : uuid) (ty : text) (p : jdict) (key : option text) (prio ma mx : Z)
        (av : option timestamp) (ver : option uuid) (caps : list text) (t : txn) (d : db).
Let row := submitted_row t te ty p key prio ma mx av ver caps.

Lemma submit_creates :
  task_error row = None → select (same_key te key) (tasks d) = [] →
  tasks d !! new_uuid t = None → is_Some (tenants d !! te) → version_exists d ver = true →
  submit_task te ty p key prio ma mx av ver caps t d
  = if sent_loads av then inr (MkSubmit true row, created_db t row d)
    else inl (DataError "timestamp").
Proof using.
  intros Hok Hsel Hnew [tr Hte] Hver. unfold submit_task. rewrite bind_run. cbn [ask].
  fold row. rewrite bind_run. unfold insert_task. rewrite bind_run. cbn [get]. rewrite Hok.
  change (t_tenant_id row) with te. change (t_idempotency_key row) with key.
  change (t_id row) with (new_uuid t). rewrite Hsel, Hnew, Hte.
  rewrite bool_decide_eq_false_2 by (by intros [? ?]). rewrite bool_decide_eq_false_2 by done.
  change (t_agent_version_id row) with ver. rewrite Hver. cbn [negb].
  rewrite bind_run. cbn [modify]. cbn [mret M_ret]. rewrite bind_run.
  destruct (sent_loads av); [|done]. cbn [mret M_ret]. rewrite bind_run. unfold record_event.
  rewrite insert_event_run; [done| |done]. simpl. rewrite lookup_insert_eq. eauto.
Qed.

Lemma submit_existing r l :
  task_error row = None → select (same_key te key) (tasks d) = r :: l →
  submit_task te ty p key prio ma mx av ver caps t d =
  if dict_eqb (without_trace (t_payload r)) (without_trace p)
  then inr (MkSubmit false r, d) else inl (PayloadMismatch (t_id r)).
Proof using.
  intros Hok Hsel. unfold submit_task. rewrite bind_run. cbn [ask].
  fold row. rewrite bind_run. unfold insert_task. rewrite bind_run. cbn [get]. rewrite Hok.
  change (t_tenant_id row) with te. change (t_idempotency_key row) with key. rewrite Hsel.
  cbn [mret M_ret]. rewrite bind_run. cbn [get]. rewrite Hsel.
  by destruct (dict_eqb _ _).
Qed.

Lemma submit_inv res d' :
  submit_task te ty p key prio ma mx av ver caps t d = inr (res, d') →
  (res = MkSubmit true row ∧ d' = created_db t row d ∧ task_error row = None ∧
     select (same_key te key) (tasks d) = [] ∧ tasks d !! new_uuid t = None ∧
     is_Some (tenants d !! te)) ∨
  (∃ r l, res = MkSubmit false r ∧ d' = d ∧ select (same_key te key) (tasks d) = r :: l).
Proof using.
  destruct (task_error row) eqn:Hok.
  { unfold submit_task. rewrite bind_run. cbn [ask]. fold row. rewrite bind_run.
    unfold insert_task. rewrite bind_run. cbn [get]. by rewrite Hok. }
  destruct (select (same_key te key) (tasks d)) as [|r l] eqn:Hsel.
  2: { rewrite (submit_existing _ _ Hok Hsel). destruct (dict_eqb _ _); [|done].
       intros [= <- <-]. right. eauto. }
  destruct (decide (is_Some (tasks d !! new_uuid t))) as [Hnew|Hnew].
  { unfold submit_task. rewrite bind_run. cbn [ask]. fold row. rewrite bind_run.
    unfold insert_task. rewrite bind_run. cbn [get]. rewrite Hok.
    change (t_tenant_id row) with te. change (t_idempotency_key row) with key. rewrite Hsel.
    by rewrite bool_decide_eq_true_2. }
  apply eq_None_not_Some in Hnew. destruct (tenants d !! te) as [tr|] eqn:Hte.
  - destruct (version_exists d ver) eqn:Hver.
    { rewrite submit_creates by (try done; rewrite ?Hte; eauto).
      destruct (sent_loads av); [|done]. intros [= <- <-]. left. eauto 10. }
    unfold submit_task. rewrite bind_run. cbn [ask]. fold row. rewrite bind_run.
    unfold insert_task. rewrite bind_run. cbn [get]. rewrite Hok.
    change (t_tenant_id row) with te. change (t_idempotency_key row) with key. rewrite Hsel.
    change (t_id row) with (new_uuid t). rewrite Hnew, Hte.
    change (t_agent_version_id row) with ver. rewrite Hver.
    rewrite bool_decide_eq_false_2 by (by intros [? ?]). by rewrite bool_decide_eq_false_2.
  - unfold submit_task. rewrite bind_run. cbn [ask]. fold row. rewrite bind_run.
    unfold insert_task. rewrite bind_run. cbn [get]. rewrite Hok.
    change (t_tenant_id row) with te. change (t_idempotency_key row) with key. rewrite Hsel.
    change (t_id row) with (new_uuid t). rewrite Hnew, Hte.
    rewrite bool_decide_eq_false_2 by (by intros [? ?]). by rewrite bool_decide_eq_true_2.
Qed.
End submit.

Lemma created_keys_unique t (row : task_row) d :
  keys_unique d → select (same_key (t_tenant_id row) (t_idempotency_key row)) (tasks d) = [] →
  keys_unique (created_db t row d).
Proof.
  intros Hu Hsel.
  assert (∀ j (r : task_row) k, tasks d !! j = Some r → t_tenant_id r = t_tenant_id row →
            t_idempotency_key r = Some k → t_idempotency_key row = Some k → False) as Hno.
  { intros j r k Hj Hte Hk Hkr. apply (not_elem_of_nil r). rewrite <-Hsel.
    apply elem_of_select. split; [|eauto]. apply same_key_spec. eauto. }
  intros i j ri rj k Hi Hj Hte Hki Hkj. simpl in Hi, Hj.
  apply lookup_insert_Some in Hi as [[<- <-]|[Hi Hri]];
    apply lookup_insert_Some in Hj as [[<- <-]|[Hj Hrj]]; [done|..].
  - exfalso. by eapply Hno.
  - exfalso. by eapply Hno.
  - by eapply Hu.
Qed.

(** Submission. A valid submission whose (tenant, key) is already taken
    never inserts: it answers the existing task and changes nothing when the
    payloads agree apart from [_trace], and refuses otherwise, whatever the
    other parameters say.  With a fresh id, an existing tenant and agent version and
    a free or absent key it inserts exactly that task, QUEUED under attempt 0, with its
    creation event, and the uniqueness of keys is kept; except that an
    [available_at] outside the years 1 to 9999 raises. *)
Theorem submit_correct te ty p key prio ma mx av ver caps t d :
  ids_ok d → keys_unique d →
  let row := submitted_row t te ty p key prio ma mx av ver caps in
  task_error row = None →
  (∀ (r : task_row) k, key = Some k → tasks d !! t_id r = Some r → t_tenant_id r = te →
     t_idempotency_key r = Some k →
     submit_task te ty p key prio ma mx av ver caps t d =
     if dict_eqb (without_trace (t_payload r)) (without_trace p)
     then inr (MkSubmit false r, d) else inl (PayloadMismatch (t_id r))) ∧
  ((∀ i (r : task_row), tasks d !! i = Some r → same_key te key r = false) →
     tasks d !! new_uuid t = None → is_Some (tenants d !! te) → version_exists d ver = true →
     if sent_loads av then
     ∃ d', submit_task te ty p key prio ma mx av ver caps t d = inr (MkSubmit true row, d') ∧
       tasks d' = <[new_uuid t := row]> (tasks d) ∧ keys_unique d' ∧
       ev_type <$> last (log d' (new_uuid t)) = Some EventType.TASK_CREATED ∧
       ∀ i, i ≠ new_uuid t → log d' i = log d i
     else ∃ column, submit_task te ty p key prio ma mx av ver caps t d = inl (DataError column)).
Proof.
  intros Hids Hu row Hok. split.
  - intros r k -> Hr Hte Hk.
    apply (submit_existing te ty p (Some k) prio ma mx av ver caps t d r []); [done|].
    by eapply select_same_key.
  - intros Hfree Hnew Hte Hver.
    assert (select (same_key te key) (tasks d) = []) as Hsel.
    { destruct (select _ _) as [|r l] eqn:E; [done|]. exfalso.
      assert (r ∈ select (same_key te key) (tasks d)) as Hr by (rewrite E; by left).
      apply elem_of_select in Hr as [Hp [i Hi]]. apply Hfree in Hi. congruence. }
    pose proof (submit_creates te ty p key prio ma mx av ver caps t d Hok Hsel Hnew Hte Hver) as Hrun.
    destruct (sent_loads av); [|by eexists]. exists (created_db t row d). split; [done|].
    split; [done|]. split; [by apply created_keys_unique|]. unfold created_db. split.
    + rewrite log_add_event. simpl. rewrite decide_True by done. by rewrite last_snoc.
    + intros i Hi. rewrite log_add_event. simpl. by rewrite decide_False.
Qed.

Lemma ex_keys_unique : keys_unique ex_db.
Proof.
  intros i j ri rj k Hi Hj _ Hki Hkj.
  assert (∀ i r, tasks ex_db !! i = Some r → t_idempotency_key (t_spec r) = Some k → i = 12%N) as H.
  { by apply (ex_tasks_cases (λ i r, t_idempotency_key (t_spec r) = Some k → i = 12%N)). }
  by rewrite (H _ _ Hi Hki), (H _ _ Hj Hkj).
Qed.

Lemma submit_correct_witness :
  submit_task 1 "other" {[ "n" := JNum 1; "_trace" := JNull ]} (Some "key-1") 5 9 9 None None []
    (txn_at 60) ex_db = inr (MkSubmit false (ex_running 12 "w1" true), ex_db) ∧
  submit_task 1 "demo" ∅ (Some "key-1") 100 3 300 None None [] (txn_at 60) ex_db
    = inl (PayloadMismatch 12) ∧
  ∃ d', submit_task 1 "demo" ∅ (Some "key-2") 100 3 300 None None [] (txn_at 60) ex_db
    = inr (MkSubmit true (submitted_row (txn_at 60) 1 "demo" ∅ (Some "key-2") 100 3 300 None None []), d').
Proof.
  split; [|split].
  - rewrite (proj1 (submit_correct 1 "other" {[ "n" := JNum 1; "_trace" := JNull ]} (Some "key-1")
      5 9 9 None None [] (txn_at 60) ex_db ex_ids_ok ex_keys_unique eq_refl)
      (ex_running 12 "w1" true) "key-1" eq_refl eq_refl eq_refl eq_refl).
    vm_compute. reflexivity.
  - rewrite (proj1 (submit_correct 1 "demo" ∅ (Some "key-1") 100 3 300 None None []
      (txn_at 60) ex_db ex_ids_ok ex_keys_unique eq_refl)
      (ex_running 12 "w1" true) "key-1" eq_refl eq_refl eq_refl eq_refl).
    vm_compute. reflexivity.
  - destruct (proj2 (submit_correct 1 "demo" ∅ (Some "key-2") 100 3 300 None None []
      (txn_at 60) ex_db ex_ids_ok ex_keys_unique eq_refl)) as (d' & H & _).
    + by apply (ex_tasks_cases (λ _ r, same_key 1 (Some "key-2") r = false)).
    + reflexivity.
    + eexists. reflexivity.
    + reflexivity.
    + exists d'. exact H.
Defined.

(** ** Cancellation: properties *)

Definition cancelled_row (t : txn) (r : task_row) : task_row :=
  moved_row t State.CANCELLED [SetCancelRequested true; SetFinishedAt (Some (now t))] r.

Definition flagged_row (t : txn) (r : task_row) : task_row := assigns (flag_sets t r) r.

Definition disabled_row (t : txn) (reason : text) (r : task_row) : task_row :=
  assigns (disabled_sets t reason r) r.

(** Assignments that keep "RUNNING or not", the attempt and the lease keep
    every constraint. *)
Lemma same_shape_ok (r r' : task_row) :
  task_ok r → t_spec r' = t_spec r → t_attempt r' = t_attempt r →
  t_lease_worker_id r' = t_lease_worker_id r → t_lease_expires_at r' = t_lease_expires_at r →
  (t_state r' = State.RUNNING ↔ t_state r = State.RUNNING) → task_ok r'.
Proof.
  rewrite !task_ok_spec. unfold coherent. intros (Hp & Ha & Hc) -> -> -> -> Hs.
  split; [done|]. split; [done|]. by rewrite Hs.
Qed.

Lemma cancelled_row_ok t r : task_ok r → t_state r = State.QUEUED → task_ok (cancelled_row t r).
Proof. intros Hok Hs. apply (same_shape_ok r); [done..|]. by rewrite Hs. Qed.

Lemma flagged_row_ok t r : task_ok r → task_ok (flagged_row t r).
Proof. intros Hok. by apply (same_shape_ok r). Qed.

Lemma disabled_row_ok t reason r :
  task_ok r → t_state r = State.QUEUED → task_ok (disabled_row t reason r).
Proof. intros Hok Hs. apply (same_shape_ok r); [done..|]. by rewrite Hs. Qed.

Definition cancelled_db (t : txn) (d : db) (i : uuid) (r : task_row) : db :=
  moved_db t d i (cancelled_row t r) EventType.TASK_CANCELLED None
    {[ "reason" := JStr "cancelled_before_start" ]}.

Definition requested_db (t : txn) (d : db) (i : uuid) (r : task_row) : db :=
  let d1 := set_tasks (<[i := flagged_row t r]> (tasks d)) d in
  add_event d1 (mk_event d1 t i (Some (t_attempt r)) EventType.CANCEL_REQUESTED None
    {[ "source" := JStr "api" ]}).

(** What a cancellation answers and leaves, by the state of the row. *)
Definition cancel_spec (t : txn) (d : db) (i : uuid) : CancelResult * db :=
  match tasks d !! i with
  | None => (MkCancel CancelOutcome.NOT_FOUND None, d)
  | Some r =>
      match t_state r with
      | State.CANCELLED => (MkCancel CancelOutcome.ALREADY_CANCELLED (Some r), d)
      | State.SUCCEEDED | State.FAILED => (MkCancel CancelOutcome.ALREADY_TERMINAL (Some r), d)
      | State.QUEUED => (MkCancel CancelOutcome.CANCELLED (Some (cancelled_row t r)), cancelled_db t d i r)
      | State.RUNNING =>
          if t_cancel_requested r then (MkCancel CancelOutcome.ALREADY_REQUESTED (Some r), d)
          else (MkCancel CancelOutcome.REQUESTED (Some (flagged_row t r)), requested_db t d i r)
      end
  end.

Lemma cancel_task_run i t d :
  (∀ r, tasks d !! i = Some r → task_ok r) → cancel_task i t d = inr (cancel_spec t d i).
Proof.
  intros Hok. unfold cancel_task, cancel_spec. rewrite bind_run. cbn [ask]. rewrite bind_run.
  cbn [get]. destruct (tasks d !! i) as [r|] eqn:Hr; [|done]. specialize (Hok r eq_refl).
  destruct (t_state r) eqn:Hs; simpl.
  - rewrite bind_run. erewrite (transition_applied _ _ _ _ _ _ _ _ _ _ r Hr); [done|..].
    + unfold cas_holds. simpl. by rewrite Hs.
    + by apply cancelled_row_ok.
    Unshelve. { done. } by intros s ->%list_elem_of_singleton.
  - destruct (t_cancel_requested r) eqn:Hc.
    + rewrite bind_run. unfold get_task. rewrite bind_run. cbn [get]. cbn [mret M_ret].
      by rewrite Hr.
    + rewrite bind_run. unfold update_task. rewrite bind_run. cbn [get]. rewrite Hr. cbv zeta.
      fold (flag_sets t r). fold (flagged_row t r).
      change (assigns [SetCancelRequested true; SetUpdatedAt (now t)] r) with (flagged_row t r).
      rewrite (flagged_row_ok t r Hok). rewrite bind_run. cbn [modify mret M_ret].
      rewrite bind_run. unfold record_event. rewrite insert_event_run.
      * rewrite bind_run. unfold get_task. rewrite bind_run. cbn [get mret M_ret].
        simpl. by rewrite lookup_insert_eq.
      * simpl. rewrite lookup_insert_eq. eauto.
      * by apply task_error_fits.
  - rewrite bind_run. unfold get_task. rewrite bind_run. cbn [get mret M_ret]. by rewrite Hr.
  - rewrite bind_run. unfold get_task. rewrite bind_run. cbn [get mret M_ret]. by rewrite Hr.
  - rewrite bind_run. unfold get_task. rewrite bind_run. cbn [get mret M_ret]. by rewrite Hr.
Qed.

Lemma cancel_spec_again t t2 d i :
  let d' := (cancel_spec t d i).2 in
  (cancel_spec t2 d' i).2 = d' ∧
  cn_outcome (cancel_spec t2 d' i).1 ∉ [CancelOutcome.CANCELLED; CancelOutcome.REQUESTED].
Proof.
  assert (∀ o, o ≠ CancelOutcome.CANCELLED → o ≠ CancelOutcome.REQUESTED →
            o ∉ [CancelOutcome.CANCELLED; CancelOutcome.REQUESTED]) as Hnot.
  { intros o H1 H2. rewrite !not_elem_of_cons. split_and!; [done..|]. apply not_elem_of_nil. }
  unfold cancel_spec. destruct (tasks d !! i) as [r|] eqn:Hr.
  2: { simpl. rewrite Hr. simpl. split; [done|]. by apply Hnot. }
  destruct (t_state r) eqn:Hs; [|destruct (t_cancel_requested r) eqn:Hc|..]; simpl;
    rewrite ?lookup_insert_eq, ?Hr; simpl; rewrite ?Hs, ?Hc; simpl;
    (split; [done|]); by apply Hnot.
Qed.

(** Cancellation of one task. A QUEUED task is cancelled at once; a
    RUNNING one keeps its owner, attempt and deadline and only gets the flag;
    a finished or unknown one is left exactly as it is. No case raises, and
    asking again changes nothing and reports that it was already done. *)
Theorem cancel_correct i t d :
  (∀ i r, tasks d !! i = Some r → task_ok r) →
  let res := (cancel_spec t d i).1 in let d' := (cancel_spec t d i).2 in
  cancel_task i t d = inr (res, d') ∧
  (∀ r, tasks d !! i = Some r →
     match t_state r with
     | State.QUEUED =>
         cn_outcome res = CancelOutcome.CANCELLED ∧
         ∃ r', tasks d' = <[i := r']> (tasks d) ∧ t_state r' = State.CANCELLED
     | State.RUNNING =>
         ∃ r', cn_task res = Some r' ∧ tasks d' !! i = Some r' ∧ t_cancel_requested r' = true ∧
               t_state r' = State.RUNNING ∧ t_attempt r' = t_attempt r ∧
               t_lease_worker_id r' = t_lease_worker_id r ∧
               t_lease_expires_at r' = t_lease_expires_at r
     | State.CANCELLED => cn_outcome res = CancelOutcome.ALREADY_CANCELLED ∧ d' = d
     | _ => cn_outcome res = CancelOutcome.ALREADY_TERMINAL ∧ d' = d
     end) ∧
  (∀ t2, ∃ again, cancel_task i t2 d' = inr (again, d') ∧
     cn_outcome again ∉ [CancelOutcome.CANCELLED; CancelOutcome.REQUESTED]).
Proof.
  intros Hok res d'. split; [rewrite cancel_task_run by apply Hok; by destruct (cancel_spec t d i)|].
  split.
  - intros r Hr. subst res d'. unfold cancel_spec. rewrite Hr. destruct (t_state r) eqn:Hs; simpl.
    + split; [done|]. by exists (cancelled_row t r).
    + destruct (t_cancel_requested r) eqn:Hc; simpl; [by exists r|].
      exists (flagged_row t r). by rewrite lookup_insert_eq.
    + done.
    + done.
    + done.
  - intros t2. exists (cancel_spec t2 d' i).1. rewrite cancel_task_run.
    + destruct (cancel_spec_again t t2 d i) as [Hd Ho]. fold d' in Hd, Ho. split; [|done].
      destruct (cancel_spec t2 d' i) as [a b]. simpl in *. by rewrite Hd.
    + intros r'. subst d'. unfold cancel_spec. destruct (tasks d !! i) as [r|] eqn:Hr; [|apply Hok].
      destruct (t_state r) eqn:Hs; simpl; [|destruct (t_cancel_requested r)|..];
        try apply Hok; simpl; rewrite lookup_insert_eq; intros [= <-].
      * apply cancelled_row_ok; [by eapply Hok|done].
      * apply flagged_row_ok. by eapply Hok.
Qed.

Lemma cancel_correct_witness :
  ∃ d', cancel_task 12 (txn_at 20) ex_db
        = inr (MkCancel CancelOutcome.ALREADY_REQUESTED (Some (ex_running 12 "w1" true)), d').
Proof.
  eexists. exact (proj1 (cancel_correct 12 (txn_at 20) ex_db
    (ex_tasks_cases (λ _ r, task_ok r) eq_refl eq_refl eq_refl))).
Defined.

(** ** Disabling an agent *)

Section disable.
Context (q rn : task_row → bool) (vs : list uuid) (reason : text) (t : txn) (d : db).
Hypothesis Hids : ids_ok d.
Hypothesis Hok : ∀ i r, tasks d !! i = Some r → task_ok r.
Hypothesis Hvs : vs ≠ [].

Definition disable_queued (r : task_row) : bool :=
  q r && of_versions vs r && bool_decide (t_state r = State.QUEUED).
Definition disable_running (r : task_row) : bool :=
  rn r && of_versions vs r && bool_decide (t_state r = State.RUNNING) && negb (t_cancel_requested r).

(** The row each task ends as. *)
Definition disable_row (r : task_row) : task_row :=
  if disable_queued r then disabled_row t reason r
  else if disable_running r then flagged_row t r else r.

Definition queued_hit : list task_row := disabled_row t reason <$> select disable_queued (tasks d).
Definition running_hit : list task_row :=
  flagged_row t <$> select disable_running
    (update_where disable_queued (disabled_row t reason) (tasks d)).

Definition disabled_db : db :=
  foldl (row_event t EventType.CANCEL_REQUESTED None
           (<[ "reason" := JStr reason ]> {[ "source" := JStr "agent_disabled" ]}))
    (foldl (row_event t EventType.TASK_CANCELLED None {[ "reason" := JStr reason ]})
       (set_tasks (disable_row <$> tasks d) d) queued_hit) running_hit.

Lemma select_after_disable :
  select disable_running (update_where disable_queued (disabled_row t reason) (tasks d))
  ≡ₚ select disable_running (tasks d).
Proof using.
  unfold select. rewrite rows_update_where. induction (rows (tasks d)) as [|r l IH]; [done|].
  rewrite fmap_cons, !filter_cons.
  assert (disable_running (if disable_queued r then disabled_row t reason r else r)
          = disable_running r) as ->.
  { destruct (disable_queued r) eqn:E; [|done]. unfold disable_queued, disable_running in *.
    apply andb_true_iff in E as [_ Hs%bool_decide_eq_true]. rewrite Hs. simpl. by rewrite !andb_false_r. }
  destruct (decide (disable_running r = true)) as [Hr|]; [|done].
  assert (disable_queued r = false) as ->; [|by f_equiv].
  unfold disable_running, disable_queued in *. apply andb_true_iff in Hr as [Hr _].
  apply andb_true_iff in Hr as [_ Hs%bool_decide_eq_true]. rewrite Hs. simpl. by rewrite andb_false_r.
Qed.
Lemma disable_tasks :
  update_where disable_running (flagged_row t)
    (update_where disable_queued (disabled_row t reason) (tasks d)) = disable_row <$> tasks d.
Proof using.
  apply map_eq. intros i. rewrite !lookup_update_where, lookup_fmap.
  destruct (tasks d !! i) as [r|]; [|done]. simpl. f_equal. unfold disable_row.
  destruct (disable_queued r) eqn:E; [|done].
  assert (disable_running (disabled_row t reason r) = false) as ->; [|done].
  unfold disable_running. simpl. by rewrite !andb_false_r.
Qed.

Lemma disable_row_spec r : t_spec (disable_row r) = t_spec r.
Proof using. 
  unfold disable_row. destruct (disable_queued r); [apply assigns_spec|].
  destruct (disable_running r); [apply assigns_spec|done].
Qed.

Lemma elem_of_queued_hit r' :
  r' ∈ queued_hit ↔ ∃ r : task_row, r' = disabled_row t reason r ∧ disable_queued r = true ∧
                      tasks d !! t_id r = Some r.
Proof using Hids.
  unfold queued_hit. rewrite list_elem_of_fmap. setoid_rewrite elem_of_select. split.
  - intros (r & -> & Hq & k & Hk). exists r. by rewrite (Hids _ _ Hk).
  - intros (r & -> & Hq & Hr). eauto.
Qed.

Lemma elem_of_running_hit r' :
  r' ∈ running_hit ↔ ∃ r : task_row, r' = flagged_row t r ∧ disable_running r = true ∧
                       tasks d !! t_id r = Some r.
Proof using Hids.
  unfold running_hit. rewrite list_elem_of_fmap. setoid_rewrite select_after_disable.
  setoid_rewrite elem_of_select. split.
  - intros (r & -> & Hq & k & Hk). exists r. by rewrite (Hids _ _ Hk).
  - intros (r & -> & Hq & Hr). eauto.
Qed.

Lemma cancel_found_run :
  cancel_found q rn vs reason t d
  = inr (Z.of_nat (length queued_hit) + Z.of_nat (length running_hit), disabled_db).
Proof using Hids Hok Hvs.
  assert (cancel_found q rn vs reason t d =
    (queued_rows ← update_tasks disable_queued (disabled_sets t reason);
     running_rows ← update_tasks disable_running (flag_sets t);
     for_each queued_rows (λ row : task_row, insert_event (t_id row) (Some (t_attempt row))
       EventType.TASK_CANCELLED None {[ "reason" := JStr reason ]}) ;;
     for_each running_rows (λ row : task_row, insert_event (t_id row) (Some (t_attempt row))
       EventType.CANCEL_REQUESTED None
       (<[ "reason" := JStr reason ]> {[ "source" := JStr "agent_disabled" ]})) ;;
     mret (Z.of_nat (length queued_rows) + Z.of_nat (length running_rows))) t d) as ->.
  { unfold cancel_found. by rewrite bool_decide_eq_false_2. }
  rewrite bind_run, update_tasks_run.
  2: { intros r [Hq [k Hk]]%elem_of_select. apply andb_true_iff in Hq as [_ Hq].
       apply bool_decide_eq_true in Hq. apply (disabled_row_ok t reason r); [by eapply Hok|done]. }
  change (λ r, assigns (disabled_sets t reason r) r) with (disabled_row t reason).
  fold queued_hit. rewrite bind_run, update_tasks_run.
  2: { intros r [_ [k Hk]]%elem_of_select. simpl in Hk. rewrite lookup_update_where in Hk.
       apply fmap_Some in Hk as (r0 & Hr0 & ->). apply (flagged_row_ok t).
       pose proof (Hok _ _ Hr0) as Hok0. destruct (disable_queued r0) eqn:Hq; [|done].
       apply andb_true_iff in Hq as [_ Hq]. apply bool_decide_eq_true in Hq.
       by apply (disabled_row_ok t reason r0). }
  change (λ r, assigns (flag_sets t r) r) with (flagged_row t). simpl tasks.
  fold running_hit. change (set_tasks ?x (set_tasks _ d)) with (set_tasks x d).
  rewrite disable_tasks, bind_run, row_events_run.
  - rewrite bind_run, row_events_run; [done|]. intros r' Hr'. rewrite row_events_tasks. simpl.
    rewrite lookup_fmap. apply elem_of_running_hit in Hr' as (r & -> & _ & Hr).
    change (t_spec (flagged_row t r)) with (t_spec r). rewrite Hr. split; [eauto|].
    apply (flagged_row_ok t). by eapply Hok.
  - intros r' Hr'. simpl. rewrite lookup_fmap.
    apply elem_of_queued_hit in Hr' as (r & -> & Hq & Hr).
    change (t_spec (disabled_row t reason r)) with (t_spec r). rewrite Hr. split; [eauto|].
    apply andb_true_iff in Hq as [_ Hq%bool_decide_eq_true].
    apply (disabled_row_ok t reason r); [by eapply Hok|done].
Qed.
End disable.

(** The timeline of a task after the agent was disabled. *)
Lemma disabled_log q rn vs reason t d i (r : task_row) :
  ids_ok d → tasks d !! i = Some r →
  (disable_queued q vs r = true → ∃ n,
     log (disabled_db q rn vs reason t d) i =
     log d i ++ [MkEvent n i (Some (t_attempt r)) EventType.TASK_CANCELLED None
                   {[ "reason" := JStr reason ]} (now t)]) ∧
  (disable_running rn vs r = true → ∃ n,
     log (disabled_db q rn vs reason t d) i =
     log d i ++ [MkEvent n i (Some (t_attempt r)) EventType.CANCEL_REQUESTED None
                   (<[ "reason" := JStr reason ]> {[ "source" := JStr "agent_disabled" ]}) (now t)]) ∧
  (disable_queued q vs r = false → disable_running rn vs r = false →
     log (disabled_db q rn vs reason t d) i = log d i).
Proof.
  intros Hids Hr. pose proof (Hids _ _ Hr) as <-.
  assert (disable_queued q vs r = true → disable_running rn vs r = false) as Hexcl.
  { unfold disable_queued, disable_running. rewrite andb_true_iff, bool_decide_eq_true. intros [_ Hq].
    rewrite Hq. simpl. by rewrite andb_false_r. }
  assert (∀ r' : task_row, r' ∈ queued_hit q vs reason t d → t_id r' = t_id r →
            disable_queued q vs r = true ∧ r' = disabled_row t reason r) as Hqh.
  { intros r' Hr'. rewrite elem_of_queued_hit in Hr' by done. destruct Hr' as (r0 & -> & Hq & Hr0).
    intros Heq. change (t_id r0 = t_id r) in Heq. rewrite Heq, Hr in Hr0. by simplify_eq. }
  assert (∀ r' : task_row, r' ∈ running_hit q rn vs reason t d → t_id r' = t_id r →
            disable_running rn vs r = true ∧ r' = flagged_row t r) as Hrn.
  { intros r' Hr'. rewrite elem_of_running_hit in Hr' by done. destruct Hr' as (r0 & -> & Hq0 & Hr0).
    intros Heq. change (t_id r0 = t_id r) in Heq. rewrite Heq, Hr in Hr0. by simplify_eq. }
  assert (disable_queued q vs r = false → t_id r ∉ ids_of (queued_hit q vs reason t d)) as Hnq.
  { intros Hf (r' & Heq & Hr')%list_elem_of_fmap. destruct (Hqh r' Hr' (eq_sym Heq)). congruence. }
  assert (disable_running rn vs r = false → t_id r ∉ ids_of (running_hit q rn vs reason t d)) as Hnr.
  { intros Hf (r' & Heq & Hr')%list_elem_of_fmap. destruct (Hrn r' Hr' (eq_sym Heq)). congruence. }
  assert (NoDup (ids_of (queued_hit q vs reason t d))) as Hndq.
  { unfold ids_of, queued_hit. rewrite <-list_fmap_compose.
    apply (select_ids_NoDup d Hids (disable_queued q vs)). }
  assert (NoDup (ids_of (running_hit q rn vs reason t d))) as Hndr.
  { unfold ids_of, running_hit. rewrite <-list_fmap_compose. rewrite select_after_disable.
    apply (select_ids_NoDup d Hids (disable_running rn vs)). }
  unfold disabled_db. split; [|split].
  - intros Ht. rewrite row_events_log_ne by auto.
    destruct (row_events_log t EventType.TASK_CANCELLED None {[ "reason" := JStr reason ]}
                (queued_hit q vs reason t d) (set_tasks (disable_row q rn vs reason t <$> tasks d) d)
                (disabled_row t reason r)) as [n Hn]; [done| |eauto].
    rewrite elem_of_queued_hit by done. eauto.
  - intros Ht.
    destruct (row_events_log t EventType.CANCEL_REQUESTED None
                (<[ "reason" := JStr reason ]> {[ "source" := JStr "agent_disabled" ]})
                (running_hit q rn vs reason t d)
                (foldl (row_event t EventType.TASK_CANCELLED None {[ "reason" := JStr reason ]})
                  (set_tasks (disable_row q rn vs reason t <$> tasks d) d) (queued_hit q vs reason t d))
                (flagged_row t r)) as [n Hn]; [done| |].
    + rewrite elem_of_running_hit by done. eauto.
    + exists n. change (t_id (flagged_row t r)) with (t_id r) in Hn. rewrite Hn.
      rewrite row_events_log_ne; [done|]. apply Hnq.
      destruct (disable_queued q vs r) eqn:E; [|done]. rewrite Hexcl in Ht; done.
  - intros H1 H2. rewrite !row_events_log_ne by auto. done.
Qed.

(** Disabling an agent. On tables whose rows satisfy the constraints the
    operation never raises: every QUEUED task pinned to one of the versions
    is cancelled, every RUNNING one keeps its owner and gets the flag, every
    other task is untouched, and the number returned is the number of tasks
    changed. *)
Theorem cancel_agent_correct vs reason t d :
  ids_ok d → (∀ i r, tasks d !! i = Some r → task_ok r) → vs ≠ [] →
  ∃ n d', cancel_agent_tasks vs reason t d = inr (n, d') ∧
    n = Z.of_nat (length (select (λ r : task_row, of_versions vs r
          && (bool_decide (t_state r = State.QUEUED)
              || bool_decide (t_state r = State.RUNNING) && negb (t_cancel_requested r))) (tasks d))) ∧
    ∀ i (r : task_row), tasks d !! i = Some r → ∃ r', tasks d' !! i = Some r' ∧
      (of_versions vs r = false → r' = r) ∧
      (of_versions vs r = true →
         match t_state r with
         | State.QUEUED => t_state r' = State.CANCELLED ∧ t_cancel_requested r' = true
         | State.RUNNING => t_state r' = State.RUNNING ∧ t_cancel_requested r' = true ∧
                            t_lease_worker_id r' = t_lease_worker_id r ∧ t_attempt r' = t_attempt r
         | _ => r' = r
         end).
Proof.
  intros Hids Hok Hvs.
  exists (Z.of_nat (length (queued_hit every_row vs reason t d)) + Z.of_nat (length (running_hit every_row every_row vs reason t d))),
    (disabled_db every_row every_row vs reason t d).
  split; [by apply cancel_found_run|]. split.
  - unfold queued_hit, running_hit. rewrite !length_fmap, select_after_disable.
    change (disable_queued every_row vs)
      with (λ r, of_versions vs r && bool_decide (t_state r = State.QUEUED)).
    change (disable_running every_row vs)
      with (λ r, of_versions vs r && bool_decide (t_state r = State.RUNNING) && negb (t_cancel_requested r)).
    rewrite <-Nat2Z.inj_add. f_equal. unfold select. induction (rows (tasks d)) as [|r l IH]; [done|].
    rewrite !filter_cons.
    destruct (of_versions vs r); simpl; [|done].
    destruct (t_state r); simpl; try done; [lia|].
    destruct (t_cancel_requested r); simpl; [done|lia].
  - intros i r Hr. exists (disable_row every_row every_row vs reason t r). split.
    { unfold disabled_db. rewrite !row_events_tasks. simpl. by rewrite lookup_fmap, Hr. }
    unfold disable_row, disable_queued, disable_running. split; intros ->; [done|]. simpl.
    destruct (t_state r) eqn:Hs; simpl; try done.
    destruct (t_cancel_requested r) eqn:Hc; simpl; by rewrite ?Hs.
Qed.

Lemma cancel_agent_correct_witness :
  ∃ n d', cancel_agent_tasks [7%N] "agent disabled" (txn_at 20) ex_db = inr (n, d') ∧ n = 0.
Proof.
  destruct (cancel_agent_correct [7%N] "agent disabled" (txn_at 20) ex_db ex_ids_ok
    (ex_tasks_cases (λ _ r, task_ok r) eq_refl eq_refl eq_refl)) as (n & d' & H1 & H2 & _).
  { discriminate. }
  exists n, d'. split; [exact H1|]. rewrite H2. vm_compute. reflexivity.
Defined.
