(* ===== verification/Paging.v ===== *)
(** * Listing tasks page by page (db/queries/tasks.py, list_tasks)

    A cursor is the text a client gets with a page and sends back for the
    next one: creation time and id of the page's last row, in base64.  What
    [datetime.fromisoformat] makes of forms [isoformat] does not write is the
    parameter [iso_forms]. *)

From S2P Require Import Prelude PyStr Codec Json States Db Samples Transitions Completion Claim.
From S2P Require Import Tasks.
#[local] Open Scope Z_scope.

(** ** Cursors *)

Definition encode_cursor (created_at : timestamp) (task_id : uuid) : text :=
  b64_encode (isoformat created_at +:+ String "|" (uuid_str task_id)).

(** [None]: binascii.Error, UnicodeDecodeError or another ValueError. *)
Definition decode_cursor (iso_forms : text → option timestamp) (cursor : text)
    : option (timestamp * uuid) :=
  raw ← b64_decode cursor;
  '(ts, tid) ← split_once "|" raw;
  ts ← fromisoformat iso_forms ts;
  tid ← parse_uuid tid;
  Some (ts, tid).

(** ** A page *)

(** [ORDER BY created_at DESC, id DESC]. *)
Definition newest_first (r : task_row) : list Z := [- t_created_at r; - Z.of_N (t_id r)].

(** The WHERE clauses that are present; the cursor is a (created_at, id)
    pair, compared as a row value. *)
Definition listed (tenant_id : option uuid) (st : option state) (cursor : option (timestamp * uuid))
    (r : task_row) : bool :=
  match tenant_id with Some te => bool_decide (t_tenant_id r = te) | None => true end
  && match st with Some s => bool_decide (t_state r = s) | None => true end
  && match cursor with
     | Some (c, i) => (t_created_at r <? c) || (t_created_at r =? c) && (t_id r <? i)%N
     | None => true
     end.

(** [if cursor:], the empty string is no cursor. *)
Definition read_cursor (iso_forms : text → option timestamp) (cursor : option text)
    : M (option (timestamp * uuid)) :=
  match cursor with
  | Some c =>
      if truthy c then
        match decode_cursor iso_forms c with
        | Some x => mret (Some x)
        | None => raise (ValueError "cursor")
        end
      else mret None
  | None => mret None
  end.

(** [rows[-1]] of an empty list raises; the page size is at least one at the
    API. *)
Definition list_tasks (iso_forms : text → option timestamp) (tenant_id : option uuid)
    (st : option state) (limit : nat) (cursor : option text) : M (list task_row * option text) :=
  cursor ← read_cursor iso_forms cursor;
  d ← get;
  let rows := take (limit + 1) (order_by (key_le newest_first)
                (select (listed tenant_id st cursor) (tasks d))) in
  if (limit <? length rows)%nat then
    let rows := take limit rows in
    match last rows with
    | Some r => mret (rows, Some (encode_cursor (t_created_at r) (t_id r)))
    | None => raise (LookupError "list index out of range")
    end
  else mret (rows, None).

(** ** Cursors read back *)

Lemma has_char_dec c n x : hex_char c ∨ has_char c (dec_digits n x) = false.
Proof.
  revert x. induction n as [|n IH]; intros x; [by right|]. cbn [dec_digits].
  destruct (IH (x / 10)) as [|Hn]; [by left|]. rewrite has_char_app, Hn. cbn [has_char orb].
  rewrite orb_false_r. case_bool_decide as Hc; [left|by right]. exists (Z.to_nat (x mod 10)).
  split; [|done]. pose proof (Z.mod_pos_bound x 10 eq_refl). lia.
Qed.

Lemma bar_not_hex : ¬ hex_char "|".
Proof. intros (d & Hd & H). by do 16 (destruct d as [|d]; [done|]); lia. Qed.

Lemma isoformat_no_bar ts : has_char "|" (isoformat ts) = false.
Proof.
  assert (∀ n x, has_char "|" (dec_digits n x) = false) as Hdec
    by (intros n x; destruct (has_char_dec "|" n x) as [H|]; [by apply bar_not_hex in H|done]).
  unfold isoformat. cbv zeta. rewrite !has_char_app, !Hdec. destruct (_ =? 0); [done|].
  by rewrite has_char_app, Hdec.
Qed.

Lemma decode_encode iso_forms ts i :
  datetime_range ts → (i < 2 ^ 128)%N → decode_cursor iso_forms (encode_cursor ts i) = Some (ts, i).
Proof.
  intros Hts Hi. unfold decode_cursor, encode_cursor.
  apply bind_Some. eexists. split; [apply b64_round_trip|].
  apply bind_Some. exists (isoformat ts, uuid_str i). split; [apply split_once_fresh, isoformat_no_bar|].
  apply bind_Some. exists ts. split; [by apply iso_round_trip|].
  apply bind_Some. exists i. split; [by apply uuid_round_trip|done].
Qed.

Lemma encode_cursor_truthy ts i : truthy (encode_cursor ts i) = true.
Proof.
  unfold encode_cursor. destruct (isoformat ts) as [|a s]; [|rewrite string_app_cons];
    [destruct (uuid_str i) as [|b [|c s]]|destruct (s +:+ _) as [|b [|c s']]]; reflexivity.
Qed.

(** The rows a cursor can be made of. *)
Definition cursor_ok (r : task_row) : Prop := datetime_range (t_created_at r) ∧ (t_id r < 2 ^ 128)%N.

Lemma read_cursor_encoded iso_forms (r : task_row) t d : cursor_ok r →
  read_cursor iso_forms (Some (encode_cursor (t_created_at r) (t_id r))) t d
  = inr (Some (t_created_at r, t_id r), d).
Proof. intros [Hts Hi]. unfold read_cursor. by rewrite encode_cursor_truthy, decode_encode. Qed.

Section pages.
Context (iso_forms : text → option timestamp).

(** ** Pagination *)

(** Pages requested one after the other on unchanged tables. *)
Fixpoint pages (fuel : nat) (te : option uuid) (st : option state) (limit : nat)
    (cursor : option text) (t : txn) (d : db) : option (list task_row) :=
  match fuel with
  | O => None
  | S fuel =>
      match list_tasks iso_forms te st limit cursor t d with
      | inr ((rs, None), _) => Some rs
      | inr ((rs, Some c), _) => (λ more, rs ++ more) <$> pages fuel te st limit (Some c) t d
      | inl _ => None
      end
  end.

Definition listing (te : option uuid) (st : option state) (cursor : option (timestamp * uuid))
    (d : db) : list task_row :=
  order_by (key_le newest_first) (select (listed te st cursor) (tasks d)).

Lemma newest_antisym_on d l :
  ids_ok d → (∀ r : task_row, r ∈ l → r ∈ rows (tasks d)) → antisym_on (key_le newest_first) l.
Proof.
  intros Hids Hl r1 r2 H1 H2 Hle Hge. apply (rows_same_id d Hids); auto.
  pose proof (lex_le_antisym (newest_first r1) (newest_first r2) eq_refl Hle Hge) as [= _ Heq]. lia.
Qed.

Lemma listing_antisym d te st c : ids_ok d → antisym_on (key_le newest_first) (listing te st c d).
Proof.
  intros Hids. apply (newest_antisym_on d _ Hids). intros r Hr.
  apply elem_of_order_by in Hr; [|apply _..]. apply elem_of_select in Hr as [_ Hr].
  by apply elem_of_rows.
Qed.

(** The cursor condition is the strict order. *)
Lemma listed_cursor te st (x r : task_row) :
  listed te st (Some (t_created_at x, t_id x)) r = true ↔
  listed te st None r = true ∧ ¬ key_le newest_first r x.
Proof.
  unfold listed. rewrite !andb_true_iff. split.
  - intros [Hl Hc]. split; [done|]. unfold key_le, newest_first.
    rewrite !lex_le_cons. simpl. apply orb_true_iff in Hc as [Hc|Hc]; to_prop; [lia|].
    apply N.ltb_lt in H0. intros [?|[? [?|[? _]]]]; lia.
  - intros [[Hl _] Hc]. split; [done|]. unfold key_le, newest_first in Hc.
    rewrite !lex_le_cons in Hc. simpl in Hc.
    destruct (Z.lt_trichotomy (t_created_at r) (t_created_at x)) as [H|[H|H]].
    + by rewrite (proj2 (Z.ltb_lt _ _)).
    + rewrite H, Z.ltb_irrefl, Z.eqb_refl. simpl. apply N.ltb_lt.
      destruct (N.lt_ge_cases (t_id r) (t_id x)) as [|Hge]; [done|]. exfalso. apply Hc.
      right. split; [lia|]. destruct (decide (t_id r = t_id x)) as [->|]; [by right|left; lia].
    + exfalso. apply Hc. left. lia.
Qed.

(** What a cursor selects is what follows its row. *)
Lemma listing_after d te st (x : task_row) pre suf :
  ids_ok d → listing te st None d = pre ++ x :: suf →
  listing te st (Some (t_created_at x, t_id x)) d = suf.
Proof.
  intros Hids Hfull. pose proof (listing_antisym d te st None Hids) as Hanti.
  assert (StronglySorted (key_le newest_first) (pre ++ x :: suf)) as Hsort.
  { rewrite <-Hfull. apply order_by_sorted; apply _. }
  assert (NoDup (pre ++ x :: suf)) as Hnd.
  { rewrite <-Hfull. unfold listing. rewrite order_by_perm by apply _. by apply select_NoDup. }
  assert (∀ r, r ∈ pre ++ x :: suf ↔ listed te st None r = true ∧ ∃ i, tasks d !! i = Some r) as Hin.
  { intros r. rewrite <-Hfull. unfold listing. rewrite elem_of_order_by by apply _.
    apply elem_of_select. }
  rewrite Hfull in Hanti.
  assert (∀ r, r ∈ suf ↔ r ∈ pre ++ x :: suf ∧ ¬ key_le newest_first r x) as Hsuf.
  { intros r. split.
    - intros Hr. assert (r ∈ pre ++ x :: suf) as Hr' by (apply elem_of_app; right; by right).
      split; [done|]. intros Hle. assert (r = x) as ->.
      { apply Hanti; [done|apply elem_of_app; right; by left|done|].
        apply StronglySorted_app in Hsort as (_ & _ & Hs).
        apply StronglySorted_inv in Hs as [_ Hs]. by eapply Forall_forall in Hs. }
      apply NoDup_app in Hnd as (_ & _ & Hnd). by apply NoDup_cons in Hnd as [? _].
    - intros [[Hr|[->|Hr]%elem_of_cons]%elem_of_app Hle]; [exfalso|exfalso|done]; apply Hle.
      + eapply (sorted_app_before (key_le newest_first) pre (x :: suf)); [done|done|by left].
      + by destruct (total (key_le newest_first) x x). }
  apply (sorted_unique_on (key_le newest_first)).
  - by apply listing_antisym.
  - apply order_by_sorted; apply _.
  - apply StronglySorted_app in Hsort as (_ & _ & Hs). by apply StronglySorted_inv in Hs as [? _].
  - unfold listing. rewrite order_by_perm by apply _. apply NoDup_Permutation.
    + by apply select_NoDup.
    + apply NoDup_app in Hnd as (_ & _ & Hnd). by apply NoDup_cons in Hnd as [_ ?].
    + intros r. rewrite elem_of_select. rewrite listed_cursor, Hsuf, Hin. tauto.
Qed.

(** One page: the first [limit] rows after the cursor, and a cursor exactly
    when there are more. *)
Lemma list_tasks_run te st limit cursor c t d :
  read_cursor iso_forms cursor t d = inr (c, d) → (0 < limit)%nat →
  list_tasks iso_forms te st limit cursor t d =
  inr ((take limit (listing te st c d),
        if (limit <? length (listing te st c d))%nat
        then (λ r : task_row, encode_cursor (t_created_at r) (t_id r))
             <$> last (take limit (listing te st c d))
        else None), d).
Proof.
  intros Hc Hlim. unfold list_tasks. rewrite bind_run, Hc. rewrite bind_run. cbn [get].
  fold (listing te st c d). set (L := listing te st c d). rewrite length_take.
  destruct (limit <? length L)%nat eqn:E.
  - apply Nat.ltb_lt in E. rewrite (proj2 (Nat.ltb_lt _ _)) by lia.
    rewrite take_take, Nat.min_l by lia. destruct (last (take limit L)) eqn:El; [done|].
    apply last_None in El. apply (f_equal length) in El. rewrite length_take in El. simpl in El. lia.
  - apply Nat.ltb_ge in E. rewrite (proj2 (Nat.ltb_ge _ _)) by lia. by rewrite !take_ge by lia.
Qed.

Lemma pages_listing fuel te st limit d t cursor c pre :
  ids_ok d → (∀ r, r ∈ listing te st None d → cursor_ok r) → (0 < limit)%nat →
  read_cursor iso_forms cursor t d = inr (c, d) →
  listing te st None d = pre ++ listing te st c d → (length (listing te st c d) < fuel)%nat →
  pages fuel te st limit cursor t d = Some (listing te st c d).
Proof.
  intros Hids Hok Hlim. revert cursor c pre. induction fuel as [|fuel IH]; intros cursor c pre Hc Hfull Hfuel; [lia|].
  cbn [pages]. rewrite (list_tasks_run _ _ _ _ _ _ _ Hc Hlim). set (L := listing te st c d) in *.
  destruct (limit <? length L)%nat eqn:E.
  2: { apply Nat.ltb_ge in E. by rewrite take_ge by lia. }
  apply Nat.ltb_lt in E.
  destruct (lookup_lt_is_Some_2 L (limit - 1)) as [x Hx]; [lia|].
  assert (L = take (limit - 1) L ++ x :: drop limit L) as HL.
  { rewrite <-(take_drop_middle L (limit - 1) x Hx) at 1. repeat f_equal. lia. }
  assert (take limit L = take (limit - 1) L ++ [x]) as Htake.
  { replace limit with (S (limit - 1)) at 1 by lia. by rewrite (take_S_r _ _ x). }
  assert (listing te st (Some (t_created_at x, t_id x)) d = drop limit L) as Hnext.
  { apply (listing_after d te st x (pre ++ take (limit - 1) L)); [done|].
    by rewrite Hfull, HL at 1; rewrite <-app_assoc. }
  rewrite Htake, last_snoc. cbn [fmap option_fmap option_map].
  assert (cursor_ok x) as Hxok.
  { apply Hok. rewrite Hfull, HL. apply elem_of_app. right. apply elem_of_app. right. by left. }
  rewrite (IH _ _ (pre ++ take limit L) (read_cursor_encoded iso_forms x t d Hxok)).
  - simpl. by rewrite Hnext, <-Htake, take_drop.
  - by rewrite Hnext, <-app_assoc, take_drop.
  - rewrite Hnext, length_drop. lia.
Qed.

(** C37: keyset pagination. With a page size of at least one and unchanged
    tables, following the returned cursors, the texts the server made, from
    the first page on ends, and the pages put together are every task the
    filters select, each once, newest first. *)
Theorem pages_complete te st limit t d :
  ids_ok d → (∀ i (r : task_row), tasks d !! i = Some r → cursor_ok r) → (0 < limit)%nat →
  let all := order_by (key_le newest_first) (select (listed te st None) (tasks d)) in
  pages (S (length all)) te st limit None t d = Some all ∧ NoDup (ids_of all).
Proof.
  intros Hids Hok Hlim all. split.
  - apply (pages_listing _ _ _ _ _ _ _ None []); [done| |done|done|done|].
    + intros r [_ [i Hi]%elem_of_rows]%elem_of_order_by%list_elem_of_filter; [by eapply Hok|apply _..].
    + unfold listing. fold all. lia.
  - unfold ids_of, all. rewrite order_by_perm by apply _. by apply select_ids_NoDup.
Qed.

End pages.

Lemma ex_cursors_ok i (r : task_row) : tasks ex_db !! i = Some r → cursor_ok r.
Proof.
  revert i r. by apply (ex_tasks_cases (λ _ r, cursor_ok r)).
Qed.

Lemma pages_complete_witness :
  pages (λ _, None) 4 (Some 1%N) None 1 None (txn_at 20) ex_db
  = Some [ex_running 12 "w1" true; ex_queued 11 50; ex_queued 10 100].
Proof.
  pose proof (pages_complete (λ _, None) (Some 1%N) None 1 (txn_at 20) ex_db ex_ids_ok ex_cursors_ok
                (Nat.lt_0_succ 0)) as [H _].
  assert (order_by (key_le newest_first) (select (listed (Some 1%N) None None) (tasks ex_db))
          = [ex_running 12 "w1" true; ex_queued 11 50; ex_queued 10 100]) as E
    by (vm_compute; reflexivity).
  cbv zeta in H. rewrite E in H. exact H.
Defined.

(** ** What a client may send *)

(** Characters that need no quoting in a query string, and the padding. *)
Fixpoint url_safe (s : text) : bool :=
  match s with
  | EmptyString => true
  | String c s => (has_char c b64_alphabet || bool_decide (c = "="%char)) && url_safe s
  end.

Lemma b64_char_in n : has_char (b64_char n) b64_alphabet = true.
Proof.
  destruct (N.lt_ge_cases n 64) as [Hn|Hn].
  - assert (forallb (λ k, has_char (b64_char (N.of_nat k)) b64_alphabet) (seq 0 64) = true) as H
      by (vm_compute; reflexivity).
    rewrite forallb_forall in H. specialize (H (N.to_nat n)). rewrite in_seq, N2Nat.id in H. apply H. lia.
  - unfold b64_char. destruct (String.get (N.to_nat n) b64_alphabet) eqn:E; [|reflexivity].
    rewrite <-(Nat.sub_add 64 (N.to_nat n)), Nat.add_comm in E by lia. done.
Qed.

Lemma b64_url_safe s : url_safe (b64_encode s) = true.
Proof.
  revert s. fix IH 1.
  intros [|a [|b [|c s]]]; [done|..]; cbn [b64_encode]; cbv zeta; cbn [url_safe];
    rewrite !b64_char_in; cbn [orb andb]; done.
Qed.

(** A cursor survives the trip through the client. Whatever instant of
    the years 1 to 9999 and whatever id it is made of, its text is not empty
    (an empty one would mean the first page), consists of characters a query
    string carries unquoted, and decodes to exactly that instant, to the
    microsecond, and that id. *)
Theorem cursor_round_trip iso_forms ts i :
  datetime_range ts → (i < 2 ^ 128)%N →
  let cursor := encode_cursor ts i in
  truthy cursor = true ∧ url_safe cursor = true ∧ decode_cursor iso_forms cursor = Some (ts, i).
Proof.
  intros Hts Hi cursor. split; [apply encode_cursor_truthy|].
  split; [apply b64_url_safe|by apply decode_encode].
Qed.

Lemma cursor_round_trip_witness :
  encode_cursor 951782399000050 255
    = "MjAwMC0wMi0yOFQyMzo1OTo1OS4wMDAwNTArMDA6MDB8MDAwMDAwMDAtMDAwMC0wMDAwLTAwMDAtMDAwMDAwMDAwMGZm" ∧
  decode_cursor (λ _, None) (encode_cursor 951782399000050 255) = Some (951782399000050, 255%N).
Proof.
  split; [vm_compute; reflexivity|].
  apply (cursor_round_trip (λ _, None) 951782399000050 255); [|done].
  unfold datetime_range, day_us, second. lia.
Defined.

(** A text that is no cursor makes the query raise ValueError, which no
    handler of the API catches. *)
Lemma bad_cursor_raises iso_forms te st limit c t d :
  truthy c = true → decode_cursor iso_forms c = None →
  list_tasks iso_forms te st limit (Some c) t d = inl (ValueError "cursor").
Proof. intros Ht Hd. unfold list_tasks, read_cursor. rewrite Ht, Hd. by rewrite bind_run. Qed.

Example garbage_is_no_cursor iso_forms : decode_cursor iso_forms "abcde" = None.
Proof. reflexivity. Qed.
