(* ===== verification/Agents.v ===== *)
(** * The agent registry (db/queries/agents.py)

    Agents, their immutable versions, routes, and the resolution a submission
    pins.  A version's number is allocated under the lock of its agent's row;
    the row lock makes each operation atomic here. *)

From S2P Require Import Prelude PyStr Json States Authz Capability Policy Db Samples Claim.

Definition agent_with (status : agent_status) (default_version : option uuid) (at_ : timestamp)
    (a : agent_row) : agent_row :=
  MkAgent (ag_id a) (ag_tenant_id a) (ag_name a) (ag_description a) status default_version
    (ag_created_at a) at_.

Definition version_with (status : version_status) (v : version_row) : version_row :=
  MkVersion (v_id v) (v_agent_id v) (v_version v) (v_runtime_spec v) (v_required_capabilities v)
    (v_config v) (v_max_attempts v) (v_max_execution_time_s v) status (v_created_at v).

(** ** Agents *)

Definition create_agent (tenant_id : uuid) (name : text) (description : option text) : M agent_row :=
  t ← ask; d ← get;
  let row := MkAgent (new_uuid t) tenant_id name description AgentStatus.ACTIVE None (now t) (now t) in
  if bool_decide (Exists (λ a, ag_tenant_id a = tenant_id ∧ ag_name a = name) (rows (agents d)))
  then raise (IntegrityError "uq_agents_tenant_name")
  else if bool_decide (is_Some (agents d !! new_uuid t)) then raise (IntegrityError "agents_pkey")
  else if bool_decide (tenants d !! tenant_id = None)
  then raise (IntegrityError "agents_tenant_id_fkey")
  else modify (set_agents (<[new_uuid t := row]> (agents d))) ;; mret row.

Definition get_agent (agent_id : uuid) : M (option agent_row) :=
  d ← get; mret (agents d !! agent_id).

Definition list_agents (tenant_id : option uuid) : M (list agent_row) :=
  d ← get;
  mret (order_by (le_on Z.ge ag_created_at)
    (select (λ a, match tenant_id with Some te => bool_decide (ag_tenant_id a = te) | None => true end)
       (agents d))).

Definition set_agent_status (agent_id : uuid) (status : agent_status) : M (option agent_row) :=
  t ← ask; d ← get;
  match agents d !! agent_id with
  | None => mret None
  | Some a =>
      let a' := agent_with status (ag_default_version_id a) (now t) a in
      modify (set_agents (<[agent_id := a']> (agents d))) ;; mret (Some a')
  end.

(** ** Versions *)

Definition versions_of (d : db) (agent_id : uuid) : list version_row :=
  select (λ v, bool_decide (v_agent_id v = agent_id)) (agent_versions d).

(** [coalesce(max(version), 0) + 1]. *)
Definition next_version (d : db) (agent_id : uuid) : Z :=
  match v_version <$> versions_of d agent_id with
  | [] => 1
  | n :: ns => foldr Z.max n ns + 1
  end.

(** The CHECK constraints and widths of migration 0006. *)
Definition version_error (v : version_row) : option exn :=
  if negb (v_version v <=? int4_max) then Some (DataError "version")
  else if negb (v_max_attempts v <=? int4_max) then Some (DataError "max_attempts")
  else if negb (v_max_execution_time_s v <=? int4_max) then Some (DataError "max_execution_time_s")
  else if negb (1 <=? v_version v) then Some (IntegrityError "ck_agent_versions_version")
  else if negb (1 <=? v_max_attempts v) then Some (IntegrityError "ck_agent_versions_max_attempts")
  else if negb (1 <=? v_max_execution_time_s v)
  then Some (IntegrityError "ck_agent_versions_max_execution_time")
  else None.

Definition create_version (agent_id : uuid) (runtime_spec : option jdict)
    (required_capabilities : list text) (config : option jdict)
    (max_attempts max_execution_time_s : Z) (status : version_status) : M version_row :=
  t ← ask; d ← get;
  match agents d !! agent_id with
  | None => raise (AgentNotFound agent_id)
  | Some _ =>
      let row := MkVersion (new_uuid t) agent_id (next_version d agent_id)
                   (default ∅ runtime_spec) required_capabilities (default ∅ config)
                   max_attempts max_execution_time_s status (now t) in
      match version_error row with
      | Some e => raise e
      | None =>
          if bool_decide (Exists (λ v, v_version v = v_version row) (versions_of d agent_id))
          then raise (IntegrityError "uq_agent_versions_agent_version")
          else if bool_decide (is_Some (agent_versions d !! new_uuid t))
          then raise (IntegrityError "agent_versions_pkey")
          else modify (set_versions (<[new_uuid t := row]> (agent_versions d))) ;; mret row
      end
  end.

Definition get_version (version_id : uuid) : M (option version_row) :=
  d ← get; mret (agent_versions d !! version_id).

Definition list_versions (agent_id : uuid) : M (list version_row) :=
  d ← get; mret (order_by (le_on Z.le v_version) (versions_of d agent_id)).

(** The trigger of migration 0006 lets this UPDATE pass: only [status]
    changes. *)
Definition set_version_status (version_id : uuid) (status : version_status)
    : M (option version_row) :=
  d ← get;
  match agent_versions d !! version_id with
  | None => mret None
  | Some v =>
      let v' := version_with status v in
      modify (set_versions (<[version_id := v']> (agent_versions d))) ;; mret (Some v')
  end.

Record ActivationResult := MkActivation {
  act_applied : bool;
  act_agent : option agent_row;
  act_reason : option text;
}.

(** [activate_version] once [get_version], which locks nothing, has answered. *)
Definition activate_read (agent_id version_id : uuid) (expected_current_version_id : option uuid)
    (require_expected : bool) (version : option version_row) : M ActivationResult :=
  t ← ask;
  match version with
  | None => mret (MkActivation false None (Some "version_not_found_for_agent"))
  | Some v =>
      if bool_decide (v_agent_id v ≠ agent_id)
      then mret (MkActivation false None (Some "version_not_found_for_agent"))
      else if bool_decide (v_status v = VersionStatus.DISABLED)
      then mret (MkActivation false None (Some "version_disabled"))
      else
        d ← get;
        match agents d !! agent_id with
        | Some a =>
            if negb require_expected
               || bool_decide (ag_default_version_id a = expected_current_version_id)
            then
              let a' := agent_with (ag_status a) (Some version_id) (now t) a in
              modify (set_agents (<[agent_id := a']> (agents d))) ;;
              set_version_status version_id VersionStatus.ACTIVE ;;
              mret (MkActivation true (Some a') None)
            else mret (MkActivation false None (Some "default_version_changed_concurrently"))
        | None => mret (MkActivation false None (Some "default_version_changed_concurrently"))
        end
  end.

Definition activate_version (agent_id version_id : uuid) (expected_current_version_id : option uuid)
    (require_expected : bool) : M ActivationResult :=
  version ← get_version version_id;
  activate_read agent_id version_id expected_current_version_id require_expected version.

(** ** Routes *)

Definition set_route (tenant_id : uuid) (request_type : text) (agent_id : uuid) : M unit :=
  t ← ask; d ← get;
  if bool_decide (tenants d !! tenant_id = None)
  then raise (IntegrityError "agent_routes_tenant_id_fkey")
  else if bool_decide (agents d !! agent_id = None)
  then raise (IntegrityError "agent_routes_agent_id_fkey")
  else
    let row := MkRoute tenant_id request_type agent_id
                 (match agent_routes d !! (tenant_id, request_type) with
                  | Some r => ro_created_at r | None => now t end) in
    modify (set_routes (<[(tenant_id, request_type) := row]> (agent_routes d))).

Definition list_routes (tenant_id : uuid) : M (list route_row) :=
  d ← get;
  mret (order_by (le_on String.le ro_request_type)
    (select (λ r, bool_decide (ro_tenant_id r = tenant_id)) (agent_routes d))).

Record Resolution := MkResolution {
  rs_agent_id : uuid;
  rs_agent_name : text;
  rs_version_id : uuid;
  rs_version : Z;
  rs_required_capabilities : list text;
  rs_max_attempts : Z;
  rs_max_execution_time_s : Z;
  rs_runtime_spec : jdict;
}.

(** route JOIN agent LEFT JOIN version ON version.id = agent.default_version_id. *)
Definition resolve_route (tenant_id : uuid) (request_type : text) : M Resolution :=
  d ← get;
  match (route ← agent_routes d !! (tenant_id, request_type); agents d !! ro_agent_id route) with
  | None => raise (NoRoute ("no agent routed for request_type=" +:+ repr request_type))
  | Some a =>
      if bool_decide (ag_status a ∉ ROUTABLE_AGENT_STATUSES) then
        raise (NotRoutable ("agent " +:+ repr (ag_name a) +:+ " is "
                              +:+ AgentStatus.value (ag_status a)))
      else
        match (v ← ag_default_version_id a; agent_versions d !! v) with
        | None => raise (NotRoutable ("agent " +:+ repr (ag_name a) +:+ " has no released version"))
        | Some v =>
            if bool_decide (v_status v ∉ ROUTABLE_VERSION_STATUSES) then
              raise (NotRoutable ("agent " +:+ repr (ag_name a) +:+ " default version "
                +:+ pretty (v_version v) +:+ " is " +:+ VersionStatus.value (v_status v)))
            else mret (MkResolution (ag_id a) (ag_name a) (v_id v) (v_version v)
                         (v_required_capabilities v) (v_max_attempts v)
                         (v_max_execution_time_s v) (v_runtime_spec v))
        end
  end.

(** ** Version numbers *)

(** The numbers of each agent's versions are 1, 2, .., n. *)
Definition versions_dense (d : db) : Prop :=
  ∀ a, v_version <$> versions_of d a ≡ₚ seqZ 1 (Z.of_nat (length (versions_of d a))).

Lemma foldr_max_spec n ns : foldr Z.max n ns ∈ n :: ns ∧ ∀ k, k ∈ n :: ns → k ≤ foldr Z.max n ns.
Proof.
  induction ns as [|m ns [IHin IHle]]; simpl.
  - split; [by left|]. by intros k ->%list_elem_of_singleton.
  - split.
    + destruct (Z.max_spec m (foldr Z.max n ns)) as [[_ ->]|[_ ->]].
      * apply elem_of_cons in IHin as [->|?]; [by left|]. by right; right.
      * by right; left.
    + intros k. rewrite !elem_of_cons. intros [->|[->|Hk]].
      * etrans; [apply IHle; by left|lia].
      * lia.
      * etrans; [apply IHle; by right|lia].
Qed.

Lemma next_version_dense d a :
  versions_dense d → next_version d a = Z.of_nat (length (versions_of d a)) + 1.
Proof.
  intros Hd. unfold next_version. specialize (Hd a). set (l := v_version <$> versions_of d a) in *.
  assert (length l = length (versions_of d a)) as Hlen by apply length_fmap.
  rewrite <-Hlen in *. clearbody l. destruct l as [|n ns]; [done|].
  destruct (foldr_max_spec n ns) as [Hin Hle].
  assert (∀ k, k ∈ n :: ns ↔ 1 ≤ k < 1 + Z.of_nat (length (n :: ns))) as Hel.
  { intros k. split; intros Hk.
    - apply elem_of_seqZ. by rewrite <-Hd.
    - rewrite Hd. by apply elem_of_seqZ. }
  apply Hel in Hin. specialize (Hle (Z.of_nat (length (n :: ns)))).
  rewrite Hel in Hle. simpl in *. lia.
Qed.

Lemma versions_of_insert_new d i v a :
  agent_versions d !! i = None →
  versions_of (set_versions (<[i := v]> (agent_versions d)) d) a
  ≡ₚ (if bool_decide (v_agent_id v = a) then [v] else []) ++ versions_of d a.
Proof.
  intros Hi. unfold versions_of, select. simpl. rewrite rows_insert_new by done.
  rewrite filter_cons. by destruct (bool_decide _).
Qed.

(** Changing a status keeps the numbers. *)
Lemma versions_of_status d i v s a :
  agent_versions d !! i = Some v →
  v_version <$> versions_of (set_versions (<[i := version_with s v]> (agent_versions d)) d) a
  ≡ₚ v_version <$> versions_of d a.
Proof.
  intros Hi. unfold versions_of, select. simpl. rewrite rows_insert, (rows_delete _ _ _ Hi).
  rewrite !filter_cons. simpl. by destruct (decide _).
Qed.

Lemma dense_status d i v s :
  versions_dense d → agent_versions d !! i = Some v →
  versions_dense (set_versions (<[i := version_with s v]> (agent_versions d)) d).
Proof.
  intros Hd Hi a. pose proof (versions_of_status d i v s a Hi) as Hp.
  rewrite Hp. rewrite <-(length_fmap v_version (versions_of (set_versions _ d) a)), Hp, length_fmap.
  apply Hd.
Qed.

(** The row a new version gets. *)
Definition new_version (t : txn) (d : db) (a : uuid) (spec : option jdict) (caps : list text)
    (cfg : option jdict) (ma mx : Z) (st : version_status) : version_row :=
  MkVersion (new_uuid t) a (next_version d a) (default ∅ spec) caps (default ∅ cfg) ma mx st (now t).

Lemma create_version_inv a spec caps cfg ma mx st t d v d' :
  create_version a spec caps cfg ma mx st t d = inr (v, d') →
  v = new_version t d a spec caps cfg ma mx st ∧
  d' = set_versions (<[new_uuid t := v]> (agent_versions d)) d ∧
  is_Some (agents d !! a) ∧ version_error v = None ∧ agent_versions d !! new_uuid t = None.
Proof.
  unfold create_version. rewrite bind_run. cbn [ask]. rewrite bind_run. cbn [get].
  destruct (agents d !! a) as [ag|] eqn:Ha; [|done]. fold (new_version t d a spec caps cfg ma mx st).
  cbv zeta. destruct (version_error _) eqn:He; [done|]. case_bool_decide; [done|].
  case_bool_decide as Hn; [done|]. intros [= <- <-].
  split; [done|]. split; [done|]. split; [eauto|]. split; [done|]. by apply eq_None_not_Some.
Qed.

Lemma dense_create a spec caps cfg ma mx st t d :
  versions_dense d → agent_versions d !! new_uuid t = None →
  let v := new_version t d a spec caps cfg ma mx st in
  versions_dense (set_versions (<[new_uuid t := v]> (agent_versions d)) d).
Proof.
  intros Hd Hn v b. pose proof (versions_of_insert_new d (new_uuid t) v b Hn) as Hp.
  rewrite Hp. case_bool_decide as Hb; [|apply Hd]. simpl in Hb. subst b. rewrite fmap_app, length_app. simpl.
  rewrite next_version_dense by done. rewrite (Hd a) at 1.
  rewrite Nat2Z.inj_succ, <-Z.add_1_r, seqZ_app by lia.
  rewrite Permutation_app_comm. simpl. f_equiv. unfold seqZ. simpl. by rewrite Z.add_comm.
Qed.

(** Version numbering. When every agent's versions are numbered 1 to n
    without gaps, cutting a version of an existing agent with valid limits
    and a fresh id never hits the uniqueness constraint, takes number n+1,
    and leaves the numbering of every agent gapless. *)
Theorem create_version_correct a spec caps cfg ma mx st t d :
  versions_dense d → is_Some (agents d !! a) → agent_versions d !! new_uuid t = None →
  1 ≤ ma ≤ int4_max → 1 ≤ mx ≤ int4_max → Z.of_nat (length (versions_of d a)) < int4_max →
  ∃ v d', create_version a spec caps cfg ma mx st t d = inr (v, d') ∧
    v_version v = Z.of_nat (length (versions_of d a)) + 1 ∧ v_agent_id v = a ∧ v_status v = st ∧
    agent_versions d' = <[new_uuid t := v]> (agent_versions d) ∧ versions_dense d'.
Proof.
  intros Hd [ag Ha] Hn Hma Hmx Hlt. set (v := new_version t d a spec caps cfg ma mx st).
  exists v, (set_versions (<[new_uuid t := v]> (agent_versions d)) d).
  pose proof (next_version_dense d a Hd) as Hnext.
  split; [|split; [done|split; [done|split; [done|split; [done|by apply dense_create]]]]].
  unfold create_version. rewrite bind_run. cbn [ask]. rewrite bind_run. cbn [get]. rewrite Ha.
  fold (new_version t d a spec caps cfg ma mx st). fold v. cbv zeta.
  assert (version_error v = None) as ->.
  { unfold version_error. simpl. rewrite Hnext. unfold int4_max in *.
    rewrite !(proj2 (Z.leb_le _ _)) by lia. done. }
  rewrite bool_decide_eq_false_2.
  { rewrite bool_decide_eq_false_2; [done|]. rewrite Hn. by intros [? ?]. }
  rewrite Exists_exists. intros (w & Hw & Heq). simpl in Heq.
  assert (v_version w ∈ v_version <$> versions_of d a) as Hin by (apply list_elem_of_fmap; eauto).
  rewrite (Hd a), elem_of_seqZ in Hin. lia.
Qed.

Lemma create_version_correct_witness :
  ∃ v d', create_version 20 None ["gpu"] None 3 300 VersionStatus.DRAFT (txn_at 5) ex_registry
            = inr (v, d') ∧ v_version v = 2 ∧ versions_dense d'.
Proof.
  assert (∀ a, versions_of ex_registry a = if decide (a = 20%N) then [ex_version] else []) as Hof.
  { intros a. unfold versions_of, ex_registry, select, rows. simpl. rewrite map_to_list_singleton.
    simpl. rewrite filter_cons. simpl. repeat case_decide; try done; by case_bool_decide; subst. }
  destruct (create_version_correct 20 None ["gpu"] None 3 300 VersionStatus.DRAFT (txn_at 5) ex_registry)
    as (v & d' & Hrun & Hv & _ & _ & _ & Hd).
  - intros a. rewrite Hof. case_decide; reflexivity.
  - exists ex_agent. reflexivity.
  - reflexivity.
  - vm_compute. split; discriminate.
  - vm_compute. split; discriminate.
  - rewrite Hof. reflexivity.
  - exists v, d'. rewrite Hof in Hv. split; [exact Hrun|]. split; [exact Hv|exact Hd].
Defined.
