(* ===== verification/Tools.v ===== *)
(** * Tools, grants, policies and audit (db/queries/tools.py, db/queries/audit.py) *)

From S2P Require Import Prelude PyStr Json States Authz Capability Policy Db Samples Claim Agents.

Definition tool_with (status : tool_status) (r : tool_row) : tool_row :=
  MkTool (tl_id r) (tl_tenant_id r) (tl_name r) (tl_description r) (tl_tool_type r) (tl_config r)
    status (tl_created_at r).

(** ** Tools *)

Definition create_tool (tenant_id : uuid) (name : text) (ty : tool_type) (config : option jdict)
    (description : option text) : M tool_row :=
  t ← ask; d ← get;
  let row := MkTool (new_uuid t) tenant_id name description ty (default ∅ config) ToolStatus.ACTIVE
               (now t) in
  if bool_decide (Exists (λ r, tl_tenant_id r = tenant_id ∧ tl_name r = name) (rows (tools d)))
  then raise (IntegrityError "uq_tools_tenant_name")
  else if bool_decide (is_Some (tools d !! new_uuid t)) then raise (IntegrityError "tools_pkey")
  else if bool_decide (tenants d !! tenant_id = None)
  then raise (IntegrityError "tools_tenant_id_fkey")
  else modify (set_tools (<[new_uuid t := row]> (tools d))) ;; mret row.

Definition get_tool (tool_id : uuid) : M (option tool_row) :=
  d ← get; mret (tools d !! tool_id).

Definition list_tools (tenant_id : uuid) : M (list tool_row) :=
  d ← get;
  mret (order_by (le_on String.le tl_name)
    (select (λ r, bool_decide (tl_tenant_id r = tenant_id)) (tools d))).

Definition set_tool_status (tool_id : uuid) (status : tool_status) : M (option tool_row) :=
  d ← get;
  match tools d !! tool_id with
  | None => mret None
  | Some r =>
      modify (set_tools (<[tool_id := tool_with status r]> (tools d))) ;;
      mret (Some (tool_with status r))
  end.

(** ** Grants *)

Definition grant_tool (agent_version_id tool_id : uuid) : M unit :=
  t ← ask; d ← get;
  if bool_decide (is_Some (agent_version_tool_grants d !! (agent_version_id, tool_id))) then mret tt
  else if bool_decide (agent_versions d !! agent_version_id = None)
  then raise (IntegrityError "agent_version_tool_grants_agent_version_id_fkey")
  else if bool_decide (tools d !! tool_id = None)
  then raise (IntegrityError "agent_version_tool_grants_tool_id_fkey")
  else modify (set_grants (<[(agent_version_id, tool_id) :=
                             MkGrant agent_version_id tool_id (now t)]> (agent_version_tool_grants d))).

(** [result.rowcount > 0]. *)
Definition revoke_grant (agent_version_id tool_id : uuid) : M bool :=
  d ← get;
  modify (set_grants (delete (agent_version_id, tool_id) (agent_version_tool_grants d))) ;;
  mret (bool_decide (is_Some (agent_version_tool_grants d !! (agent_version_id, tool_id)))).

Definition grants_of (d : db) (agent_version_id : uuid) : list grant_row :=
  select (λ g, bool_decide (gr_agent_version_id g = agent_version_id)) (agent_version_tool_grants d).

(** grants JOIN tools, the four selected columns. *)
Definition list_grants (agent_version_id : uuid) : M (list (uuid * text * tool_type * tool_status)) :=
  d ← get;
  mret ((λ r, (tl_id r, tl_name r, tl_tool_type r, tl_status r)) <$>
    order_by (le_on String.le tl_name)
      (omap (λ g, tools d !! gr_tool_id g) (grants_of d agent_version_id))).

(** ** The policy snapshot *)

Definition tool_ref (r : tool_row) : ToolRef :=
  MkToolRef (tl_id r) (tl_name r) (tl_tool_type r) (tl_status r) (tl_config r).

(** [tools_by_tenant.get(tenant, {})]: the loop over [tool_rows] that fills
    one tenant's dict. *)
Definition tools_by_tenant (d : db) (tenant_id : uuid) : gmap text ToolRef :=
  foldl (λ m r, <[tl_name r := tool_ref r]> m) ∅
    (select (λ r, bool_decide (tl_tenant_id r = tenant_id)) (tools d)).

(** [granted.get(version, ())]. *)
Definition granted_ids (d : db) (agent_version_id : uuid) : gset uuid :=
  list_to_set (gr_tool_id <$> grants_of d agent_version_id).

(** The snapshot is three SELECTs: the versions with their tenants, those
    tenants' tools, the grants.  None takes a lock, and under READ COMMITTED
    each sees what is committed when it runs: the tables of three moments. *)
Record moments := MkMoments {
  sees_versions : db;
  sees_tools : db;
  sees_grants : db;
}.

(** The three of them with no commit in between. *)
Definition at_once (d : db) : moments := MkMoments d d d.

Definition policy_of (ms : moments) (v : version_row) (tenant_id : uuid) : ToolPolicy :=
  MkToolPolicy (Some (v_id v)) (granted_ids (sees_grants ms) (v_id v))
    (tools_by_tenant (sees_tools ms) tenant_id)
    (bool_decide (v_status v = VersionStatus.DISABLED)).

(** versions JOIN agents, for one id. *)
Definition version_tenant (d : db) (i : uuid) : option (version_row * uuid) :=
  v ← agent_versions d !! i; a ← agents d !! v_agent_id v; Some (v, ag_tenant_id a).

Definition snapshot_policies (ms : moments) (agent_version_ids : list (option uuid))
    : gmap uuid ToolPolicy :=
  let unique_ids := remove_dups (omap id agent_version_ids) in
  list_to_map (omap (λ i, (λ '(v, te), (v_id v, policy_of ms v te))
                            <$> version_tenant (sees_versions ms) i) unique_ids).

(** ** The audit log *)

Definition record_audit (tenant_id : uuid) (action resource_type outcome : text)
    (resource_id : option uuid) (actor : text) (data : jdict) : M unit :=
  t ← ask;
  modify (λ d, set_audit (audit_events d ++
    [MkAudit (S (length (audit_events d))) tenant_id actor action resource_type resource_id outcome
       data (now t)]) d).

Definition audited (tenant_id : uuid) (action outcome : option text) (e : audit_row) : bool :=
  bool_decide (au_tenant_id e = tenant_id)
  && match action with Some a => bool_decide (au_action e = a) | None => true end
  && match outcome with Some o => bool_decide (au_outcome e = o) | None => true end.

Definition list_audit (tenant_id : uuid) (action outcome : option text) (limit : nat)
    : M (list audit_row) :=
  d ← get;
  mret (take limit (reverse (filter (λ e, audited tenant_id action outcome e = true)
                               (audit_events d)))).

(** ** Properties *)

(** Tool names are unique within a tenant, tools and versions are keyed by
    their id, grants by their two columns. *)
Record tools_ok (d : db) : Prop := {
  tk_ids : ∀ i r, tools d !! i = Some r → tl_id r = i;
  tk_names : ∀ i j ri rj, tools d !! i = Some ri → tools d !! j = Some rj →
    tl_tenant_id ri = tl_tenant_id rj → tl_name ri = tl_name rj → i = j;
  tk_grants : ∀ k g, agent_version_tool_grants d !! k = Some g →
    k = (gr_agent_version_id g, gr_tool_id g);
}.

Lemma fold_tools_lookup (l : list tool_row) (m : gmap text ToolRef) name :
  (∀ r1 r2, r1 ∈ l → r2 ∈ l → tl_name r1 = tl_name r2 → r1 = r2) →
  foldl (λ m r, <[tl_name r := tool_ref r]> m) m l !! name =
  match list_find (λ r, tl_name r = name) l with
  | Some (_, r) => Some (tool_ref r)
  | None => m !! name
  end.
Proof.
  revert m. induction l as [|r l IH]; intros m Hu; simpl; [done|].
  rewrite IH by (intros; apply Hu; by try right).
  destruct (decide (tl_name r = name)) as [<-|Hne].
  - destruct (list_find _ l) as [[k r']|] eqn:E.
    + apply list_find_Some in E as (Hk & Hn & _). f_equal. f_equal.
      apply Hu; [by right; eapply list_elem_of_lookup_2|by left|done].
    + by rewrite lookup_insert_eq.
  - destruct (list_find _ l) as [[k r']|] eqn:E; simpl; [done|].
    by rewrite lookup_insert_ne.
Qed.

Lemma tools_by_tenant_lookup d te name ref :
  tools_ok d →
  tools_by_tenant d te !! name = Some ref ↔
  ∃ i r, tools d !! i = Some r ∧ tl_tenant_id r = te ∧ tl_name r = name ∧ ref = tool_ref r.
Proof.
  intros Hok. unfold tools_by_tenant. set (l := select _ _).
  assert (∀ r, r ∈ l ↔ tl_tenant_id r = te ∧ ∃ i, tools d !! i = Some r) as Hl.
  { intros r. unfold l. by rewrite elem_of_select, bool_decide_eq_true. }
  rewrite fold_tools_lookup.
  2: { intros r1 r2 [Ht1 [i1 H1]]%Hl [Ht2 [i2 H2]]%Hl Hn.
       assert (i1 = i2) as -> by (eapply (tk_names _ Hok); eauto; congruence). congruence. }
  destruct (list_find _ l) as [[k r]|] eqn:E.
  - apply list_find_Some in E as (Hk & Hn & _).
    apply list_elem_of_lookup_2 in Hk. apply Hl in Hk as [Hte [i Hi]]. split.
    + intros [= <-]. eauto 10.
    + intros (j & r' & Hj & Hte' & Hn' & ->).
      assert (i = j) as -> by (eapply (tk_names _ Hok); eauto; congruence). congruence.
  - rewrite lookup_empty. split; [done|]. intros (j & r' & Hj & Hte' & Hn' & ->).
    apply list_find_None in E. rewrite Forall_forall in E. exfalso.
    apply (E r'); [apply Hl; eauto|done].
Qed.

Lemma granted_spec d v i :
  tools_ok d → i ∈ granted_ids d v ↔ is_Some (agent_version_tool_grants d !! (v, i)).
Proof.
  intros Hok. unfold granted_ids, grants_of. rewrite elem_of_list_to_set, list_elem_of_fmap.
  setoid_rewrite elem_of_select. setoid_rewrite bool_decide_eq_true. split.
  - intros (g & -> & <- & k & Hk). pose proof (tk_grants _ Hok _ _ Hk) as ->. eauto.
  - intros [g Hg]. pose proof (tk_grants _ Hok _ _ Hg) as [= -> ->]. eauto.
Qed.

Lemma version_tenant_some d i v te :
  version_tenant d i = Some (v, te) → agent_versions d !! i = Some v.
Proof.
  unfold version_tenant. intros (v' & Hv & H)%bind_Some. by apply bind_Some in H as (a & _ & [= <- _]).
Qed.

(** Versions are keyed by their id. *)
Definition versions_keyed (d : db) : Prop := ∀ i v, agent_versions d !! i = Some v → v_id v = i.

Lemma snapshot_lookup ms ids i v te :
  versions_keyed (sees_versions ms) → version_tenant (sees_versions ms) i = Some (v, te) →
  Some i ∈ ids → snapshot_policies ms ids !! i = Some (policy_of ms v te).
Proof.
  intros Hv Hi Hin. pose proof (version_tenant_some _ _ _ _ Hi) as Hvi. apply elem_of_list_to_map_1'.
  - intros p (j & _ & ([w te'] & Hj & [= Heq ->])%fmap_Some)%list_elem_of_omap.
    pose proof (version_tenant_some _ _ _ _ Hj) as Hw. pose proof (Hv _ _ Hw).
    assert (j = i) as -> by congruence. rewrite Hi in Hj. by simplify_eq.
  - apply list_elem_of_omap. exists i. split.
    + apply elem_of_remove_dups, list_elem_of_omap. by exists (Some i).
    + rewrite Hi. simpl. by rewrite (Hv _ _ Hvi).
Qed.

(** Every policy of a snapshot is some version's, under that version's id. *)
Lemma snapshot_inv ms ids i pol :
  versions_keyed (sees_versions ms) → snapshot_policies ms ids !! i = Some pol →
  ∃ v te, version_tenant (sees_versions ms) i = Some (v, te) ∧ v_id v = i ∧ pol = policy_of ms v te.
Proof.
  intros Hv Hp. apply elem_of_list_to_map_2, list_elem_of_omap in Hp as (j & _ & Hp).
  apply fmap_Some in Hp as ([v te] & Hj & Heq). injection Heq as -> ->.
  exists v, te. pose proof (Hv _ _ (version_tenant_some _ _ _ _ Hj)) as Hid. subst j. done.
Qed.

(** What a policy allows, moment by moment. *)
Lemma policy_allows ms i v te name :
  tools_ok (sees_tools ms) → tools_ok (sees_grants ms) → v_id v = i →
  allowed (authorize (policy_of ms v te) name) = true ↔
  v_status v ≠ VersionStatus.DISABLED ∧
  ∃ j r, tools (sees_tools ms) !! j = Some r ∧ tl_tenant_id r = te ∧ tl_name r = name ∧
         tl_status r = ToolStatus.ACTIVE ∧
         is_Some (agent_version_tool_grants (sees_grants ms) !! (i, j)).
Proof.
  intros Ht Hgr <-. rewrite authorize_allowed. simpl. rewrite bool_decide_eq_false. split.
  - intros (Hs & _ & ref & Href & Hst & Hg). split; [done|].
    apply tools_by_tenant_lookup in Href as (j & r & Hj & Hte & Hn & ->); [|done].
    exists j, r. split_and!; try done. apply granted_spec in Hg; [|done]. simpl in Hg.
    by rewrite (tk_ids _ Ht _ _ Hj) in Hg.
  - intros (Hs & j & r & Hj & Hte & Hn & Hst & Hg). split; [done|]. split; [done|].
    exists (tool_ref r). split; [|split; [done|]].
    + apply tools_by_tenant_lookup; [done|]. eauto 10.
    + apply granted_spec; [done|]. simpl. by rewrite (tk_ids _ Ht _ _ Hj).
Qed.

(** From tables to decisions. Under the policy a claim snapshots for a
    version of some tenant, a call to the tool called [name] is allowed
    exactly when the version was not disabled when the first SELECT saw it,
    that tenant had an active tool of that name at the second, and it was
    granted to that version at the third: never another tenant's tool, never
    one ungranted or disabled when it was looked at. *)
Theorem snapshot_decides ms ids i v te name :
  tools_ok (sees_tools ms) → tools_ok (sees_grants ms) → versions_keyed (sees_versions ms) →
  version_tenant (sees_versions ms) i = Some (v, te) → Some i ∈ ids →
  ∃ pol, snapshot_policies ms ids !! i = Some pol ∧
    (allowed (authorize pol name) = true ↔
       v_status v ≠ VersionStatus.DISABLED ∧
       ∃ j r, tools (sees_tools ms) !! j = Some r ∧ tl_tenant_id r = te ∧ tl_name r = name ∧
              tl_status r = ToolStatus.ACTIVE ∧
              is_Some (agent_version_tool_grants (sees_grants ms) !! (i, j))).
Proof.
  intros Ht Hg Hv Hi Hin. eexists. split; [by apply snapshot_lookup|].
  apply policy_allows; [done..|]. by eapply Hv, version_tenant_some.
Qed.

Lemma ex_tools_ok : tools_ok ex_registry.
Proof.
  assert (∀ i r, tools ex_registry !! i = Some r →
            tl_id r = i ∧ (i = 30%N ∧ tl_name r = "search" ∨ i = 31%N ∧ tl_name r = "shell")) as H.
  { unfold ex_registry. simpl. apply map_Forall_insert_2; [by auto|].
    apply map_Forall_singleton. by auto. }
  split.
  - intros i r Hr. by apply H in Hr as [? _].
  - intros i j ri rj Hi Hj _ Hn. apply H in Hi as [_ Hi], Hj as [_ Hj].
    destruct Hi as [[-> Hi]|[-> Hi]], Hj as [[-> Hj]|[-> Hj]]; try done; congruence.
  - unfold ex_registry. simpl. intros k g. rewrite lookup_singleton_Some. by intros [<- <-].
Qed.

Lemma ex_versions_keyed : versions_keyed ex_registry.
Proof. unfold versions_keyed, ex_registry. simpl. intros i v. rewrite lookup_singleton_Some. by intros [<- <-]. Qed.

Lemma snapshot_decides_witness :
  ∃ pol, snapshot_policies (at_once ex_registry) [Some 21%N; None] !! 21%N = Some pol ∧
    allowed (authorize pol "search") = true ∧ allowed (authorize pol "shell") = false.
Proof.
  assert (Some 21%N ∈ [Some 21%N; None]) as Hin by (by left).
  pose proof (λ name, snapshot_decides (at_once ex_registry) _ 21 ex_version 1 name
    ex_tools_ok ex_tools_ok ex_versions_keyed eq_refl Hin) as H.
  destruct (H "search") as (pol & Hp & Hyes). destruct (H "shell") as (pol2 & Hp2 & Hno).
  rewrite Hp in Hp2. injection Hp2 as <-. exists pol. split; [exact Hp|]. split.
  - apply Hyes. split; [discriminate|]. exists 30%N, (ex_tool 30 "search").
    split; [reflexivity|]. split; [reflexivity|]. split; [reflexivity|]. split; [reflexivity|].
    eexists. reflexivity.
  - apply not_true_is_false. intros Ha. apply Hno in Ha as (_ & j & r & Hj & _ & Hn & _ & Hg).
    unfold at_once, ex_registry in Hj, Hg. simpl in Hj, Hg.
    apply lookup_insert_Some in Hj as [[<- <-]|[_ Hj]]; [discriminate|].
    apply lookup_singleton_Some in Hj as [<- <-]. destruct Hg as [g Hg]. discriminate.
Defined.

(** The kill switch. Once a tool is disabled, every policy whose tools are
    read from then on refuses it, whatever is granted, and names the reason;
    enabling it again is the only way back. *)
Theorem disabled_tool_is_refused d t i r d1 res ms ids vi v :
  tools_ok d → tools d !! i = Some r →
  set_tool_status i ToolStatus.DISABLED t d = inr (res, d1) → sees_tools ms = d1 →
  versions_keyed (sees_versions ms) →
  version_tenant (sees_versions ms) vi = Some (v, tl_tenant_id r) → Some vi ∈ ids →
  ∃ pol, snapshot_policies ms ids !! vi = Some pol ∧ allowed (authorize pol (tl_name r)) = false ∧
    (v_status v ≠ VersionStatus.DISABLED →
       decision_reason (authorize pol (tl_name r)) = Some DenyReason.TOOL_DISABLED).
Proof.
  intros Hok Hr Hset Hms Hv Hvt Hin.
  unfold set_tool_status in Hset. rewrite bind_run in Hset. cbn [get] in Hset. rewrite Hr in Hset.
  injection Hset as <- <-.
  set (d1 := set_tools (<[i := tool_with ToolStatus.DISABLED r]> (tools d)) d) in *.
  assert (tools_ok d1) as Hok1.
  { assert (∀ j rj, tools d1 !! j = Some rj → ∃ r0, tools d !! j = Some r0 ∧ tl_id rj = tl_id r0 ∧
              tl_tenant_id rj = tl_tenant_id r0 ∧ tl_name rj = tl_name r0) as Hback.
    { intros j rj. simpl. rewrite lookup_insert_Some. intros [[<- <-]|[_ Hj]]; eauto. }
    split.
    - intros j rj Hj. destruct (Hback _ _ Hj) as (r0 & H0 & -> & _). by apply (tk_ids _ Hok).
    - intros j k rj rk Hj Hk. destruct (Hback _ _ Hj) as (r0 & H0 & _ & -> & ->).
      destruct (Hback _ _ Hk) as (r1 & H1 & _ & -> & ->). by apply (tk_names _ Hok).
    - apply Hok. }
  exists (policy_of ms v (tl_tenant_id r)). split; [by apply snapshot_lookup|].
  assert (tools_by_tenant d1 (tl_tenant_id r) !! tl_name r
          = Some (tool_ref (tool_with ToolStatus.DISABLED r))) as Hlook.
  { apply tools_by_tenant_lookup; [done|]. exists i, (tool_with ToolStatus.DISABLED r).
    simpl. by rewrite lookup_insert_eq. }
  unfold authorize. simpl. rewrite Hms, Hlook. simpl. case_bool_decide; by split.
Qed.

Lemma disabled_tool_is_refused_witness :
  ∃ res d1 pol,
    set_tool_status 30 ToolStatus.DISABLED (txn_at 5) ex_registry = inr (res, d1) ∧
    snapshot_policies (MkMoments ex_registry d1 ex_registry) [Some 21%N] !! 21%N = Some pol ∧
    allowed (authorize pol "search") = false.
Proof.
  destruct (set_tool_status 30 ToolStatus.DISABLED (txn_at 5) ex_registry) as [|[res d1]] eqn:E1.
  { discriminate. }
  destruct (disabled_tool_is_refused ex_registry (txn_at 5) 30 (ex_tool 30 "search") d1 res
              (MkMoments ex_registry d1 ex_registry) [Some 21%N] 21 ex_version ex_tools_ok)
    as (pol & Hp & Ha & _).
  - reflexivity.
  - exact E1.
  - reflexivity.
  - exact ex_versions_keyed.
  - reflexivity.
  - by left.
  - exists res, d1, pol. split; [reflexivity|]. split; [exact Hp|exact Ha].
Defined.

(** Three moments can make a policy no single moment had: the tool is disabled
    between the second SELECT and the grant the third one sees. *)
Definition ex_ungranted : db := set_grants ∅ ex_registry.
Definition ex_granted_disabled : db :=
  set_tools (<[30%N := tool_with ToolStatus.DISABLED (ex_tool 30 "search")]> (tools ex_registry))
    ex_registry.

Lemma snapshot_mixes_moments :
  let allows ms := (λ pol, allowed (authorize pol "search")) <$> snapshot_policies ms [Some 21%N] !! 21%N in
  allows (MkMoments ex_ungranted ex_ungranted ex_granted_disabled) = Some true ∧
  allows (at_once ex_ungranted) = Some false ∧ allows (at_once ex_granted_disabled) = Some false.
Proof. split_and!; vm_compute; reflexivity. Qed.
