(* ===== verification/Tracing.v ===== *)
(** * The span link across the queue (obs/tracing.py)

    A submission stores the identity of its span in the payload, the worker
    turns it back into a link when the attempt starts.  Spans themselves are
    OpenTelemetry's: of a [SpanContext] only its two numbers matter, and
    [valid] is its [is_valid]. *)

From S2P Require Import Prelude PyStr Codec Json Errors Tasks.
#[local] Open Scope Z_scope.

(** ** The carrier *)

Record span_context := MkSpanContext { sc_trace_id : Z; sc_span_id : Z }.

(** The range of identifiers the W3C trace context allows, an instance of
    [valid] for the examples. *)
Definition w3c_valid (ctx : span_context) : bool :=
  (0 <? sc_trace_id ctx) && (sc_trace_id ctx <? 2 ^ 128)
  && (0 <? sc_span_id ctx) && (sc_span_id ctx <? 2 ^ 64).

(** [carrier_for_current_span], with the context of the current span. *)
Definition carrier_for_current_span (valid : span_context → bool) (ctx : span_context)
    : option jdict :=
  if valid ctx then
    Some (<["trace_id" := JStr (format_hex 32 (sc_trace_id ctx))]>
            {[ "span_id" := JStr (format_hex 16 (sc_span_id ctx)) ]})
  else None.

(** The payload with the trace carrier added for the span link. *)
Definition traced (payload : jdict) (carrier : option jdict) : jdict :=
  match carrier with
  | Some c => if bool_decide (c = ∅) then payload
              else <["_trace" := jobj c]> payload
  | None => payload
  end.

(** [bool(v)], [k in v] and [v[k]] on a decoded JSON value. *)
Definition json_truthy (v : json) : bool :=
  match v with
  | JNull => false
  | JBool b => b
  | JNum n => negb (n =? 0)
  | JStr s => truthy s
  | JArr l => negb (bool_decide (l = []))
  | JObj l => negb (bool_decide (l = []))
  end.

Definition type_error (message : text) : py_exc := foreign "TypeError" [] message.

Definition json_in (k : text) (v : json) : py_exc + bool :=
  match v with
  | JObj l => inr (bool_decide (k ∈ l.*1))
  | JArr l => inr (bool_decide (JStr k ∈ l))
  | JStr s => inr (match String.index 0 k s with Some _ => true | None => false end)
  | _ => inl (type_error "argument is not iterable")
  end.

Definition json_get (k : text) (v : json) : py_exc + json :=
  match v with
  | JObj l =>
      match list_find (λ kv, kv.1 = k) l with
      | Some (_, (_, x)) => inr x
      | None => inl (foreign "KeyError" [] (repr k))
      end
  | _ => inl (type_error "indices must be integers")
  end.

(** [int(v, 16)] for any value: a number with an explicit base is a
    TypeError, a malformed string a ValueError ([None]). *)
Definition json_int16 (v : json) : py_exc + option Z :=
  match v with
  | JStr s => inr (int16 s)
  | _ => inl (type_error "int() can't convert non-string with explicit base")
  end.

(** [_link_from_carrier]: at most one link.  ValueError and KeyError are
    caught, TypeError is not. *)
Definition link_from_carrier (valid : span_context → bool) (carrier : option json)
    : py_exc + list span_context :=
  match carrier with
  | None => inr []
  | Some v =>
      if negb (json_truthy v) then inr []
      else
        match json_in "trace_id" v with
        | inl e => inl e
        | inr false => inr []
        | inr true =>
            match json_in "span_id" v with
            | inl e => inl e
            | inr false => inr []
            | inr true =>
                match json_get "trace_id" v, json_get "span_id" v with
                | inr tv, inr sv =>
                    match json_int16 tv with
                    | inl e => inl e
                    | inr None => inr []
                    | inr (Some t) =>
                        match json_int16 sv with
                        | inl e => inl e
                        | inr None => inr []
                        | inr (Some s) =>
                            let ctx := MkSpanContext t s in
                            if valid ctx then inr [ctx] else inr []
                        end
                    end
                | inl e, _ | _, inl e => inl e
                end
            end
        end
  end.

(** What the worker links an attempt to: [row["payload"].get("_trace")]. *)
Definition link_of_payload (valid : span_context → bool) (payload : jdict)
    : py_exc + list span_context :=
  link_from_carrier valid (payload !! "_trace").

(** ** The object [jobj] makes reads back as the dict it was made from *)

Lemma jobj_perm (d : jdict) : order_by (le_on String.le fst) (map_to_list d) ≡ₚ map_to_list d.
Proof. apply order_by_perm. Qed.

Lemma json_in_jobj k (d : jdict) : json_in k (jobj d) = inr (bool_decide (is_Some (d !! k))).
Proof.
  simpl. f_equal. apply bool_decide_ext. rewrite jobj_perm, list_elem_of_fmap. split.
  - intros ([k' v] & -> & Hv%elem_of_map_to_list). by eexists.
  - intros [v Hv%elem_of_map_to_list]. by exists (k, v).
Qed.

Lemma json_get_jobj k (d : jdict) v : d !! k = Some v → json_get k (jobj d) = inr v.
Proof.
  intros Hv. simpl. destruct (list_find _ _) as [[n [k' v']]|] eqn:E.
  - apply list_find_Some in E as (Hn & Hk & _). simpl in Hk. subst k'.
    apply list_elem_of_lookup_2 in Hn. rewrite jobj_perm, elem_of_map_to_list in Hn. congruence.
  - apply list_find_None in E. rewrite Forall_forall in E.
    destruct (E (k, v)); [|done]. by rewrite jobj_perm, elem_of_map_to_list.
Qed.

Lemma jobj_truthy (d : jdict) : d ≠ ∅ → json_truthy (jobj d) = true.
Proof.
  intros Hd. simpl. rewrite bool_decide_eq_false_2; [done|]. intros E.
  pose proof (jobj_perm d) as Hp. rewrite E in Hp.
  apply Permutation_nil in Hp. by apply map_to_list_empty_iff in Hp.
Qed.

(** ** Across the queue *)

Lemma carrier_valid valid ctx c : carrier_for_current_span valid ctx = Some c →
  valid ctx = true ∧ c ≠ ∅ ∧ c !! "trace_id" = Some (JStr (format_hex 32 (sc_trace_id ctx)))
  ∧ c !! "span_id" = Some (JStr (format_hex 16 (sc_span_id ctx))).
Proof.
  unfold carrier_for_current_span. destruct (valid ctx); [|done]. intros [= <-].
  split; [done|]. split; [|split].
  - apply insert_non_empty.
  - apply lookup_insert_eq.
  - rewrite lookup_insert_ne by done. apply lookup_insert_eq.
Qed.

Lemma link_of_carrier valid ctx c : carrier_for_current_span valid ctx = Some c →
  link_from_carrier valid (Some (jobj c)) = inr [ctx].
Proof.
  intros (Hv & Hne & Ht & Hs)%carrier_valid. unfold link_from_carrier.
  rewrite jobj_truthy by done. rewrite !json_in_jobj, !bool_decide_eq_true_2 by by eexists.
  rewrite (json_get_jobj _ _ _ Ht), (json_get_jobj _ _ _ Hs). cbn [json_int16 negb].
  rewrite !int16_format. destruct ctx as [t s]. cbn [sc_trace_id sc_span_id]. by rewrite Hv.
Qed.

Lemma without_trace_traced p c : without_trace (traced p c) = without_trace p.
Proof.
  unfold traced, without_trace. destruct c as [c|]; [|done].
  case_bool_decide; [done|]. apply delete_insert_eq.
Qed.

(** C35: the span context a submission stores in the payload is the one the
    worker links the attempt to, digit for digit, whatever [_trace] the
    client sent; without an active span the client's own value is what the
    worker reads.  In both cases the adapter's input, the payload without
    [_trace], is the client's. *)
Theorem link_round_trip valid ctx p :
  let p' := traced p (carrier_for_current_span valid ctx) in
  link_of_payload valid p' = (if valid ctx then inr [ctx] else link_of_payload valid p)
  ∧ without_trace p' = without_trace p.
Proof.
  intros p'. split; [|apply without_trace_traced]. subst p'.
  destruct (carrier_for_current_span valid ctx) as [c|] eqn:E.
  - pose proof (carrier_valid _ _ _ E) as (-> & Hne & _).
    unfold traced. rewrite bool_decide_eq_false_2 by done.
    unfold link_of_payload. rewrite lookup_insert_eq. by apply link_of_carrier.
  - unfold carrier_for_current_span in E. by destruct (valid ctx).
Qed.

(** A carrier a client wrote itself can make the worker's span fail: the
    TypeError of [1 in 5] is not among the exceptions that are caught. *)
Lemma link_can_raise valid : ∃ e, link_of_payload valid {[ "_trace" := JNum 5 ]} = inl e.
Proof. by eexists. Qed.

(** What is an object of strings never fails. *)
Lemma link_of_strings valid (d : gmap text text) :
  ∃ links, link_from_carrier valid (Some (jobj (JStr <$> d))) = inr links.
Proof.
  unfold link_from_carrier. destruct (json_truthy _); [|by eexists].
  rewrite !json_in_jobj. cbn [negb]. case_bool_decide as Ht; [|by eexists].
  case_bool_decide as Hs; [|by eexists].
  destruct Ht as [tv Ht], Hs as [sv Hs].
  rewrite (json_get_jobj _ _ _ Ht), (json_get_jobj _ _ _ Hs).
  apply lookup_fmap_Some in Ht as (x & <- & _), Hs as (y & <- & _). cbn [json_int16].
  destruct (int16 x), (int16 y); try by eexists. destruct (valid _); by eexists.
Qed.
