(* ===== verification/Worker.v ===== *)
(** * The worker (worker/loop.py, agent/tools.py)

    The worker's state and methods.  One attempt is a coroutine: its phase
    says at which [await] it stands, its flags are the two events it shares
    with its renewal coroutine.  Each transaction a method opens is a
    computation in [M]; what happens between two transactions is a function
    on the worker's own state.  WorkerRun.v composes them into the runs of a
    worker next to the rest of the system.

    Counters are kept as the list of increments.  Histograms of durations,
    spans and log lines are not modelled, nor is [Exception] raised by the
    database driver itself (a lost connection); the exceptions a query can
    raise are those of [exn]. *)

From ITree Require Import ITree.
From S2P Require Import Prelude PyStr Json States Errors Retry Policy Capability Authz Db Config.
From S2P Require Import Adapters Samples Transitions Completion Lease Workers Claim Tasks Agents.
From S2P Require Import Tools Tracing.
#[local] Open Scope Z_scope.

(** ** Configuration *)

Record worker_config := MkWorkerConfig {
  cf_settings : Settings;
  cf_registry : AdapterRegistry;
  cf_capacity : Z;
  cf_policy : ClaimPolicy;
  cf_worker_id : text;
  cf_hostname : text;
  cf_pid : Z;
  cf_capabilities : list text;
  cf_span_valid : span_context → bool;  (** OpenTelemetry's [SpanContext.is_valid] *)
}.

(** [Worker.__init__]: the capability list, normalised or from the settings. *)
Definition init_capabilities (caps : option (list text)) (s : Settings) : list text :=
  match caps with
  | Some cs => order_by String.le (remove_dups
      (norm1 <$> filter (λ c, truthy (strip c) = true) cs))
  | None => capabilities s
  end.

(** ** State *)

(** What [_execute] reports: [("succeeded", result)] or [("failed", exc)]. *)
Inductive exec_outcome := Succeeded (result : jdict) | Failed (exc : py_exc).

Definition outcome_name (o : exec_outcome) : text :=
  match o with Succeeded _ => "succeeded" | Failed _ => "failed" end.

(** Where an attempt's coroutine stands. *)
Inductive phase :=
  | Created
  | Executing (run : adapter_run)
  | Deciding (name : text) (request : jdict) (k : py_exc + jdict → adapter_run)
  | Auditing (name : text) (k : py_exc + jdict → adapter_run)
  | Invoking (tool : ToolRef) (request : jdict) (k : py_exc + jdict → adapter_run)
  | Reporting (tool : ToolRef) (answer : py_exc + jdict) (k : py_exc + jdict → adapter_run)
  | Joining (o : exec_outcome)
  | Finalising (o : exec_outcome)
  | Rejected (o : exec_outcome) (r : option Rejection.reason)
  | Unwinding
  | Ended.

(** The renewal coroutine: asleep, inside its transaction, over (or not yet
    started), or dead of an exception its owner will see. *)
Inductive renewal_phase := Asleep | Renewing | Returned | RenewalRaised.

Record coroutine := MkCoroutine {
  co_row : task_row;
  co_policy : ToolPolicy;
  co_cancelled : bool;
  co_stop : bool;
  co_renewal : renewal_phase;
  co_phase : phase;
}.

Definition co_with (c : coroutine) (p : phase) : coroutine :=
  MkCoroutine (co_row c) (co_policy c) (co_cancelled c) (co_stop c) (co_renewal c) p.
Definition co_with_renewal (c : coroutine) (cancelled : bool) (r : renewal_phase) : coroutine :=
  MkCoroutine (co_row c) (co_policy c) cancelled (co_stop c) r (co_phase c).
(** [finally: stop_renewal.set()]. *)
Definition co_stopped (c : coroutine) (p : phase) : coroutine :=
  MkCoroutine (co_row c) (co_policy c) (co_cancelled c) true (co_renewal c) p.

(** What the process counts and observes; the durations it reads off its own
    clock are left out. *)
Inductive metric :=
  | TasksRetried (task_type : text) (c : failure_class)
  | TaskAttemptsFinished (task_type outcome : text)
  | TasksTerminal (task_type state : text)
  | ToolCalls (tool decision : text)
  | ToolAccessDenied (reason : text)
  | StaleWritesRejected (rejection : text)
  | WorkersSelfFenced
  | ClaimDuration
  | ClaimBatch (n : nat)
  | QueueWait (task_type : text) (us : Z)
  | ExecutionDuration (task_type outcome : text).

(** What the coroutines of one worker share. *)
Record shared := MkShared {
  sh_owned : list (uuid * Z);     (* the dict _owned, in insertion order *)
  sh_metrics : list metric;
  sh_rng : retry.Rng;
}.

(** [self._owned[i] = a] and [self._owned.pop(i, None)]. *)
Definition set_owned (i : uuid) (a : Z) (l : list (uuid * Z)) : list (uuid * Z) :=
  if bool_decide (i ∈ l.*1)
  then (λ '(j, b), (j, if bool_decide (j = i) then a else b)) <$> l
  else l ++ [(i, a)].
Definition pop_owned (i : uuid) (l : list (uuid * Z)) : list (uuid * Z) :=
  filter (λ '(j, _), j ≠ i) l.

Definition sh_own (i : uuid) (a : Z) (s : shared) : shared :=
  MkShared (set_owned i a (sh_owned s)) (sh_metrics s) (sh_rng s).
Definition sh_disown (i : uuid) (s : shared) : shared :=
  MkShared (pop_owned i (sh_owned s)) (sh_metrics s) (sh_rng s).
Definition sh_count (ms : list metric) (s : shared) : shared :=
  MkShared (sh_owned s) (sh_metrics s ++ ms) (sh_rng s).
Definition sh_reseed (r : retry.Rng) (s : shared) : shared :=
  MkShared (sh_owned s) (sh_metrics s) r.

(** Where [run_forever] stands. *)
Inductive main_phase :=
  | Registering | Looping | Claiming | Polling
  | Draining | FencedExit | Grace | Gathering | HandingBack (todo : list (uuid * Z))
  | SigningOff | Exited.

Record worker := MkWorkerState {
  wk_main : main_phase;
  wk_stopping : bool;
  wk_fenced : bool;
  wk_last_heartbeat : option Q;   (* None: float("-inf") *)
  wk_inflight : list coroutine;
  wk_shared : shared;
}.

Definition new_worker (rng : retry.Rng) : worker :=
  MkWorkerState Registering false false None [] (MkShared [] [] rng).

Definition wk_goto (m : main_phase) (w : worker) : worker :=
  MkWorkerState m (wk_stopping w) (wk_fenced w) (wk_last_heartbeat w) (wk_inflight w) (wk_shared w).
(** [stop()]. *)
Definition stop (w : worker) : worker :=
  MkWorkerState (wk_main w) true (wk_fenced w) (wk_last_heartbeat w) (wk_inflight w) (wk_shared w).
Definition wk_with (cs : list coroutine) (s : shared) (w : worker) : worker :=
  MkWorkerState (wk_main w) (wk_stopping w) (wk_fenced w) (wk_last_heartbeat w) cs s.

(** ** Registering, beating, claiming *)

Definition register_self (cf : worker_config) : M worker_row :=
  register_worker (cf_worker_id cf) (cf_hostname cf) (cf_pid cf) (cf_capacity cf)
    (cf_capabilities cf).

(** [_maybe_heartbeat]: due unless the last beat is younger than the interval. *)
Definition heartbeat_due (cf : worker_config) (mono : Q) (w : worker) : bool :=
  match wk_last_heartbeat w with
  | None => true
  | Some l => Qle_bool (inject_Z (heartbeat_interval_s (cf_settings cf))) (mono - l)%Q
  end.

Definition beat (mono : Q) (w : worker) : worker :=
  MkWorkerState (wk_main w) (wk_stopping w) (wk_fenced w) (Some mono) (wk_inflight w) (wk_shared w).

Definition after_heartbeat (alive : bool) (w : worker) : worker :=
  if alive then w
  else MkWorkerState (wk_main w) true true (wk_last_heartbeat w) (wk_inflight w)
         (sh_count [WorkersSelfFenced] (wk_shared w)).

(** [free = self.capacity - len(self._inflight)], then the limit of the claim. *)
Definition free_slots (cf : worker_config) (w : worker) : Z :=
  cf_capacity cf - Z.of_nat (length (wk_inflight w)).
Definition claim_limit (cf : worker_config) (w : worker) : Z :=
  Z.min (free_slots cf w) (claim_batch_size (cf_settings cf)).

(** The one transaction of [_claim_and_dispatch]: the claim, then the policy
    snapshot, whose three SELECTs see the tables of [ms]. *)
Definition snapshot_claimed (ms : moments) (claimed : list task_row)
    : list task_row * gmap uuid ToolPolicy :=
  (claimed, snapshot_policies ms ((λ r : task_row, t_agent_version_id r) <$> claimed)).

Definition claim_and_snapshot (cf : worker_config) (ms : moments) (limit : Z)
    : M (list task_row * gmap uuid ToolPolicy) :=
  claimed ← claim_tasks (cf_worker_id cf) limit (lease_ttl_s (cf_settings cf)) (cf_policy cf)
              (cf_capabilities cf);
  mret (snapshot_claimed ms claimed).

(** The end of it, when other claims ran in between. *)
Definition grant_and_snapshot (cf : worker_config) (ms : moments) (ids : list uuid)
    : M (list task_row * gmap uuid ToolPolicy) :=
  claimed ← grant_claimed (cf_worker_id cf) (lease_ttl_s (cf_settings cf)) ids;
  mret (snapshot_claimed ms claimed).

(** [policies.get(row["agent_version_id"], UNGOVERNED)]. *)
Definition policy_for (policies : gmap uuid ToolPolicy) (row : task_row) : ToolPolicy :=
  match t_agent_version_id row with
  | Some v => default UNGOVERNED (policies !! v)
  | None => UNGOVERNED
  end.

Definition new_coroutine (policies : gmap uuid ToolPolicy) (row : task_row) : coroutine :=
  MkCoroutine row (policy_for policies row) false false Returned Created.

Definition queue_wait (row : task_row) : metric :=
  QueueWait (t_task_type row) (Z.max 0 (t_updated_at row - t_available_at row)).

Definition dispatch (claimed : list task_row) (policies : gmap uuid ToolPolicy) (w : worker)
    : worker :=
  wk_with (wk_inflight w ++ (new_coroutine policies <$> claimed))
    (sh_count (ClaimDuration :: ClaimBatch (length claimed) :: (queue_wait <$> claimed)) (wk_shared w)) w.

Definition is_done (c : coroutine) : bool :=
  match co_phase c with Ended => true | _ => false end.

(** [_harvest]: drop the finished coroutines. *)
Definition harvest (w : worker) : worker :=
  wk_with (filter (λ c, is_done c = false) (wk_inflight w)) (wk_shared w) w.

(** ** One attempt *)

(** [_run_attempt_inner] up to the first step of the adapter: ownership is
    noted and the renewal coroutine started. *)
Definition start_attempt (cf : worker_config) (c : coroutine) (s : shared) : coroutine * shared :=
  let row := co_row c in
  let c := co_with_renewal c (co_cancelled c) Asleep in
  (match get_adapter (cf_registry cf) (t_task_type row) with
   | inr adapter => co_with c (Executing (adapter (without_trace (t_payload row))))
   | inl exc => co_stopped c (Joining (Failed exc))
   end,
   sh_own (t_id row) (t_attempt row) s).

(** How [adapter.run] ended. *)
Definition adapter_outcome (x : py_exc + jdict) : exec_outcome :=
  match x with inl exc => Failed exc | inr result => Succeeded result end.

(** [f"{type(exc).__name__}: {exc}"]. *)
Definition exc_message (e : py_exc) : text := exc_name e +:+ ": " +:+ exc_text e.

(** *** Tool calls ([ToolAccess.call] with the callbacks of [_tool_access]) *)

Definition deny_text (dec : AuthzDecision) : text :=
  match decision_reason dec with Some r => DenyReason.value r | None => "denied" end.

Definition decision_metrics (name : text) (dec : AuthzDecision) : list metric :=
  if allowed dec then [ToolCalls name "allowed"]
  else [ToolCalls name "denied"; ToolAccessDenied (deny_text dec)].

(** [on_decision]: the entry on the task's timeline. *)
Definition on_decision (cf : worker_config) (row : task_row) (name : text) (dec : AuthzDecision)
    : M unit :=
  if allowed dec then
    record_event (t_id row) EventType.TOOL_ACCESS_ALLOWED (Some (t_attempt row))
      (Some (cf_worker_id cf)) {[ "tool" := JStr name ]}
  else
    record_event (t_id row) EventType.TOOL_ACCESS_DENIED (Some (t_attempt row))
      (Some (cf_worker_id cf)) {[ "tool" := JStr name; "reason" := JStr (deny_text dec) ]}.

(** The audit record of a denial, in a transaction of its own. *)
Definition audit_denial (row : task_row) (policy : ToolPolicy) (name : text) : M unit :=
  record_audit (t_tenant_id row) "TOOL_ACCESS_DENIED" "task" "DENIED" (Some (t_id row))
    ("agent_version:" +:+ match agent_version_id policy with
                          | Some v => uuid_str v | None => "None" end)
    {[ "tool" := JStr name; "reason" := JStr (deny_text (authorize policy name));
       "attempt" := JNum (t_attempt row) ]}.

Definition permission_denied (policy : ToolPolicy) (name : text) : py_exc :=
  PermissionDenied ("agent is not permitted to use tool " +:+ repr name +:+ " ("
    +:+ deny_text (authorize policy name) +:+ ")") None.

(** [on_executed]. *)
Definition on_executed (cf : worker_config) (row : task_row) (tool : ToolRef)
    (answer : py_exc + jdict) : M unit :=
  record_event (t_id row)
    (match answer with inr _ => EventType.TOOL_EXECUTED | inl _ => EventType.TOOL_EXECUTION_FAILED end)
    (Some (t_attempt row)) (Some (cf_worker_id cf))
    {[ "tool" := JStr (ref_name tool);
       "error" := match answer with inr _ => JNull | inl e => JStr (exc_message e) end ]}.

(** [simulated_invoker], the default: it echoes the request. *)
Definition simulated_invoker (tool : ToolRef) (request : jdict) : py_exc + jdict :=
  inr {[ "tool" := JStr (ref_name tool); "type" := JStr (ToolType.value (ref_tool_type tool));
         "request" := jobj request ]}.

(** *** Renewal ([_renew_until_stopped]) *)

Definition renew (cf : worker_config) (row : task_row) : M (option renewal) :=
  renew_lease (t_id row) (cf_worker_id cf) (t_attempt row) (lease_ttl_s (cf_settings cf)).

Definition after_renewal (res : option renewal) (c : coroutine) : coroutine :=
  match res with
  | None => co_with_renewal c true Returned
  | Some rn => co_with_renewal c (co_cancelled c || rn_cancel_requested rn) Asleep
  end.

(** *** Finalising ([_finalize]) *)

Definition failure_class_of (o : exec_outcome) : failure_class :=
  match o with Succeeded _ => FailureClass.UNKNOWN | Failed e => classify e end.

Definition retry_decision (o : exec_outcome) (attempt max_attempts : Z) (rng : retry.Rng)
    : option retry.RetryDecision * retry.Rng :=
  match o with
  | Succeeded _ => (None, rng)
  | Failed e =>
      let '(dec, rng) := retry.decide (classify e) attempt max_attempts (retry_after_of e) rng in
      (Some dec, rng)
  end.

(** Which of the four endings; a requested cancellation comes first. *)
Definition finalize_choice (o : exec_outcome) (cancel_requested : bool)
    (decision : option retry.RetryDecision) : completion :=
  if cancel_requested then CCancelled
  else match o with
  | Succeeded result => CSuccess result
  | Failed e =>
      let error_class := FailureClass.value (failure_class_of o) in
      match decision with
      | Some dec =>
          if retry.should_retry dec then CRetry error_class (exc_message e) (retry.delay_s dec)
          else CFailed error_class (exc_message e)
      | None => CFailed error_class (exc_message e)
      end
  end.

(** [_record_outcome]. *)
Definition record_outcome (task_type : text) (o : exec_outcome) (cancel_requested : bool)
    (decision : option retry.RetryDecision) : list metric :=
  let final (st : text) := [TaskAttemptsFinished task_type st; TasksTerminal task_type st] in
  if cancel_requested then final "CANCELLED"
  else match o with
  | Succeeded _ => final "SUCCEEDED"
  | Failed _ =>
      match decision with
      | Some dec =>
          if retry.should_retry dec
          then [TasksRetried task_type (failure_class_of o); TaskAttemptsFinished task_type "FAILED"]
          else final "FAILED"
      | None => final "FAILED"
      end
  end.

Definition rejection_text (r : option Rejection.reason) : text :=
  match r with Some r => Rejection.value r | None => "unknown" end.

(** The transaction of [_finalize], and what follows it. *)
Definition finalize (cf : worker_config) (c : coroutine) (o : exec_outcome)
    (decision : option retry.RetryDecision) : M TransitionResult :=
  run_completion (finalize_choice o (co_cancelled c) decision) (t_id (co_row c))
    (t_attempt (co_row c)) (cf_worker_id cf).

Definition after_finalize (c : coroutine) (o : exec_outcome)
    (decision : option retry.RetryDecision) (res : TransitionResult) (s : shared)
    : coroutine * shared :=
  if applied res then
    (co_with c Ended,
     sh_disown (t_id (co_row c))
       (sh_count (record_outcome (t_task_type (co_row c)) o (co_cancelled c) decision) s))
  else (co_with c (Rejected o (rejection res)),
        sh_count [StaleWritesRejected (rejection_text (rejection res))] s).

Definition stale_event (cf : worker_config) (row : task_row) (o : exec_outcome)
    (r : option Rejection.reason) : M unit :=
  record_event (t_id row) EventType.STALE_WRITE_REJECTED (Some (t_attempt row))
    (Some (cf_worker_id cf))
    {[ "operation" := JStr (outcome_name o); "rejection" := JStr (rejection_text r) ]}.

(** ** Draining *)

Definition abandon (cf : worker_config) (i : uuid) (attempt : Z) : M TransitionResult :=
  complete_abandoned i attempt (cf_worker_id cf) "worker_shutdown".

(** [task.cancel()]: CancelledError at the [await] the coroutine stands at.
    Inside the adapter it runs the [finally] that stops the renewal and skips
    finalisation; inside finalisation it drops the ownership entry. *)
Definition cancel_coroutine (c : coroutine) (s : shared) : coroutine * shared :=
  match co_phase c with
  | Created => (co_with c Ended, s)
  | Finalising _ | Rejected _ _ => (co_with c Ended, sh_disown (t_id (co_row c)) s)
  | Ended => (c, s)
  | _ => (co_stopped c Unwinding, s)
  end.

Fixpoint cancel_all (cs : list coroutine) (s : shared) : list coroutine * shared :=
  match cs with
  | [] => ([], s)
  | c :: cs =>
      let '(c, s) := cancel_coroutine c s in
      let '(cs, s) := cancel_all cs s in (c :: cs, s)
  end.

Definition cancel_inflight (w : worker) : worker :=
  let '(cs, s) := cancel_all (wk_inflight w) (wk_shared w) in wk_with cs s w.

(** [self._owned.clear()]. *)
Definition clear_owned (w : worker) : worker :=
  wk_with (wk_inflight w) (MkShared [] (sh_metrics (wk_shared w)) (sh_rng (wk_shared w))) w.
