(* ===== verification/ToolContext.v ===== *)
(** * Which attempt a tool call belongs to (agent/tools.py)

    Adapters reach the tool gateway through a context variable.  A context
    belongs to one asyncio task; a new task starts with a copy of its
    creator's.  [rt_step] lets the worker dispatch attempts, bind and unbind
    around their adapters, and lets any code of an attempt create further
    tasks, in any order.  What WorkerRun takes for granted, that a coroutine
    decides its calls by its own policy, is [context_isolated] here. *)

From S2P Require Import Prelude PyStr Json States Errors Retry Policy Capability Authz Db Config.
From S2P Require Import Adapters Samples Transitions Completion Lease Workers Claim Reap Tasks.
From S2P Require Import Agents Tools Tracing Worker.
#[local] Open Scope Z_scope.

(** [ToolAccess]: the policy, and the row its callbacks close over. *)
Record ToolAccess := MkToolAccess {
  acc_policy : ToolPolicy;
  acc_row : task_row;
}.

Definition tool_access (c : coroutine) : ToolAccess := MkToolAccess (co_policy c) (co_row c).

(** The value of [_TOOL_ACCESS] in the context of each asyncio task. *)
Abbreviation contexts := (gmap nat (option ToolAccess)).

(** A [contextvars.Token]: the value before the [set], and its context. *)
Record token := MkToken {
  tk_old : option ToolAccess;
  tk_context : nat;
}.

Definition current (n : nat) (cs : contexts) : option ToolAccess := mjoin (cs !! n).

Definition bind (n : nat) (access : ToolAccess) (cs : contexts) : token * contexts :=
  (MkToken (current n cs) n, <[n := Some access]> cs).

(** [reset] raises ValueError in a context the token is not of. *)
Definition unbind (n : nat) (tok : token) (cs : contexts) : option contexts :=
  if bool_decide (tk_context tok = n) then Some (<[n := tk_old tok]> cs) else None.

(** A new task runs in a copy of its creator's context. *)
Definition create_task (creator n : nat) (cs : contexts) : contexts :=
  <[n := current creator cs]> cs.

(** The decision of [call_tool], or the refusal when nothing is bound. *)
Definition call_tool (n : nat) (tool_name : text) (cs : contexts)
    : py_exc + (ToolAccess * AuthzDecision) :=
  match current n cs with
  | None => inl (PermissionDenied ("no tool policy is bound; tools may only be called from inside "
                                   +:+ "a task attempt") None)
  | Some access => inr (access, authorize (acc_policy access) tool_name)
  end.

(** ** Attempts side by side *)

(** Around the adapter of an attempt. *)
Inductive binding := Unbegun | Bound (tok : token) | Unbound.

(** The tasks of a worker: 0 runs the main loop; an attempt has its own
    access; any other task belongs to the attempt whose code created it. *)
Record runtime := MkRuntime {
  rt_contexts : contexts;
  rt_attempts : gmap nat (ToolAccess * binding);
  rt_owner : gmap nat nat;
}.

Definition new_runtime : runtime := MkRuntime {[ 0%nat := None ]} ∅ ∅.

(** The attempt on whose behalf task [n] runs. *)
Definition owner_of (n : nat) (rt : runtime) : option nat :=
  match rt_attempts rt !! n with Some _ => Some n | None => rt_owner rt !! n end.

Inductive rt_step (rt : runtime) : runtime → Prop :=
  | rt_dispatch n access :
      rt_contexts rt !! n = None →
      rt_step rt (MkRuntime (create_task 0 n (rt_contexts rt))
        (<[n := (access, Unbegun)]> (rt_attempts rt)) (rt_owner rt))
  | rt_bind n access :
      rt_attempts rt !! n = Some (access, Unbegun) →
      let '(tok, cs) := bind n access (rt_contexts rt) in
      rt_step rt (MkRuntime cs (<[n := (access, Bound tok)]> (rt_attempts rt)) (rt_owner rt))
  | rt_create n m o :
      owner_of n rt = Some o → rt_contexts rt !! m = None →
      rt_step rt (MkRuntime (create_task n m (rt_contexts rt)) (rt_attempts rt)
        (<[m := o]> (rt_owner rt)))
  | rt_unbind n access tok cs :
      rt_attempts rt !! n = Some (access, Bound tok) → unbind n tok (rt_contexts rt) = Some cs →
      rt_step rt (MkRuntime cs (<[n := (access, Unbound)]> (rt_attempts rt)) (rt_owner rt)).

(** ** The invariant *)

Definition bound_access (access : ToolAccess) (b : binding) : option ToolAccess :=
  match b with Bound _ => Some access | _ => None end.

Record rt_ok (rt : runtime) : Prop := {
  rk_main : rt_contexts rt !! 0%nat = Some None ∧ rt_attempts rt !! 0%nat = None;
  rk_attempt : ∀ n access b, rt_attempts rt !! n = Some (access, b) →
    rt_contexts rt !! n = Some (bound_access access b);
  rk_token : ∀ n access tok, rt_attempts rt !! n = Some (access, Bound tok) → tok = MkToken None n;
  rk_child : ∀ m o, rt_owner rt !! m = Some o →
    rt_attempts rt !! m = None ∧ ∃ access b, rt_attempts rt !! o = Some (access, b) ∧
      (rt_contexts rt !! m = Some None ∨ rt_contexts rt !! m = Some (Some access));
}.

Lemma new_runtime_ok : rt_ok new_runtime.
Proof. by split. Qed.

Lemma owner_context rt n o :
  rt_ok rt → owner_of n rt = Some o → ∃ access b, rt_attempts rt !! o = Some (access, b) ∧
    (rt_contexts rt !! n = Some None ∨ rt_contexts rt !! n = Some (Some access)).
Proof.
  intros Hok. unfold owner_of. destruct (rt_attempts rt !! n) as [[access b]|] eqn:E.
  - intros [= <-]. exists access, b. split; [done|]. rewrite (rk_attempt _ Hok _ _ _ E).
    destruct b; simpl; auto.
  - intros H. by apply (rk_child _ Hok) in H as [_ ?].
Qed.

Lemma fresh_task rt n : rt_ok rt → rt_contexts rt !! n = None →
  n ≠ 0%nat ∧ rt_attempts rt !! n = None ∧ rt_owner rt !! n = None.
Proof.
  intros [] Hn. split_and!.
  - intros ->. destruct rk_main0 as [H0 _]. congruence.
  - apply eq_None_not_Some. intros [[a b] H%rk_attempt0]. congruence.
  - apply eq_None_not_Some. intros [o (_ & a & b & _ & [H|H])%rk_child0]; congruence.
Qed.

(** What becomes of one attempt, its own context with it. *)
Lemma rt_ok_attempt rt n access b b' :
  rt_ok rt → rt_attempts rt !! n = Some (access, b) →
  (∀ tok, b' = Bound tok → tok = MkToken None n) →
  rt_ok (MkRuntime (<[n := bound_access access b']> (rt_contexts rt))
           (<[n := (access, b')]> (rt_attempts rt)) (rt_owner rt)).
Proof.
  intros [[Hm Hm'] Hat Htk Hch] Hn Htok. split; simpl.
  - assert (n ≠ 0%nat) by (intros ->; congruence). by rewrite !lookup_insert_ne.
  - intros k a c [[-> [= -> ->]]|[Hne Hk]]%lookup_insert_Some; [by rewrite lookup_insert_eq|].
    rewrite lookup_insert_ne by done. by apply Hat.
  - intros k a tok [[-> [= _ ->]]|[_ Hk]]%lookup_insert_Some; [by apply Htok|]. by eapply Htk.
  - intros m o Ho. destruct (Hch _ _ Ho) as (Hno & a & c & Hoa & Hc).
    assert (m ≠ n) by (intros ->; congruence). rewrite !(lookup_insert_ne _ n m) by done. split; [done|].
    destruct (decide (n = o)) as [->|Hne].
    + rewrite Hn in Hoa. injection Hoa as -> ->. rewrite lookup_insert_eq. eauto.
    + rewrite lookup_insert_ne by done. eauto.
Qed.

Lemma rt_step_ok rt rt' : rt_ok rt → rt_step rt rt' → rt_ok rt'.
Proof.
  intros Hok Hst. pose proof Hok as [[Hm Hm'] Hat Htk Hch].
  destruct Hst as [n access Hn|n access Hn|n m o Ho Hc|n access tok cs Hn Hu].
  - destruct (fresh_task rt n Hok Hn) as (H0 & Hna & Hno). unfold create_task.
    assert (current 0 (rt_contexts rt) = None) as -> by (unfold current; by rewrite Hm).
    split; simpl.
    + by rewrite !lookup_insert_ne.
    + intros k a c [[-> [= <- <-]]|[Hne Hk]]%lookup_insert_Some; [by rewrite lookup_insert_eq|].
      rewrite lookup_insert_ne by done. by apply Hat.
    + intros k a tok [[-> [=]]|[_ Hk]]%lookup_insert_Some. by eapply Htk.
    + intros k o Ho. destruct (Hch _ _ Ho) as (Hko & a & c & Hoa & Hc).
      assert (k ≠ n) by (intros ->; congruence). assert (o ≠ n) by (intros ->; congruence).
      rewrite !lookup_insert_ne by done. eauto 10.
  - simpl. unfold bind. pose proof (Hat _ _ _ Hn) as Hc. simpl in Hc.
    apply (rt_ok_attempt rt n access Unbegun (Bound (MkToken (current n (rt_contexts rt)) n)));
      [done|done|]. intros tok [= <-]. unfold current. by rewrite Hc.
  - destruct (fresh_task rt m Hok Hc) as (H0 & Hma & _).
    destruct (owner_context _ _ _ Hok Ho) as (a & c & Hoa & Hnc). unfold create_task.
    split; simpl.
    + by rewrite lookup_insert_ne.
    + intros k a' c' Hk. rewrite lookup_insert_ne by congruence. by apply Hat.
    + done.
    + intros k o' [[-> ->]|[Hne Hk]]%lookup_insert_Some.
      * split; [done|]. exists a, c. split; [done|]. rewrite lookup_insert_eq. unfold current.
        destruct Hnc as [-> | ->]; auto.
      * rewrite lookup_insert_ne by done. by apply Hch.
  - pose proof (Htk _ _ _ Hn) as ->. unfold unbind in Hu. case_bool_decide; [|done]. simpl in Hu.
    injection Hu as <-. by eapply (rt_ok_attempt rt n access _ Unbound).
Qed.

Definition rt_reachable (rt : runtime) : Prop := rtc rt_step new_runtime rt.

Lemma rt_reachable_ok rt : rt_reachable rt → rt_ok rt.
Proof.
  revert rt. apply rtc_ind_r; [apply new_runtime_ok|]. intros x y _ Hs Hx. by eapply rt_step_ok.
Qed.

(** ** What a call can reach *)

(** C18: however the attempts of a worker and the tasks their code creates
    interleave: an attempt's own calls are decided under its own access while
    its adapter runs and refused before and after; a task created by its
    code is either refused or decided under that attempt's access, never
    another's; the main loop has none; and [unbind] never raises. *)
Theorem context_isolated rt name :
  rt_reachable rt →
  (∃ e, call_tool 0 name (rt_contexts rt) = inl e) ∧
  (∀ n access b, rt_attempts rt !! n = Some (access, b) →
     match b with
     | Bound tok => call_tool n name (rt_contexts rt)
                      = inr (access, authorize (acc_policy access) name) ∧
                    is_Some (unbind n tok (rt_contexts rt))
     | _ => ∃ e, call_tool n name (rt_contexts rt) = inl e
     end) ∧
  (∀ m n access b, rt_owner rt !! m = Some n → rt_attempts rt !! n = Some (access, b) →
     (∃ e, call_tool m name (rt_contexts rt) = inl e) ∨
     call_tool m name (rt_contexts rt) = inr (access, authorize (acc_policy access) name)).
Proof.
  intros [[Hm _] Hat Htk Hch]%rt_reachable_ok. unfold call_tool, current. split_and!.
  - rewrite Hm. simpl. eauto.
  - intros n access b Hn. rewrite (Hat _ _ _ Hn). destruct b as [|tok|]; simpl; eauto.
    split; [done|]. rewrite (Htk _ _ _ Hn). unfold unbind. rewrite bool_decide_eq_true_2; eauto.
  - intros m n access b Ho Hn. destruct (Hch _ _ Ho) as (_ & a & c & Ha & [-> | ->]); simpl; [eauto|].
    rewrite Hn in Ha. injection Ha as <- _. by right.
Qed.

(** A task that an adapter leaves running keeps the access after the attempt
    has unbound it. *)
Example stray_task_keeps_access access :
  ∃ rt tool, rt_reachable rt ∧ rt_attempts rt !! 1%nat = Some (access, Unbound) ∧
    call_tool 2 tool (rt_contexts rt) = inr (access, authorize (acc_policy access) tool).
Proof.
  eexists _, "search". split; [|split].
  - eapply rtc_l; [by apply (rt_dispatch _ 1 access)|].
    eapply rtc_l; [by apply (rt_bind _ 1 access)|].
    eapply rtc_l; [by apply (rt_create _ 1 2 1)|].
    eapply rtc_l; [by eapply (rt_unbind _ 1 access)|]. apply rtc_refl.
  - done.
  - done.
Qed.

(** Two attempts of one worker at once, one without an agent and one whose
    version was granted the tool, and a task the second has created. *)
Definition tc_policy : ToolPolicy :=
  MkToolPolicy (Some 21%N) {[ 30%N ]}
    {[ "search" := MkToolRef 30 "search" ToolType.SIMULATED ToolStatus.ACTIVE ∅ ]} false.
Definition tc_a1 : ToolAccess := MkToolAccess UNGOVERNED (ex_queued 1 0).
Definition tc_a2 : ToolAccess := MkToolAccess tc_policy (ex_queued 0 0).
Definition tc_runtime : runtime :=
  MkRuntime (<[3%nat := Some tc_a2]> (<[1%nat := Some tc_a1]> (<[2%nat := Some tc_a2]>
      (<[2%nat := None]> (<[1%nat := None]> {[ 0%nat := None ]})))))
    (<[1%nat := (tc_a1, Bound (MkToken None 1))]> (<[2%nat := (tc_a2, Bound (MkToken None 2))]>
      (<[2%nat := (tc_a2, Unbegun)]> (<[1%nat := (tc_a1, Unbegun)]> ∅))))
    {[ 3%nat := 2%nat ]}.

Lemma tc_reachable : rt_reachable tc_runtime.
Proof.
  eapply rtc_l; [by apply (rt_dispatch _ 1 tc_a1)|].
  eapply rtc_l; [by apply (rt_dispatch _ 2 tc_a2)|].
  eapply rtc_l; [by apply (rt_bind _ 2 tc_a2)|].
  eapply rtc_l; [by apply (rt_bind _ 1 tc_a1)|].
  eapply rtc_l; [by apply (rt_create _ 2 3 2)|]. apply rtc_refl.
Qed.

Lemma context_isolated_witness :
  (∃ e, call_tool 0 "search" (rt_contexts tc_runtime) = inl e) ∧
  call_tool 1 "search" (rt_contexts tc_runtime) = inr (tc_a1, deny None DenyReason.NO_POLICY) ∧
  (∃ tool, call_tool 2 "search" (rt_contexts tc_runtime)
           = inr (tc_a2, MkAuthzDecision true (Some tool) None)) ∧
  ∃ d, call_tool 3 "search" (rt_contexts tc_runtime) = inr (tc_a2, d).
Proof.
  destruct (context_isolated tc_runtime "search" tc_reachable) as (H0 & H1 & H2).
  split; [exact H0|].
  split; [exact (proj1 (H1 1%nat tc_a1 (Bound (MkToken None 1)) eq_refl))|]. split.
  - eexists. etrans; [exact (proj1 (H1 2%nat tc_a2 (Bound (MkToken None 2)) eq_refl))|].
    vm_compute. reflexivity.
  - destruct (H2 3%nat 2%nat tc_a2 (Bound (MkToken None 2)) eq_refl eq_refl) as [[e He]|H3];
      [discriminate He|]. eexists. exact H3.
Defined.
