(* ===== verification/Api.v ===== *)
(** * The HTTP API (api/routes, api/schemas.py, api/errors.py)

    One handler per endpoint, each a computation that runs in the request's
    transaction and returns the status code with its answer, or raises an
    [ApiError].  [validate] is the request model's check that comes before.
    [handle] dispatches a decoded request.

    Left out: HTTP itself, the JSON encoding of rows, the [details] of an
    error except the delay that becomes Retry-After, counters and spans. *)

From S2P Require Import Prelude PyStr Json States Authz Capability Policy Admission Db Config.
From S2P Require Import Samples Transitions Completion Lease Workers Claim Reap Tasks Agents.
From S2P Require Import Paging Tools Tracing.
#[local] Open Scope Z_scope.

(** ** Errors *)

Definition NotFound (message : text) : exn := ApiError 404 "not_found" message None.
Definition Conflict (message : text) : exn := ApiError 409 "conflict" message None.
Definition QuotaExceeded (message : text) (retry_after_s : Z) : exn :=
  ApiError 429 "quota_exceeded" message (Some retry_after_s).
Definition Overloaded (message : text) (retry_after_s : Z) : exn :=
  ApiError 503 "overloaded" message (Some retry_after_s).

(** The handler [install_error_handlers] installs: the status code and the
    Retry-After header, which only backpressure carries.  Any other exception
    is answered 500 by the framework. *)
Definition error_response (e : exn) : Z * option text :=
  match e with
  | ApiError status_code code _ retry_after_s =>
      (status_code,
       if bool_decide (code = "quota_exceeded") || bool_decide (code = "overloaded")
       then Some (pretty (default 5 retry_after_s)) else None)
  | _ => (500, None)
  end.

(** [try: m except E: raise ..]: the handler of the source always raises. *)
Definition translate {A} (m : M A) (h : exn → exn) : M A := λ t d,
  match m t d with inl e => inl (h e) | inr x => inr x end.

(** [except IntegrityError: raise Conflict(message)]. *)
Definition integrity_conflict (message : text) (e : exn) : exn :=
  match e with IntegrityError _ => Conflict message | _ => e end.

Definition require {A} (message : text) (o : option A) : M A :=
  match o with Some a => mret a | None => raise (NotFound message) end.

(** ** Request models *)

Record TaskCreate := MkTaskCreate {
  tc_tenant_id : uuid;
  tc_task_type : option text;
  tc_request_type : option text;
  tc_payload : jdict;
  tc_idempotency_key : option text;
  tc_priority : Z;
  tc_max_attempts : Z;
  tc_max_execution_time_s : Z;
  tc_available_at : option timestamp;
}.

Definition MAX_PAYLOAD_BYTES : Z := 64 * 1024.

(** The length of [json.dumps(v)], an ASCII text: escapes for the quote, the
    backslash and what lies outside space to tilde, [", "] and [": "] as separators. *)
Definition dumps_char (c : ascii) : Z :=
  let n := Ascii.nat_of_ascii c in
  if bool_decide (n ∈ [8; 9; 10; 12; 13; 34; 92]%nat) then 2
  else if ((n <? 32) || (126 <? n))%nat then 6 else 1.
Fixpoint dumps_chars (s : text) : Z :=
  match s with EmptyString => 0 | String c s => dumps_char c + dumps_chars s end.
Definition dumps_str (s : text) : Z := 2 + dumps_chars s.
Fixpoint dumps_json (v : json) : Z :=
  match v with
  | JNull => 4
  | JBool b => if b then 4 else 5
  | JNum n => Z.of_nat (String.length (pretty n))
  | JStr s => dumps_str s
  | JArr l => 2 + foldr Z.add 0 (dumps_json <$> l) + 2 * Z.of_nat (pred (length l))
  | JObj l => 2 + foldr Z.add 0 ((λ '(k, x), dumps_str k + 2 + dumps_json x) <$> l)
              + 2 * Z.of_nat (pred (length l))
  end.
Definition dumps_size (p : jdict) : Z := dumps_json (jobj p).

Definition in_range (lo hi x : Z) : bool := (lo <=? x) && (x <=? hi).
Definition text_length (lo hi : nat) (s : text) : bool :=
  (lo <=? String.length s)%nat && (String.length s <=? hi)%nat.
Definition opt_length (lo hi : nat) (o : option text) : bool :=
  match o with Some s => text_length lo hi s | None => true end.
(** [bool(x)] of an optional string. *)
Definition given (o : option text) : bool := match o with Some s => truthy s | None => false end.

(** [TaskCreate]: field bounds, the payload's size, exactly one mode. *)
Definition validate_task (b : TaskCreate) : bool :=
  opt_length 1 128 (tc_task_type b) && opt_length 1 128 (tc_request_type b)
  && opt_length 1 255 (tc_idempotency_key b)
  && in_range 0 32767 (tc_priority b) && in_range 1 20 (tc_max_attempts b)
  && in_range 1 86400 (tc_max_execution_time_s b)
  && (dumps_size (tc_payload b) <=? MAX_PAYLOAD_BYTES)
  && negb (Bool.eqb (given (tc_task_type b)) (given (tc_request_type b))).

(** [TenantCreate]. *)
Definition validate_tenant (name : text) (max_concurrent_tasks max_queued_tasks : Z) : bool :=
  text_length 1 64 name && in_range 1 10000 max_concurrent_tasks
  && in_range 1 1000000 max_queued_tasks.

(** [VersionCreate]. *)
Definition validate_version (max_attempts max_execution_time_s : Z) : bool :=
  in_range 1 20 max_attempts && in_range 1 86400 max_execution_time_s.

(** ** Tasks (routes/tasks.py) *)

(** What the process running the API holds besides the database: the cached
    queue depth, the settings, and the trace carrier of the current span; and
    what its driver makes of a JSON value bound to a text column: the text
    stored, if any. *)
Record api_env := MkApiEnv {
  cached_global_queued : Z;
  api_settings : Settings;
  carrier : option jdict;
  iso_forms : text → option timestamp;  (** see Paging.v *)
  bind_text : json → option text;
}.

(** The resolution of an agent-routed submission. *)
Definition resolve_for (te : uuid) (request_type : text) : M Resolution :=
  translate (resolve_route te request_type) (λ e,
    match e with
    | NoRoute m => NotFound m
    | NotRoutable m => Conflict m
    | _ => e
    end).

(** [runtime_spec.get("task_type", agent_name)], as the text column takes it:
    no null, and of what is no string whatever the driver makes of it. *)
Definition routed_type (env : api_env) (rs : Resolution) : M text :=
  match rs_runtime_spec rs !! "task_type" with
  | Some (JStr s) => mret s
  | Some JNull => raise (IntegrityError "tasks.task_type")
  | Some v => match bind_text env v with Some s => mret s | None => raise (DataError "task_type") end
  | None => mret (rs_agent_name rs)
  end.

Definition submit_errors (e : exn) : exn :=
  match e with
  | PayloadMismatch _ => Conflict "idempotency_key was reused with a different payload"
  | LookupError m => ApiError 409 "conflict" m (Some 1)
  | _ => e
  end.

(** What is submitted: the request's own type and limits, or those of the
    version the route resolves to. *)
Record plan := MkPlan {
  pl_task_type : text;
  pl_max_attempts : Z;
  pl_max_execution_time_s : Z;
  pl_version : option uuid;
  pl_capabilities : list text;
}.

Definition plan_of (env : api_env) (b : TaskCreate) : M plan :=
  match tc_request_type b with
  | Some rt =>
      rs ← resolve_for (tc_tenant_id b) rt;
      ty ← routed_type env rs;
      mret (MkPlan ty (rs_max_attempts rs) (rs_max_execution_time_s rs) (Some (rs_version_id rs))
              (rs_required_capabilities rs))
  | None =>
      mret (MkPlan (default EmptyString (tc_task_type b)) (tc_max_attempts b)
              (tc_max_execution_time_s b) None [])
  end.

Definition admit_submission (env : api_env) (te : tenant_row) (queued : Z) : M unit :=
  let v := admission.decide queued (te_max_queued_tasks te) (cached_global_queued env)
             (global_queue_shed_threshold (api_settings env)) in
  match admission.decision v with
  | admission.REJECT_TENANT_BACKLOG =>
      raise (QuotaExceeded (admission.reason v) (admission.retry_after_s v))
  | admission.SHED_OVERLOADED =>
      raise (Overloaded (admission.reason v) (admission.retry_after_s v))
  | admission.ADMIT => mret tt
  end.

Definition submit (env : api_env) (b : TaskCreate) : M (Z * task_row) :=
  tenant ← get_tenant (tc_tenant_id b);
  te ← require "unknown tenant" tenant;
  queued ← queued_count_for_tenant (tc_tenant_id b);
  admit_submission env te queued ;;
  p ← plan_of env b;
  res ← translate (submit_task (tc_tenant_id b) (pl_task_type p)
            (traced (tc_payload b) (carrier env)) (tc_idempotency_key b) (tc_priority b)
            (pl_max_attempts p) (pl_max_execution_time_s p) (tc_available_at b) (pl_version p)
            (pl_capabilities p)) submit_errors;
  mret (if created res then 201 else 200, submitted res).

(** [TaskOut.is_retrying], computed against the API's own clock. *)
Definition is_retrying (clock : timestamp) (r : task_row) : bool :=
  bool_decide (t_state r = State.QUEUED) && (0 <? t_attempt r) && (clock <? t_available_at r).

Definition show_task (i : uuid) : M (Z * task_row) :=
  row ← get_task i; r ← require "unknown task" row; mret (200, r).

(** [list_tasks]; the parameters' bounds are [valid_query]'s. *)
Definition show_tasks (env : api_env) (te : option uuid) (st : option state) (limit : Z)
    (cursor : option text) : M (Z * (list task_row * option text)) :=
  res ← list_tasks (iso_forms env) te st (Z.to_nat limit) cursor; mret (200, res).

Definition task_events_page : nat := 200.

Definition get_events (i : uuid) : M (Z * list event_row) :=
  row ← get_task i; require "unknown task" row ;;
  evs ← get_task_events i task_events_page; mret (200, evs).

Definition cancel (i : uuid) : M (Z * CancelResult) :=
  res ← cancel_task i;
  match cn_outcome res with
  | CancelOutcome.NOT_FOUND => raise (NotFound "unknown task")
  | CancelOutcome.ALREADY_TERMINAL => raise (Conflict "task already finished and cannot be cancelled")
  | CancelOutcome.REQUESTED | CancelOutcome.ALREADY_REQUESTED => mret (202, res)
  | CancelOutcome.CANCELLED | CancelOutcome.ALREADY_CANCELLED => mret (200, res)
  end.

(** ** Tenants (routes/tenants.py) *)

Definition post_tenant (name : text) (max_concurrent_tasks max_queued_tasks : Z)
    : M (Z * tenant_row) :=
  row ← translate (create_tenant name max_concurrent_tasks max_queued_tasks)
          (integrity_conflict "tenant name already exists");
  mret (201, row).

Definition show_tenant (i : uuid) : M (Z * tenant_row) :=
  row ← get_tenant i; te ← require "unknown tenant" row; mret (200, te).

(** ** Agents (routes/agents.py) *)

Definition post_agent (te : uuid) (name : text) (description : option text) : M (Z * agent_row) :=
  tenant ← get_tenant te; require "unknown tenant" tenant ;;
  row ← translate (create_agent te name description)
          (integrity_conflict "agent name already exists for this tenant");
  mret (201, row).

Definition show_agent (i : uuid) : M (Z * agent_row) :=
  row ← get_agent i; a ← require "unknown agent" row; mret (200, a).

Definition show_agents (te : option uuid) : M (Z * list agent_row) :=
  rows ← list_agents te; mret (200, rows).

Definition show_routes (te : uuid) : M (Z * list route_row) :=
  rows ← list_routes te; mret (200, rows).

Definition post_version (agent_id : uuid) (spec : jdict) (caps : list text) (config : jdict)
    (max_attempts max_execution_time_s : Z) : M (Z * version_row) :=
  row ← translate (create_version agent_id (Some spec) caps (Some config) max_attempts
                     max_execution_time_s VersionStatus.DRAFT)
          (λ e, match e with AgentNotFound _ => NotFound "unknown agent" | _ => e end);
  mret (201, row).

Definition show_versions (agent_id : uuid) : M (Z * list version_row) :=
  row ← get_agent agent_id; require "unknown agent" row ;;
  vs ← list_versions agent_id; mret (200, vs).

Definition activate (agent_id version_id : uuid) (expected : option uuid) (require_expected : bool)
    : M (Z * option agent_row) :=
  res ← activate_version agent_id version_id expected require_expected;
  if act_applied res then mret (200, act_agent res)
  else if bool_decide (act_reason res = Some "version_not_found_for_agent")
  then raise (NotFound "no such version for this agent")
  else raise (Conflict "activation rejected").

(** [disable]: the agent, every version of it, and the work pinned to them, of
    which each UPDATE finds [q] and [rn].  The first UPDATE holds the agent's row
    until the commit, so no activation or new version comes in between. *)
Definition disable_found (q rn : task_row → bool) (agent_id : uuid) : M (Z * (agent_row * Z)) :=
  row ← set_agent_status agent_id AgentStatus.DISABLED;
  a ← require "unknown agent" row;
  versions ← list_versions agent_id;
  for_each versions (λ v, set_version_status (v_id v) VersionStatus.DISABLED ;; mret tt) ;;
  affected ← cancel_found q rn (v_id <$> versions) ("agent " +:+ repr (ag_name a) +:+ " disabled");
  mret (200, (a, affected)).

Definition disable : uuid → M (Z * (agent_row * Z)) := disable_found every_row every_row.

Definition put_route (te : uuid) (request_type : text) (agent_id : uuid) : M (Z * unit) :=
  row ← get_agent agent_id;
  a ← require "unknown agent" row;
  if bool_decide (ag_tenant_id a ≠ te) then raise (Conflict "agent belongs to a different tenant")
  else set_route te request_type agent_id ;; mret (200, tt).

(** ** Tools, grants and the audit log (routes/tools.py) *)

Definition post_tool (te : uuid) (name : text) (ty : tool_type) (config : jdict)
    (description : option text) : M (Z * tool_row) :=
  tenant ← get_tenant te; require "unknown tenant" tenant ;;
  row ← translate (create_tool te name ty (Some config) description)
          (integrity_conflict "tool name already exists for this tenant");
  mret (201, row).

Definition show_tools (te : uuid) : M (Z * list tool_row) :=
  rows ← list_tools te; mret (200, rows).

Definition show_audit (te : uuid) (action outcome : option text) (limit : Z)
    : M (Z * list audit_row) :=
  rows ← list_audit te action outcome (Z.to_nat limit); mret (200, rows).

(** [disable_tool] and [enable_tool]. *)
Definition switch_tool (status : tool_status) (action : text) (tool_id : uuid) : M (Z * tool_row) :=
  row ← set_tool_status tool_id status;
  tool ← require "unknown tool" row;
  record_audit (tl_tenant_id tool) action "tool" "OK" (Some tool_id) "system"
    {[ "name" := JStr (tl_name tool) ]} ;;
  mret (200, tool).
Definition disable_tool := switch_tool ToolStatus.DISABLED "TOOL_DISABLED".
Definition enable_tool := switch_tool ToolStatus.ACTIVE "TOOL_ENABLED".

(** The guard both grant endpoints share: the version exists and is not
    released. *)
Definition unreleased (version_id : uuid) : M version_row :=
  row ← get_version version_id;
  v ← require "unknown agent version" row;
  if bool_decide (v_status v = VersionStatus.ACTIVE)
  then raise (Conflict "cannot change grants on a released version; cut a new version instead")
  else mret v.

Definition grant (version_id tool_id : uuid) : M (Z * unit) :=
  v ← unreleased version_id;
  row ← get_tool tool_id;
  tool ← require "unknown tool" row;
  arow ← get_agent (v_agent_id v);
  match arow with
  | None => raise (AssertionError "agent")   (* indexing None; the foreign key excludes it *)
  | Some a =>
      if bool_decide (ag_tenant_id a ≠ tl_tenant_id tool)
      then raise (Conflict "tool belongs to a different tenant")
      else
        grant_tool version_id tool_id ;;
        record_audit (tl_tenant_id tool) "TOOL_GRANTED" "agent_version" "OK" (Some version_id) "system"
          (<["tool" := JStr (tl_name tool)]> {[ "tool_id" := JStr (uuid_str tool_id) ]}) ;;
        mret (201, tt)
  end.

Definition show_grants (version_id : uuid) : M (Z * list (uuid * text * tool_type * tool_status)) :=
  row ← get_version version_id; require "unknown agent version" row ;;
  gs ← list_grants version_id; mret (200, gs).

Definition ungrant (version_id tool_id : uuid) : M (Z * unit) :=
  unreleased version_id ;;
  row ← get_tool tool_id;
  tool ← require "unknown tool" row;
  removed ← revoke_grant version_id tool_id;
  if removed : bool then
    record_audit (tl_tenant_id tool) "TOOL_GRANT_REVOKED" "agent_version" "OK" (Some version_id)
      "system" (<["tool" := JStr (tl_name tool)]> {[ "tool_id" := JStr (uuid_str tool_id) ]}) ;;
    mret (204, tt)
  else raise (NotFound "grant does not exist").

(** ** Requests *)

(** The GET endpoints. *)
Inductive query :=
  | GetTask (task_id : uuid)
  | GetTasks (tenant_id : option uuid) (st : option state) (limit : Z) (cursor : option text)
  | GetEvents (task_id : uuid)
  | GetTenant (tenant_id : uuid)
  | GetAgent (agent_id : uuid)
  | GetAgents (tenant_id : option uuid)
  | GetVersions (agent_id : uuid)
  | GetRoutes (tenant_id : uuid)
  | GetTools (tenant_id : uuid)
  | GetGrants (version_id : uuid)
  | GetAudit (tenant_id : uuid) (action outcome : option text) (limit : Z).

Inductive request :=
  | PostTask (b : TaskCreate)
  | CancelTask (task_id : uuid)
  | PostTenant (name : text) (max_concurrent_tasks max_queued_tasks : Z)
  | PostAgent (tenant_id : uuid) (name : text) (description : option text)
  | PostVersion (agent_id : uuid) (spec : jdict) (caps : list text) (config : jdict)
      (max_attempts max_execution_time_s : Z)
  | Activate (agent_id version_id : uuid) (expected : option uuid) (require_expected : bool)
  | DisableAgent (agent_id : uuid)
  | PutRoute (tenant_id : uuid) (request_type : text) (agent_id : uuid)
  | PostTool (tenant_id : uuid) (name : text) (ty : tool_type) (config : jdict)
      (description : option text)
  | DisableTool (tool_id : uuid)
  | EnableTool (tool_id : uuid)
  | PostGrant (version_id tool_id : uuid)
  | DeleteGrant (version_id tool_id : uuid)
  | Read (q : query).

(** 422: the request model refuses the body. *)
Definition unprocessable : exn := ApiError 422 "validation_error" "unprocessable" None.
Definition checked {A} (ok : bool) (m : M A) : M A := if ok then m else raise unprocessable.

Definition status_of {A} (m : M (Z * A)) : M Z := x ← m; mret x.1.

(** The bounds FastAPI checks on query parameters. *)
Definition valid_query (q : query) : bool :=
  match q with
  | GetTasks _ _ limit _ => in_range 1 200 limit
  | GetAudit _ _ _ limit => in_range 1 500 limit
  | _ => true
  end.

Definition read (env : api_env) (q : query) : M Z :=
  match q with
  | GetTask i => status_of (show_task i)
  | GetTasks te st limit cursor => status_of (show_tasks env te st limit cursor)
  | GetEvents i => status_of (get_events i)
  | GetTenant i => status_of (show_tenant i)
  | GetAgent i => status_of (show_agent i)
  | GetAgents te => status_of (show_agents te)
  | GetVersions a => status_of (show_versions a)
  | GetRoutes te => status_of (show_routes te)
  | GetTools te => status_of (show_tools te)
  | GetGrants v => status_of (show_grants v)
  | GetAudit te action outcome limit => status_of (show_audit te action outcome limit)
  end.

Definition handle (env : api_env) (rq : request) : M Z :=
  match rq with
  | PostTask b => checked (validate_task b) (status_of (submit env b))
  | CancelTask i => status_of (cancel i)
  | PostTenant name mc mq => checked (validate_tenant name mc mq) (status_of (post_tenant name mc mq))
  | PostAgent te name desc => checked (text_length 1 128 name) (status_of (post_agent te name desc))
  | PostVersion a spec caps cfg ma mx =>
      checked (validate_version ma mx) (status_of (post_version a spec caps cfg ma mx))
  | Activate a v e req => status_of (activate a v e req)
  | DisableAgent a => status_of (disable a)
  | PutRoute te rt a => checked (text_length 1 128 rt) (status_of (put_route te rt a))
  | PostTool te name ty cfg desc =>
      checked (text_length 1 128 name) (status_of (post_tool te name ty cfg desc))
  | DisableTool i => status_of (disable_tool i)
  | EnableTool i => status_of (enable_tool i)
  | PostGrant v i => status_of (grant v i)
  | DeleteGrant v i => status_of (ungrant v i)
  | Read q => checked (valid_query q) (read env q)
  end.

(** The answer a client sees: the status code, and Retry-After on an error. *)
Definition respond (env : api_env) (rq : request) (t : txn) (d : db) : (Z * option text) * db :=
  match transaction (handle env rq) t d with
  | (inr status, d') => ((status, None), d')
  | (inl e, d') => (error_response e, d')
  end.
