(* ===== verification/Frames.v ===== *)
(** * Which tables a computation may change

    [Keeps f m]: when [m] commits, [f] of the tables is what it was.  The
    instances follow the syntax of a computation, so that for a query
    function of the source the class is decided by walking through its
    definition ([solve_keeps]).  [Preserves P m] is the same for an
    invariant [P], with its own walker. *)

From S2P Require Import Prelude PyStr Json States Db Transitions Completion Lease Workers Claim.
From S2P Require Import Reap Tasks Agents Tools Api.

Class Keeps {B A} (f : db → B) (m : M A) : Prop :=
  keeps t d a d' : m t d = inr (a, d') → f d' = f d.

Section instances.
Context {B : Type} (f : db → B).

#[export] Instance keeps_ret {A} (a : A) : Keeps f (mret a).
Proof. by intros t d a' d' [= _ <-]. Qed.
#[export] Instance keeps_raise {A} e : Keeps f (raise (A:=A) e).
Proof. by intros t d a d' [=]. Qed.
#[export] Instance keeps_ask : Keeps f ask.
Proof. by intros t d a d' [= _ <-]. Qed.
#[export] Instance keeps_get : Keeps f get.
Proof. by intros t d a d' [= _ <-]. Qed.

Lemma keeps_modify g : (∀ d, f (g d) = f d) → Keeps f (modify g).
Proof. intros H t d a d' [= _ <-]. apply H. Qed.

Lemma keeps_bind {A C} (m : M A) (k : A → M C) :
  Keeps f m → (∀ a, Keeps f (k a)) → Keeps f (m ≫= k).
Proof.
  intros Hm Hk t d c d' (a & d1 & H1 & H2)%bind_ok.
  etrans; [by eapply Hk|by eapply Hm].
Qed.

Lemma keeps_for_each {A} (l : list A) (body : A → M unit) :
  (∀ x, Keeps f (body x)) → Keeps f (for_each l body).
Proof.
  intros H. induction l as [|x l IH]; simpl; [apply _|]. apply keeps_bind; [apply H|done].
Qed.


Lemma keeps_reap_loop reap l acc :
  (∀ i a m w, Keeps f (reap i a m w)) → Keeps f (reap_loop reap l acc).
Proof.
  intros H. revert acc. induction l as [|x l IH]; intros acc; simpl; [apply _|].
  apply keeps_bind; [apply H|intros ok; apply IH].
Qed.

Lemma translate_ok {A} (m : M A) h t d a d' :
  translate m h t d = inr (a, d') → m t d = inr (a, d').
Proof. unfold translate. by destruct (m t d) as [|[]]; intros [=]; subst. Qed.

Lemma keeps_translate {A} (m : M A) h : Keeps f m → Keeps f (translate m h).
Proof. intros Hm t d a d' H%translate_ok. by eapply Hm. Qed.
End instances.

(** ** The registry is not touched by work, nor work by the registry *)

(** Agents, versions, routes, tools and grants. *)
Definition registry (d : db) :=
  (agents d, agent_versions d, agent_routes d, tools d, agent_version_tool_grants d).

(** Tasks, their timelines and their attempts. *)
Definition work (d : db) := (tasks d, task_events d, task_attempts d).

(** Views of the tables that work, and administration, cannot change. *)
Class OffWork {B} (f : db → B) : Prop :=
  off_work d d' : registry d' = registry d → tenants d' = tenants d → f d' = f d.
Class OffRegistry {B} (f : db → B) : Prop :=
  off_registry d d' : work d' = work d → tenants d' = tenants d → f d' = f d.

#[export] Instance registry_off_work : OffWork registry.
Proof. by intros d d'. Qed.
#[export] Instance tenants_off_work : OffWork tenants.
Proof. by intros d d'. Qed.
#[export] Instance work_off_registry : OffRegistry work.
Proof. by intros d d'. Qed.
#[export] Instance tenants_off_registry : OffRegistry tenants.
Proof. by intros d d'. Qed.

(** Walk through a computation whose statements do not touch [f]. *)
Ltac keeps_step :=
  match goal with
  | |- Keeps _ (mret _) => apply keeps_ret
  | |- Keeps _ (raise _) => apply keeps_raise
  | |- Keeps _ ask => apply keeps_ask
  | |- Keeps _ get => apply keeps_get
  | |- Keeps _ (modify _) => apply keeps_modify; intros; first [reflexivity|apply off_work; reflexivity|apply off_registry; reflexivity]
  | |- Keeps _ (translate _ _) => apply keeps_translate
  | |- Keeps _ (_ ≫= _) => apply keeps_bind; [|intros]
  | |- Keeps _ (for_each _ _) => apply keeps_for_each; intros
  | |- Keeps _ (reap_loop _ _ _) => apply keeps_reap_loop; intros
  | |- Keeps _ (let _ := _ in _) => cbv zeta
  | |- Keeps _ (match ?x with _ => _ end) => destruct x
  | |- Keeps _ _ => apply _
  end.
Ltac solve_keeps := repeat keeps_step.

Section off_work_kept.
Context {B : Type} (f : db → B) `{!OffWork f}.

#[local] Instance update_task_keeps i p g : Keeps f (update_task i p g).
Proof. unfold update_task. solve_keeps. Qed.
#[local] Instance update_tasks_keeps p g : Keeps f (update_tasks p g).
Proof. unfold update_tasks. solve_keeps. Qed.
#[export] Instance record_event_keeps i ty a w data : Keeps f (record_event i ty a w data).
Proof. unfold record_event, insert_event. solve_keeps. Qed.
#[local] Instance insert_event_keeps i a ty w data : Keeps f (insert_event i a ty w data).
Proof. unfold insert_event. solve_keeps. Qed.
#[local] Instance insert_attempt_keeps i a w : Keeps f (insert_attempt i a w).
Proof. unfold insert_attempt. solve_keeps. Qed.
#[local] Instance finish_attempt_keeps i a o c m : Keeps f (finish_attempt i a o c m).
Proof. unfold finish_attempt. solve_keeps. Qed.
#[local] Instance transition_keeps i e s ty sets data :
  Keeps f (transition i e s ty sets data).
Proof. unfold transition, explain, require_legal. solve_keeps. Qed.

#[export] Instance run_completion_keeps c i a w : Keeps f (run_completion c i a w).
Proof.
  destruct c; simpl; unfold complete_success, complete_retry, complete_failed,
    complete_cancelled, complete_abandoned, float_seconds, load_timestamp; solve_keeps.
Qed.
#[export] Instance renew_lease_keeps i w a ttl : Keeps f (renew_lease i w a ttl).
Proof. unfold renew_lease, int_seconds, load_timestamp. solve_keeps. Qed.
#[export] Instance grant_claimed_keeps w ttl ids : Keeps f (grant_claimed w ttl ids).
Proof. unfold grant_claimed, int_seconds, load_timestamp. solve_keeps. Qed.
#[export] Instance claim_tasks_keeps w limit ttl policy caps :
  Keeps f (claim_tasks w limit ttl policy caps).
Proof. unfold claim_tasks. solve_keeps. Qed.
#[export] Instance reap_batch_keeps k limit : Keeps f (reap_batch k limit).
Proof.
  destruct k; simpl; unfold reap_expired_leases, reap_hung_tasks, find_expired_leases,
    find_hung_tasks, limit_rows, reap_task, reap_hung_task; solve_keeps.
Qed.
#[export] Instance submit_task_keeps te ty p key prio ma mx av ver caps :
  Keeps f (submit_task te ty p key prio ma mx av ver caps).
Proof. unfold submit_task, insert_task. solve_keeps. Qed.
#[export] Instance cancel_task_keeps i : Keeps f (cancel_task i).
Proof. unfold cancel_task, get_task. solve_keeps. Qed.
#[export] Instance cancel_found_keeps q rn vs reason : Keeps f (cancel_found q rn vs reason).
Proof. unfold cancel_found. solve_keeps. Qed.
#[export] Instance cancel_agent_tasks_keeps vs reason :
  Keeps f (cancel_agent_tasks vs reason).
Proof. apply cancel_found_keeps. Qed.
#[export] Instance register_worker_keeps w host pid cap caps :
  Keeps f (register_worker w host pid cap caps).
Proof. unfold register_worker. solve_keeps. Qed.
#[export] Instance heartbeat_keeps w : Keeps f (heartbeat w).
Proof. unfold heartbeat. solve_keeps. Qed.
#[export] Instance set_worker_status_keeps w s : Keeps f (set_worker_status w s).
Proof. unfold set_worker_status. solve_keeps. Qed.
#[export] Instance mark_dead_workers_keeps n : Keeps f (mark_dead_workers n).
Proof. unfold mark_dead_workers. solve_keeps. Qed.
#[export] Instance record_audit_keeps te action rt out rid actor data :
  Keeps f (record_audit te action rt out rid actor data).
Proof. unfold record_audit. solve_keeps. Qed.
End off_work_kept.

#[export] Instance create_tenant_keeps name mc mq : Keeps registry (create_tenant name mc mq).
Proof. unfold create_tenant. solve_keeps. Qed.


Section work_kept.
#[export] Instance register_worker_keeps_work w host pid cap caps :
  Keeps work (register_worker w host pid cap caps).
Proof. unfold register_worker. solve_keeps. Qed.
#[export] Instance heartbeat_keeps_work w : Keeps work (heartbeat w).
Proof. unfold heartbeat. solve_keeps. Qed.
#[export] Instance set_worker_status_keeps_work w s : Keeps work (set_worker_status w s).
Proof. unfold set_worker_status. solve_keeps. Qed.
#[export] Instance mark_dead_workers_keeps_work n : Keeps work (mark_dead_workers n).
Proof. unfold mark_dead_workers. solve_keeps. Qed.
#[export] Instance create_tenant_keeps_work name mc mq : Keeps work (create_tenant name mc mq).
Proof. unfold create_tenant. solve_keeps. Qed.
#[export] Instance record_audit_keeps_work te action rt out rid actor data :
  Keeps work (record_audit te action rt out rid actor data).
Proof. unfold record_audit. solve_keeps. Qed.
End work_kept.

(** ** What a computation preserves

    [Preserves P m]: when [m] starts in tables with [P] and commits, it ends
    in tables with [P]. *)

Class Preserves {A} (P : db → Prop) (m : M A) : Prop :=
  preserves t d a d' : P d → m t d = inr (a, d') → P d'.

Lemma preserves_ret {A} P (a : A) : Preserves P (mret a).
Proof. by intros t d a' d' Hd [= _ <-]. Qed.
Lemma preserves_raise {A} P e : Preserves P (raise (A:=A) e).
Proof. by intros t d a d' Hd [=]. Qed.

Lemma preserves_bind {A B} P (m : M A) (k : A → M B) :
  Preserves P m → (∀ a, Preserves P (k a)) → Preserves P (m ≫= k).
Proof.
  intros Hm Hk t d b d' Hd (a & d1 & H1 & H2)%bind_ok. eapply Hk; [|done]. by eapply Hm.
Qed.

Lemma preserves_for_each {A} P (l : list A) body :
  (∀ x, Preserves P (body x)) → Preserves P (for_each l body).
Proof.
  intros H. induction l as [|x l IH]; simpl; [apply preserves_ret|].
  apply preserves_bind; [apply H|done].
Qed.

Lemma preserves_reap_loop P reap l acc :
  (∀ i a m w, Preserves P (reap i a m w)) → Preserves P (reap_loop reap l acc).
Proof.
  intros H. revert acc. induction l as [|x l IH]; intros acc; simpl; [apply preserves_ret|].
  apply preserves_bind; [apply H|intros ok; apply IH].
Qed.

Lemma preserves_translate {A} P (m : M A) h : Preserves P m → Preserves P (translate m h).
Proof. intros Hm t d a d' Hd H%translate_ok. by eapply Hm. Qed.

Lemma preserves_reader {A} P (m : M A) : Keeps id m → Preserves P m.
Proof. intros Hm t d a d' Hd H%Hm. simpl in H. by rewrite H. Qed.

(** A statement that keeps [f] keeps what depends on [f] only. *)
Lemma preserves_keeps {A B} (f : db → B) P (m : M A) :
  (∀ d d', f d' = f d → P d → P d') → Keeps f m → Preserves P m.
Proof. intros HP Hm t d a d' Hd H%Hm. by eapply HP. Qed.

(** Walk through a handler; [leaf] proves the query functions it calls. *)
Ltac preserves_walk leaf :=
  repeat
    match goal with
    | |- Preserves _ (mret _) => apply preserves_ret
    | |- Preserves _ (raise _) => apply preserves_raise
    | |- Preserves _ (translate _ _) => apply preserves_translate
    | |- Preserves _ (_ ≫= _) => apply preserves_bind; [|intros]
    | |- Preserves _ (for_each _ _) => apply preserves_for_each; intros
    | |- Preserves _ (reap_loop _ _ _) => apply preserves_reap_loop; intros
    | |- Preserves _ (let _ := _ in _) => cbv zeta
    | |- Preserves _ (match ?x with _ => _ end) => destruct x
    | |- Preserves _ _ => first [leaf | apply preserves_reader; apply _]
    end.
