(* ===== verification/Registry.v ===== *)
(** * The registry as a whole

    The administrative transactions that change agents, versions, routes,
    tools and grants, the invariant they keep ([registry_ok]) and what none
    of them can change ([evolves]): a version's definition, an agent's or a
    tool's identity. *)

From S2P Require Import Prelude PyStr Json States Authz Capability Policy Db Samples Transitions.
From S2P Require Import Completion Lease Workers Claim Reap Tasks Agents Tools Frames.

(** One administrative query function with its arguments. *)
Inductive admin :=
  | CreateAgent (tenant_id : uuid) (name : text) (description : option text)
  | SetAgentStatus (agent_id : uuid) (status : agent_status)
  | CreateVersion (agent_id : uuid) (spec : option jdict) (caps : list text) (config : option jdict)
      (max_attempts max_execution_time_s : Z) (status : version_status)
  | SetVersionStatus (version_id : uuid) (status : version_status)
  | ActivateVersion (agent_id version_id : uuid) (expected : option uuid) (require_expected : bool)
  | SetRoute (tenant_id : uuid) (request_type : text) (agent_id : uuid)
  | CreateTool (tenant_id : uuid) (name : text) (ty : tool_type) (config : option jdict)
      (description : option text)
  | SetToolStatus (tool_id : uuid) (status : tool_status)
  | GrantTool (version_id tool_id : uuid)
  | RevokeGrant (version_id tool_id : uuid).

Definition run_admin (op : admin) : M unit :=
  match op with
  | CreateAgent te name desc => create_agent te name desc ;; mret tt
  | SetAgentStatus a s => set_agent_status a s ;; mret tt
  | CreateVersion a spec caps cfg ma mx st => create_version a spec caps cfg ma mx st ;; mret tt
  | SetVersionStatus v s => set_version_status v s ;; mret tt
  | ActivateVersion a v e req => activate_version a v e req ;; mret tt
  | SetRoute te rt a => set_route te rt a
  | CreateTool te name ty cfg desc => create_tool te name ty cfg desc ;; mret tt
  | SetToolStatus i s => set_tool_status i s ;; mret tt
  | GrantTool v i => grant_tool v i
  | RevokeGrant v i => revoke_grant v i ;; mret tt
  end.

#[export] Instance admin_keeps {B} (f : db → B) `{!OffRegistry f} op : Keeps f (run_admin op).
Proof.
  destruct op; simpl; unfold create_agent, set_agent_status, create_version, activate_version, activate_read,
    get_version, set_version_status, set_route, create_tool, set_tool_status, grant_tool,
    revoke_grant; solve_keeps.
Qed.

(** ** What an operation does to the tables *)

(** The five shapes of a change. *)
Inductive change (d : db) : db → Prop :=
  | ch_none : change d d
  | ch_agent_new t te name desc :
      agents d !! new_uuid t = None → is_Some (tenants d !! te) →
      ¬ Exists (λ a, ag_tenant_id a = te ∧ ag_name a = name) (rows (agents d)) →
      change d (set_agents (<[new_uuid t :=
        MkAgent (new_uuid t) te name desc AgentStatus.ACTIVE None (now t) (now t)]> (agents d)) d)
  | ch_agent t i a s dv :
      agents d !! i = Some a →
      (∀ v, dv = Some v → ag_default_version_id a = Some v ∨
         ∃ r, agent_versions d !! v = Some r ∧ v_agent_id r = i) →
      change d (set_agents (<[i := agent_with s dv (now t) a]> (agents d)) d)
  | ch_version_new t a spec caps cfg ma mx st :
      is_Some (agents d !! a) → version_error (new_version t d a spec caps cfg ma mx st) = None →
      agent_versions d !! new_uuid t = None →
      change d (set_versions (<[new_uuid t := new_version t d a spec caps cfg ma mx st]>
        (agent_versions d)) d)
  | ch_version i v s :
      agent_versions d !! i = Some v →
      change d (set_versions (<[i := version_with s v]> (agent_versions d)) d)
  | ch_route te rt a row :
      is_Some (tenants d !! te) → is_Some (agents d !! a) → ro_tenant_id row = te →
      ro_request_type row = rt → ro_agent_id row = a →
      change d (set_routes (<[(te, rt) := row]> (agent_routes d)) d)
  | ch_tool_new t te name desc ty cfg :
      tools d !! new_uuid t = None → is_Some (tenants d !! te) →
      ¬ Exists (λ r, tl_tenant_id r = te ∧ tl_name r = name) (rows (tools d)) →
      change d (set_tools (<[new_uuid t :=
        MkTool (new_uuid t) te name desc ty cfg ToolStatus.ACTIVE (now t)]> (tools d)) d)
  | ch_tool i r s :
      tools d !! i = Some r →
      change d (set_tools (<[i := tool_with s r]> (tools d)) d)
  | ch_grant t v i :
      is_Some (agent_versions d !! v) → is_Some (tools d !! i) →
      change d (set_grants (<[(v, i) := MkGrant v i (now t)]> (agent_version_tool_grants d)) d)
  | ch_revoke v i :
      change d (set_grants (delete (v, i) (agent_version_tool_grants d)) d).

Inductive changes : db → db → Prop :=
  | chs_refl d : changes d d
  | chs_step d d1 d2 : change d d1 → changes d1 d2 → changes d d2.

Lemma changes_one d d' : change d d' → changes d d'.
Proof. intros H. eapply chs_step; [done|apply chs_refl]. Qed.

Lemma activate_read_cases version a v e req t d res d' :
  activate_read a v e req version t d = inr (res, d') →
  (act_applied res = false ∧ d' = d) ∨
  ∃ ver ag, version = Some ver ∧ v_agent_id ver = a ∧
    v_status ver ≠ VersionStatus.DISABLED ∧ agents d !! a = Some ag ∧
    (req = false ∨ ag_default_version_id ag = e) ∧
    let ag' := agent_with (ag_status ag) (Some v) (now t) ag in
    res = MkActivation true (Some ag') None ∧
    d' = set_versions (alter (version_with VersionStatus.ACTIVE) v (agent_versions d))
           (set_agents (<[a := ag']> (agents d)) d).
Proof.
  unfold activate_read. rewrite bind_run. cbn [ask].
  destruct version as [ver|]; [|intros [= <- <-]; by left].
  case_bool_decide as Hb; [intros [= <- <-]; by left|].
  case_bool_decide as Hs; [intros [= <- <-]; by left|]. rewrite bind_run. cbn [get].
  destruct (agents d !! a) as [ag|] eqn:Ha; [|intros [= <- <-]; by left].
  destruct (negb req || _) eqn:Hreq; [|intros [= <- <-]; by left].
  rewrite bind_run. cbn [modify]. unfold set_version_status. rewrite !bind_run. cbn [get].
  change (agent_versions (set_agents ?x d)) with (agent_versions d). intros Hrun. right.
  exists ver, ag. apply orb_true_iff in Hreq.
  assert (req = false ∨ ag_default_version_id ag = e) as Hcas.
  { destruct Hreq as [?%negb_true_iff|?%bool_decide_eq_true]; auto. }
  destruct (agent_versions d !! v) as [row|] eqn:Hv; injection Hrun as <- <-; split_and!;
    try done.
  - f_equal. apply map_eq. intros i. destruct (decide (i = v)) as [->|Hne].
    + by rewrite lookup_insert_eq, lookup_alter_eq, Hv.
    + by rewrite lookup_insert_ne, lookup_alter_ne by done.
  - assert (alter (version_with VersionStatus.ACTIVE) v (agent_versions d) = agent_versions d) as ->; [|done].
    apply map_eq. intros i. destruct (decide (i = v)) as [->|Hne].
    + by rewrite lookup_alter_eq, Hv.
    + by rewrite lookup_alter_ne by done.
Qed.

Lemma activate_version_read a v e req t d :
  activate_version a v e req t d = activate_read a v e req (agent_versions d !! v) t d.
Proof. done. Qed.

Lemma activate_version_cases a v e req t d res d' :
  activate_version a v e req t d = inr (res, d') →
  (act_applied res = false ∧ d' = d) ∨
  ∃ ver ag, agent_versions d !! v = Some ver ∧ v_agent_id ver = a ∧
    v_status ver ≠ VersionStatus.DISABLED ∧ agents d !! a = Some ag ∧
    (req = false ∨ ag_default_version_id ag = e) ∧
    let ag' := agent_with (ag_status ag) (Some v) (now t) ag in
    res = MkActivation true (Some ag') None ∧
    d' = set_versions (<[v := version_with VersionStatus.ACTIVE ver]> (agent_versions d))
           (set_agents (<[a := ag']> (agents d)) d).
Proof.
  rewrite activate_version_read.
  intros [?|(ver & ag & Hv & Ha & Hs & Hag & Hcas & -> & ->)]%activate_read_cases; [by left|right].
  exists ver, ag. split_and!; try done. cbv zeta. split; [done|].
  f_equal. apply map_eq. intros i.
  destruct (decide (i = v)) as [->|Hne].
  - by rewrite lookup_insert_eq, lookup_alter_eq, Hv.
  - by rewrite lookup_insert_ne, lookup_alter_ne by done.
Qed.

Lemma admin_changes op t d u d' : run_admin op t d = inr (u, d') → changes d d'.
Proof.
  destruct op as [te name desc|a s|a spec caps cfg ma mx st|v s|a v e req|te rt a
    |te name ty cfg desc|i s|v i|v i]; simpl.
  - intros (row & d1 & H & [= _ <-])%bind_ok. unfold create_agent in H. rewrite bind_run in H.
    cbn [ask] in H. rewrite bind_run in H. cbn [get] in H. cbv zeta in H.
    case_bool_decide as Hn; [done|]. case_bool_decide as Hi; [done|].
    case_bool_decide as Ht; [done|]. injection H as _ <-. apply changes_one, ch_agent_new; [| |done].
    + by apply eq_None_not_Some.
    + by apply not_eq_None_Some.
  - intros (row & d1 & H & [= _ <-])%bind_ok. unfold set_agent_status in H. rewrite bind_run in H.
    cbn [ask] in H. rewrite bind_run in H. cbn [get] in H.
    destruct (agents d !! a) as [ag|] eqn:Ha; injection H as _ <-; [|apply chs_refl].
    apply changes_one, ch_agent; [done|]. by left.
  - intros (row & d1 & H & [= _ <-])%bind_ok.
    apply create_version_inv in H as (-> & -> & Ha & He & Hn). by apply changes_one, ch_version_new.
  - intros (row & d1 & H & [= _ <-])%bind_ok. unfold set_version_status in H. rewrite bind_run in H.
    cbn [get] in H. destruct (agent_versions d !! v) eqn:Hv; injection H as _ <-; [|apply chs_refl].
    by apply changes_one, ch_version.
  - intros (row & d1 & H & [= _ <-])%bind_ok.
    apply activate_version_cases in H as [[_ ->]|(ver & ag & Hv & Hva & _ & Ha & _ & _ & ->)];
      [apply chs_refl|].
    eapply chs_step; [|apply changes_one].
    + apply (ch_agent d t a ag (ag_status ag) (Some v)); [done|]. intros v' [= <-]. right. exists ver. by split.
    + by apply (ch_version (set_agents _ d)).
  - unfold set_route. rewrite bind_run. cbn [ask]. rewrite bind_run. cbn [get].
    case_bool_decide as Hte; [done|]. case_bool_decide as Ha; [done|]. intros [= _ <-].
    apply changes_one. eapply ch_route; [| |done..]; by apply not_eq_None_Some.
  - intros (row & d1 & H & [= _ <-])%bind_ok. unfold create_tool in H. rewrite bind_run in H.
    cbn [ask] in H. rewrite bind_run in H. cbn [get] in H. cbv zeta in H.
    case_bool_decide as Hn; [done|]. case_bool_decide as Hi; [done|].
    case_bool_decide as Ht; [done|]. injection H as _ <-. apply changes_one, ch_tool_new; [| |done].
    + by apply eq_None_not_Some.
    + by apply not_eq_None_Some.
  - intros (row & d1 & H & [= _ <-])%bind_ok. unfold set_tool_status in H. rewrite bind_run in H.
    cbn [get] in H. destruct (tools d !! i) eqn:Hi; injection H as _ <-; [|apply chs_refl].
    by apply changes_one, ch_tool.
  - unfold grant_tool. rewrite bind_run. cbn [ask]. rewrite bind_run. cbn [get].
    case_bool_decide; [intros [= _ <-]; apply chs_refl|]. case_bool_decide as Hv; [done|].
    case_bool_decide as Hi; [done|]. intros [= _ <-]. apply changes_one, ch_grant;
      by apply not_eq_None_Some.
  - intros (row & d1 & H & [= _ <-])%bind_ok. unfold revoke_grant in H. rewrite bind_run in H.
    cbn [get] in H. injection H as _ <-. apply changes_one, ch_revoke.
Qed.

(** ** The invariant *)

Record registry_ok (d : db) : Prop := {
  rg_agents : ∀ i a, agents d !! i = Some a → ag_id a = i;
  rg_names : ∀ i j a b, agents d !! i = Some a → agents d !! j = Some b →
    ag_tenant_id a = ag_tenant_id b → ag_name a = ag_name b → i = j;
  rg_default : ∀ i a v, agents d !! i = Some a → ag_default_version_id a = Some v →
    ∃ r, agent_versions d !! v = Some r ∧ v_agent_id r = i;
  rg_versions : ∀ i v, agent_versions d !! i = Some v →
    v_id v = i ∧ is_Some (agents d !! v_agent_id v) ∧ version_error v = None;
  rg_dense : versions_dense d;
  rg_routes : ∀ k r, agent_routes d !! k = Some r →
    k = (ro_tenant_id r, ro_request_type r) ∧ is_Some (agents d !! ro_agent_id r);
  rg_tools : tools_ok d;
  rg_grants : ∀ v i g, agent_version_tool_grants d !! (v, i) = Some g →
    is_Some (agent_versions d !! v) ∧ is_Some (tools d !! i);
}.

Lemma registry_ok_empty : registry_ok empty_db.
Proof. by repeat (split || intros ?). Qed.

Lemma registry_ok_ext d d' : registry d' = registry d → registry_ok d → registry_ok d'.
Proof.
  unfold registry. intros [= H1 H2 H3 H4 H5] [].
  assert (∀ a, versions_of d' a = versions_of d a) as Hv by (intros a; unfold versions_of; by rewrite H2).
  split; rewrite ?H1, ?H2, ?H3, ?H4, ?H5; try done.
  - intros a. rewrite Hv. apply rg_dense0.
  - destruct rg_tools0. split; rewrite ?H4, ?H5; done.
Qed.

Lemma tools_ok_ext d d' :
  tools d' = tools d → agent_version_tool_grants d' = agent_version_tool_grants d →
  tools_ok d → tools_ok d'.
Proof. intros H1 H2 []. split; rewrite ?H1, ?H2; done. Qed.

(** Discharge the parts of the invariant a change does not reach. *)
Ltac registry_rest :=
  try done;
  try match goal with
      | H : tools_ok ?d |- tools_ok _ => refine (tools_ok_ext d _ _ _ H); reflexivity
      end.

Lemma not_taken {A} (P : A → Prop) (m : gmap uuid A) i a :
  ¬ Exists P (rows m) → m !! i = Some a → ¬ P a.
Proof. intros Hn Hi HP. apply Hn, Exists_exists. exists a. split; [|done]. apply elem_of_rows. eauto. Qed.

Lemma agent_new_ok d t te name desc :
  registry_ok d → agents d !! new_uuid t = None →
  ¬ Exists (λ a, ag_tenant_id a = te ∧ ag_name a = name) (rows (agents d)) →
  registry_ok (set_agents (<[new_uuid t :=
    MkAgent (new_uuid t) te name desc AgentStatus.ACTIVE None (now t) (now t)]> (agents d)) d).
Proof.
  intros [] Hn Hex. split; simpl; registry_rest.
  - intros i a [[<- <-]|[_ Hi]]%lookup_insert_Some; eauto.
  - intros i j a b [[<- <-]|[Hi Ha]]%lookup_insert_Some [[<- <-]|[Hj Hb]]%lookup_insert_Some;
      simpl; intros Hte Hnm; [done| | |by eauto].
    + by destruct (not_taken _ _ _ _ Hex Hb).
    + by destruct (not_taken _ _ _ _ Hex Ha).
  - intros i a v [[<- <-]|[_ Hi]]%lookup_insert_Some; [done|eauto].
  - intros i v Hv. destruct (rg_versions0 _ _ Hv) as (? & ? & ?). split_and!; try done.
    apply lookup_insert_is_Some'. by right.
  - intros k r Hr. destruct (rg_routes0 _ _ Hr) as [? ?]. split; [done|].
    apply lookup_insert_is_Some'. by right.
Qed.

Lemma agent_change_ok d t i a s dv :
  registry_ok d → agents d !! i = Some a →
  (∀ v, dv = Some v → ag_default_version_id a = Some v ∨
     ∃ r, agent_versions d !! v = Some r ∧ v_agent_id r = i) →
  registry_ok (set_agents (<[i := agent_with s dv (now t) a]> (agents d)) d).
Proof.
  intros [] Ha Hdv. split; simpl; registry_rest.
  - intros j b [[<- <-]|[_ Hj]]%lookup_insert_Some; simpl; eauto.
  - intros j k b c [[<- <-]|[Hj Hb]]%lookup_insert_Some [[<- <-]|[Hk Hc]]%lookup_insert_Some;
      simpl; eauto.
  - intros j b v [[<- <-]|[_ Hj]]%lookup_insert_Some; simpl; [|eauto].
    intros Hv. destruct (Hdv _ Hv) as [?|?]; eauto.
  - intros j v Hv. destruct (rg_versions0 _ _ Hv) as (? & ? & ?). split_and!; try done.
    apply lookup_insert_is_Some'. by right.
  - intros k r Hr. destruct (rg_routes0 _ _ Hr) as [? ?]. split; [done|].
    apply lookup_insert_is_Some'. by right.
Qed.

Lemma version_new_ok d t a spec caps cfg ma mx st :
  registry_ok d → is_Some (agents d !! a) →
  version_error (new_version t d a spec caps cfg ma mx st) = None →
  agent_versions d !! new_uuid t = None →
  registry_ok (set_versions (<[new_uuid t := new_version t d a spec caps cfg ma mx st]>
    (agent_versions d)) d).
Proof.
  intros [] Ha He Hn. split; simpl; registry_rest.
  - intros i b v Hb Hv. destruct (rg_default0 _ _ _ Hb Hv) as (r & Hr & ?). exists r.
    split; [|done]. rewrite lookup_insert_ne; [done|]. congruence.
  - intros i v [[<- <-]|[_ Hv]]%lookup_insert_Some; [by split_and!|eauto].
  - by apply dense_create.
  - intros v i g Hg. destruct (rg_grants0 _ _ _ Hg) as [? ?]. split; [|done].
    apply lookup_insert_is_Some'. by right.
Qed.

Lemma version_change_ok d i v s :
  registry_ok d → agent_versions d !! i = Some v →
  registry_ok (set_versions (<[i := version_with s v]> (agent_versions d)) d).
Proof.
  intros [] Hv. split; simpl; registry_rest.
  - intros j b w Hb Hw. destruct (rg_default0 _ _ _ Hb Hw) as (r & Hr & ?).
    destruct (decide (w = i)) as [->|Hne]; [rewrite lookup_insert_eq|rewrite lookup_insert_ne by done];
      [|eauto]. simplify_eq. eexists. split; [done|]. done.
  - intros j w [[<- <-]|[_ Hw]]%lookup_insert_Some; [|eauto]. exact (rg_versions0 _ _ Hv).
  - by apply dense_status.
  - intros w j g Hg. destruct (rg_grants0 _ _ _ Hg) as [? ?]. split; [|done].
    apply lookup_insert_is_Some'. by right.
Qed.

Lemma tool_new_ok d t te name desc ty cfg :
  registry_ok d → tools d !! new_uuid t = None →
  ¬ Exists (λ r, tl_tenant_id r = te ∧ tl_name r = name) (rows (tools d)) →
  registry_ok (set_tools (<[new_uuid t :=
    MkTool (new_uuid t) te name desc ty cfg ToolStatus.ACTIVE (now t)]> (tools d)) d).
Proof.
  intros [] Hn Hex. destruct rg_tools0. split; simpl; registry_rest.
  - split; simpl; [| |done].
    + intros i r [[<- <-]|[_ Hi]]%lookup_insert_Some; eauto.
    + intros i j a b [[<- <-]|[Hi Ha]]%lookup_insert_Some [[<- <-]|[Hj Hb]]%lookup_insert_Some;
        simpl; intros Hte Hnm; [done| | |by eauto].
      * by destruct (not_taken _ _ _ _ Hex Hb).
      * by destruct (not_taken _ _ _ _ Hex Ha).
  - intros v i g Hg. destruct (rg_grants0 _ _ _ Hg) as [? ?]. split; [done|].
    apply lookup_insert_is_Some'. by right.
Qed.

Lemma tool_change_ok d i r s :
  registry_ok d → tools d !! i = Some r →
  registry_ok (set_tools (<[i := tool_with s r]> (tools d)) d).
Proof.
  intros [] Hr. destruct rg_tools0. split; simpl; registry_rest.
  - split; simpl; [| |done].
    + intros j b [[<- <-]|[_ Hj]]%lookup_insert_Some; simpl; eauto.
    + intros j k b c [[<- <-]|[Hj Hb]]%lookup_insert_Some [[<- <-]|[Hk Hc]]%lookup_insert_Some;
        simpl; eauto.
  - intros v j g Hg. destruct (rg_grants0 _ _ _ Hg) as [? ?]. split; [done|].
    apply lookup_insert_is_Some'. by right.
Qed.

Lemma change_ok d d' : registry_ok d → change d d' → registry_ok d'.
Proof.
  intros Hok Hc. destruct Hc as [|t te name desc Hn Hte Hex|t i a s dv Ha Hdv
    |t a spec caps cfg ma mx st Ha He Hn|i v s Hv|te rt a row Ha H1 H2 H3
    |t te name desc ty cfg Hn Hex|i r s Hr|t v i Hv Hi|v i].
  - done.
  - by apply agent_new_ok.
  - by apply agent_change_ok.
  - by apply version_new_ok.
  - by apply version_change_ok.
  - destruct Hok. split; simpl; registry_rest.
    intros k r [[<- <-]|[_ Hr]]%lookup_insert_Some; [|eauto]. by subst.
  - by apply tool_new_ok.
  - by apply tool_change_ok.
  - destruct Hok. split; simpl; registry_rest.
    + destruct rg_tools0. split; simpl; [done..|].
      intros k g [[<- <-]|[_ Hg]]%lookup_insert_Some; [done|eauto].
    + intros w j g [[[= <- <-] <-]|[_ Hg]]%lookup_insert_Some; [done|eauto].
  - destruct Hok. split; simpl; registry_rest.
    + destruct rg_tools0. split; simpl; [done..|].
      intros k g [_ Hg]%lookup_delete_Some. eauto.
    + intros w j g [_ Hg]%lookup_delete_Some. eauto.
Qed.

Lemma changes_ok d d' : registry_ok d → changes d d' → registry_ok d'.
Proof. intros Hok Hc. induction Hc; [done|]. eauto using change_ok. Qed.

(** ** What never changes *)

(** Agents, versions and tools are never deleted; a version changes in its
    status only, a tool too, an agent in its status, its released version
    and its timestamp. *)
Record evolves (d d' : db) : Prop := {
  ev_agents : ∀ i a, agents d !! i = Some a →
    ∃ s dv at_, agents d' !! i = Some (agent_with s dv at_ a);
  ev_versions : ∀ i v, agent_versions d !! i = Some v →
    ∃ s, agent_versions d' !! i = Some (version_with s v);
  ev_tools : ∀ i r, tools d !! i = Some r → ∃ s, tools d' !! i = Some (tool_with s r);
}.

Lemma agent_with_self a : agent_with (ag_status a) (ag_default_version_id a) (ag_updated_at a) a = a.
Proof. by destruct a. Qed.
Lemma version_with_self v : version_with (v_status v) v = v.
Proof. by destruct v. Qed.
Lemma tool_with_self r : tool_with (tl_status r) r = r.
Proof. by destruct r. Qed.

Lemma evolves_ext d d' :
  agents d' = agents d → agent_versions d' = agent_versions d → tools d' = tools d → evolves d d'.
Proof.
  intros H1 H2 H3. split.
  - intros i a Ha. exists (ag_status a), (ag_default_version_id a), (ag_updated_at a).
    by rewrite agent_with_self, H1.
  - intros i v Hv. exists (v_status v). by rewrite version_with_self, H2.
  - intros i r Hr. exists (tl_status r). by rewrite tool_with_self, H3.
Qed.

#[export] Instance evolves_refl : Reflexive evolves.
Proof. intros d. by apply evolves_ext. Qed.

#[export] Instance evolves_trans : Transitive evolves.
Proof.
  intros d1 d2 d3 [A1 V1 T1] [A2 V2 T2]. split.
  - intros i a (s & dv & at_ & (s' & dv' & at' & Ha)%A2)%A1. by exists s', dv', at'.
  - intros i v (s & (s' & Hv)%V2)%V1. by exists s'.
  - intros i r (s & (s' & Hr)%T2)%T1. by exists s'.
Qed.

Lemma change_evolves d d' : change d d' → evolves d d'.
Proof.
  pose proof (evolves_refl d) as [HA HV HT].
  intros Hc. destruct Hc; try (by apply evolves_ext); split; simpl; try done.
  - intros j b Hb. rewrite lookup_insert_ne by congruence. auto.
  - intros j b Hb. destruct (decide (j = i)) as [->|Hne].
    + simplify_eq. rewrite lookup_insert_eq. eauto.
    + rewrite lookup_insert_ne by done. auto.
  - intros j b Hb. rewrite lookup_insert_ne by congruence. auto.
  - intros j b Hb. destruct (decide (j = i)) as [->|Hne].
    + simplify_eq. rewrite lookup_insert_eq. eauto.
    + rewrite lookup_insert_ne by done. auto.
  - intros j b Hb. rewrite lookup_insert_ne by congruence. auto.
  - intros j b Hb. destruct (decide (j = i)) as [->|Hne].
    + simplify_eq. rewrite lookup_insert_eq. eauto.
    + rewrite lookup_insert_ne by done. auto.
Qed.

Lemma changes_evolves d d' : changes d d' → evolves d d'.
Proof. induction 1; [done|]. etrans; [by apply change_evolves|done]. Qed.
