(* ===== verification/Effects.v ===== *)
(** * What each transaction does to one task

    A task's view is its row, its timeline and its attempt rows.  [tstep i d
    d'] lists the six ways a transaction may change the view of task [i];
    the lemmas of this file show that every query function of the source
    changes every task's view in one of these ways only. *)

From S2P Require Import Prelude PyStr Json States Capability Policy Db Transitions Completion.
From S2P Require Import Lease Workers Claim Reap Tasks Agents Tools Frames.

(** ** Events that move a task *)

(** The state an event type announces; None for the purely informative ones. *)
Definition moves (ty : event_type) : option state :=
  match ty with
  | EventType.TASK_CREATED | EventType.RETRY_SCHEDULED | EventType.TASK_RECOVERED
  | EventType.TASK_ABANDONED => Some State.QUEUED
  | EventType.TASK_CLAIMED => Some State.RUNNING
  | EventType.TASK_SUCCEEDED => Some State.SUCCEEDED
  | EventType.TASK_FAILED => Some State.FAILED
  | EventType.TASK_CANCELLED => Some State.CANCELLED
  | _ => None
  end.

Definition quiet (evs : list event_row) : Prop := Forall (λ e, moves (ev_type e) = None) evs.

(** ** Views and steps *)

Definition same_view (i : uuid) (d d' : db) : Prop :=
  tasks d' !! i = tasks d !! i ∧ log d' i = log d i ∧
  ∀ a, task_attempts d' !! (i, a) = task_attempts d !! (i, a).

Definition same_attempts (i : uuid) (d d' : db) : Prop :=
  ∀ a, task_attempts d' !! (i, a) = task_attempts d !! (i, a).

(** Columns a renewal or a cancellation request leaves alone. *)
Definition touched (r r' : task_row) : Prop :=
  t_spec r' = t_spec r ∧ t_state r' = t_state r ∧ t_attempt r' = t_attempt r ∧
  t_lease_worker_id r' = t_lease_worker_id r ∧ t_result r' = t_result r ∧
  t_finished_at r' = t_finished_at r ∧ t_first_started_at r' = t_first_started_at r ∧
  t_state r = State.RUNNING ∧ task_ok r'.

Definition fresh_row (i : uuid) (r : task_row) : Prop :=
  t_id r = i ∧ t_state r = State.QUEUED ∧ t_attempt r = 0 ∧ t_lease_worker_id r = None ∧
  t_lease_expires_at r = None ∧ t_result r = None ∧ t_finished_at r = None ∧
  t_first_started_at r = None ∧ task_ok r.

Definition started (w : text) (r r' : task_row) : Prop :=
  t_spec r' = t_spec r ∧ t_state r = State.QUEUED ∧ t_state r' = State.RUNNING ∧
  t_attempt r' = t_attempt r + 1 ∧ t_lease_worker_id r' = Some w ∧ t_result r' = t_result r ∧
  t_finished_at r' = t_finished_at r ∧ is_Some (t_first_started_at r') ∧ task_ok r'.

Definition left_to (to : state) (r r' : task_row) : Prop :=
  t_spec r' = t_spec r ∧ t_state r = State.RUNNING ∧ t_state r' = to ∧
  is_legal State.RUNNING to = true ∧ t_attempt r' = t_attempt r ∧ t_lease_worker_id r' = None ∧
  t_lease_expires_at r' = None ∧ t_first_started_at r' = t_first_started_at r ∧
  (if decide (to = State.SUCCEEDED) then is_Some (t_result r') else t_result r' = t_result r) ∧
  (if is_terminal to then is_Some (t_finished_at r') else t_finished_at r' = t_finished_at r) ∧
  task_ok r'.

Definition stopped (r r' : task_row) : Prop :=
  t_spec r' = t_spec r ∧ t_state r = State.QUEUED ∧ t_state r' = State.CANCELLED ∧
  t_attempt r' = t_attempt r ∧ t_lease_worker_id r' = t_lease_worker_id r ∧
  t_lease_expires_at r' = t_lease_expires_at r ∧ t_first_started_at r' = t_first_started_at r ∧
  t_result r' = t_result r ∧ is_Some (t_finished_at r') ∧ task_ok r'.

(** An attempt row closed with outcome [o]. *)
Definition closes (o : outcome) (a a' : option attempt_row) : Prop :=
  match a, a' with
  | Some x, Some y => a_task_id y = a_task_id x ∧ a_attempt y = a_attempt x ∧
      a_worker_id y = a_worker_id x ∧ a_outcome y = Some o
  | None, None => True
  | _, _ => False
  end.

Inductive tstep (i : uuid) (d d' : db) : Prop :=
  | ts_quiet evs :
      tasks d' !! i = tasks d !! i → log d' i = log d i ++ evs → quiet evs →
      (tasks d !! i = None → evs = []) → same_attempts i d d' → tstep i d d'
  | ts_touch r r' evs :
      tasks d !! i = Some r → tasks d' !! i = Some r' → touched r r' →
      log d' i = log d i ++ evs → quiet evs → same_attempts i d d' → tstep i d d'
  | ts_create r' e :
      tasks d !! i = None → tasks d' !! i = Some r' → fresh_row i r' →
      log d' i = log d i ++ [e] → ev_type e = EventType.TASK_CREATED →
      same_attempts i d d' → tstep i d d'
  | ts_start w r r' e at_ :
      tasks d !! i = Some r → tasks d' !! i = Some r' → started w r r' →
      log d' i = log d i ++ [e] → ev_type e = EventType.TASK_CLAIMED →
      task_attempts d !! (i, t_attempt r + 1) = None →
      task_attempts d' !! (i, t_attempt r + 1) = Some at_ →
      a_task_id at_ = i → a_attempt at_ = t_attempt r + 1 → a_worker_id at_ = w →
      a_outcome at_ = None →
      (∀ a, a ≠ t_attempt r + 1 → task_attempts d' !! (i, a) = task_attempts d !! (i, a)) →
      tstep i d d'
  | ts_leave to o r r' e evs :
      tasks d !! i = Some r → tasks d' !! i = Some r' → left_to to r r' →
      (o = Outcome.SUCCEEDED ↔ to = State.SUCCEEDED) →
      log d' i = log d i ++ e :: evs → moves (ev_type e) = Some to → quiet evs →
      closes o (task_attempts d !! (i, t_attempt r)) (task_attempts d' !! (i, t_attempt r)) →
      (∀ a, a ≠ t_attempt r → task_attempts d' !! (i, a) = task_attempts d !! (i, a)) →
      tstep i d d'
  | ts_stop r r' e :
      tasks d !! i = Some r → tasks d' !! i = Some r' → stopped r r' →
      log d' i = log d i ++ [e] → ev_type e = EventType.TASK_CANCELLED →
      same_attempts i d d' → tstep i d d'.

Lemma same_view_refl i d : same_view i d d.
Proof. done. Qed.

Lemma same_view_trans i d1 d2 d3 : same_view i d1 d2 → same_view i d2 d3 → same_view i d1 d3.
Proof.
  intros (H1 & H2 & H3) (H4 & H5 & H6). split; [congruence|]. split; [congruence|].
  intros a. by rewrite H6.
Qed.

Lemma same_view_tstep i d d' : same_view i d d' → tstep i d d'.
Proof. intros (H1 & H2 & H3). apply (ts_quiet i d d' []); [done|by rewrite app_nil_r|constructor|done|done]. Qed.

Lemma tstep_same_l i d d1 d' : same_view i d d1 → tstep i d1 d' → tstep i d d'.
Proof.
  intros (H1 & H2 & H3) Ht. unfold same_attempts in *.
  destruct Ht; rewrite H1, ?H2, ?H3 in *; [eapply ts_quiet|eapply ts_touch|eapply ts_create|
    eapply ts_start|eapply ts_leave|eapply ts_stop];
    unfold same_attempts; rewrite ?H1, ?H2, ?H3; try done; try congruence;
    try (intros a; rewrite <-?H3; by auto); try (intros a Ha; rewrite <-H3; by auto).
Qed.

Lemma tstep_same_r i d d1 d' : tstep i d d1 → same_view i d1 d' → tstep i d d'.
Proof.
  intros Ht (H1 & H2 & H3). unfold same_attempts in *.
  destruct Ht; [eapply ts_quiet|eapply ts_touch|eapply ts_create|
    eapply ts_start|eapply ts_leave|eapply ts_stop];
    unfold same_attempts; rewrite ?H1, ?H2, ?H3; try done; try congruence;
    try (intros a; rewrite ?H3; by auto); try (intros a Ha; rewrite H3; by auto).
Qed.

(** ** Completions and renewals *)

Lemma other_row (i j : uuid) (r r' : task_row) d :
  j ≠ i → <[i := r']> (tasks d) !! j = tasks d !! j.
Proof. intros. by rewrite lookup_insert_ne. Qed.

Lemma log_set_tasks x d i : log (set_tasks x d) i = log d i.
Proof. done. Qed.
Lemma log_set_attempts x d i : log (set_attempts x d) i = log d i.
Proof. done. Qed.

Lemma log_moved t d i r' ty w data j :
  log (moved_db t d i r' ty w data) j =
  if decide (i = j) then log d j ++ [mk_event d t i (Some (t_attempt r')) ty (or_text (t_lease_worker_id r') w) data]
  else log d j.
Proof. unfold moved_db. rewrite log_add_event, log_set_tasks. reflexivity. Qed.

Lemma finished_attempts t d i a o ec em key :
  task_attempts (finished_db t d i a o ec em) !! key =
  if decide (key = (i, a)) then finish_row t o ec em <$> task_attempts d !! key
  else task_attempts d !! key.
Proof.
  unfold finished_db. simpl. case_decide as H; [subst; by rewrite lookup_alter_eq|].
  by rewrite lookup_alter_ne.
Qed.

Lemma closes_finish t o ec em a : closes o a (finish_row t o ec em <$> a).
Proof. by destruct a. Qed.

Lemma completed_left c t r : t_state r = State.RUNNING → task_ok (c_row c t r) → left_to (c_state c) r (c_row c t r).
Proof.
  intros Hs Hok. unfold left_to. destruct c; simpl in *; split_and!; eauto.
Qed.

Lemma run_completion_tstep c i a w t d res d' j :
  run_completion c i a w t d = inr (res, d') → tstep j d d'.
Proof.
  intros [(_ & -> & _)|(_ & r & Hr & (Hs & Ha & Hw) & Hok & _ & ->)]%run_completion_inv;
    [apply same_view_tstep, same_view_refl|].
  destruct (decide (j = i)) as [->|Hj].
  - eapply (ts_leave i d _ (c_state c) (c_outcome c) r (c_row c t r) _ []).
    + done.
    + simpl. by rewrite lookup_insert_eq.
    + by apply completed_left.
    + by destruct c.
    + unfold completed_db, finished_db. rewrite log_set_attempts, log_moved, decide_True by done. done.
    + by destruct c.
    + constructor.
    + unfold completed_db. rewrite finished_attempts, Ha, decide_True by done. apply closes_finish.
    + intros a' Ha'. unfold completed_db. rewrite finished_attempts, decide_False; [done|].
      congruence.
  - apply same_view_tstep. split; [|split].
    + simpl. by rewrite lookup_insert_ne.
    + unfold completed_db, finished_db. rewrite log_set_attempts, log_moved. by rewrite decide_False.
    + intros a'. unfold completed_db. rewrite finished_attempts, decide_False; [done|]. congruence.
Qed.

Lemma renew_tstep i w a ttl t d res d' j :
  renew_lease i w a ttl t d = inr (res, d') → tstep j d d'.
Proof.
  intros [[_ ->]|(r & Hr & ((Hs & _) & _) & Hok & _ & _ & ->)]%renew_lease_inv;
    [apply same_view_tstep, same_view_refl|].
  destruct (decide (j = i)) as [->|Hj].
  - apply (ts_touch i d _ r (renewed_row t ttl r) []); simpl.
    + done.
    + by rewrite lookup_insert_eq.
    + by repeat split.
    + by rewrite log_set_tasks, app_nil_r.
    + constructor.
    + done.
  - apply same_view_tstep. split; [|done]. simpl. by rewrite lookup_insert_ne.
Qed.

(** ** The reaper *)

Lemma reaped_left k t r :
  t_state r = State.RUNNING → task_ok r →
  left_to (lost_state (t_attempt r) (t_max_attempts r)) r (reaped_row k t r).
Proof.
  intros Hs Hok. pose proof (reaped_row_ok k t r Hok) as Hok'.
  pose proof (reaped_row_cols k t r) as (H1 & H2 & H3 & H4 & _ & H5 & H6).
  unfold left_to. rewrite H1, H2, H3, H4, H5, H6.
  unfold reaped_row, lost_state, lost_sets in *.
  destruct (_ <? _); simpl; split_and!; eauto.
Qed.

Lemma reaped_tstep k t d (r : task_row) j :
  tasks d !! t_id r = Some r → t_state r = State.RUNNING → task_ok r →
  (j = t_id r → tstep j d (reaped_db k t d r)) ∧ (j ≠ t_id r → same_view j d (reaped_db k t d r)).
Proof.
  intros Hr Hs Hok. split.
  - intros ->.
    set (lw := t_lease_worker_id r). set (a := t_attempt r). set (m := t_max_attempts r).
    set (d1 := moved_db t d (t_id r) (reaped_row k t r) (lost_event a m) None (lost_data a m lw)).
    eapply (ts_leave _ d _ (lost_state a m) Outcome.LOST r (reaped_row k t r) _
      [mk_event d1 t (t_id r) (Some a) EventType.WORKER_LOST lw (k_data k)]).
    + done.
    + rewrite reaped_tasks. by rewrite lookup_insert_eq.
    + by apply reaped_left.
    + unfold lost_state. by destruct (_ <? _).
    + unfold reaped_db, finished_db. cbv zeta. fold lw a m d1.
      rewrite log_set_attempts, log_add_event. simpl. rewrite decide_True by done.
      unfold d1 at 1. rewrite log_moved, decide_True by done. by rewrite <-app_assoc.
    + unfold lost_state. simpl. unfold lost_event. by destruct (_ <? _).
    + by repeat constructor.
    + rewrite reaped_attempts, decide_True by done. apply closes_finish.
    + intros a' Ha'. rewrite reaped_attempts, decide_False; [done|]. congruence.
  - intros Hj. split; [|split].
    + rewrite reaped_tasks. by rewrite lookup_insert_ne.
    + unfold reaped_db, finished_db. cbv zeta. rewrite log_set_attempts, log_add_event. simpl.
      rewrite decide_False by done. rewrite log_moved. by rewrite decide_False.
    + intros a'. rewrite reaped_attempts, decide_False; [done|]. congruence.
Qed.

Lemma reaped_fold_tstep k t rs d j :
  NoDup (ids_of rs) → (∀ r : task_row, r ∈ rs → is_lost k t d r ∧ task_ok r) →
  tstep j d (foldl (reaped_db k t) d rs) ∧
  (j ∉ ids_of rs → same_view j d (foldl (reaped_db k t) d rs)).
Proof.
  revert d. induction rs as [|r rs IH]; intros d Hnd Hrs; simpl.
  { split; [apply same_view_tstep|]; intros; apply same_view_refl. }
  apply NoDup_cons in Hnd as [Hnin Hnd].
  destruct (Hrs r) as [(Hr & Hs & _) Hok]; [by left|].
  destruct (reaped_tstep k t d r j Hr Hs Hok) as [Hat Hother].
  destruct (IH (reaped_db k t d r)) as [IHt IHs]; [done| |].
  { intros r' Hr'. destruct (Hrs r') as [(H1 & H2 & H3) H4]; [by right|]. split; [|done].
    split; [|done]. rewrite reaped_tasks, lookup_insert_ne; [done|].
    intros Heq. destruct Hnin. rewrite Heq. apply list_elem_of_fmap. eauto. }
  split.
  - destruct (decide (j = t_id r)) as [->|Hj].
    + eapply tstep_same_r; [by apply Hat|by apply IHs].
    + eapply tstep_same_l; [by apply Hother|done].
  - rewrite not_elem_of_cons. intros [Hj Hin]. eapply same_view_trans; auto.
Qed.

Lemma reap_batch_tstep k limit t d res d' j :
  ids_ok d → (∀ i r, tasks d !! i = Some r → task_ok r) →
  reap_batch k limit t d = inr (res, d') → tstep j d d'.
Proof.
  intros Hids Hok (_ & _ & ->)%reap_batch_inv; [|done..].
  apply reaped_fold_tstep; [by apply lost_rows_NoDup|].
  intros r [[Hr ?] ?]%elem_of_lost_rows; [|done]. split; [done|]. by eapply Hok.
Qed.

(** ** Claims *)

Lemma claimed_started t w ttl (r : task_row) :
  t_state r = State.QUEUED → task_ok (claimed_row t w ttl r) → started w r (claimed_row t w ttl r).
Proof. intros Hs Hok. unfold started. split_and!; simpl; eauto. Qed.

(** The attempts and the log a claim of [rs] leaves. *)
Lemma claimed_keys_spec t w ttl (rs : list task_row) j a :
  (j, a) ∈ attempt_keys (claimed_row t w ttl <$> rs) ↔
  ∃ r : task_row, r ∈ rs ∧ t_id r = j ∧ a = t_attempt r + 1.
Proof.
  unfold attempt_keys. rewrite list_elem_of_fmap. split.
  - intros (r' & [= -> ->] & (r & -> & Hr)%list_elem_of_fmap). exists r.
    by rewrite claimed_row_spec.
  - intros (r & Hr & <- & ->). exists (claimed_row t w ttl r). rewrite claimed_row_spec.
    split; [done|]. apply list_elem_of_fmap. eauto.
Qed.

Lemma claimed_attempts t w ttl rs d j a :
  task_attempts (claimed_db t w ttl rs d) !! (j, a) =
  if decide ((j, a) ∈ attempt_keys (claimed_row t w ttl <$> rs))
  then Some (MkAttempt j a w (now t) None None None None) else task_attempts d !! (j, a).
Proof.
  unfold claimed_db. cbv zeta. rewrite add_attempts_lookup. unfold claim_event.
  by rewrite row_events_attempts.
Qed.

Lemma claimed_log t w ttl rs d j :
  log (claimed_db t w ttl rs d) j =
  log (foldl (claim_event t w) (updated_db t d w ttl rs) (claimed_row t w ttl <$> rs)) j.
Proof. unfold claimed_db. cbv zeta. by rewrite add_attempts_log. Qed.

Lemma grant_tstep w limit ttl caps ids t d rows d' j :
  ids_ok d → chosen t d limit caps ids → grant_claimed w ttl ids t d = inr (rows, d') → tstep j d d'.
Proof.
  intros Hids Hch (rs & -> & [Hnd Hrow0] & Hq0 & -> & -> & Hok)%(chosen_inv t d limit caps); [|done..].
  assert (∀ r : task_row, r ∈ rs → tasks d !! t_id r = Some r ∧ t_state r = State.QUEUED) as Hq by auto.
  set (new := claimed_row t w ttl <$> rs).
  assert (ids_of new = ids_of rs) as Hnew by apply ids_of_claimed.
  pose proof (λ a, claimed_keys_spec t w ttl rs j a) as Hkeys.
  pose proof (λ a, claimed_attempts t w ttl rs d j a) as Hatt.
  pose proof (claimed_log t w ttl rs d j) as Hlog. fold new in Hkeys, Hatt, Hlog.
  destruct (decide (j ∈ ids_of rs)) as [Hj|Hj].
  - apply list_elem_of_fmap in Hj as (r & -> & Hr). destruct (Hq r Hr) as [Hrow Hs].
    destruct (row_events_log t EventType.TASK_CLAIMED (Some w) ∅ new (updated_db t d w ttl rs)
                (claimed_row t w ttl r)) as [n Hn]; [by rewrite Hnew| |].
    { apply list_elem_of_fmap. eauto. }
    destruct (Hok r Hr) as (Hok' & _ & Hfree & _).
    assert (∀ a, (t_id r, a) ∈ attempt_keys new ↔ a = t_attempt r + 1) as Hka.
    { intros a. rewrite Hkeys. split; [|eauto]. intros (r' & Hr' & Heq & ->).
      destruct (Hq r' Hr') as [Hrow' _]. rewrite Heq, Hrow in Hrow'. by simplify_eq. }
    eapply (ts_start _ d _ w r (claimed_row t w ttl r)).
    + done.
    + rewrite claimed_tasks, lookup_update_where, Hrow. simpl.
      rewrite bool_decide_eq_true_2; [done|]. apply list_elem_of_fmap. eauto.
    + by apply claimed_started.
    + rewrite Hlog. rewrite claimed_row_spec in Hn. exact Hn.
    + done.
    + done.
    + rewrite Hatt, decide_True by (by apply Hka). done.
    + done.
    + done.
    + done.
    + done.
    + intros a Ha. rewrite Hatt, decide_False; [done|]. by rewrite Hka.
  - apply same_view_tstep. split; [|split].
    + rewrite claimed_tasks, lookup_update_where. destruct (tasks d !! j) as [r|] eqn:Hr; [|done].
      simpl. rewrite (Hids _ _ Hr). by rewrite bool_decide_eq_false_2.
    + rewrite Hlog. unfold claim_event. rewrite row_events_log_ne by (by rewrite Hnew). done.
    + intros a. rewrite Hatt, decide_False; [done|]. rewrite Hkeys. intros (r & Hr & <- & _).
      apply Hj, list_elem_of_fmap. eauto.
Qed.

Lemma claim_tstep w limit ttl policy caps t d rows d' j :
  ids_ok d → claim_tasks w limit ttl policy caps t d = inr (rows, d') → tstep j d d'.
Proof.
  intros Hids H. destruct (claim_is_chosen w limit ttl policy caps t d Hids) as (ids & Hch & Heq).
  rewrite Heq in H. by eapply grant_tstep.
Qed.

(** ** Submissions and cancellations *)

Lemma submit_tstep te ty p key prio ma mx av ver caps t d res d' j :
  submit_task te ty p key prio ma mx av ver caps t d = inr (res, d') → tstep j d d'.
Proof.
  intros [(_ & -> & Hok & _ & Hnew & _)|(r & l & _ & -> & _)]%submit_inv;
    [|apply same_view_tstep, same_view_refl].
  set (row := submitted_row _ _ _ _ _ _ _ _ _ _ _) in *. unfold created_db.
  destruct (decide (j = new_uuid t)) as [->|Hj].
  - eapply (ts_create _ d _ row).
    + done.
    + simpl. by rewrite lookup_insert_eq.
    + by repeat split.
    + rewrite log_add_event. simpl. by rewrite decide_True.
    + done.
    + done.
  - apply same_view_tstep. split; [|split].
    + simpl. by rewrite lookup_insert_ne.
    + rewrite log_add_event. simpl. by rewrite decide_False.
    + done.
Qed.

Lemma flagged_touched t r : t_state r = State.RUNNING → task_ok r → touched r (flagged_row t r).
Proof. intros Hs Hok. pose proof (flagged_row_ok t r Hok). by repeat split. Qed.

Lemma cancelled_stopped t r : t_state r = State.QUEUED → task_ok r → stopped r (cancelled_row t r).
Proof. intros Hs Hok. pose proof (cancelled_row_ok t r Hok Hs). unfold stopped. split_and!; eauto. Qed.

Lemma disabled_stopped t reason r :
  t_state r = State.QUEUED → task_ok r → stopped r (disabled_row t reason r).
Proof.
  intros Hs Hok. pose proof (disabled_row_ok t reason r Hok Hs). unfold stopped. split_and!; eauto.
Qed.

Lemma cancel_tstep i t d res d' j :
  (∀ i r, tasks d !! i = Some r → task_ok r) → cancel_task i t d = inr (res, d') → tstep j d d'.
Proof.
  intros Hok. rewrite cancel_task_run by apply Hok. intros [= Hspec].
  assert (d' = (cancel_spec t d i).2) as -> by (by rewrite Hspec). clear Hspec.
  unfold cancel_spec. destruct (tasks d !! i) as [r|] eqn:Hr; [|apply same_view_tstep, same_view_refl].
  destruct (t_state r) eqn:Hs; [|destruct (t_cancel_requested r)|..];
    try (apply same_view_tstep, same_view_refl); simpl.
  - destruct (decide (j = i)) as [->|Hj].
    + eapply (ts_stop i d _ r (cancelled_row t r)); simpl.
      * done.
      * by rewrite lookup_insert_eq.
      * apply cancelled_stopped; [done|by eapply Hok].
      * unfold cancelled_db. rewrite log_moved. by rewrite decide_True.
      * done.
      * done.
    + apply same_view_tstep. split; [|split].
      * simpl. by rewrite lookup_insert_ne.
      * unfold cancelled_db. rewrite log_moved. by rewrite decide_False.
      * done.
  - destruct (decide (j = i)) as [->|Hj].
    + eapply (ts_touch i d _ r (flagged_row t r)); simpl.
      * done.
      * by rewrite lookup_insert_eq.
      * apply flagged_touched; [done|by eapply Hok].
      * unfold requested_db. rewrite log_add_event. simpl. by rewrite decide_True.
      * by repeat constructor.
      * done.
    + apply same_view_tstep. split; [|split].
      * simpl. by rewrite lookup_insert_ne.
      * unfold requested_db. rewrite log_add_event. simpl. by rewrite decide_False.
      * done.
Qed.

Lemma disable_tstep q rn vs reason t d res d' j :
  ids_ok d → (∀ i r, tasks d !! i = Some r → task_ok r) →
  cancel_found q rn vs reason t d = inr (res, d') → tstep j d d'.
Proof.
  intros Hids Hok H. destruct (decide (vs = [])) as [->|Hvs].
  { injection H as _ <-. apply same_view_tstep, same_view_refl. }
  rewrite cancel_found_run in H by done. injection H as _ <-.
  assert (tasks (disabled_db q rn vs reason t d) !! j = disable_row q rn vs reason t <$> tasks d !! j) as Hrow.
  { unfold disabled_db. rewrite !row_events_tasks. simpl. by rewrite lookup_fmap. }
  assert (same_attempts j d (disabled_db q rn vs reason t d)) as Hatt.
  { intros a. unfold disabled_db. by rewrite !row_events_attempts. }
  destruct (tasks d !! j) as [r|] eqn:Hr; simpl in Hrow.
  - destruct (disabled_log q rn vs reason t d j r Hids Hr) as (H1 & H2 & H3).
    unfold disable_row in Hrow. destruct (disable_queued q vs r) eqn:Eq.
    + destruct (H1 eq_refl) as [n Hn]. apply andb_true_iff in Eq as [_ Eq].
      apply bool_decide_eq_true in Eq.
      eapply (ts_stop j d _ r); [done|done| |done|done|done].
      apply disabled_stopped; [done|by eapply Hok].
    + destruct (disable_running rn vs r) eqn:Er.
      * destruct (H2 eq_refl) as [n Hn]. apply andb_true_iff in Er as [[_ Er]%andb_true_iff _].
        apply bool_decide_eq_true in Er.
        eapply (ts_touch j d _ r); [done|done| |done| |done]; [|by repeat constructor].
        apply flagged_touched; [done|by eapply Hok].
      * apply (ts_quiet _ _ _ []); [congruence| |constructor|done|done].
        rewrite app_nil_r. auto.
  - apply (ts_quiet _ _ _ []); [congruence| |constructor|done|done]. rewrite app_nil_r.
    unfold disabled_db. rewrite !row_events_log_ne; [done|..].
    + intros (r & -> & Hin)%list_elem_of_fmap. rewrite elem_of_queued_hit in Hin by done.
      destruct Hin as (r0 & -> & _ & Hr0). change (tasks d !! t_id r0 = None) in Hr. congruence.
    + intros (r & -> & Hin)%list_elem_of_fmap. rewrite elem_of_running_hit in Hin by done.
      destruct Hin as (r0 & -> & _ & Hr0). change (tasks d !! t_id r0 = None) in Hr. congruence.
Qed.

(** ** Transactions that leave tasks alone *)

Definition frame (d d' : db) : Prop :=
  tasks d' = tasks d ∧ task_events d' = task_events d ∧ task_attempts d' = task_attempts d.

Lemma frame_refl d : frame d d.
Proof. done. Qed.

Lemma frame_same_view i d d' : frame d d' → same_view i d d'.
Proof.
  intros (H1 & H2 & H3). split; [by rewrite H1|]. split; [unfold log; by rewrite H2|].
  intros a. by rewrite H3.
Qed.

Lemma keeps_frame {A} (m : M A) `{!Keeps work m} t d a d' : m t d = inr (a, d') → frame d d'.
Proof. intros H%(keeps (f:=work)). unfold work in H. by simplify_eq. Qed.

Lemma keeps_tstep {A} (m : M A) `{!Keeps work m} t d a d' i : m t d = inr (a, d') → tstep i d d'.
Proof. intros H. apply same_view_tstep, frame_same_view. by apply (keeps_frame m t d a). Qed.
