(* ===== verification/Protocol.v ===== *)
(** * The protocol as a whole

    Every transaction of the source that can touch a task is a constructor
    of [step]; [reachable] closes the empty database under them, in any
    interleaving and at any times.  [vinv] is what holds of one task's view
    in every reachable state; the theorems at the end are the guarantees the
    control plane gives about tasks, attempts and timelines. *)

From S2P Require Import Prelude PyStr Json States Capability Policy Db Samples Transitions.
From S2P Require Import Completion Lease Workers Claim Reap Tasks Agents Tools Frames Registry.
From S2P Require Import Effects.

(** ** Timelines *)

(** The states a timeline announces, in order. *)
Definition trace (d : db) (i : uuid) : list state := omap (moves ∘ ev_type) (log d i).

(** A legal history: created QUEUED, then legal moves, ending in [s]. *)
Inductive history : list state → state → Prop :=
  | h_created : history [State.QUEUED] State.QUEUED
  | h_move l s s' : history l s → is_legal s s' = true → history (l ++ [s']) s'.

Definition claims (d : db) (i : uuid) : list event_row :=
  filter (λ e, ev_type e = EventType.TASK_CLAIMED) (log d i).

Lemma trace_app d d' i evs :
  log d' i = log d i ++ evs → trace d' i = trace d i ++ omap (moves ∘ ev_type) evs.
Proof. intros H. unfold trace. by rewrite H, omap_app. Qed.

Lemma claims_app d d' i evs :
  log d' i = log d i ++ evs →
  claims d' i = claims d i ++ filter (λ e, ev_type e = EventType.TASK_CLAIMED) evs.
Proof. intros H. unfold claims. by rewrite H, filter_app. Qed.

Lemma quiet_trace evs : quiet evs → omap (moves ∘ ev_type) evs = [].
Proof. induction 1 as [|e evs He _ IH]; simpl; [done|]. by rewrite He. Qed.

Lemma quiet_claims evs : quiet evs → filter (λ e, ev_type e = EventType.TASK_CLAIMED) evs = [].
Proof.
  induction 1 as [|e evs He _ IH]; [done|]. rewrite filter_cons, decide_False; [done|].
  intros Heq. by rewrite Heq in He.
Qed.

(** ** The invariant of one task *)

Record task_inv (d : db) (i : uuid) (r : task_row) : Prop := {
  ti_id : t_id r = i;
  ti_ok : task_ok r;
  ti_lease : t_state r ≠ State.RUNNING →
    t_lease_worker_id r = None ∧ t_lease_expires_at r = None;
  ti_attempts : ∀ a, is_Some (task_attempts d !! (i, a)) ↔ 1 ≤ a ≤ t_attempt r;
  ti_keys : ∀ a at_, task_attempts d !! (i, a) = Some at_ → a_task_id at_ = i ∧ a_attempt at_ = a;
  ti_open : ∀ a at_, task_attempts d !! (i, a) = Some at_ →
    (a_outcome at_ = None ↔ t_state r = State.RUNNING ∧ a = t_attempt r);
  ti_owner : ∀ at_, t_state r = State.RUNNING → task_attempts d !! (i, t_attempt r) = Some at_ →
    t_lease_worker_id r = Some (a_worker_id at_);
  ti_started : t_state r ∈ [State.RUNNING; State.SUCCEEDED; State.FAILED] → 1 ≤ t_attempt r;
  ti_success : ∀ a at_, task_attempts d !! (i, a) = Some at_ →
    (a_outcome at_ = Some Outcome.SUCCEEDED ↔ t_state r = State.SUCCEEDED ∧ a = t_attempt r);
  ti_result : is_Some (t_result r) ↔ t_state r = State.SUCCEEDED;
  ti_finished : is_Some (t_finished_at r) ↔ is_terminal (t_state r) = true;
  ti_first : is_Some (t_first_started_at r) ↔ 1 ≤ t_attempt r;
  ti_trace : history (trace d i) (t_state r);
  ti_claims : Z.of_nat (length (claims d i)) = t_attempt r;
}.

Definition vinv (d : db) (i : uuid) : Prop :=
  match tasks d !! i with
  | Some r => task_inv d i r
  | None => log d i = [] ∧ ∀ a, task_attempts d !! (i, a) = None
  end.

(** A task row changes in columns the invariant does not constrain. *)
Lemma task_inv_same d d' i r r' evs :
  task_inv d i r → log d' i = log d i ++ evs → quiet evs → same_attempts i d d' →
  t_spec r' = t_spec r → t_state r' = t_state r → t_attempt r' = t_attempt r →
  t_lease_worker_id r' = t_lease_worker_id r →
  (t_state r ≠ State.RUNNING → t_lease_expires_at r' = t_lease_expires_at r) →
  t_result r' = t_result r → t_finished_at r' = t_finished_at r →
  t_first_started_at r' = t_first_started_at r → task_ok r' → task_inv d' i r'.
Proof.
  intros [] Hlog Hq Hatt Hsp Hs Ha Hw He Hres Hfin Hfirst Hok.
  split; rewrite ?Hsp, ?Hs, ?Ha, ?Hw, ?Hres, ?Hfin, ?Hfirst; try done.
  - intros Hn. rewrite He by done. auto.
  - intros a. rewrite Hatt. auto.
  - intros a at_. rewrite Hatt. auto.
  - intros a at_. rewrite Hatt. auto.
  - intros at_ Hr. rewrite Hatt. auto.
  - intros a at_. rewrite Hatt. auto.
  - rewrite (trace_app _ _ _ _ Hlog), quiet_trace, app_nil_r; done.
  - rewrite (claims_app _ _ _ _ Hlog), quiet_claims, app_nil_r; done.
Qed.

Lemma task_inv_fresh d i r e :
  log d i = [e] → ev_type e = EventType.TASK_CREATED →
  (∀ a, task_attempts d !! (i, a) = None) → fresh_row i r → task_inv d i r.
Proof.
  intros Hlog He Hatt (Hid & Hs & Ha & Hw & Hex & Hres & Hfin & Hfirst & Hok).
  split; rewrite ?Hs, ?Ha, ?Hw, ?Hex, ?Hres, ?Hfin, ?Hfirst; try done.
  - intros a. rewrite Hatt. split; [by intros [? ?]|lia].
  - intros a at_. by rewrite Hatt.
  - intros a at_. by rewrite Hatt.
  - by intros [[=]|[[=]|[[=]|[]%elem_of_nil]%elem_of_cons]%elem_of_cons]%elem_of_cons.
  - intros a at_. by rewrite Hatt.
  - unfold trace. rewrite Hlog. simpl. rewrite He. constructor.
  - unfold claims. rewrite Hlog, filter_cons, decide_False by (by rewrite He). done.
Qed.

Lemma task_inv_start d d' i w r r' e at_ :
  task_inv d i r → started w r r' → log d' i = log d i ++ [e] →
  ev_type e = EventType.TASK_CLAIMED →
  task_attempts d' !! (i, t_attempt r + 1) = Some at_ →
  a_task_id at_ = i → a_attempt at_ = t_attempt r + 1 → a_worker_id at_ = w →
  a_outcome at_ = None →
  (∀ a, a ≠ t_attempt r + 1 → task_attempts d' !! (i, a) = task_attempts d !! (i, a)) →
  task_inv d' i r'.
Proof.
  intros [] (Hsp & Hs & Hs' & Ha & Hw & Hres & Hfin & Hfirst & Hok) Hlog He Hnew Hi Hn Hwk Ho Hold.
  assert (0 ≤ t_attempt r) as Hnn by (by apply task_ok_spec in ti_ok0 as (_ & [? _] & _)).
  split; rewrite ?Hsp, ?Hs', ?Ha, ?Hw, ?Hres, ?Hfin; try done.
  - intros a. destruct (decide (a = t_attempt r + 1)) as [->|Hne].
    + rewrite Hnew. split; [lia|eauto].
    + rewrite Hold, ti_attempts0 by done. lia.
  - intros a at' Hat. destruct (decide (a = t_attempt r + 1)) as [->|Hne].
    + rewrite Hnew in Hat. by simplify_eq.
    + rewrite Hold in Hat by done. auto.
  - intros a at' Hat. destruct (decide (a = t_attempt r + 1)) as [->|Hne].
    + rewrite Hnew in Hat. by simplify_eq.
    + rewrite Hold in Hat by done. rewrite (ti_open0 _ _ Hat), Hs. naive_solver.
  - intros at' _ Hat. rewrite Hnew in Hat. by simplify_eq.
  - lia.
  - intros a at' Hat. destruct (decide (a = t_attempt r + 1)) as [->|Hne].
    + rewrite Hnew in Hat. simplify_eq. split; [congruence|by intros [? _]].
    + rewrite Hold in Hat by done. rewrite (ti_success0 _ _ Hat), Hs. naive_solver.
  - rewrite ti_result0, Hs. done.
  - rewrite ti_finished0, Hs. done.
  - split; [lia|done].
  - rewrite (trace_app _ _ _ _ Hlog). simpl. rewrite He. econstructor; [exact ti_trace0|].
    by rewrite Hs.
  - rewrite (claims_app _ _ _ _ Hlog), filter_cons, decide_True by done.
    rewrite length_app, Nat2Z.inj_add, ti_claims0. done.
Qed.

Lemma task_inv_leave d d' i to o r r' e evs :
  task_inv d i r → left_to to r r' → (o = Outcome.SUCCEEDED ↔ to = State.SUCCEEDED) →
  log d' i = log d i ++ e :: evs → moves (ev_type e) = Some to → quiet evs →
  closes o (task_attempts d !! (i, t_attempt r)) (task_attempts d' !! (i, t_attempt r)) →
  (∀ a, a ≠ t_attempt r → task_attempts d' !! (i, a) = task_attempts d !! (i, a)) →
  task_inv d' i r'.
Proof.
  intros [] (Hsp & Hs & Hs' & Hlegal & Ha & Hw & Hex & Hfirst & Hres & Hfin & Hok) Ho Hlog He Hq
    Hcl Hold.
  assert (to ≠ State.RUNNING) as Hto by (by intros ->).
  assert (1 ≤ t_attempt r) as Hge by (apply ti_started0; rewrite Hs; by left).
  destruct (proj2 (ti_attempts0 (t_attempt r)) ltac:(lia)) as [old Hold1].
  rewrite Hold1 in Hcl. unfold closes in Hcl.
  destruct (task_attempts d' !! (i, t_attempt r)) as [new|] eqn:Hnew; [|done].
  destruct Hcl as (Hc1 & Hc2 & Hc3 & Hc4).
  split; rewrite ?Hsp, ?Hs', ?Ha, ?Hw, ?Hfirst, ?Hex; try done.
  - intros a. destruct (decide (a = t_attempt r)) as [->|Hne].
    + rewrite Hnew. split; [lia|eauto].
    + by rewrite Hold.
  - intros a at' Hat. destruct (decide (a = t_attempt r)) as [->|Hne].
    + rewrite Hnew in Hat. simplify_eq. rewrite Hc1, Hc2. auto.
    + rewrite Hold in Hat by done. auto.
  - intros a at' Hat. destruct (decide (a = t_attempt r)) as [->|Hne].
    + rewrite Hnew in Hat. simplify_eq. rewrite Hc4. naive_solver.
    + rewrite Hold in Hat by done. rewrite (ti_open0 _ _ Hat). naive_solver.
  - intros a at' Hat. destruct (decide (a = t_attempt r)) as [->|Hne].
    + rewrite Hnew in Hat. simplify_eq. rewrite Hc4. naive_solver.
    + rewrite Hold in Hat by done. rewrite (ti_success0 _ _ Hat), Hs. naive_solver.
  - case_decide as Hd; [by subst|]. rewrite Hres, ti_result0, Hs. naive_solver.
  - destruct (is_terminal to) eqn:Et; [done|]. rewrite Hfin, ti_finished0, Hs. done.
  - rewrite (trace_app _ _ _ _ Hlog). cbn [omap list_omap]. unfold compose at 1. rewrite He.
    rewrite quiet_trace by done. econstructor; [exact ti_trace0|]. by rewrite Hs.
  - rewrite (claims_app _ _ _ _ Hlog), filter_cons, decide_False.
    + by rewrite quiet_claims, app_nil_r.
    + intros Hce. rewrite Hce in He. by simplify_eq/=.
Qed.

Lemma task_inv_stop d d' i r r' e :
  task_inv d i r → stopped r r' → log d' i = log d i ++ [e] →
  ev_type e = EventType.TASK_CANCELLED → same_attempts i d d' → task_inv d' i r'.
Proof.
  intros [] (Hsp & Hs & Hs' & Ha & Hw & Hex & Hfirst & Hres & Hfin & Hok) Hlog He Hatt.
  split; rewrite ?Hsp, ?Hs', ?Ha, ?Hw, ?Hfirst, ?Hex, ?Hres; try done.
  - intros _. apply ti_lease0. by rewrite Hs.
  - intros a. rewrite Hatt. auto.
  - intros a at_. rewrite Hatt. auto.
  - intros a at_. rewrite Hatt. intros Hat. rewrite (ti_open0 _ _ Hat), Hs. naive_solver.
  - by intros [[=]|[[=]|[[=]|[]%elem_of_nil]%elem_of_cons]%elem_of_cons]%elem_of_cons.
  - intros a at_. rewrite Hatt. intros Hat. rewrite (ti_success0 _ _ Hat), Hs. naive_solver.
  - rewrite ti_result0, Hs. done.
  - rewrite (trace_app _ _ _ _ Hlog). simpl. rewrite He. econstructor; [exact ti_trace0|].
    by rewrite Hs.
  - rewrite (claims_app _ _ _ _ Hlog), filter_cons, decide_False by (by rewrite He).
    by rewrite filter_nil, app_nil_r.
Qed.

Lemma vinv_tstep d d' i : vinv d i → tstep i d d' → vinv d' i.
Proof.
  unfold vinv. intros Hinv Ht. destruct Ht as
    [evs Hrow Hlog Hq Hnone Hatt|r r' evs Hr Hr' Htch Hlog Hq Hatt|r' e Hr Hr' Hf Hlog He Hatt
    |w r r' e at_ Hr Hr' Hst Hlog He _ Hnew Hi Hn Hw Ho Hold
    |to o r r' e evs Hr Hr' Hl Ho Hlog He Hq Hcl Hold|r r' e Hr Hr' Hst Hlog He Hatt].
  - rewrite Hrow. destruct (tasks d !! i) as [r|] eqn:Hr.
    + eapply task_inv_same; try done. apply (ti_ok _ _ _ Hinv).
    + destruct Hinv as [Hl Hno]. split; [|intros a; by rewrite Hatt].
      by rewrite Hlog, Hl, Hnone.
  - rewrite Hr in Hinv. rewrite Hr'.
    destruct Htch as (? & ? & ? & ? & ? & ? & ? & ? & ?). by eapply task_inv_same.
  - rewrite Hr in Hinv. rewrite Hr'. destruct Hinv as [Hl Hno].
    eapply task_inv_fresh; [by rewrite Hlog, Hl|done| |done]. intros a. by rewrite Hatt.
  - rewrite Hr in Hinv. rewrite Hr'. by eapply task_inv_start.
  - rewrite Hr in Hinv. rewrite Hr'. by eapply task_inv_leave.
  - rewrite Hr in Hinv. rewrite Hr'. by eapply task_inv_stop.
Qed.

(** ** The system *)

(** One committed transaction. *)
Inductive step (t : txn) (d : db) : db → Prop :=
  | step_submit te ty p key prio ma mx av ver caps res d' :
      submit_task te ty p key prio ma mx av ver caps t d = inr (res, d') → step t d d'
  | step_claim w limit ttl policy caps rows d' :
      claim_tasks w limit ttl policy caps t d = inr (rows, d') → step t d d'
  | step_renew i w a ttl res d' :
      renew_lease i w a ttl t d = inr (res, d') → step t d d'
  | step_complete c i a w res d' :
      run_completion c i a w t d = inr (res, d') → step t d d'
  | step_reap k limit res d' :
      reap_batch k limit t d = inr (res, d') → step t d d'
  | step_cancel i res d' :
      cancel_task i t d = inr (res, d') → step t d d'
  | step_disable q rn vs reason n d' :
      cancel_found q rn vs reason t d = inr (n, d') → step t d d'
  | step_note i ty a w data u d' :
      moves ty = None → record_event i ty a w data t d = inr (u, d') → step t d d'
  | step_register w host pid cap caps row d' :
      register_worker w host pid cap caps t d = inr (row, d') → step t d d'
  | step_heartbeat w ok d' :
      heartbeat w t d = inr (ok, d') → step t d d'
  | step_status w s u d' :
      set_worker_status w s t d = inr (u, d') → step t d d'
  | step_sweep n ids d' :
      mark_dead_workers n t d = inr (ids, d') → step t d d'
  | step_tenant name mc mq row d' :
      create_tenant name mc mq t d = inr (row, d') → step t d d'
  | step_admin op u d' :
      run_admin op t d = inr (u, d') → step t d d'
  | step_audit te action rt out rid actor data u d' :
      record_audit te action rt out rid actor data t d = inr (u, d') → step t d d'
  | step_grant w limit ttl caps ids rows d' :      (* a claim that overlapped others: ClaimRace *)
      chosen t d limit caps ids → grant_claimed w ttl ids t d = inr (rows, d') → step t d d'.

Inductive steps : db → db → Prop :=
  | steps_refl d : steps d d
  | steps_snoc t d d1 d2 : steps d d1 → step t d1 d2 → steps d d2.

Definition reachable (d : db) : Prop := steps empty_db d.

(** What holds of the tables as a whole. *)
Record inv (d : db) : Prop := {
  inv_view : ∀ i, vinv d i;
  inv_keys : keys_unique d;
}.

Lemma vinv_row d i (r : task_row) : vinv d i → tasks d !! i = Some r → task_inv d i r.
Proof. unfold vinv. intros H Hr. by rewrite Hr in H. Qed.

Lemma inv_ids d : inv d → ids_ok d.
Proof. intros H i r Hr. eapply ti_id, vinv_row, Hr. by apply inv_view. Qed.

Lemma inv_ok d : inv d → ∀ i r, tasks d !! i = Some r → task_ok r.
Proof. intros H i r Hr. eapply ti_ok, vinv_row, Hr. by apply inv_view. Qed.

Lemma record_tstep i ty a w data t d u d' j :
  moves ty = None → record_event i ty a w data t d = inr (u, d') → tstep j d d'.
Proof.
  intros Hm ([r Hr] & _ & ->)%insert_event_inv.
  destruct (decide (j = i)) as [->|Hj].
  - eapply (ts_quiet i d _ [mk_event d t i a ty w data]); [done| | |by rewrite Hr|done].
    + rewrite log_add_event. simpl. by rewrite decide_True.
    + by repeat constructor.
  - apply same_view_tstep. split; [done|]. split; [|done].
    rewrite log_add_event. simpl. by rewrite decide_False.
Qed.

Lemma step_tstep t d d' i : inv d → step t d d' → tstep i d d'.
Proof.
  intros Hinv Hs. pose proof (inv_ids d Hinv) as Hids. pose proof (inv_ok d Hinv) as Hok.
  destruct Hs as [? ? ? ? ? ? ? ? ? ? ? d' H|? ? ? ? ? ? d' H|? ? ? ? ? d' H|? ? ? ? ? d' H
    |? ? ? d' H|? ? d' H|? ? ? ? ? d' H|? ? ? ? ? ? d' Hm H|w host pid cap caps row d' H|w ok d' H
    |w s u d' H|n ids d' H|name mc mq row d' H|op u d' H|te action rt out rid actor data u d' H
    |? ? ? ? ? ? d' Hch H];
    try exact (keeps_tstep _ _ _ _ _ _ H).
  - by eapply submit_tstep.
  - by eapply claim_tstep.
  - by eapply renew_tstep.
  - by eapply run_completion_tstep.
  - by eapply reap_batch_tstep.
  - by eapply cancel_tstep.
  - by eapply disable_tstep.
  - by eapply record_tstep.
  - by eapply grant_tstep.
Qed.

(** Only a submission adds a row. *)
Definition no_new_rows (d d' : db) : Prop :=
  ∀ i, is_Some (tasks d' !! i) → is_Some (tasks d !! i).

Lemma insert_no_new_rows d d' i r' :
  is_Some (tasks d !! i) → tasks d' = <[i := r']> (tasks d) → no_new_rows d d'.
Proof.
  intros Hr Heq j. rewrite Heq. destruct (decide (j = i)) as [->|Hj]; [done|].
  by rewrite lookup_insert_ne.
Qed.

Lemma same_rows d d' : tasks d' = tasks d → no_new_rows d d'.
Proof. intros H i. by rewrite H. Qed.

Lemma cancel_no_new_rows t d i : no_new_rows d (cancel_spec t d i).2.
Proof.
  unfold cancel_spec. destruct (tasks d !! i) as [r|] eqn:Hr; [|by apply same_rows].
  destruct (t_state r); [|destruct (t_cancel_requested r)|..]; simpl; try by apply same_rows.
  - eapply (insert_no_new_rows _ _ i); [by rewrite Hr|done].
  - eapply (insert_no_new_rows _ _ i); [by rewrite Hr|done].
Qed.

Lemma reaped_no_new_rows k t rs d :
  (∀ r : task_row, r ∈ rs → is_Some (tasks d !! t_id r)) →
  no_new_rows d (foldl (reaped_db k t) d rs).
Proof.
  revert d. induction rs as [|r rs IH]; intros d H; simpl; [by apply same_rows|].
  assert (no_new_rows d (reaped_db k t d r)) as Hone.
  { eapply (insert_no_new_rows _ _ (t_id r)); [|done]. apply H. by left. }
  intros j Hj. apply Hone. eapply IH; [|done]. intros r' Hr'. rewrite reaped_tasks.
  destruct (decide (t_id r' = t_id r)) as [->|Hne].
  - rewrite lookup_insert_eq. eauto.
  - rewrite lookup_insert_ne by done. apply H. by right.
Qed.

Lemma step_no_new_rows t d d' :
  inv d → step t d d' →
  no_new_rows d d' ∨
  ∃ te ty p key prio ma mx av ver caps,
    let row := submitted_row t te ty p key prio ma mx av ver caps in
    d' = created_db t row d ∧ select (same_key te key) (tasks d) = [] ∧ is_Some (tenants d !! te).
Proof.
  intros Hinv Hs. pose proof (inv_ids d Hinv) as Hids. pose proof (inv_ok d Hinv) as Hok.
  destruct Hs as [te ty p key prio ma mx av ver caps res d' H|w limit ttl policy caps rows d' H
    |i w a ttl res d' H|c i a w res d' H|k limit res d' H|i res d' H|q rn vs reason n d' H
    |i ty a w data u d' Hm H|w host pid cap caps row d' H|w ok d' H
    |w s u d' H|n ids d' H|name mc mq row d' H|op u d' H|te action rt out rid actor data u d' H
    |w limit ttl caps ids rows d' Hch H];
    try (left; apply same_rows, (keeps_frame _ _ _ _ _ H)).
  - apply submit_inv in H as [(_ & -> & _ & Hsel & _ & Hte)|(r & l & _ & -> & _)].
    + right. by exists te, ty, p, key, prio, ma, mx, av, ver, caps.
    + left. by apply same_rows.
  - left. apply claim_tasks_inv in H as (rs & _ & _ & -> & _); [|done].
    intros j. rewrite claimed_tasks, lookup_update_where. by rewrite fmap_is_Some.
  - left. apply renew_lease_inv in H as [[_ ->]|(r & Hr & _ & _ & _ & _ & ->)]; [by apply same_rows|].
    eapply (insert_no_new_rows _ _ i); [by rewrite Hr|done].
  - left. apply run_completion_inv in H as [(_ & -> & _)|(_ & r & Hr & _ & _ & _ & ->)];
      [by apply same_rows|]. eapply (insert_no_new_rows _ _ i); [by rewrite Hr|done].
  - left. apply reap_batch_inv in H as (_ & _ & ->); [|done..]. apply reaped_no_new_rows.
    intros r [(Hr & _) _]%elem_of_lost_rows; [|done]. rewrite Hr. eauto.
  - left. rewrite cancel_task_run in H by apply Hok. injection H as H.
    assert (d' = (cancel_spec t d i).2) as -> by (by rewrite H). apply cancel_no_new_rows.
  - left. destruct (decide (vs = [])) as [->|Hvs]; [injection H as _ <-; by apply same_rows|].
    rewrite cancel_found_run in H by done. injection H as _ <-. intros j.
    unfold disabled_db. rewrite !row_events_tasks. simpl. rewrite lookup_fmap. by rewrite fmap_is_Some.
  - left. apply insert_event_inv in H as (_ & _ & ->). by apply same_rows.
  - left. apply (chosen_inv t d limit caps) in H as (rs & _ & _ & _ & _ & -> & _); [|done..].
    intros j. rewrite claimed_tasks, lookup_update_where. by rewrite fmap_is_Some.
Qed.

(** A step pins what the submission pinned. *)
Lemma tstep_row i d d' (r : task_row) :
  tstep i d d' → tasks d !! i = Some r →
  ∃ r', tasks d' !! i = Some r' ∧ t_spec r' = t_spec r ∧ t_attempt r ≤ t_attempt r'.
Proof.
  intros Ht Hr. destruct Ht as
    [evs Hrow|r0 r' evs Hr0 Hr' Htch|r' e Hr0|w r0 r' e at_ Hr0 Hr' Hst
    |to o r0 r' e evs Hr0 Hr' Hl|r0 r' e Hr0 Hr' Hst]; simplify_eq.
  - rewrite Hrow. eauto with lia.
  - destruct Htch as (? & ? & Ha & _). exists r'. split_and!; [done|done|lia].
  - destruct Hst as (? & ? & ? & Ha & _). exists r'. split_and!; [done|done|lia].
  - destruct Hl as (? & ? & ? & ? & Ha & _). exists r'. split_and!; [done|done|lia].
  - destruct Hst as (? & ? & ? & Ha & _). exists r'. split_and!; [done|done|lia].
Qed.

(** A task that was there kept its immutable columns. *)
Lemma no_new_rows_back t d d' :
  inv d → step t d d' → no_new_rows d d' →
  ∀ i (r' : task_row), tasks d' !! i = Some r' →
    ∃ r : task_row, tasks d !! i = Some r ∧ t_spec r' = t_spec r.
Proof.
  intros Hinv Hs Hno i r' Hr'. destruct (Hno i) as [r Hr]; [eauto|]. exists r. split; [done|].
  destruct (tstep_row i d d' r) as (r'' & Hr'' & Hsp & _); [by eapply step_tstep|done|].
  by simplify_eq.
Qed.

Lemma inv_step t d d' : inv d → step t d d' → inv d'.
Proof.
  intros Hinv Hs. split.
  - intros i. eapply vinv_tstep; [by apply inv_view|by eapply step_tstep].
  - destruct (step_no_new_rows t d d' Hinv Hs)
      as [Hno|(te & ty & p & key & prio & ma & mx & av & ver & caps & -> & Hsel & _)].
    2: { apply created_keys_unique; [apply Hinv|done]. }
    pose proof (no_new_rows_back t d d' Hinv Hs Hno) as Hback.
    intros i j ri rj k Hi Hj. destruct (Hback _ _ Hi) as (r1 & H1 & ->), (Hback _ _ Hj) as (r2 & H2 & ->).
    by eapply (inv_keys _ Hinv).
Qed.

Lemma inv_empty : inv empty_db.
Proof. split; [by intros i|]. by intros i j ri rj k. Qed.

Lemma steps_trans d1 d2 d3 : steps d1 d2 → steps d2 d3 → steps d1 d3.
Proof. intros H1 H2. induction H2; [done|]. by eapply steps_snoc; [apply IHsteps|]. Qed.

Lemma inv_steps d d' : inv d → steps d d' → inv d'.
Proof. intros Hinv Hs. induction Hs; [done|]. eapply inv_step; [|done]. by apply IHHs. Qed.

Lemma inv_reachable d : reachable d → inv d.
Proof. apply inv_steps, inv_empty. Qed.

(** What a claim of a waiting task needs of the row. *)
Lemma queued_claimable d (r : task_row) :
  inv d → tasks d !! t_id r = Some r → t_state r = State.QUEUED →
  task_ok r ∧ task_attempts d !! (t_id r, t_attempt r + 1) = None.
Proof.
  intros Hinv Hr Hs. pose proof (vinv_row _ _ _ (inv_view d Hinv _) Hr) as Hi.
  split; [apply (ti_ok _ _ _ Hi)|]. apply eq_None_not_Some. rewrite (ti_attempts _ _ _ Hi). lia.
Qed.

(** ** Along a run *)

Lemma tstep_terminal d d' i (r : task_row) :
  tstep i d d' → tasks d !! i = Some r → is_terminal (t_state r) = true →
  tasks d' !! i = Some r ∧ same_attempts i d d'.
Proof.
  intros Ht Hr Hterm. destruct Ht as
    [evs Hrow Hlog Hq Hnone Hatt|r0 r' evs Hr0 Hr' Htch|r' e Hr0|w r0 r' e at_ Hr0 Hr' Hst
    |to o r0 r' e evs Hr0 Hr' Hl|r0 r' e Hr0 Hr' Hst]; simplify_eq.
  - by rewrite Hrow.
  - destruct Htch as (_ & _ & _ & _ & _ & _ & _ & Hs & _). by rewrite Hs in Hterm.
  - destruct Hst as (_ & Hs & _). by rewrite Hs in Hterm.
  - destruct Hl as (_ & Hs & _). by rewrite Hs in Hterm.
  - destruct Hst as (_ & Hs & _). by rewrite Hs in Hterm.
Qed.

Lemma tstep_closed d d' i a x o :
  vinv d i → tstep i d d' → task_attempts d !! (i, a) = Some x → a_outcome x = Some o →
  task_attempts d' !! (i, a) = Some x.
Proof.
  intros Hv Ht Hx Ho. destruct Ht as
    [evs Hrow Hlog Hq Hnone Hatt|r0 r' evs Hr0 Hr' Htch _ _ Hatt|r' e Hr0 _ _ _ _ Hatt
    |w r0 r' e at_ Hr0 Hr' Hst _ _ Hfree _ _ _ _ _ Hold
    |to o' r0 r' e evs Hr0 Hr' Hl _ _ _ _ _ Hold|r0 r' e Hr0 Hr' Hst _ _ Hatt];
    rewrite ?Hatt; try done.
  - rewrite Hold; [done|]. by intros ->; simplify_eq.
  - rewrite Hold; [done|]. intros ->. pose proof (vinv_row _ _ _ Hv Hr0) as Hi.
    destruct Hl as (_ & Hs & _).
    assert (a_outcome x = None) as Hn by (by apply (ti_open _ _ _ Hi _ _ Hx)). congruence.
Qed.

(** Lifting a stable property of views along a run. *)
Lemma steps_ind_inv (P : db → Prop) d d' :
  inv d → P d → (∀ t d1 d2, inv d1 → steps d d1 → P d1 → step t d1 d2 → P d2) → steps d d' → P d'.
Proof.
  intros Hinv HP Hstep Hs. revert HP Hstep. induction Hs as [d|t d d1 d2 Hs IH Hst]; [done|].
  intros HP Hstep. eapply Hstep; [by eapply inv_steps|done| |done]. by apply IH.
Qed.
