(* ===== verification/Scenario.v ===== *)
(** * A concrete run

    One tenant, two workers and one task: [w1] claims it and dies, the reaper
    takes it back, [w2] claims it again and finishes it.  The witnesses of
    the system-wide guarantees are taken along this run. *)

From S2P Require Import Prelude PyStr Json States Authz Capability Policy Db Samples Transitions.
From S2P Require Import Completion Lease Workers Claim Reap Tasks Agents Tools Frames Registry.
From S2P Require Import Effects Protocol.

(** The tables after a transaction, committed or rolled back. *)
Definition after {A} (m : M A) (t : txn) (d : db) : db := (transaction m t d).2.

Definition txn_new (s : Z) (i : uuid) : txn :=
  MkTxn (us s) ∅ i (λ q, (Qnum q * second) / Zpos (Qden q)) (λ _ _, 0).

Definition sc_tenant : db := after (create_tenant "acme" 2 10) (txn_new 1 1) empty_db.
Definition sc_w1 : db := after (register_worker "w1" "host" 1 4 []) (txn_at 2) sc_tenant.
Definition sc_w2 : db := after (register_worker "w2" "host" 2 4 []) (txn_at 3) sc_w1.
Definition sc_submitted : db :=
  after (submit_task 1 "demo" {[ "n" := JNum 1 ]} (Some "key-1") 100 3 300 None None [])
    (txn_new 10 5) sc_w2.
Definition sc_claimed : db :=
  after (claim_tasks "w1" 1 30 DEFAULT_POLICY []) (txn_at 20) sc_submitted.
Definition sc_reaped : db := after (reap_batch Lease 10) (txn_at 60) sc_claimed.
Definition sc_reclaimed : db :=
  after (claim_tasks "w2" 1 30 DEFAULT_POLICY []) (txn_at 70) sc_reaped.
Definition sc_done : db :=
  after (run_completion (CSuccess ∅) 5 2 "w2") (txn_at 80) sc_reclaimed.

(** Each of them committed, so each is one step of the protocol. *)
Lemma after_step {A} (m : M A) t d :
  (∀ x d', m t d = inr (x, d') → step t d d') →
  (match m t d with inl _ => false | inr _ => true end) = true → step t d (after m t d).
Proof.
  intros Hs. unfold after, transaction. destruct (m t d) as [|[x d']] eqn:E; [done|].
  intros _. simpl. by eapply Hs.
Qed.

Lemma sc_step_tenant : step (txn_new 1 1) empty_db sc_tenant.
Proof. apply after_step; [intros; by eapply step_tenant|reflexivity]. Qed.
Lemma sc_step_w1 : step (txn_at 2) sc_tenant sc_w1.
Proof. apply after_step; [intros; by eapply step_register|vm_compute; reflexivity]. Qed.
Lemma sc_step_w2 : step (txn_at 3) sc_w1 sc_w2.
Proof. apply after_step; [intros; by eapply step_register|vm_compute; reflexivity]. Qed.
Lemma sc_step_submitted : step (txn_new 10 5) sc_w2 sc_submitted.
Proof. apply after_step; [intros; by eapply step_submit|vm_compute; reflexivity]. Qed.
Lemma sc_step_claimed : step (txn_at 20) sc_submitted sc_claimed.
Proof. apply after_step; [intros; by eapply step_claim|vm_compute; reflexivity]. Qed.
Lemma sc_step_reaped : step (txn_at 60) sc_claimed sc_reaped.
Proof. apply after_step; [intros; by eapply step_reap|vm_compute; reflexivity]. Qed.
Lemma sc_step_reclaimed : step (txn_at 70) sc_reaped sc_reclaimed.
Proof. apply after_step; [intros; by eapply step_claim|vm_compute; reflexivity]. Qed.
Lemma sc_step_done : step (txn_at 80) sc_reclaimed sc_done.
Proof. apply after_step; [intros; by eapply step_complete|vm_compute; reflexivity]. Qed.

Lemma sc_submitted_reachable : reachable sc_submitted.
Proof.
  eapply steps_snoc; [|apply sc_step_submitted]. eapply steps_snoc; [|apply sc_step_w2].
  eapply steps_snoc; [|apply sc_step_w1]. eapply steps_snoc; [|apply sc_step_tenant].
  apply steps_refl.
Qed.

Lemma sc_claimed_reachable : reachable sc_claimed.
Proof. eapply steps_snoc; [apply sc_submitted_reachable|apply sc_step_claimed]. Qed.
Lemma sc_reaped_reachable : reachable sc_reaped.
Proof. eapply steps_snoc; [apply sc_claimed_reachable|apply sc_step_reaped]. Qed.
Lemma sc_reclaimed_reachable : reachable sc_reclaimed.
Proof. eapply steps_snoc; [apply sc_reaped_reachable|apply sc_step_reclaimed]. Qed.
Lemma sc_done_reachable : reachable sc_done.
Proof. eapply steps_snoc; [apply sc_reclaimed_reachable|apply sc_step_done]. Qed.

Lemma sc_reaped_to_done : steps sc_reaped sc_done.
Proof.
  eapply steps_snoc; [|apply sc_step_done]. eapply steps_snoc; [|apply sc_step_reclaimed].
  apply steps_refl.
Qed.

(** ** A registry run

    An agent with two versions, the first released and routed for
    "research"; the tool "search", granted to the first version. *)

Definition rg_tenant : db := sc_tenant.
Definition rg_agent : db :=
  after (run_admin (CreateAgent 1 "researcher" None)) (txn_new 2 20) rg_tenant.
Definition rg_v1 : db :=
  after (run_admin (CreateVersion 20 (Some {[ "task_type" := JStr "demo.tools" ]}) ["Internet"] None
    2 60 VersionStatus.DRAFT)) (txn_new 3 21) rg_agent.
Definition rg_v2 : db :=
  after (run_admin (CreateVersion 20 None [] None 3 300 VersionStatus.DRAFT)) (txn_new 4 22) rg_v1.
Definition rg_tool : db :=
  after (run_admin (CreateTool 1 "search" ToolType.SIMULATED None None)) (txn_new 5 30) rg_v2.
Definition rg_granted : db := after (run_admin (GrantTool 21 30)) (txn_at 6) rg_tool.
Definition rg_active : db :=
  after (run_admin (ActivateVersion 20 21 None true)) (txn_at 7) rg_granted.
Definition rg_routed : db := after (run_admin (SetRoute 1 "research" 20)) (txn_at 8) rg_active.

Lemma rg_step op t d :
  (match run_admin op t d with inl _ => false | inr _ => true end) = true →
  step t d (after (run_admin op) t d).
Proof. apply after_step. intros u d'. apply step_admin. Qed.

Ltac rg_steps :=
  repeat (eapply steps_snoc; [|apply rg_step; vm_compute; reflexivity]);
  eapply steps_snoc; [apply steps_refl|apply sc_step_tenant].

Lemma rg_v2_reachable : reachable rg_v2.
Proof. unfold reachable, rg_v2, rg_v1, rg_agent, rg_tenant. rg_steps. Qed.

Lemma rg_routed_reachable : reachable rg_routed.
Proof.
  unfold reachable, rg_routed, rg_active, rg_granted, rg_tool, rg_v2, rg_v1, rg_agent, rg_tenant.
  rg_steps.
Qed.
