(* ===== verification/Gauges.v ===== *)
(** * The gauges read from the tables (obs/gauges.py)

    Four queries and what [refresh_once] does with their rows.  The
    statements of a refresh share [now()] but not a snapshot, so each gets
    the tables as it sees them.  A labelled gauge is the map from its label
    to its value; how a scrape renders it is the client library's. *)

From S2P Require Import Prelude PyStr Json States Authz Db Samples Transitions Completion Lease.
From S2P Require Import Workers Claim Reap Tasks Agents Tools Frames Registry Effects Protocol.
From S2P Require Import Scenario.
#[local] Open Scope Z_scope.

(** ** The queries *)

Definition count_of {A} (p : A → bool) (l : list A) : Z := Z.of_nat (length (filter (λ x, p x = true) l)).

Definition is_runnable (t : txn) (r : task_row) : bool :=
  bool_decide (t_state r = State.QUEUED) && (t_available_at r <=? now t).
Definition is_running (r : task_row) : bool := bool_decide (t_state r = State.RUNNING).

(** [tenants te LEFT JOIN tasks t ON t.tenant_id = te.id], the tasks of one
    [GROUP BY te.name] group; the row of NULLs of a tenant without tasks
    passes neither FILTER. *)
Definition group_tasks (d : db) (name : text) : list task_row :=
  te ← select (λ te, bool_decide (te_name te = name)) (tenants d);
  select (λ r : task_row, bool_decide (t_tenant_id r = te_id te)) (tasks d).

Record queue_row := MkQueueRow { qr_tenant : text; qr_runnable : Z; qr_running : Z }.

Definition QUEUE_SQL (t : txn) (d : db) : list queue_row :=
  (λ name, MkQueueRow name (count_of (is_runnable t) (group_tasks d name))
             (count_of is_running (group_tasks d name)))
  <$> remove_dups (te_name <$> rows (tenants d)).

Definition BACKLOG_SQL (t : txn) (d : db) : Z :=
  count_of (λ r : task_row, bool_decide (t_state r = State.QUEUED) && (now t <? t_available_at r))
    (rows (tasks d)).

(** [status::text]. *)
Definition status_text (s : worker_status) : text :=
  match s with
  | WorkerStatus.ALIVE => "ALIVE" | WorkerStatus.DRAINING => "DRAINING" | WorkerStatus.DEAD => "DEAD"
  end.

Definition WORKERS_SQL (d : db) : list (text * Z) :=
  (λ s, (s, count_of (λ w, bool_decide (status_text (w_status w) = s)) (rows (workers d))))
  <$> remove_dups (status_text ∘ w_status <$> rows (workers d)).

Definition PENDING_SQL (t : txn) (d : db) : Z :=
  count_of (λ r, bool_decide (t_state r = State.RUNNING) && lease_expired (now t) r) (rows (tasks d)).

(** ** The gauges *)

Record gauges := MkGauges {
  queue_depth : gmap text Z;
  tasks_running : gmap text Z;
  workers_by_status : gmap text Z;
  tasks_backlogged : Z;
  leases_expired_pending : Z;
  global_queued : Z;  (** [_global_queued] *)
}.

(** [gauge.clear()] and then [gauge.labels(k).set(v)] for each row. *)
Definition set_all {A} (label : A → text) (value : A → Z) (l : list A) : gmap text Z :=
  foldl (λ m x, <[label x := value x]> m) ∅ l.

Definition refresh_once (t : txn) (d1 d2 d3 d4 : db) : gauges :=
  let rows := QUEUE_SQL t d1 in
  let worker_rows := WORKERS_SQL d3 in
  MkGauges (set_all qr_tenant qr_runnable rows) (set_all qr_tenant qr_running rows)
    (set_all fst snd worker_rows) (BACKLOG_SQL t d2) (PENDING_SQL t d4)
    (foldl (λ n row, n + qr_runnable row) 0 rows).

(** [run_refresher]: until it is stopped, a refresh or, when it fails, the
    gauges as they were.  The tables move on between the statements. *)
Inductive refresher : gauges * db → gauges * db → Prop :=
  | refresh_done t g d0 d1 d2 d3 d4 d5 :
      steps d0 d1 → steps d1 d2 → steps d2 d3 → steps d3 d4 → steps d4 d5 →
      refresher (g, d0) (refresh_once t d1 d2 d3 d4, d5)
  | refresh_failed g d0 d1 : steps d0 d1 → refresher (g, d0) (g, d1).

(** ** Tenants *)

(** Ids and names identify tenants, and every task has one. *)
Record tenancy (d : db) : Prop := {
  tn_id : ∀ i te, tenants d !! i = Some te → te_id te = i;
  tn_name : ∀ i j a b, tenants d !! i = Some a → tenants d !! j = Some b →
    te_name a = te_name b → i = j;
  tn_tasks : ∀ i (r : task_row), tasks d !! i = Some r → is_Some (tenants d !! t_tenant_id r);
}.

Lemma create_tenant_inv name mc mq t d row d' :
  create_tenant name mc mq t d = inr (row, d') →
  ¬ Exists (λ te, te_name te = name) (rows (tenants d)) ∧
  d' = set_tenants (<[new_uuid t := row]> (tenants d)) d ∧ tenants d !! new_uuid t = None ∧
  te_id row = new_uuid t ∧ te_name row = name.
Proof.
  unfold create_tenant. rewrite bind_run. cbn [ask]. rewrite bind_run. cbn [get].
  destruct (fits_int4 mc && fits_int4 mq); [|done]. simpl.
  case_bool_decide as Hn; [done|]. case_bool_decide as Hi; [done|].
  intros [= <- <-]. split_and!; [done|done| |done|done]. by apply eq_None_not_Some.
Qed.

Lemma tenancy_new name mc mq t d row d' :
  create_tenant name mc mq t d = inr (row, d') → tenancy d → tenancy d'.
Proof.
  intros (Hn & -> & Hi & Hid & Hnm)%create_tenant_inv [Tid Tn Tt]. simpl in *.
  assert (∀ j a, tenants d !! j = Some a → te_name a ≠ te_name row) as Hfree.
  { intros j a Ha Heq. apply Hn, Exists_exists. exists a. split; [apply elem_of_rows; eauto|congruence]. }
  split; simpl.
  - intros i te [[<- <-]|[_ H]]%lookup_insert_Some; eauto.
  - intros i j a b [[<- <-]|[? Ha]]%lookup_insert_Some [[<- <-]|[? Hb]]%lookup_insert_Some Heq; [done| | |eauto].
    + by destruct (Hfree _ _ Hb).
    + by destruct (Hfree _ _ Ha).
  - intros i r [te Hr]%Tt. destruct (decide (new_uuid t = t_tenant_id r)) as [->|Hne].
    + rewrite lookup_insert_eq. eauto.
    + rewrite lookup_insert_ne by done. eauto.
Qed.

Lemma tenancy_same d d' :
  tenancy d → tenants d' = tenants d →
  (∀ i (r' : task_row), tasks d' !! i = Some r' → is_Some (tenants d !! t_tenant_id r')) → tenancy d'.
Proof. intros [Tid Tn Tt] Heq Hr. split; rewrite ?Heq; eauto. Qed.

Lemma step_tenants t d d' : step t d d' →
  tenants d' = tenants d ∨ ∃ name mc mq row, create_tenant name mc mq t d = inr (row, d').
Proof.
  destruct 1 as [? ? ? ? ? ? ? ? ? ? ? d' H|? ? ? ? ? ? d' H|? ? ? ? ? d' H|? ? ? ? ? d' H
    |? ? ? d' H|? ? d' H|? ? ? ? ? d' H|? ? ? ? ? ? d' _ H|? ? ? ? ? ? d' H|? ? d' H
    |? ? ? d' H|? ? d' H|name mc mq row d' H|? ? d' H|? ? ? ? ? ? ? ? d' H
    |? ? ? ? ? ? d' _ H];
    try (left; exact (keeps (f := tenants) _ _ _ _ H)).
  right. by exists name, mc, mq, row.
Qed.

Lemma tenancy_step t d d' : inv d → tenancy d → step t d d' → tenancy d'.
Proof.
  intros Hinv Hten Hs. destruct (step_tenants t d d' Hs) as [Heq|(name & mc & mq & row & H)].
  2: by eapply tenancy_new.
  apply (tenancy_same d d' Hten Heq). intros i r' Hr'.
  destruct (step_no_new_rows t d d' Hinv Hs)
    as [Hno|(te & ty & p & key & prio & ma & mx & av & ver & caps & -> & _ & Hte)].
  - destruct (no_new_rows_back _ _ _ Hinv Hs Hno _ _ Hr') as (r & Hr & Hsp).
    rewrite Hsp. by eapply (tn_tasks _ Hten).
  - simpl in Hr'. apply lookup_insert_Some in Hr' as [[_ <-]|[_ Hr]]; [done|].
    by eapply (tn_tasks _ Hten).
Qed.

Lemma tenancy_reachable d : reachable d → tenancy d.
Proof.
  apply (steps_ind_inv tenancy); [apply inv_empty|by split|].
  intros t d1 d2 Hinv _ HP Hs. by eapply tenancy_step.
Qed.

(** ** Counting *)

Lemma count_of_app {A} (p : A → bool) l1 l2 : count_of p (l1 ++ l2) = count_of p l1 + count_of p l2.
Proof. unfold count_of. rewrite filter_app, length_app. lia. Qed.

Lemma count_of_cons {A} (p : A → bool) x l :
  count_of p (x :: l) = (if p x then 1 else 0) + count_of p l.
Proof. unfold count_of. rewrite filter_cons. case_decide as H; destruct (p x); simpl; try done; lia. Qed.

Lemma count_of_or {A} (p q r : A → bool) l :
  (∀ x, p x = q x || r x) → (∀ x, q x && r x = false) → count_of p l = count_of q l + count_of r l.
Proof.
  intros Hor Hand. induction l as [|x l IH]; [done|]. rewrite !count_of_cons, IH.
  specialize (Hor x). specialize (Hand x). destruct (p x), (q x), (r x); simpl in *; try done; lia.
Qed.

Lemma count_of_nonneg {A} (p : A → bool) l : 0 ≤ count_of p l.
Proof. unfold count_of. lia. Qed.

Lemma count_of_filter {A} (p q : A → bool) l :
  count_of p (filter (λ x, q x = true) l) = count_of (λ x, q x && p x) l.
Proof.
  induction l as [|x l IH]; [done|]. rewrite filter_cons, count_of_cons. case_decide as H.
  - rewrite count_of_cons, IH. by rewrite H.
  - rewrite IH. by destruct (q x).
Qed.

Lemma foldl_sum {A} (v : A → Z) l n : foldl (λ n x, n + v x) n l = n + foldl (λ n x, n + v x) 0 l.
Proof.
  revert n. induction l as [|x l IH]; intros n; cbn [foldl]; [lia|].
  rewrite (IH (n + v x)), (IH (0 + v x)). lia.
Qed.

Lemma foldl_sum_add {A} (v w : A → Z) l :
  foldl (λ n x, n + (v x + w x)) 0 l = foldl (λ n x, n + v x) 0 l + foldl (λ n x, n + w x) 0 l.
Proof.
  induction l as [|x l IH]; cbn [foldl]; [done|].
  rewrite (foldl_sum (λ x, v x + w x)), (foldl_sum v), (foldl_sum w). lia.
Qed.

Lemma foldl_sum_ext {A} (v w : A → Z) l :
  (∀ x, x ∈ l → v x = w x) → foldl (λ n x, n + v x) 0 l = foldl (λ n x, n + w x) 0 l.
Proof.
  induction l as [|x l IH]; intros H; cbn [foldl]; [done|].
  rewrite (foldl_sum v), (foldl_sum w), IH by (intros y Hy; apply H; by right).
  by rewrite (H x) by left.
Qed.

Lemma foldl_sum_zero {A} (v : A → Z) l : (∀ x, x ∈ l → v x = 0) → foldl (λ n x, n + v x) 0 l = 0.
Proof.
  intros H. rewrite (foldl_sum_ext v (λ _, 0)) by done. clear H. induction l; cbn [foldl]; [done|].
  by rewrite foldl_sum.
Qed.

(** Grouping by a key and summing up the groups counts every row once. *)
Lemma sum_indicator {K} `{EqDecision K} (k0 : K) (b : bool) ks :
  NoDup ks → (b = true → k0 ∈ ks) →
  foldl (λ n k, n + (if bool_decide (k0 = k) && b then 1 else 0)) 0 ks = if b then 1 else 0.
Proof.
  destruct b; intros Hnd Hin.
  2: { apply foldl_sum_zero. intros k _. by rewrite andb_false_r. }
  specialize (Hin eq_refl). induction Hnd as [|k ks Hk Hnd IH]; [by apply not_elem_of_nil in Hin|].
  cbn [foldl]. rewrite foldl_sum. apply elem_of_cons in Hin as [->|Hin].
  - rewrite bool_decide_eq_true_2 by done. rewrite foldl_sum_zero; [done|].
    intros k' Hk'. rewrite bool_decide_eq_false_2; [done|]. by intros ->.
  - rewrite IH by done. rewrite bool_decide_eq_false_2; [done|]. by intros ->.
Qed.

Lemma sum_groups {A K} `{EqDecision K} (p : A → bool) (key : A → K) ks l :
  NoDup ks → (∀ x, x ∈ l → p x = true → key x ∈ ks) →
  foldl (λ n k, n + count_of (λ x, bool_decide (key x = k) && p x) l) 0 ks = count_of p l.
Proof.
  intros Hnd. induction l as [|x l IH]; intros Hin.
  { by apply foldl_sum_zero. }
  rewrite count_of_cons, <-IH by (intros y Hy; apply Hin; by right).
  rewrite <-(sum_indicator (key x) (p x) ks Hnd) by (apply Hin; by left).
  rewrite <-foldl_sum_add. apply foldl_sum_ext. intros k _. by rewrite count_of_cons.
Qed.

Lemma count_of_ext {A} (p q : A → bool) l :
  (∀ x, x ∈ l → p x = q x) → count_of p l = count_of q l.
Proof.
  induction l as [|x l IH]; intros H; [done|].
  rewrite !count_of_cons, IH by (intros y Hy; apply H; by right). by rewrite (H x) by left.
Qed.

Lemma set_all_lookup {A} (label : A → text) (value : A → Z) l k v :
  NoDup (label <$> l) →
  set_all label value l !! k = Some v ↔ ∃ x, x ∈ l ∧ label x = k ∧ value x = v.
Proof.
  unfold set_all. induction l as [|x l IH] using rev_ind; intros Hnd.
  { simpl. split; [done|]. by intros (x & ?%not_elem_of_nil & _). }
  rewrite fmap_app, NoDup_app in Hnd. destruct Hnd as (Hl & Hx & _).
  rewrite foldl_app. cbn [foldl]. rewrite lookup_insert_Some, IH by done. split.
  - intros [[<- <-]|(Hne & y & Hy & <- & <-)].
    + exists x. rewrite elem_of_app, list_elem_of_singleton. auto.
    + exists y. rewrite elem_of_app. auto.
  - intros (y & Hy & <- & <-). apply elem_of_app in Hy as [Hy|Hy%list_elem_of_singleton].
    2: { subst y. by left. }
    right.
    split; [|eauto]. intros Heq. eapply Hx; [by apply list_elem_of_fmap_2|].
    rewrite <-Heq. by left.
Qed.

(** ** The rows of a refresh *)

Definition tasks_of (i : uuid) (d : db) : list task_row :=
  select (λ r : task_row, bool_decide (t_tenant_id r = i)) (tasks d).

Lemma tenant_names_NoDup d : tenancy d → NoDup (te_name <$> rows (tenants d)).
Proof.
  intros Hten. pose proof (NoDup_rows te_id (tenants d) (tn_id d Hten)) as Hnd%NoDup_fmap_1.
  apply NoDup_fmap_2_strong; [|done]. intros a b [i Ha]%elem_of_rows [j Hb]%elem_of_rows Heq.
  pose proof (tn_name d Hten _ _ _ _ Ha Hb Heq). by simplify_eq.
Qed.

Lemma filter_one {A} (p : A → bool) (x : A) l :
  NoDup l → x ∈ l → (∀ y, y ∈ l → p y = true ↔ y = x) → filter (λ y, p y = true) l = [x].
Proof.
  intros Hnd. induction Hnd as [|y l Hy Hnd IH]; intros Hx Hp; [by apply not_elem_of_nil in Hx|].
  rewrite filter_cons. apply elem_of_cons in Hx as [->|Hx].
  - rewrite decide_True by (by apply Hp; [left|]). f_equal.
    destruct (filter _ l) as [|z l'] eqn:E; [done|].
    assert (z ∈ filter (λ z, p z = true) l) as [Hz Hzl]%list_elem_of_filter by (rewrite E; by left).
    apply Hp in Hz as ->; [done|by right].
  - rewrite decide_False; [apply IH; [done|]; intros z Hz; apply Hp; by right|].
    intros H%Hp; [|by left]. by subst.
Qed.

Lemma group_tasks_of d i te :
  tenancy d → tenants d !! i = Some te → group_tasks d (te_name te) = tasks_of i d.
Proof.
  intros Hten Hte. unfold group_tasks.
  assert (select (λ te', bool_decide (te_name te' = te_name te)) (tenants d) = [te]) as ->;
    [apply filter_one|simpl; rewrite app_nil_r; unfold tasks_of; by rewrite (tn_id d Hten _ _ Hte)].
  - eapply NoDup_fmap_1. by apply tenant_names_NoDup.
  - apply elem_of_rows. eauto.
  - intros y [j Hy]%elem_of_rows. rewrite bool_decide_eq_true. split; [|by intros ->].
    intros Heq. pose proof (tn_name d Hten _ _ _ _ Hy Hte Heq). by simplify_eq.
Qed.

Lemma queue_labels t d : qr_tenant <$> QUEUE_SQL t d = remove_dups (te_name <$> rows (tenants d)).
Proof. unfold QUEUE_SQL. rewrite <-list_fmap_compose. apply list_fmap_id. Qed.

Lemma elem_of_queue_rows t d row :
  tenancy d → row ∈ QUEUE_SQL t d ↔
  ∃ i te, tenants d !! i = Some te ∧
    row = MkQueueRow (te_name te) (count_of (is_runnable t) (tasks_of i d))
            (count_of is_running (tasks_of i d)).
Proof.
  intros Hten. unfold QUEUE_SQL. rewrite list_elem_of_fmap. split.
  - intros (name & -> & H). rewrite elem_of_remove_dups, list_elem_of_fmap in H.
    destruct H as (te & -> & [i Hte]%elem_of_rows). exists i, te. split; [done|].
    by rewrite (group_tasks_of d i te).
  - intros (i & te & Hte & ->). exists (te_name te). rewrite (group_tasks_of d i te) by done.
    split; [done|]. rewrite elem_of_remove_dups, list_elem_of_fmap.
    exists te. split; [done|]. apply elem_of_rows. eauto.
Qed.

(** A gauge labelled by tenant has the tenants' names and nothing else. *)
Lemma tenant_gauge t d (v : queue_row → Z) (p : task_row → bool) :
  tenancy d → (∀ name l, v (MkQueueRow name (count_of (is_runnable t) l) (count_of is_running l)) = count_of p l) →
  ∀ name n, set_all qr_tenant v (QUEUE_SQL t d) !! name = Some n ↔
    ∃ i te, tenants d !! i = Some te ∧ te_name te = name ∧ n = count_of p (tasks_of i d).
Proof.
  intros Hten Hv name n. rewrite set_all_lookup.
  2: { rewrite queue_labels. apply NoDup_remove_dups. }
  setoid_rewrite (elem_of_queue_rows t d _ Hten). split.
  - intros (row & (i & te & Hte & ->) & <- & <-). exists i, te. by rewrite Hv.
  - intros (i & te & Hte & <- & ->). eexists. split; [by exists i, te|]. split; [done|apply Hv].
Qed.

Lemma sum_of_runnable t d : tenancy d →
  foldl (λ n row, n + qr_runnable row) 0 (QUEUE_SQL t d) = count_of (is_runnable t) (rows (tasks d)).
Proof.
  intros Hten. set (key := λ r : task_row, default "" (te_name <$> tenants d !! t_tenant_id r)).
  rewrite <-(sum_groups (is_runnable t) key (remove_dups (te_name <$> rows (tenants d)))).
  - unfold QUEUE_SQL. rewrite foldl_fmap. apply foldl_sum_ext. intros name H.
    rewrite elem_of_remove_dups, list_elem_of_fmap in H. destruct H as (te & -> & [i Hte]%elem_of_rows).
    simpl. rewrite (group_tasks_of d i te) by done. unfold tasks_of, select.
    rewrite count_of_filter. apply count_of_ext. intros r [j Hr]%elem_of_rows. f_equal.
    apply bool_decide_ext. unfold key. destruct (tn_tasks d Hten _ _ Hr) as [te' Hte']. rewrite Hte'.
    simpl. split; [intros Heq; congruence|]. intros Heq. by apply (tn_name d Hten _ _ _ _ Hte' Hte).
  - apply NoDup_remove_dups.
  - intros r [j Hr]%elem_of_rows _. rewrite elem_of_remove_dups, list_elem_of_fmap.
    unfold key. destruct (tn_tasks d Hten _ _ Hr) as [te Hte]. rewrite Hte. exists te.
    split; [done|]. apply elem_of_rows. eauto.
Qed.

(** ** What the gauges say *)

Lemma queued_split t l :
  count_of (λ r : task_row, bool_decide (t_state r = State.QUEUED)) l
  = count_of (is_runnable t) l
    + count_of (λ r : task_row, bool_decide (t_state r = State.QUEUED) && (now t <? t_available_at r)) l.
Proof.
  apply count_of_or; intros r; unfold is_runnable; case_bool_decide; simpl; try done;
    destruct (t_available_at r <=? now t) eqn:E1, (now t <? t_available_at r) eqn:E2; try done; lia.
Qed.

Lemma count_of_zero {A} (p : A → bool) l : count_of p l = 0 ↔ ∀ x, x ∈ l → p x = false.
Proof.
  induction l as [|x l IH].
  { split; [|done]. by intros _ x ?%not_elem_of_nil. }
  rewrite count_of_cons. pose proof (count_of_nonneg p l) as Hn. setoid_rewrite elem_of_cons. split.
  - intros H y [->|Hy]; destruct (p x) eqn:E; try done; try lia. apply IH; [lia|done].
  - intros H. rewrite (H x) by auto. simpl. apply IH. auto.
Qed.

Lemma status_text_inj : Inj (=) (=) status_text.
Proof. by intros [] []. Qed.

Lemma worker_gauge d s :
  set_all fst snd (WORKERS_SQL d) !! status_text s
  = let n := count_of (λ w, bool_decide (w_status w = s)) (rows (workers d)) in
    if bool_decide (n = 0) then None else Some n.
Proof.
  assert (Hlab : NoDup ((WORKERS_SQL d).*1)).
  { unfold WORKERS_SQL. rewrite <-list_fmap_compose, list_fmap_id. apply NoDup_remove_dups. }
  assert (Hcount : count_of (λ w, bool_decide (status_text (w_status w) = status_text s)) (rows (workers d))
                   = count_of (λ w, bool_decide (w_status w = s)) (rows (workers d))).
  { apply count_of_ext. intros w _. apply bool_decide_ext. split; [apply status_text_inj|by intros ->]. }
  cbv zeta. rewrite <-Hcount. apply option_eq. intros n. rewrite set_all_lookup by done.
  unfold WORKERS_SQL. setoid_rewrite list_elem_of_fmap. setoid_rewrite elem_of_remove_dups. split.
  - intros (x & (k & -> & [w [-> Hw]]%list_elem_of_fmap) & Hk & <-). simpl in Hk. simpl.
    rewrite Hk. rewrite bool_decide_eq_false_2; [done|]. intros H0.
    apply (proj1 (count_of_zero _ _) H0), bool_decide_eq_false_1 in Hw. done.
  - case_bool_decide as H0; [done|]. intros [= <-].
    destruct (decide (Exists (λ w, w_status w = s) (rows (workers d)))) as [(w & Hw & <-)%Exists_exists|Hn].
    { eexists (status_text (w_status w), _). split; [|by split]. exists (status_text (w_status w)).
      split; [by rewrite Hcount|]. apply list_elem_of_fmap. by exists w. }
    destruct H0. apply count_of_zero. intros w Hw. apply bool_decide_eq_false_2.
    intros ?%status_text_inj. apply Hn, Exists_exists. eauto.
Qed.

(** C27: what a refresh leaves in the gauges when no transaction commits
    between its statements. Queue depth and running counts have one series per
    tenant, with that tenant's tasks and nobody else's; worker counts have a
    series exactly for the statuses that occur, so nothing stale survives;
    the depth the API's admission reads and the backlog gauge add up to the
    QUEUED tasks; and the pending-leases gauge is zero exactly when there is
    nothing for the reaper's lease scan to recover. *)
Theorem refresh_correct t d : reachable d →
  let g := refresh_once t d d d d in
  (∀ name n, queue_depth g !! name = Some n ↔
     ∃ i te, tenants d !! i = Some te ∧ te_name te = name ∧
       n = count_of (is_runnable t) (tasks_of i d)) ∧
  (∀ name n, tasks_running g !! name = Some n ↔
     ∃ i te, tenants d !! i = Some te ∧ te_name te = name ∧ n = count_of is_running (tasks_of i d)) ∧
  (∀ s, workers_by_status g !! status_text s =
     let n := count_of (λ w, bool_decide (w_status w = s)) (rows (workers d)) in
     if bool_decide (n = 0) then None else Some n) ∧
  global_queued g + tasks_backlogged g
    = count_of (λ r : task_row, bool_decide (t_state r = State.QUEUED)) (rows (tasks d)) ∧
  (leases_expired_pending g = 0 ↔ ∀ r, ¬ is_lost Lease t d r).
Proof.
  intros Hd. pose proof (tenancy_reachable d Hd) as Hten. split_and!.
  - by apply tenant_gauge.
  - by apply tenant_gauge.
  - apply worker_gauge.
  - cbn [global_queued tasks_backlogged refresh_once]. rewrite sum_of_runnable by done.
    symmetry. apply queued_split.
  - simpl. unfold PENDING_SQL. rewrite count_of_zero. unfold is_lost. split.
    + intros H r (Hr & Hs & Hl). specialize (H r). rewrite bool_decide_eq_true_2 in H by done.
      simpl in *. rewrite H in Hl; [done|]. apply elem_of_rows. eauto.
    + intros H r [i Hr]%elem_of_rows. pose proof (inv_ids d (inv_reachable d Hd) _ _ Hr) as <-.
      specialize (H r). case_bool_decide; [|done]. simpl in *. destruct (lease_expired (now t) r); [|done].
      by destruct H.
Qed.

(** The depth admission reads was exact at an earlier moment of the run, or is
    still the initial zero. *)
Lemma cached_depth_was_exact d0 x :
  reachable d0 → rtc refresher (MkGauges ∅ ∅ ∅ 0 0 0, d0) x →
  steps d0 x.2 ∧
  (global_queued x.1 = 0 ∨ ∃ t d, steps d0 d ∧ steps d x.2 ∧
     global_queued x.1 = count_of (is_runnable t) (rows (tasks d))).
Proof.
  intros Hd0 H. revert x H. apply rtc_ind_r; simpl.
  { split; [apply steps_refl|by left]. }
  intros [g1 e1] [g2 e2] _ Hs [Hr IH]. simpl in *. inversion Hs as [t g a b1 b2 b3 b4 b5 H1 H2 H3 H4 H5|g a b1 H1]; subst.
  - assert (steps d0 b1) as H01 by (by eapply steps_trans).
    assert (steps b1 e2) as H12 by (exact (steps_trans _ _ _ H2 (steps_trans _ _ _ H3 (steps_trans _ _ _ H4 H5)))).
    split; [by eapply steps_trans|]. right. exists t, b1. split_and!; [done..|].
    simpl. by apply sum_of_runnable, tenancy_reachable, (steps_trans empty_db d0).
  - split; [by eapply steps_trans|]. destruct IH as [?|(t & d & ? & ? & ?)]; [by left|].
    right. exists t, d. split_and!; [done|by eapply steps_trans|done].
Qed.

(** After the lease of the only task ran out: one running, one to recover. *)
Lemma refresh_correct_witness :
  let g := refresh_once (txn_at 60) sc_claimed sc_claimed sc_claimed sc_claimed in
  reachable sc_claimed ∧ tasks_running g !! "acme" = Some 1 ∧ queue_depth g !! "acme" = Some 0 ∧
  workers_by_status g !! "ALIVE" = Some 2 ∧ global_queued g + tasks_backlogged g = 0 ∧
  leases_expired_pending g ≠ 0.
Proof.
  assert (reachable sc_claimed) as Hr by apply sc_claimed_reachable.
  assert (∃ te, tenants sc_claimed !! 1%N = Some te ∧ te_name te = "acme") as (te & Hte & Hn).
  { eexists. by split; [vm_compute; reflexivity|]. }
  assert (∃ r, is_lost Lease (txn_at 60) sc_claimed r) as [r Hlost].
  { exists (default (ex_queued 0 0) (tasks sc_claimed !! 5%N)).
    split_and!; vm_compute; reflexivity. }
  destruct (refresh_correct (txn_at 60) sc_claimed Hr) as (Hq & Hrun & Hw & Hsum & Hp).
  split_and!; [done| | |etrans; [apply (Hw WorkerStatus.ALIVE)|]; vm_compute; reflexivity|etrans; [exact Hsum|]; vm_compute; reflexivity|].
  - apply Hrun. exists 1%N, te. split_and!; [done..|vm_compute; reflexivity].
  - apply Hq. exists 1%N, te. split_and!; [done..|vm_compute; reflexivity].
  - intros H0. by apply (proj1 Hp H0 r).
Defined.
