(* ===== verification/ReaperLoop.v ===== *)
(** * The reaper process (reaper/loop.py)

    One sweep: a bounded number of lease batches, as many hung-task batches,
    then the liveness check of the workers, each in a transaction of its own,
    with anything else happening in between. *)

From S2P Require Import Prelude PyStr Json States Capability Policy Db Config Samples Transitions.
From S2P Require Import Completion Lease Workers Claim Reap Tasks Agents Tools Frames Registry.
From S2P Require Import Effects Protocol Scenario.

Record reaper_config := MkReaperConfig {
  rc_settings : Settings;
  rc_batch_size : Z;
  rc_max_batches : nat;
}.

(** [Reaper(settings=..)]. *)
Definition default_reaper (s : Settings) : reaper_config := MkReaperConfig s 100 50.

(** [requeued] and [failed], summed over the batches of one pass. *)
Definition totals : Type := Z * Z.

Definition add_batch (acc : totals) (res : ReapResult) : totals :=
  (acc.1 + requeued res, acc.2 + failed_exhausted res).

(** What the reaper counts and observes; a sweep's duration on its own clock
    is left out. *)
Inductive reaper_metric :=
  | RecoveryLatency (overdue_s : Q)
  | LeaseExpirations (n : Z)
  | TaskRecoveries (disposition : text) (n : Z)
  | HungTasksDetected (disposition : text) (n : Z)
  | WorkersMarkedDead (n : nat)
  | ReaperSweepDuration.

Definition counted {A} (n : Z) (m : A) : list A := if n =? 0 then [] else [m].

(** What a pass counts once it is over; the lease pass also observes how late
    each task of a batch was and counts the batch as it goes. *)
Definition pass_metrics (k : lost_kind) (tot : totals) : list reaper_metric :=
  let inc := match k with Lease => TaskRecoveries | Hung => HungTasksDetected end in
  counted tot.1 (inc "requeued" tot.1) ++ counted tot.2 (inc "failed_exhausted" tot.2).

Definition batch_metrics (k : lost_kind) (res : ReapResult) : list reaper_metric :=
  match k with
  | Lease => (RecoveryLatency <$> overdue_s res) ++ counted (reaped res) (LeaseExpirations (reaped res))
  | Hung => []
  end.

(** Why a pass ended: stopped from outside, broken off by a batch that was not
    full (with the transaction of that batch), or out of batches. *)
Inductive pass_end := Stopped | NotFull (t : txn) | OutOfBatches.

Section sweep.
Context (rc : reaper_config).

(** The loop of one pass with [n] batches to go. *)
Inductive pass (k : lost_kind)
    : nat → totals → db → totals → list reaper_metric → db → pass_end → Prop :=
  | pass_over acc d : pass k 0 acc d acc [] d OutOfBatches
  | pass_stopped n acc d : pass k (S n) acc d acc [] d Stopped
  | pass_break n acc d d1 t res d2 :
      steps d d1 →
      transaction (reap_batch k (rc_batch_size rc)) t d1 = (inr res, d2) →
      reaped res < rc_batch_size rc →
      pass k (S n) acc d (add_batch acc res) (batch_metrics k res) d2 (NotFull t)
  | pass_more n acc d d1 t res d2 acc' ms d' e :
      steps d d1 →
      transaction (reap_batch k (rc_batch_size rc)) t d1 = (inr res, d2) →
      rc_batch_size rc ≤ reaped res →
      pass k n (add_batch acc res) d2 acc' ms d' e →
      pass k (S n) acc d acc' (batch_metrics k res ++ ms) d' e.

(** [_sweep]. *)
Inductive sweep (d d' : db) : list reaper_metric → Prop :=
  | sweep_run lease ms1 d1 e1 hung ms2 d2 e2 d3 t dead :
      pass Lease (rc_max_batches rc) (0, 0) d lease ms1 d1 e1 →
      pass Hung (rc_max_batches rc) (0, 0) d1 hung ms2 d2 e2 →
      steps d2 d3 →
      transaction (mark_dead_workers (worker_dead_after_s (rc_settings rc))) t d3 = (inr dead, d') →
      sweep d d' (ms1 ++ pass_metrics Lease lease ++ ms2 ++ pass_metrics Hung hung
                  ++ match dead with [] => [] | _ => [WorkersMarkedDead (length dead)] end
                  ++ [ReaperSweepDuration]).

Lemma transaction_ok {A} (m : M A) t d a d' : transaction m t d = (inr a, d') → m t d = inr (a, d').
Proof. unfold transaction. destruct (m t d) as [|[a1 d1]]; by intros [= <- <-]. Qed.

Lemma pass_steps k n acc d acc' ms d' e : pass k n acc d acc' ms d' e → steps d d'.
Proof.
  induction 1 as [| |n acc d d1 t res d2 H1 H2%transaction_ok H3
    |n acc d d1 t res d2 acc' ms d' e H1 H2%transaction_ok H3 _ IH]; try apply steps_refl.
  - eapply steps_snoc; [done|by eapply step_reap].
  - eapply steps_trans; [|exact IH]. eapply steps_snoc; [done|by eapply step_reap].
Qed.

Lemma sweep_steps d d' ms : sweep d d' ms → steps d d'.
Proof.
  intros [lease ms1 d1 e1 hung ms2 d2 e2 d3 t dead H1%pass_steps H2%pass_steps H3 H4%transaction_ok].
  eapply steps_snoc; [|by eapply step_sweep].
  eapply steps_trans; [done|]. by eapply steps_trans.
Qed.

(** Nothing that a transaction [t] could lock is left for a pass of kind [k] at
    its time. *)
Definition drained (k : lost_kind) (t : txn) (d : db) : Prop :=
  ∀ i (r : task_row), tasks d !! i = Some r → t_state r = State.RUNNING → i ∉ locked t →
    lost k (now t) r = false.
End sweep.

Lemma reap_batch_counts k limit t d res d' :
  inv d → reap_batch k limit t d = inr (res, d') →
  0 ≤ requeued res ∧ 0 ≤ failed_exhausted res ∧
  (reaped res < limit → ∀ i (r : task_row), tasks d' !! i = Some r → t_state r = State.RUNNING →
     i ∉ locked t → lost k (now t) r = false).
Proof.
  intros Hinv H. pose proof (inv_ids d Hinv) as Hids. pose proof (inv_ok d Hinv) as Hok.
  destruct (reap_batch_inv k limit t d res d' Hids Hok H) as (Hfit & -> & ->).
  destruct (reap_batch_spec k limit t d Hids Hok Hfit)
    as (res1 & d1 & H1 & Hn & _ & Hle & _ & Hdrain).
  rewrite reap_batch_run in H1 by done. injection H1 as <- <-. split; [simpl; lia|]. split; [simpl; lia|].
  intros Hlt. apply Hdrain. lia.
Qed.

(** C29: a sweep drains the backlog. Each pass of a sweep is a run of the
    protocol. When it ends because a batch was not full, the tables then hold
    no RUNNING task whose lease had expired (or whose execution time was
    exceeded) at the time of that batch, other than those another transaction
    held locked from it; when it runs out of batches it has recovered at least
    [n] full batches. Stopped from outside, it promises only the first. *)
Theorem pass_drains rc k n d tot ms d' e :
  reachable d → pass rc k n (0, 0) d tot ms d' e →
  steps d d' ∧ (∀ t, e = NotFull t → drained k t d') ∧
  (e = OutOfBatches → Z.of_nat n * rc_batch_size rc ≤ tot.1 + tot.2).
Proof.
  intros Hd Hp. split; [by eapply pass_steps|].
  cut ((∀ t, e = NotFull t → drained k t d') ∧
       (e = OutOfBatches → (0, 0).1 + (0, 0).2 + Z.of_nat n * rc_batch_size rc ≤ tot.1 + tot.2)).
  { intros [? H]. split; [done|]. intros He. specialize (H He). simpl in H. lia. }
  revert Hd Hp. generalize (0, 0) as acc. intros acc Hd Hp.
  induction Hp as [acc d|n acc d|n acc d d1 t res d2 H1 H2%transaction_ok H3
    |n acc d d1 t res d2 acc' ms d' e H1 H2%transaction_ok H3 Hp IH].
  - split; [done|]. lia.
  - done.
  - split; [|done]. intros t' [= <-].
    destruct (reap_batch_counts k (rc_batch_size rc) t d1 res d2) as (_ & _ & Hdrain);
      [apply inv_reachable; by eapply steps_trans|done|]. exact (Hdrain H3).
  - destruct IH as [IH1 IH2].
    { eapply steps_snoc; [|by eapply step_reap]. by eapply steps_trans. }
    split; [done|]. intros He. specialize (IH2 He).
    unfold add_batch, reaped in *. simpl in IH2. lia.
Qed.

Lemma pass_drains_witness :
  ∃ tot ms d', pass (default_reaper default_settings) Lease 50 (0, 0) sc_claimed tot ms d'
                  (NotFull (txn_at 60)) ∧
    drained Lease (txn_at 60) d' ∧ tot = (1, 0).
Proof.
  destruct (transaction (reap_batch Lease 100) (txn_at 60) sc_claimed) as [[|res] d'] eqn:E;
    [vm_compute in E; discriminate|].
  assert (requeued res = 1 ∧ failed_exhausted res = 0) as [H1 H2].
  { vm_compute in E. injection E as <- _. split; reflexivity. }
  assert (pass (default_reaper default_settings) Lease 50 (0, 0) sc_claimed
            (add_batch (0, 0) res) (batch_metrics Lease res) d'
            (NotFull (txn_at 60))) as Hp.
  { eapply pass_break; [apply steps_refl|exact E|]. unfold reaped. rewrite H1, H2. reflexivity. }
  exists (add_batch (0, 0) res), (batch_metrics Lease res), d'. split; [exact Hp|]. split.
  - exact (proj1 (proj2 (pass_drains _ _ _ _ _ _ _ _ sc_claimed_reachable Hp)) (txn_at 60) eq_refl).
  - unfold add_batch. simpl. rewrite H1, H2. reflexivity.
Defined.
