(* ===== verification/WorkerRun.v ===== *)
(** * Runs of a worker

    [co_step] is one step of an attempt's coroutine, [main_step] one step of
    [run_forever] and [_drain]; each opens at most one transaction.  [sys]
    interleaves them with any other transaction of the system ([step]):
    other workers, the reaper, the API.  What an adapter or a tool answers,
    which coroutine runs next, and when time passes are left open. *)

From S2P Require Import Prelude PyStr Json States Errors Retry Policy Capability Authz Db Config.
From S2P Require Import Adapters Samples Transitions Completion Lease Workers Claim Reap Tasks.
From S2P Require Import Agents Tools Tracing Worker Frames Registry Effects Protocol.
From ITree Require Import ITree.
#[local] Open Scope Z_scope.

(** The tables after a transaction that answered [res]. *)
Abbreviation commits m t d res d' := (transaction m t d = (inr res, d')) (only parsing).
Abbreviation rolls_back m t d d' := (∃ e, transaction m t d = (inl e, d')) (only parsing).

Section run.
Context (cf : worker_config).

(** ** Coroutines *)

Inductive co_step (t : txn) : db * shared * coroutine → db * shared * coroutine → Prop :=
  (** the adapter *)
  | co_start d s c links :
      co_phase c = Created →
      link_of_payload (cf_span_valid cf) (t_payload (co_row c)) = inr links →
      co_step t (d, s, c) (d, (start_attempt cf c s).2, (start_attempt cf c s).1)
  | co_link_raises d s c exc :
      co_phase c = Created →
      link_of_payload (cf_span_valid cf) (t_payload (co_row c)) = inl exc →
      co_step t (d, s, c) (d, s, co_with c Ended)
  | co_tau d s c run run' :
      co_phase c = Executing run → observe run = TauF run' →
      co_step t (d, s, c) (d, s, co_with c (Executing run'))
  | co_poll d s c run k :
      co_phase c = Executing run → observe run = VisF IsCancelled k →
      co_step t (d, s, c) (d, s, co_with c (Executing (k (co_cancelled c))))
  | co_call d s c run name request k :
      co_phase c = Executing run → observe run = VisF (CallTool name request) k →
      co_step t (d, s, c) (d, s, co_with c (Deciding name request k))
  | co_return d s c run x :
      co_phase c = Executing run → observe run = RetF x →
      co_step t (d, s, c) (d, s, co_stopped c (Joining (adapter_outcome x)))
  (** a tool call *)
  | co_allow d d' s c name request k tool :
      co_phase c = Deciding name request k →
      let dec := authorize (co_policy c) name in
      allowed dec = true → decision_tool dec = Some tool →
      commits (on_decision cf (co_row c) name dec) t d tt d' →
      co_step t (d, s, c)
        (d', sh_count (decision_metrics name dec) s, co_with c (Invoking tool request k))
  | co_deny d d' s c name request k :
      co_phase c = Deciding name request k →
      let dec := authorize (co_policy c) name in
      allowed dec = false →
      commits (on_decision cf (co_row c) name dec) t d tt d' →
      co_step t (d, s, c) (d', sh_count (decision_metrics name dec) s, co_with c (Auditing name k))
  | co_decision_fails d d' s c name request k exc :
      co_phase c = Deciding name request k →
      let dec := authorize (co_policy c) name in
      rolls_back (on_decision cf (co_row c) name dec) t d d' →
      co_step t (d, s, c)
        (d', sh_count (decision_metrics name dec) s, co_with c (Executing (k (inl exc))))
  | co_audit d d' s c name k :
      co_phase c = Auditing name k →
      commits (audit_denial (co_row c) (co_policy c) name) t d tt d' →
      co_step t (d, s, c)
        (d', s, co_with c (Executing (k (inl (permission_denied (co_policy c) name)))))
  | co_audit_fails d d' s c name k exc :
      co_phase c = Auditing name k →
      rolls_back (audit_denial (co_row c) (co_policy c) name) t d d' →
      co_step t (d, s, c) (d', s, co_with c (Executing (k (inl exc))))
  | co_invoke d s c tool request k answer :
      co_phase c = Invoking tool request k →
      co_step t (d, s, c) (d, s, co_with c (Reporting tool answer k))
  | co_report d d' s c tool answer k :
      co_phase c = Reporting tool answer k →
      commits (on_executed cf (co_row c) tool answer) t d tt d' →
      co_step t (d, s, c) (d', s, co_with c (Executing (k answer)))
  | co_report_fails d d' s c tool answer k exc :
      co_phase c = Reporting tool answer k →
      rolls_back (on_executed cf (co_row c) tool answer) t d d' →
      co_step t (d, s, c) (d', s, co_with c (Executing (k (inl exc))))
  (** renewal *)
  | co_wake d s c :
      co_renewal c = Asleep → co_stop c = false →
      co_step t (d, s, c) (d, s, co_with_renewal c (co_cancelled c) Renewing)
  | co_renew d d' s c res :
      co_renewal c = Renewing →
      commits (renew cf (co_row c)) t d res d' →
      co_step t (d, s, c) (d', s, after_renewal res c)
  | co_renew_fails d d' s c :
      co_renewal c = Renewing →
      rolls_back (renew cf (co_row c)) t d d' →
      co_step t (d, s, c) (d', s, co_with_renewal c (co_cancelled c) RenewalRaised)
  | co_renew_stops d s c :
      co_renewal c = Asleep → co_stop c = true →
      co_step t (d, s, c) (d, s, co_with_renewal c (co_cancelled c) Returned)
  (** [await renewal], then finalisation *)
  | co_join d s c o :
      co_phase c = Joining o → co_renewal c = Returned →
      co_step t (d, s, c)
        (d, sh_count [ExecutionDuration (t_task_type (co_row c)) (outcome_name o)] s,
         co_with c (Finalising o))
  | co_join_raises d s c o :
      co_phase c = Joining o → co_renewal c = RenewalRaised →
      co_step t (d, s, c) (d, s, co_with c Ended)
  | co_finalize d d' s c o decision rng res :
      co_phase c = Finalising o →
      retry_decision o (t_attempt (co_row c)) (t_max_attempts (co_row c)) (sh_rng s)
        = (decision, rng) →
      commits (finalize cf c o decision) t d res d' →
      let after := after_finalize c o decision res (sh_reseed rng s) in
      co_step t (d, s, c) (d', after.2, after.1)
  | co_finalize_fails d d' s c o decision rng :
      co_phase c = Finalising o →
      retry_decision o (t_attempt (co_row c)) (t_max_attempts (co_row c)) (sh_rng s)
        = (decision, rng) →
      rolls_back (finalize cf c o decision) t d d' →
      co_step t (d, s, c) (d', sh_disown (t_id (co_row c)) (sh_reseed rng s), co_with c Ended)
  | co_stale d d' s c o r res :
      co_phase c = Rejected o r →
      transaction (stale_event cf (co_row c) o r) t d = (res, d') →
      co_step t (d, s, c) (d', sh_disown (t_id (co_row c)) s, co_with c Ended)
  (** cancelled by the drain *)
  | co_renew_cancelled d s c :
      co_phase c = Unwinding → co_renewal c = Renewing →
      co_step t (d, s, c) (d, s, co_with_renewal c (co_cancelled c) Returned)
  | co_unwind d s c :
      co_phase c = Unwinding → co_renewal c ∈ [Returned; RenewalRaised] →
      co_step t (d, s, c) (d, s, co_with c Ended).

(** ** The main loop *)

(** [t], [mono] and [ms]: the clocks, and the moments a policy snapshot sees. *)
Inductive main_step (t : txn) (mono : Q) (ms : moments) : db * worker → db * worker → Prop :=
  | m_register d d' w row :
      wk_main w = Registering → commits (register_self cf) t d row d' →
      main_step t mono ms (d, w) (d', wk_goto Looping w)
  | m_register_fails d d' w :
      wk_main w = Registering → rolls_back (register_self cf) t d d' →
      main_step t mono ms (d, w) (d', wk_goto Exited w)
  | m_signal d w : main_step t mono ms (d, w) (d, stop w)
  | m_leave d w :
      wk_main w = Looping ∨ wk_main w = Claiming → wk_stopping w = true →
      main_step t mono ms (d, w) (d, wk_goto Draining w)
  | m_no_beat d w :
      wk_main w = Looping → wk_stopping w = false → heartbeat_due cf mono w = false →
      main_step t mono ms (d, w) (d, wk_goto Claiming w)
  | m_beat d d' w alive :
      wk_main w = Looping → wk_stopping w = false → heartbeat_due cf mono w = true →
      commits (heartbeat (cf_worker_id cf)) t d alive d' →
      main_step t mono ms (d, w) (d', wk_goto Claiming (after_heartbeat alive (beat mono w)))
  | m_beat_fails d d' w :
      wk_main w = Looping → wk_stopping w = false → heartbeat_due cf mono w = true →
      rolls_back (heartbeat (cf_worker_id cf)) t d d' →
      main_step t mono ms (d, w) (d', wk_goto Draining (beat mono w))
  | m_full d w :
      wk_main w = Claiming → wk_stopping w = false → free_slots cf w ≤ 0 →
      main_step t mono ms (d, w) (d, wk_goto Polling (harvest w))
  | m_claim d d' w claimed policies :
      wk_main w = Claiming → wk_stopping w = false → 0 < free_slots cf w →
      commits (claim_and_snapshot cf ms (claim_limit cf w)) t d (claimed, policies) d' →
      main_step t mono ms (d, w) (d', wk_goto Polling (harvest (dispatch claimed policies w)))
  | m_claim_overlapped d d' w ids claimed policies :     (* by other claims: ClaimRace *)
      wk_main w = Claiming → wk_stopping w = false → 0 < free_slots cf w →
      chosen t d (claim_limit cf w) (cf_capabilities cf) ids →
      commits (grant_and_snapshot cf ms ids) t d (claimed, policies) d' →
      main_step t mono ms (d, w) (d', wk_goto Polling (harvest (dispatch claimed policies w)))
  | m_claim_fails d d' w :
      wk_main w = Claiming → wk_stopping w = false → 0 < free_slots cf w →
      rolls_back (claim_and_snapshot cf ms (claim_limit cf w)) t d d' →
      main_step t mono ms (d, w) (d', wk_goto Draining w)
  | m_poll d w : wk_main w = Polling → main_step t mono ms (d, w) (d, wk_goto Looping w)
  (** [_drain] *)
  | m_drain_fenced d w :
      wk_main w = Draining → wk_fenced w = true →
      main_step t mono ms (d, w) (d, wk_goto FencedExit (cancel_inflight w))
  | m_fenced_exit d w :
      wk_main w = FencedExit → Forall (λ c, is_done c = true) (wk_inflight w) →
      main_step t mono ms (d, w) (d, wk_goto Exited w)
  | m_drain d d' w res :
      wk_main w = Draining → wk_fenced w = false →
      transaction (set_worker_status (cf_worker_id cf) WorkerStatus.DRAINING) t d = (res, d') →
      main_step t mono ms (d, w) (d', wk_goto Grace w)
  | m_grace_over d w :
      wk_main w = Grace → main_step t mono ms (d, w) (d, wk_goto Gathering (cancel_inflight w))
  | m_gathered d w :
      wk_main w = Gathering → Forall (λ c, is_done c = true) (wk_inflight w) →
      main_step t mono ms (d, w) (d, wk_goto (HandingBack (sh_owned (wk_shared w))) w)
  | m_abandon d d' w i a todo res :
      wk_main w = HandingBack ((i, a) :: todo) → transaction (abandon cf i a) t d = (res, d') →
      main_step t mono ms (d, w) (d', wk_goto (HandingBack todo) w)
  | m_handed_back d w :
      wk_main w = HandingBack [] →
      main_step t mono ms (d, w) (d, wk_goto SigningOff (clear_owned w))
  | m_sign_off d d' w res :
      wk_main w = SigningOff →
      transaction (set_worker_status (cf_worker_id cf) WorkerStatus.DEAD) t d = (res, d') →
      main_step t mono ms (d, w) (d', wk_goto Exited w).

(** ** The worker next to the rest of the system *)

(** The moments are earlier ones of the run, in the order of the SELECTs. *)
Record seen_before (ms : moments) (d : db) : Prop := {
  sb_reachable : reachable (sees_versions ms);
  sb_tools : steps (sees_versions ms) (sees_tools ms);
  sb_grants : steps (sees_tools ms) (sees_grants ms);
  sb_now : steps (sees_grants ms) d;
}.

Lemma seen_before_steps ms d d' : seen_before ms d → steps d d' → seen_before ms d'.
Proof using. intros [] ?. split; try done. by eapply steps_trans. Qed.

Lemma seen_at_once d : reachable d → seen_before (at_once d) d.
Proof using. intros Hd. split; [done|apply steps_refl..]. Qed.

(** Every moment of a snapshot is a reachable state. *)
Lemma seen_reachable ms d :
  seen_before ms d →
  reachable (sees_versions ms) ∧ reachable (sees_tools ms) ∧ reachable (sees_grants ms).
Proof using. intros []. split_and!; unfold reachable in *; eauto using steps_trans. Qed.

Inductive sys : db * worker → db * worker → Prop :=
  | sys_main t mono ms d w y :
      seen_before ms d → main_step t mono ms (d, w) y → sys (d, w) y
  | sys_co t d d' w n c c' s' :
      wk_inflight w !! n = Some c →
      co_step t (d, wk_shared w, c) (d', s', c') →
      sys (d, w) (d', wk_with (<[n := c']> (wk_inflight w)) s' w)
  | sys_env t d d' w : step t d d' → sys (d, w) (d', w).

Inductive sys_run : db * worker → db * worker → Prop :=
  | run_refl x : sys_run x x
  | run_snoc x y z : sys_run x y → sys y z → sys_run x z.

(** What a worker process can become, started next to a running system. *)
Definition started_run (x : db * worker) : Prop :=
  ∃ d rng, reachable d ∧ sys_run (d, new_worker rng) x.
End run.

(** ** A worker's transactions are the protocol's *)

Lemma commits_run {A} (m : M A) t d res d' : commits m t d res d' → m t d = inr (res, d').
Proof. unfold transaction. destruct (m t d) as [|[a d1]]; by intros [= <- <-]. Qed.

Lemma rolled_back {A} (m : M A) t d d' : rolls_back m t d d' → d' = d.
Proof. unfold transaction. intros [e H]. destruct (m t d) as [|[a d1]]; by simplify_eq. Qed.

Lemma transaction_steps {A} (m : M A) t d res d' :
  (∀ a d1, m t d = inr (a, d1) → step t d d1) → transaction m t d = (res, d') →
  d' = d ∨ step t d d'.
Proof.
  intros Hm. unfold transaction. destruct (m t d) as [|[a d1]]; intros [= _ <-]; [by left|].
  right. by eapply Hm.
Qed.

Lemma on_decision_step cf row name dec t d u d' :
  on_decision cf row name dec t d = inr (u, d') → step t d d'.
Proof. unfold on_decision. destruct (allowed dec); intros H; (eapply step_note; [|exact H]); done. Qed.

Lemma on_executed_step cf row tool answer t d u d' :
  on_executed cf row tool answer t d = inr (u, d') → step t d d'.
Proof. unfold on_executed. intros H. eapply step_note; [|exact H]. by destruct answer. Qed.

(** What a worker's claim has done once it commits, overlapped or not. *)
Definition claims (cf : worker_config) (ms : moments) (limit : Z) (t : txn) (d : db)
    (claimed : list task_row) (policies : gmap uuid ToolPolicy) (d' : db) : Prop :=
  ∃ ids, chosen t d limit (cf_capabilities cf) ids ∧
    grant_claimed (cf_worker_id cf) (lease_ttl_s (cf_settings cf)) ids t d = inr (claimed, d') ∧
    policies = snapshot_policies ms ((λ r : task_row, t_agent_version_id r) <$> claimed).

Lemma claim_and_snapshot_step cf ms limit t d claimed policies d' :
  claim_and_snapshot cf ms limit t d = inr ((claimed, policies), d') → step t d d'.
Proof.
  unfold claim_and_snapshot. intros (rows & d1 & Hc & [= <- _ <-])%bind_ok. by eapply step_claim.
Qed.

Lemma grant_and_snapshot_inv cf ms limit ids t d claimed policies d' :
  chosen t d limit (cf_capabilities cf) ids →
  grant_and_snapshot cf ms ids t d = inr ((claimed, policies), d') →
  claims cf ms limit t d claimed policies d'.
Proof.
  unfold grant_and_snapshot. intros Hch (rows & d1 & Hc & [= <- <- <-])%bind_ok. by exists ids.
Qed.

Lemma claim_and_snapshot_inv cf ms limit t d claimed policies d' :
  ids_ok d → claim_and_snapshot cf ms limit t d = inr ((claimed, policies), d') →
  claims cf ms limit t d claimed policies d'.
Proof.
  unfold claim_and_snapshot. intros Hids (rows & d1 & Hc & [= <- <- <-])%bind_ok.
  destruct (claim_is_chosen (cf_worker_id cf) limit (lease_ttl_s (cf_settings cf)) (cf_policy cf)
    (cf_capabilities cf) t d Hids) as (ids & Hch & Heq). rewrite Heq in Hc. by exists ids.
Qed.

Lemma claims_step cf ms limit t d claimed policies d' :
  claims cf ms limit t d claimed policies d' → step t d d'.
Proof. intros (ids & Hch & Hg & _). by eapply step_grant. Qed.

(** One step of a coroutine is at most one transaction of the protocol. *)
Lemma co_step_db cf t d s c d' s' c' :
  co_step cf t (d, s, c) (d', s', c') → d' = d ∨ step t d d'.
Proof.
  inversion 1; subst; try (by left);
    repeat match goal with
    | H : commits _ _ _ _ _ |- _ => apply commits_run in H
    | H : rolls_back _ _ _ _ |- _ => apply rolled_back in H; by left
    end.
  - right. by eapply on_decision_step.
  - right. by eapply on_decision_step.
  - right. by eapply step_audit.
  - right. by eapply on_executed_step.
  - right. by eapply step_renew.
  - right. by eapply step_complete.
  - eapply transaction_steps; [|done]. intros a d1 Ha. eapply step_note; [|exact Ha]. done.
Qed.

Lemma main_step_db cf t mono ms d w d' w' :
  main_step cf t mono ms (d, w) (d', w') → d' = d ∨ step t d d'.
Proof.
  inversion 1; subst; try (by left);
    repeat match goal with
    | H : commits _ _ _ _ _ |- _ => apply commits_run in H
    | H : rolls_back _ _ _ _ |- _ => apply rolled_back in H; by left
    end.
  - right. by eapply step_register.
  - right. by eapply step_heartbeat.
  - right. by eapply claim_and_snapshot_step.
  - right. by eapply claims_step, grant_and_snapshot_inv.
  - eapply transaction_steps; [|done]. intros a d1 Ha. by eapply step_status.
  - eapply transaction_steps; [|done]. intros b d1 Ha. by eapply (step_complete _ _ (CAbandoned _)).
  - eapply transaction_steps; [|done]. intros a d1 Ha. by eapply step_status.
Qed.

Lemma steps_or d0 d t d' : steps d0 d → d' = d ∨ step t d d' → steps d0 d'.
Proof. intros H [->|Hs]; [done|]. by eapply steps_snoc. Qed.

Lemma sys_run_steps cf x y : sys_run cf x y → steps x.1 y.1.
Proof.
  induction 1 as [x|x y z Hr IH Hs]; [apply steps_refl|].
  destruct Hs as [t mono ms d w [d' w'] _ Hm|t d d' w n c c' s' Hn Hc|t d d' w Hst]; simpl in *.
  - eapply steps_or; [done|by eapply main_step_db].
  - eapply steps_or; [done|by eapply co_step_db].
  - by eapply steps_snoc.
Qed.

(** A step of the main loop whose snapshot, if any, no commit interrupts. *)
Lemma run_main cf t mono x d w y :
  reachable x.1 → sys_run cf x (d, w) → main_step cf t mono (at_once d) (d, w) y → sys_run cf x y.
Proof.
  intros Hx Hr Hm. eapply run_snoc; [done|]. eapply sys_main; [|done]. apply seen_at_once.
  apply sys_run_steps in Hr. by eapply steps_trans.
Qed.

Lemma started_reachable cf x : started_run cf x → reachable x.1.
Proof. intros (d & rng & Hd & Hr%sys_run_steps). simpl in Hr. by eapply steps_trans. Qed.
