(* ===== verification/Guarantees.v ===== *)
(** * What the control plane guarantees

    Theorems about every reachable state of [Protocol] and every
    continuation of it. *)

From S2P Require Import Prelude PyStr Json States Capability Policy Db Samples Transitions.
From S2P Require Import Completion Lease Workers Claim Reap Tasks Effects Protocol Scenario.

Definition is_inr {A B} (x : A + B) : Prop := match x with inr _ => True | inl _ => False end.

(** ** Fencing *)

(** The right to write under attempt [a] of task [i], read from the attempt
    rows alone: the attempt is open and [w] is its worker. *)
Definition holds (d : db) (i : uuid) (a : Z) (w : text) : Prop :=
  ∃ x, task_attempts d !! (i, a) = Some x ∧ a_outcome x = None ∧ a_worker_id x = w.

Lemma owns_holds d i (r : task_row) a w :
  vinv d i → tasks d !! i = Some r → (owns r a w ↔ holds d i a w).
Proof.
  intros Hv Hr. pose proof (vinv_row _ _ _ Hv Hr) as Hi. split.
  - intros (Hs & <- & Hw).
    destruct (proj2 (ti_attempts _ _ _ Hi (t_attempt r))) as [x Hx].
    { split; [|lia]. apply (ti_started _ _ _ Hi). rewrite Hs. by left. }
    exists x. split; [done|]. split; [by apply (ti_open _ _ _ Hi _ _ Hx)|].
    pose proof (ti_owner _ _ _ Hi _ Hs Hx). congruence.
  - intros (x & Hx & Ho & Hw). apply (ti_open _ _ _ Hi _ _ Hx) in Ho as [Hs ->].
    split; [done|]. split; [done|]. rewrite (ti_owner _ _ _ Hi _ Hs Hx). congruence.
Qed.

Lemma no_row_no_attempt d i a w : vinv d i → tasks d !! i = None → ¬ holds d i a w.
Proof.
  unfold vinv. intros Hv Hr. rewrite Hr in Hv. destruct Hv as [_ Hn].
  intros (x & Hx & _). by rewrite Hn in Hx.
Qed.

(** C8: fencing, system-wide. In every reachable state a completion of any
    kind (a retry due after the year 9999 aside, which raises) is accepted
    exactly from the worker whose attempt row is open, and a refused one
    changes no table. *)
Theorem completion_iff_holder c i a w t d :
  reachable d → storable c t = true →
  ∃ res d', run_completion c i a w t d = inr (res, d') ∧
    (applied res = true ↔ holds d i a w) ∧ (applied res = false → d' = d).
Proof.
  intros Hr%inv_reachable Hst. pose proof (inv_view d Hr i) as Hv.
  pose proof (storable_fits c t Hst) as Hf. destruct (tasks d !! i) as [r|] eqn:Hrow.
  - destruct (decide (owns r a w)) as [Ho|Ho].
    + eexists _, _. split; [apply run_completion_owned; [done|done|by eapply inv_ok|done]|].
      rewrite <-(owns_holds d i r) by done. simpl. done.
    + eexists _, _. split; [by apply run_completion_stale|].
      rewrite <-(owns_holds d i r) by done. simpl. done.
  - eexists _, _. split; [by apply run_completion_missing|]. simpl.
    split; [|done]. split; [done|]. intros Hh. by apply no_row_no_attempt in Hh.
Qed.

Lemma completion_iff_holder_witness :
  ∃ res d', run_completion (CSuccess ∅) 5 1 "w1" (txn_at 65) sc_reaped = inr (res, d') ∧
    (applied res = true ↔ holds sc_reaped 5 1 "w1") ∧ (applied res = false → d' = sc_reaped).
Proof. by apply (completion_iff_holder _ _ _ _ _ _ sc_reaped_reachable). Defined.

(** A closed attempt stays closed. Once an attempt has an outcome, in
    every later state its row is the same, and no completion or renewal under
    its number is ever accepted again, from any worker at any time: the late
    writes of a worker presumed dead are harmless. *)
Theorem closed_attempt_is_final d d' i a x o :
  reachable d → task_attempts d !! (i, a) = Some x → a_outcome x = Some o → steps d d' →
  task_attempts d' !! (i, a) = Some x ∧
  (∀ c w t, c_fits c t = true →
     ∃ why ob, run_completion c i a w t d' = inr (MkResult false None (Some why) (Some ob), d')) ∧
  (∀ w ttl t, renew_lease i w a ttl t d' =
     if interval_fits (seconds ttl) then inr (None, d') else inl (DataError "interval")).
Proof.
  intros Hd%inv_reachable Hx Ho Hs.
  assert (task_attempts d' !! (i, a) = Some x) as Hx'.
  { eapply (steps_ind_inv (λ d, task_attempts d !! (i, a) = Some x)); [done|done| |done].
    intros t d1 d2 Hi1 _ Hx1 Hst. eapply tstep_closed; [by apply inv_view|by eapply step_tstep|done|done]. }
  pose proof (inv_steps _ _ Hd Hs) as Hinv. pose proof (inv_view _ Hinv i) as Hv.
  assert (∃ r, tasks d' !! i = Some r) as [r Hr].
  { unfold vinv in Hv. destruct (tasks d' !! i) as [r|]; [eauto|]. destruct Hv as [_ Hn].
    by rewrite Hn in Hx'. }
  assert (∀ w, ¬ owns r a w) as Hno.
  { intros w. rewrite (owns_holds d' i) by done. intros (y & Hy & Hyo & _). congruence. }
  split; [done|]. split.
  - intros c w t Hf. eexists _, _. by apply run_completion_stale.
  - intros w ttl t. apply renew_lease_refused. intros r' Hr' [Hown _]. simplify_eq. by eapply Hno.
Qed.

Lemma closed_attempt_is_final_witness :
  a_outcome <$> task_attempts sc_reaped !! (5%N, 1) = Some (Some Outcome.LOST) ∧
  ∀ c t, c_fits c t = true →
    ∃ why ob, run_completion c 5 1 "w1" t sc_done
              = inr (MkResult false None (Some why) (Some ob), sc_done).
Proof.
  destruct (task_attempts sc_reaped !! (5%N, 1)) as [x|] eqn:Hx.
  2: { vm_compute in Hx. discriminate. }
  destruct (a_outcome x) as [o|] eqn:Ho.
  2: { vm_compute in Hx. injection Hx as <-. discriminate. }
  destruct (closed_attempt_is_final sc_reaped sc_done 5 1 x o sc_reaped_reachable Hx Ho sc_reaped_to_done)
    as (_ & H & _).
  split; [|intros c t Hf; apply H, Hf].
  vm_compute in Hx. injection Hx as <-. simpl in *. congruence.
Defined.

(** ** Outcomes *)

(** C7: a task succeeds at most once. In every reachable state the attempts
    of a task are numbered 1 to its attempt counter without gaps, at most one
    of them succeeded, and one did exactly when the task is SUCCEEDED, which
    is exactly when it has a result; at most one attempt is open, and exactly
    while the task is RUNNING. *)
Theorem at_most_one_success d i (r : task_row) :
  reachable d → tasks d !! i = Some r →
  (∀ a, is_Some (task_attempts d !! (i, a)) ↔ 1 ≤ a ≤ t_attempt r) ∧
  (∀ a x, task_attempts d !! (i, a) = Some x → a_outcome x = Some Outcome.SUCCEEDED →
     a = t_attempt r) ∧
  (t_state r = State.SUCCEEDED ↔
     ∃ a x, task_attempts d !! (i, a) = Some x ∧ a_outcome x = Some Outcome.SUCCEEDED) ∧
  (t_state r = State.SUCCEEDED ↔ is_Some (t_result r)) ∧
  (t_state r = State.RUNNING ↔ ∃ a w, holds d i a w) ∧
  (∀ a1 w1 a2 w2, holds d i a1 w1 → holds d i a2 w2 → a1 = a2 ∧ w1 = w2).
Proof.
  intros Hd%inv_reachable Hr. pose proof (vinv_row _ _ _ (inv_view d Hd i) Hr) as Hi.
  assert (t_state r ∈ [State.RUNNING; State.SUCCEEDED; State.FAILED] →
            is_Some (task_attempts d !! (i, t_attempt r))) as Hcur.
  { intros Hs%(ti_started _ _ _ Hi). apply (ti_attempts _ _ _ Hi). lia. }
  assert (∀ a w, holds d i a w → t_state r = State.RUNNING ∧ a = t_attempt r) as Hh.
  { intros a w (x & Hx & Ho & _). by apply (ti_open _ _ _ Hi _ _ Hx). }
  split; [apply Hi|]. split; [|split; [|split; [|split]]].
  - intros a x Hx Ho. by apply (ti_success _ _ _ Hi _ _ Hx).
  - split.
    + intros Hs. destruct Hcur as [x Hx]; [rewrite Hs; right; by left|].
      exists (t_attempt r), x. split; [done|]. by apply (ti_success _ _ _ Hi _ _ Hx).
    + intros (a & x & Hx & Ho). by apply (ti_success _ _ _ Hi _ _ Hx) in Ho as [? _].
  - symmetry. apply Hi.
  - split.
    + intros Hs. destruct Hcur as [x Hx]; [rewrite Hs; by left|].
      exists (t_attempt r), (a_worker_id x), x. split; [done|]. split; [|done].
      by apply (ti_open _ _ _ Hi _ _ Hx).
    + by intros (a & w & [? _]%Hh).
  - intros a1 w1 a2 w2 H1 H2. pose proof (Hh _ _ H1) as [_ ->]. pose proof (Hh _ _ H2) as [_ ->].
    split; [done|]. destruct H1 as (x & Hx & _ & <-), H2 as (y & Hy & _ & <-). congruence.
Qed.

Lemma at_most_one_success_witness :
  ∃ r, tasks sc_done !! 5%N = Some r ∧ t_state r = State.SUCCEEDED ∧
    ∃ a x, task_attempts sc_done !! (5%N, a) = Some x ∧ a_outcome x = Some Outcome.SUCCEEDED.
Proof.
  destruct (tasks sc_done !! 5%N) as [r|] eqn:Hr; [|vm_compute in Hr; discriminate].
  exists r. split; [reflexivity|].
  assert (t_state r = State.SUCCEEDED) as Hs by (vm_compute in Hr; injection Hr as <-; reflexivity).
  split; [exact Hs|].
  apply (proj1 (proj2 (proj2 (at_most_one_success sc_done 5 r sc_done_reachable Hr)))), Hs.
Defined.

(** The task's row and its attempts are the same in both. *)
Definition same_task (i : uuid) (d d' : db) : Prop :=
  tasks d' !! i = tasks d !! i ∧ ∀ a, task_attempts d' !! (i, a) = task_attempts d !! (i, a).

(** C10: terminal means final. Once a task is SUCCEEDED, FAILED or CANCELLED,
    its row and its attempt rows are the same in every later state: no
    transaction of any component writes them again. *)
Theorem terminal_is_final d d' i (r : task_row) :
  reachable d → tasks d !! i = Some r → is_terminal (t_state r) = true → steps d d' →
  same_task i d d'.
Proof.
  intros Hd%inv_reachable Hr Hterm Hs. unfold same_task. rewrite Hr.
  eapply (steps_ind_inv (λ d', tasks d' !! i = Some r ∧ same_attempts i d d')); [done|done| |done].
  intros t d1 d2 Hi1 _ [Hr1 Ha1] Hst.
  destruct (tstep_terminal d1 d2 i r) as [Hr2 Ha2]; [by eapply step_tstep|done|done|].
  split; [done|]. intros a. by rewrite Ha2.
Qed.

(** The tenant goes on after the task is done. *)
Definition sc_later : db :=
  after (submit_task 1 "demo" ∅ None 100 3 300 None None []) (txn_new 90 6) sc_done.

Lemma sc_done_to_later : steps sc_done sc_later.
Proof.
  eapply steps_snoc; [apply steps_refl|].
  apply after_step; [intros; by eapply step_submit|vm_compute; reflexivity].
Qed.

Lemma terminal_is_final_witness :
  same_task 5 sc_done sc_later ∧ size (tasks sc_later) = 2%nat.
Proof.
  destruct (tasks sc_done !! 5%N) as [r|] eqn:Hr; [|vm_compute in Hr; discriminate].
  split; [|vm_compute; reflexivity].
  apply (terminal_is_final sc_done sc_later 5 r sc_done_reachable Hr); [|exact sc_done_to_later].
  vm_compute in Hr. injection Hr as <-. reflexivity.
Defined.

Lemma steps_row d d' i (r : task_row) :
  inv d → tasks d !! i = Some r → steps d d' →
  ∃ r', tasks d' !! i = Some r' ∧ t_spec r' = t_spec r ∧ t_attempt r ≤ t_attempt r'.
Proof.
  intros Hd Hr Hs.
  eapply (steps_ind_inv (λ d', ∃ r', tasks d' !! i = Some r' ∧ t_spec r' = t_spec r ∧
                                     t_attempt r ≤ t_attempt r')); [done|by eauto with lia| |done].
  intros t d1 d2 Hi1 _ (r1 & Hr1 & Hsp & Hle) Hst.
  destruct (tstep_row i d1 d2 r1) as (r2 & Hr2 & Hsp2 & Hle2); [by eapply step_tstep|done|].
  exists r2. split; [done|]. split; [congruence|lia].
Qed.

(** What a submission pinned is unchanged, and the fencing token no lower. *)
Definition continues (r r' : task_row) : Prop := t_spec r' = t_spec r ∧ t_attempt r ≤ t_attempt r'.

(** What a submission pins stays pinned. From any reachable state on, a
    task never disappears, its tenant, type, payload, key, priority, budgets,
    agent version and capabilities never change, and its attempt counter,
    the fencing token, never goes back. *)
Theorem pinned_and_monotone d d' i (r : task_row) :
  reachable d → tasks d !! i = Some r → steps d d' →
  ∃ r', tasks d' !! i = Some r' ∧ continues r r'.
Proof. intros Hd%inv_reachable. by apply steps_row. Qed.

Lemma pinned_and_monotone_witness :
  ∃ r r', tasks sc_reaped !! 5%N = Some r ∧ tasks sc_done !! 5%N = Some r' ∧
    t_spec r' = t_spec r ∧ t_attempt r ≤ t_attempt r'.
Proof.
  destruct (tasks sc_reaped !! 5%N) as [r|] eqn:Hr; [|vm_compute in Hr; discriminate].
  destruct (pinned_and_monotone sc_reaped sc_done 5 r sc_reaped_reachable Hr sc_reaped_to_done)
    as (r' & H1 & H2 & H3).
  exists r, r'. split; [reflexivity|]. split; [exact H1|]. split; [exact H2|exact H3].
Defined.

(** The events of a task that announce a state tell its history. *)
Definition told_by_events (d : db) (i : uuid) (r : task_row) : Prop :=
  history (trace d i) (t_state r) ∧ last (trace d i) = Some (t_state r) ∧
  Z.of_nat (length (claims d i)) = t_attempt r.

(** C34: the event log agrees with the tasks. In every reachable state the
    state-announcing events of a task, read in order, are a legal history of
    the state machine from QUEUED that ends in the task's current state, and
    there are exactly as many claim events as attempts. *)
Theorem timeline_agrees d i (r : task_row) :
  reachable d → tasks d !! i = Some r →
  told_by_events d i r.
Proof.
  intros Hd%inv_reachable Hr. pose proof (vinv_row _ _ _ (inv_view d Hd i) Hr) as Hi.
  pose proof (ti_trace _ _ _ Hi) as Ht. split; [done|]. split; [|apply Hi].
  destruct Ht; [done|]. by rewrite last_snoc.
Qed.

Lemma timeline_agrees_witness :
  trace sc_done 5 = [State.QUEUED; State.RUNNING; State.QUEUED; State.RUNNING; State.SUCCEEDED] ∧
  last (trace sc_done 5) = Some State.SUCCEEDED.
Proof.
  split; [vm_compute; reflexivity|].
  destruct (tasks sc_done !! 5%N) as [r|] eqn:Hr; [|vm_compute in Hr; discriminate].
  destruct (timeline_agrees sc_done 5 r sc_done_reachable Hr) as (_ & H & _). rewrite H.
  vm_compute in Hr. injection Hr as <-. reflexivity.
Defined.

(** The task was submitted by this tenant under this key. *)
Definition submitted_as (te : uuid) (k : text) (r : task_row) : Prop :=
  t_tenant_id r = te ∧ t_idempotency_key r = Some k.

(** One task per idempotency key. In every reachable state two tasks of
    one tenant with the same key are the same task. *)
Theorem idempotency_keys_unique d i j (ri rj : task_row) te k :
  reachable d → tasks d !! i = Some ri → tasks d !! j = Some rj →
  submitted_as te k ri → submitted_as te k rj → i = j ∧ ri = rj.
Proof.
  intros Hd%inv_reachable Hi Hj [Htei Hki] [Htej Hkj].
  assert (i = j) as -> by (eapply (inv_keys d Hd); [done|done|congruence|done..]).
  split; [done|congruence].
Qed.

Lemma idempotency_keys_unique_witness :
  ∃ r : task_row, tasks sc_later !! 5%N = Some r ∧ submitted_as 1 "key-1" r ∧
    (∀ j (rj : task_row), tasks sc_later !! j = Some rj → submitted_as 1 "key-1" rj → j = 5%N).
Proof.
  destruct (tasks sc_later !! 5%N) as [r|] eqn:Hr; [|vm_compute in Hr; discriminate].
  assert (submitted_as 1 "key-1" r) as Hk by (vm_compute in Hr; injection Hr as <-; split; reflexivity).
  exists r. split; [reflexivity|]. split; [exact Hk|]. intros j rj Hj Hkj.
  exact (proj1 (idempotency_keys_unique sc_later j 5 rj r 1 "key-1"
    (steps_trans _ _ _ sc_done_reachable sc_done_to_later) Hj Hr Hkj Hk)).
Defined.

(** ** Progress *)

Lemma length_rows_size (m : gmap uuid task_row) : length (rows m) = size m.
Proof. unfold rows. by rewrite length_fmap, length_map_to_list. Qed.

Lemma elem_of_lost_rows_big k t d limit (r : task_row) :
  is_lost k t d r → t_id r ∉ locked t → Z.of_nat (length (in_state State.RUNNING d)) ≤ limit →
  r ∈ lost_rows k t d limit.
Proof.
  intros (Hr & Hs & Hl) Hlock Hroom. unfold lost_rows. rewrite take_ge.
  - apply elem_of_order_by; [apply _..|]. apply elem_of_select. split; [|eauto].
    by rewrite !andb_true_iff, !bool_decide_eq_true.
  - rewrite length_order_by by apply _.
    enough (length (select (λ r : task_row, bool_decide (t_state r = State.RUNNING) && lost k (now t) r
              && bool_decide (t_id r ∉ locked t)) (tasks d)) ≤ length (in_state State.RUNNING d))%nat by lia.
    apply length_select_le. intros r'. rewrite !andb_true_iff. tauto.
Qed.

(** A claim with room for it takes a queued task: the worker is registered and
    able, the limit covers the queue, the tenant may start all its queued
    tasks, and no lease date or attempt number is out of its column's range. *)
Definition claimable_by (d : db) (r : task_row) (t : txn) (w : text) (limit ttl : Z)
    (caps : list text) : Prop :=
  t_available_at r ≤ now t ∧ (t_id r ∉ locked t) ∧ claim_eligible caps r = true ∧
  is_Some (workers d !! w) ∧ ttl_fits t ttl = true ∧
  Z.of_nat (length (in_state State.QUEUED d)) ≤ limit ∧
  (∃ te, tenants d !! t_tenant_id r = Some te ∧
     running_count d (t_tenant_id r) + tenant_count (t_tenant_id r) (in_state State.QUEUED d)
       ≤ te_max_concurrent_tasks te) ∧
  (∀ r' : task_row, r' ∈ in_state State.QUEUED d → t_attempt r' < int4_max).

(** How an unfinished task moves on. *)
Definition can_move (d : db) (i : uuid) (r : task_row) : Prop :=
  match t_state r with
  | State.RUNNING =>
      ∃ e, t_lease_expires_at r = Some e ∧
        ∀ t limit, e < now t → i ∉ locked t → limit_fits limit = true →
          Z.of_nat (length (in_state State.RUNNING d)) ≤ limit →
          ∃ res d' r', reap_expired_leases limit t d = inr (res, d') ∧ tasks d' !! i = Some r' ∧
            t_state r' ≠ State.RUNNING ∧ t_lease_worker_id r' = None ∧
            (t_cancel_requested r = false →
             t_state r' = if t_attempt r <? t_max_attempts r then State.QUEUED else State.FAILED)
  | State.QUEUED =>
      ∀ t w limit ttl policy caps, claimable_by d r t w limit ttl caps →
        ∃ rows d' r', claim_tasks w limit ttl policy caps t d = inr (rows, d') ∧ r' ∈ rows ∧
          tasks d' !! i = Some r' ∧ t_state r' = State.RUNNING ∧
          t_attempt r' = t_attempt r + 1 ∧ t_lease_worker_id r' = Some w ∧
          t_lease_expires_at r' = Some (now t + seconds ttl)
  | _ => is_terminal (t_state r) = true
  end.

(** A claim of a registered worker commits, if nothing is out of range. *)
Lemma claim_commits d t w limit ttl policy caps rs :
  inv d → picks t d limit policy caps rs → is_Some (workers d !! w) → ttl_fits t ttl = true →
  (∀ r : task_row, tasks d !! t_id r = Some r → t_state r = State.QUEUED → t_attempt r < int4_max) →
  claim_tasks w limit ttl policy caps t d
  = inr (claimed_row t w ttl <$> rs, claimed_db t w ttl rs d).
Proof.
  intros Hd Hp Hw Hfit Hlt. pose proof (inv_ids d Hd) as Hids. apply claim_tasks_run; [done..|].
  intros r Hr. pose proof (proj2 (picks_taken _ _ _ _ _ _ Hids Hp) r Hr) as Hrow.
  destruct Hp as (_ & _ & Hc & _). apply Hc in Hr. rewrite elem_of_candidates in Hr by done.
  destruct Hr as (_ & Hs & _). destruct (queued_claimable d r Hd Hrow Hs) as [Hrok Hfree].
  split; [done|]. split; [by apply Hlt|done].
Qed.

(** C11: no task is stuck. In every reachable state a task that is not
    finished can move on. A RUNNING one has a deadline, and any batch of the
    reaper after it, with room for the running tasks and the row unlocked,
    takes it from its worker, and returns it to the queue or, out of attempts,
    fails it, unless its cancellation was requested, when the state it is left
    in is not RUNNING either.  A QUEUED one is claimed, as the next attempt,
    by any claim it is due for whose worker is registered and satisfies it,
    if the claim's limit covers the queue and the tenant's cap its tasks. *)
Theorem no_task_stuck d i (r : task_row) :
  reachable d → tasks d !! i = Some r → can_move d i r.
Proof.
  intros Hd%inv_reachable Hr. pose proof (vinv_row _ _ _ (inv_view d Hd i) Hr) as Hi. unfold can_move.
  pose proof (inv_ids d Hd) as Hids. pose proof (ti_id _ _ _ Hi) as Hid.
  destruct (t_state r) eqn:Hs; try done.
  - intros t w limit ttl policy caps (Hav & Hlock & He & Hw & Hfit & Hlim & (te & Hte & Hcap) & Hlt).
    destruct (picks_exist t d limit policy caps Hids) as [rs Hp].
    assert (r ∈ rs) as Hin.
    { eapply picks_takes; [done|done| |done|].
      - rewrite elem_of_candidates by done. rewrite Hid in *. by split_and!.
      - unfold slack0, tenant_slack. rewrite Hte. simpl. lia. }
    eexists _, _, (claimed_row t w ttl r). split.
    { apply claim_commits; [done..|]. intros r' Hr' Hs'. apply Hlt. unfold in_state.
      rewrite elem_of_select, bool_decide_eq_true. eauto. }
    split; [apply list_elem_of_fmap; eauto|]. rewrite claimed_tasks, lookup_update_where, Hr. simpl.
    rewrite bool_decide_eq_true_2; [done|]. apply list_elem_of_fmap. eauto.
  - pose proof (ti_ok _ _ _ Hi) as Hok. apply task_ok_spec in Hok as (_ & _ & Hc).
    pose proof (proj1 Hc Hs) as [_ [e He]]. exists e. split; [done|].
    intros t limit Hlt Hlock Hfit Hroom.
    assert (is_lost Lease t d r) as Hlost.
    { split; [by rewrite Hid|]. split; [done|]. simpl. unfold lease_expired. rewrite He.
      by apply Z.ltb_lt. }
    assert (r ∈ lost_rows Lease t d limit) as Hin.
    { apply elem_of_lost_rows_big; [done|by rewrite Hid|done]. }
    pose proof (reaped_row_cols Lease t r) as (Hst & _ & Hw & _).
    eexists _, _, (reaped_row Lease t r).
    split; [by apply (reap_batch_run Lease); [|apply inv_ok|]|].
    split; [rewrite <-Hid at 1; apply reaped_fold_in; [by apply lost_rows_NoDup|done]|].
    split; [rewrite Hst; unfold lost_state; by destruct (_ <? _)|]. by split.
Qed.

Lemma no_task_stuck_witness :
  (∃ res d' r', reap_expired_leases 10 (txn_at 60) sc_claimed = inr (res, d') ∧
     tasks d' !! 5%N = Some r' ∧ t_state r' = State.QUEUED) ∧
  ∃ rows d' r', claim_tasks "w2" 3 30 DEFAULT_POLICY [] (txn_at 70) sc_reaped = inr (rows, d') ∧
    tasks d' !! 5%N = Some r' ∧ t_state r' = State.RUNNING ∧ t_attempt r' = 2.
Proof.
  split.
  - destruct (tasks sc_claimed !! 5%N) as [r|] eqn:Hr; [|vm_compute in Hr; discriminate].
    pose proof (no_task_stuck sc_claimed 5 r sc_claimed_reachable Hr) as H.
    assert (t_state r = State.RUNNING ∧ t_lease_expires_at r = Some (us 50) ∧
            t_cancel_requested r = false ∧
            (t_attempt r <? t_max_attempts r) = true) as (Hs & He & Hc & Ha).
    { vm_compute in Hr. injection Hr as <-. repeat split. }
    unfold can_move in H. rewrite Hs in H. destruct H as (e & He' & H).
    destruct (H (txn_at 60) 10) as (res & d' & r' & H1 & H2 & _ & _ & H3).
    + rewrite He in He'. injection He' as <-. vm_compute. reflexivity.
    + apply not_elem_of_empty.
    + reflexivity.
    + vm_compute. discriminate.
    + exists res, d', r'. split; [exact H1|]. split; [exact H2|]. rewrite (H3 Hc), Ha. reflexivity.
  - destruct (tasks sc_reaped !! 5%N) as [r|] eqn:Hr; [|vm_compute in Hr; discriminate].
    pose proof (no_task_stuck sc_reaped 5 r sc_reaped_reachable Hr) as H.
    assert (t_state r = State.QUEUED ∧ t_attempt r = 1 ∧ t_available_at r ≤ us 70 ∧ t_id r = 5%N ∧
            t_tenant_id r = 1%N ∧ claim_eligible [] r = true) as (Hs & Ha & Hav & Hid & Hte & He).
    { vm_compute in Hr. injection Hr as <-. repeat split. vm_compute. discriminate. }
    unfold can_move in H. rewrite Hs in H.
    destruct (H (txn_at 70) "w2" 3 30 DEFAULT_POLICY []) as (rows & d' & r' & H1 & _ & H2 & H3 & H4 & _).
    + split; [exact Hav|]. split; [apply not_elem_of_empty|]. split; [exact He|].
      split; [eexists; vm_compute; reflexivity|]. split; [reflexivity|].
      split; [vm_compute; discriminate|]. split.
      * rewrite Hte. eexists. split; [vm_compute; reflexivity|]. vm_compute. discriminate.
      * apply Forall_forall. apply (bool_decide_unpack _). vm_compute. exact I.
    + exists rows, d', r'. split; [exact H1|]. split; [exact H2|]. split; [exact H3|].
      rewrite H4, Ha. reflexivity.
Defined.

(** C33: the task path answers. From every reachable state a completion, a
    renewal, a cancellation, the sweep of a disabled agent's tasks, a reaper batch
    and a claim return normally: no assertion, constraint or key violation can
    surface.  What can raise is named: a retry due after the year 9999, a lease
    that would end after it, a LIMIT that is negative or over 64 bits; a claim
    also needs its worker registered and attempt counters below their
    column's maximum. *)
Theorem task_path_total d t :
  reachable d →
  (∀ c i a w, storable c t = true → is_inr (run_completion c i a w t d)) ∧
  (∀ i w a ttl, ttl_fits t ttl = true → is_inr (renew_lease i w a ttl t d)) ∧
  (∀ i, is_inr (cancel_task i t d)) ∧
  (∀ q rn vs reason, is_inr (cancel_found q rn vs reason t d)) ∧
  (∀ k limit, limit_fits limit = true → is_inr (reap_batch k limit t d)) ∧
  (∀ w limit ttl policy caps, is_Some (workers d !! w) → ttl_fits t ttl = true →
     (∀ i (r : task_row), tasks d !! i = Some r → t_state r = State.QUEUED → t_attempt r < int4_max) →
     is_inr (claim_tasks w limit ttl policy caps t d)).
Proof.
  intros Hd%inv_reachable. pose proof (inv_ids d Hd) as Hids. pose proof (inv_ok d Hd) as Hok.
  split; [|split; [|split; [|split; [|split]]]].
  - intros c i a w Hst. pose proof (storable_fits c t Hst). destruct (tasks d !! i) as [r|] eqn:Hr.
    + destruct (decide (owns r a w)) as [Ho|Ho].
      * erewrite run_completion_owned by (try done; by eapply Hok). done.
      * by erewrite run_completion_stale.
    + by rewrite run_completion_missing.
  - intros i w a ttl [Hint Hload]%ttl_fits_spec. rewrite renew_lease_run, Hint.
    destruct (tasks d !! i) as [r|] eqn:Hr; [|done]. destruct (_ && _ && _ && _) eqn:Hg; [|done].
    apply renew_guard in Hg. rewrite (renewed_row_ok t ttl r a w), Hload; [done|by eapply Hok|apply Hg].
  - intros i. rewrite cancel_task_run by apply Hok. done.
  - intros q rn vs reason. destruct (decide (vs = [])) as [->|Hvs]; [done|].
    by rewrite cancel_found_run.
  - intros k limit Hlim. by rewrite reap_batch_run.
  - intros w limit ttl policy caps Hw Hfit Hlt.
    destruct (picks_exist t d limit policy caps Hids) as [rs Hp].
    erewrite claim_commits; [done|done..|]. intros r. apply Hlt.
Qed.

Lemma task_path_total_witness :
  is_inr (claim_tasks "w2" 3 30 DEFAULT_POLICY [] (txn_at 70) sc_reaped).
Proof.
  apply (task_path_total sc_reaped (txn_at 70) sc_reaped_reachable).
  - eexists. vm_compute. reflexivity.
  - reflexivity.
  - assert (map_Forall (λ _ r, t_attempt r < int4_max) (tasks sc_reaped)) as H.
    { apply (bool_decide_unpack _). vm_compute. exact I. }
    intros i r Hr _. exact (H i r Hr).
Defined.

(** ** Refinement *)

(** The abstract scheduler: what a client may know of a task. *)
Inductive abstract :=
  | Absent
  | Waiting (attempts : Z)
  | Held (attempt : Z) (worker : text)
  | Finished (outcome : state) (attempts : Z).

Inductive abstract_step : abstract → abstract → Prop :=
  | as_submit : abstract_step Absent (Waiting 0)
  | as_claim n w : abstract_step (Waiting n) (Held (n + 1) w)
  | as_return n w : abstract_step (Held n w) (Waiting n)
  | as_finish n w s : is_terminal s = true → abstract_step (Held n w) (Finished s n)
  | as_cancel n : abstract_step (Waiting n) (Finished State.CANCELLED n).

Definition abstraction (d : db) (i : uuid) : abstract :=
  match tasks d !! i with
  | None => Absent
  | Some r =>
      match t_state r with
      | State.QUEUED => Waiting (t_attempt r)
      | State.RUNNING => Held (t_attempt r) (default EmptyString (t_lease_worker_id r))
      | s => Finished s (t_attempt r)
      end
  end.

Lemma tstep_abstract d d' i :
  tstep i d d' → abstraction d' i = abstraction d i ∨
                 abstract_step (abstraction d i) (abstraction d' i).
Proof.
  unfold abstraction. intros Ht. destruct Ht as
    [evs Hrow Hlog Hq Hnone Hatt|r r' evs Hr Hr' Htch|r' e Hr Hr' Hf|w r r' e at_ Hr Hr' Hst
    |to o r r' e evs Hr Hr' Hl|r r' e Hr Hr' Hst].
  - left. by rewrite Hrow.
  - left. rewrite Hr, Hr'. destruct Htch as (_ & Hs & Ha & Hw & _). by rewrite Hs, Ha, Hw.
  - right. rewrite Hr, Hr'. destruct Hf as (_ & Hs & Ha & _). rewrite Hs, Ha. constructor.
  - right. rewrite Hr, Hr'. destruct Hst as (_ & Hs & Hs' & Ha & Hw & _).
    rewrite Hs, Hs', Ha. constructor.
  - right. rewrite Hr, Hr'. destruct Hl as (_ & Hs & Hs' & Hlegal & Ha & _).
    rewrite Hs, Hs', Ha. destruct to; try done; constructor; done.
  - right. rewrite Hr, Hr'. destruct Hst as (_ & Hs & Hs' & Ha & _).
    rewrite Hs, Hs', Ha. constructor.
Qed.

(** C1: refinement. Seen through [abstraction], every transaction from a
    reachable state either leaves a task where it is or makes one step of the
    abstract scheduler, in which only a claim raises the attempt and only the
    holder's attempt can be returned or finished. *)
Theorem refines_abstract_scheduler d d' t i :
  reachable d → step t d d' →
  abstraction d' i = abstraction d i ∨ abstract_step (abstraction d i) (abstraction d' i).
Proof. intros Hd%inv_reachable Hs. by eapply tstep_abstract, step_tstep. Qed.

Lemma refines_abstract_scheduler_witness :
  abstraction sc_reaped 5 = Waiting 1 ∧ abstraction sc_reclaimed 5 = Held 2 "w2" ∧
  (abstraction sc_reclaimed 5 = abstraction sc_reaped 5 ∨
   abstract_step (abstraction sc_reaped 5) (abstraction sc_reclaimed 5)).
Proof.
  split; [vm_compute; reflexivity|]. split; [vm_compute; reflexivity|].
  exact (refines_abstract_scheduler sc_reaped sc_reclaimed (txn_at 70) 5 sc_reaped_reachable sc_step_reclaimed).
Defined.
