(* ===== verification/Governance.v ===== *)
(** * Guarantees about the registry

    What holds of agents, versions, routes, tools and grants in every
    reachable state, and what resolution and activation promise on top of
    it. *)

From S2P Require Import Prelude PyStr Json States Authz Capability Policy Db Samples Transitions.
From S2P Require Import Completion Lease Workers Claim Reap Tasks Agents Tools Frames Registry.
From S2P Require Import Effects Protocol Scenario.

(** ** Runs keep the registry invariant *)

Lemma step_changes t d d' : step t d d' → registry d' = registry d ∨ changes d d'.
Proof.
  intros Hs. destruct Hs as [? ? ? ? ? ? ? ? ? ? ? ? H|? ? ? ? ? ? ? H|? ? ? ? ? ? H|? ? ? ? ? ? H
    |? ? ? ? H|? ? ? H|? ? ? ? ? ? H|? ? ? ? ? ? ? ? H|? ? ? ? ? ? ? H|? ? ? H|? ? ? ? H|? ? ? H
    |? ? ? ? ? H|? ? ? H|? ? ? ? ? ? ? ? ? H|? ? ? ? ? ? ? _ H];
    try (left; exact (keeps _ _ _ _ H)).
  right. by eapply admin_changes.
Qed.

Lemma step_registry_ok t d d' : registry_ok d → step t d d' → registry_ok d'.
Proof.
  intros Hok [H|H]%step_changes; [by eapply registry_ok_ext|by eapply changes_ok].
Qed.

Lemma step_evolves t d d' : step t d d' → evolves d d'.
Proof.
  intros [H|H]%step_changes; [|by apply changes_evolves].
  unfold registry in H. apply evolves_ext; congruence.
Qed.

Lemma steps_evolves d d' : steps d d' → evolves d d'.
Proof. induction 1; [done|]. etrans; [done|by eapply step_evolves]. Qed.

Lemma steps_registry_ok d d' : registry_ok d → steps d d' → registry_ok d'.
Proof. intros Hok Hs. induction Hs; [done|]. eapply step_registry_ok; [|done]. by apply IHHs. Qed.

Lemma reachable_registry_ok d : reachable d → registry_ok d.
Proof. apply steps_registry_ok, registry_ok_empty. Qed.

(** ** Guarantees *)

(** A version keeps its agent, number, runtime, capabilities, configuration
    and limits; only its status can change. *)
Definition definitions_kept (d d' : db) : Prop :=
  ∀ i v, agent_versions d !! i = Some v → ∃ s, agent_versions d' !! i = Some (version_with s v).

(** Registry invariant. In every reachable state rows are stored under
    their own ids, agent and tool names are unique within a tenant, each
    agent's versions are numbered 1 to n without gaps and satisfy their
    constraints, a released version belongs to its agent, and every route and
    grant points at rows that exist; and along any run from there definitions
    are immutable. *)
Theorem registry_invariant d :
  reachable d → registry_ok d ∧ ∀ d', steps d d' → definitions_kept d d'.
Proof.
  intros Hd. split; [by apply reachable_registry_ok|]. intros d' Hs i v. apply (steps_evolves _ _ Hs).
Qed.

Lemma registry_invariant_witness :
  registry_ok rg_routed ∧ is_Some (agents rg_routed !! 20%N) ∧
  length (versions_of rg_routed 20) = 2%nat ∧ ∀ d', steps rg_routed d' → definitions_kept rg_routed d'.
Proof.
  destruct (registry_invariant rg_routed rg_routed_reachable) as [H1 H2].
  split; [exact H1|]. split; [eexists; vm_compute; reflexivity|].
  split; [vm_compute; reflexivity|exact H2].
Defined.

(** The answer of a resolution. *)
Definition resolved (d : db) (te : uuid) (rt : text) (res : Resolution) : Prop :=
  ∃ route a v, agent_routes d !! (te, rt) = Some route ∧
    agents d !! ro_agent_id route = Some a ∧ ag_status a = AgentStatus.ACTIVE ∧
    ag_default_version_id a = Some (v_id v) ∧ agent_versions d !! v_id v = Some v ∧
    v_status v = VersionStatus.ACTIVE ∧ v_agent_id v = ag_id a ∧
    res = MkResolution (ag_id a) (ag_name a) (v_id v) (v_version v) (v_required_capabilities v)
            (v_max_attempts v) (v_max_execution_time_s v) (v_runtime_spec v).

(** Why a routed agent cannot take work. *)
Definition withdrawn (d : db) (te : uuid) (rt : text) : Prop :=
  ∃ route a, agent_routes d !! (te, rt) = Some route ∧ agents d !! ro_agent_id route = Some a ∧
    (ag_status a ≠ AgentStatus.ACTIVE ∨ ag_default_version_id a = None ∨
     ∃ v row, ag_default_version_id a = Some v ∧ agent_versions d !! v = Some row ∧
              v_status row ≠ VersionStatus.ACTIVE).

Lemma resolve_route_cases te rt t d :
  registry_ok d →
  match resolve_route te rt t d with
  | inr (res, d') => d' = d ∧ resolved d te rt res
  | inl (NoRoute _) => agent_routes d !! (te, rt) = None
  | inl (NotRoutable _) => withdrawn d te rt
  | inl _ => False
  end.
Proof.
  intros Hok. unfold resolve_route, resolved, withdrawn. rewrite bind_run. cbn [get].
  destruct (agent_routes d !! (te, rt)) as [route|] eqn:Hr; simpl; [|done].
  destruct (rg_routes _ Hok _ _ Hr) as [_ [a Ha]]. rewrite Ha.
  pose proof (rg_agents _ Hok _ _ Ha) as Hid. case_bool_decide as Hst.
  { exists route, a. split; [done|]. split; [done|]. left. intros Heq. apply Hst. rewrite Heq. by left. }
  apply list_elem_of_singleton in Hst.
  destruct (ag_default_version_id a) as [v|] eqn:Hd; simpl; [|by eauto 10].
  destruct (rg_default _ Hok _ _ _ Ha Hd) as (row & Hrow & Hag). rewrite Hrow.
  pose proof (proj1 (rg_versions _ Hok _ _ Hrow)) as Hvid. case_bool_decide as Hv.
  { exists route, a. split; [done|]. split; [done|]. right; right. exists v, row.
    split; [done|]. split; [done|]. intros Heq. apply Hv. rewrite Heq. by left. }
  apply list_elem_of_singleton in Hv. split; [done|]. exists route, a, row.
  rewrite Hvid. split_and!; try done. by rewrite Hid.
Qed.

(** Resolution. In every reachable state resolving a request type reads
    only; it answers with the released version of the routed agent, copied
    field by field, exactly when agent and version are both ACTIVE, and
    otherwise says whether a route is missing or the target is withdrawn. *)
Theorem resolve_route_correct te rt t d :
  reachable d →
  match resolve_route te rt t d with
  | inr (res, d') => d' = d ∧ resolved d te rt res
  | inl (NoRoute _) => agent_routes d !! (te, rt) = None
  | inl (NotRoutable _) => withdrawn d te rt
  | inl _ => False
  end.
Proof. intros Hd. by apply resolve_route_cases, reachable_registry_ok. Qed.

Lemma resolve_route_correct_witness :
  ∃ res, resolve_route 1 "research" (txn_at 9) rg_routed = inr (res, rg_routed) ∧
    rs_version_id res = 21%N ∧ rs_max_attempts res = 2.
Proof.
  pose proof (resolve_route_correct 1 "research" (txn_at 9) rg_routed rg_routed_reachable) as H.
  destruct (resolve_route 1 "research" (txn_at 9) rg_routed) as [e|[res d']] eqn:E.
  - vm_compute in E. discriminate.
  - exists res. destruct H as [-> _]. split; [reflexivity|]. vm_compute in E.
    injection E as <-. split; reflexivity.
Defined.

(** What an activation requires. *)
Definition activatable (d : db) (a v : uuid) (e : option uuid) (req : bool) : Prop :=
  ∃ ver ag, agent_versions d !! v = Some ver ∧ v_agent_id ver = a ∧
    v_status ver ≠ VersionStatus.DISABLED ∧ agents d !! a = Some ag ∧
    (req = false ∨ ag_default_version_id ag = e).

Lemma activate_version_total a v e req t d :
  ∃ res d', activate_version a v e req t d = inr (res, d') ∧
    (activatable d a v e req → act_applied res = true) ∧
    (act_applied res = false → is_Some (act_reason res)).
Proof.
  rewrite activate_version_read. unfold activate_read, activatable. rewrite bind_run. cbn [ask].
  destruct (agent_versions d !! v) as [ver|] eqn:Hv.
  2: { eexists _, _. split; [done|]. split; [|eauto]. intros (? & ? & [=] & _). }
  case_bool_decide as Hb.
  { eexists _, _. split; [done|]. split; [|eauto]. intros (? & ? & [= <-] & ? & _). done. }
  case_bool_decide as Hs.
  { eexists _, _. split; [done|]. split; [|eauto]. intros (? & ? & [= <-] & _ & ? & _). done. }
  rewrite bind_run. cbn [get]. destruct (agents d !! a) as [ag|] eqn:Ha.
  2: { eexists _, _. split; [done|]. split; [|eauto]. by intros (? & ? & _ & _ & _ & [=] & _). }
  destruct (negb req || _) eqn:Hreq.
  - rewrite bind_run. cbn [modify]. unfold set_version_status. rewrite !bind_run. cbn [get].
    change (agent_versions (set_agents ?x d)) with (agent_versions d). rewrite Hv.
    eexists _, _. split; [done|]. split; [done|]. by intros [=].
  - eexists _, _. split; [done|]. split; [|eauto].
    apply orb_false_iff in Hreq as [Hr He%bool_decide_eq_false]. apply negb_false_iff in Hr.
    intros (? & ? & _ & _ & _ & [= <-] & [?|?]); congruence.
Qed.

(** Activation is a compare-and-set. It always answers; it is applied
    exactly when the version is this agent's and not disabled, the agent
    exists and, if asked, the released version is still the expected one; a
    refusal changes nothing and names its reason; an applied one releases
    the version and marks it ACTIVE, and from then on any activation that
    expects another version is refused. *)
Theorem activation_is_cas a v e req t d :
  ∃ res d', activate_version a v e req t d = inr (res, d') ∧
    (act_applied res = true ↔ activatable d a v e req) ∧
    (act_applied res = false → d' = d ∧ is_Some (act_reason res)) ∧
    (act_applied res = true →
       (∃ ag' ver', agents d' !! a = Some ag' ∧ ag_default_version_id ag' = Some v ∧
          agent_versions d' !! v = Some ver' ∧ v_status ver' = VersionStatus.ACTIVE) ∧
       ∀ v2 e2 t2, e2 ≠ Some v →
         ∃ res2, activate_version a v2 e2 true t2 d' = inr (res2, d') ∧ act_applied res2 = false).
Proof.
  destruct (activate_version_total a v e req t d) as (res & d' & Hrun & Hyes & Hno).
  exists res, d'. split; [done|].
  destruct (activate_version_cases _ _ _ _ _ _ _ _ Hrun)
    as [[Hf ->]|(ver & ag & Hv & Hva & Hs & Ha & He & Hres & ->)].
  { rewrite Hf in *. split; [split; [done|by intros H%Hyes]|]. split; [auto|done]. }
  rewrite Hres. simpl. split; [|split; [done|]].
  { split; [|done]. intros _. exists ver, ag. by split_and!. }
  intros _. split.
  { eexists _, _. rewrite !lookup_insert_eq. by split_and!. }
  intros v2 e2 t2 He2. set (d2 := set_versions _ _).
  destruct (activate_version_total a v2 e2 true t2 d2) as (res2 & d3 & Hrun2 & _).
  destruct (activate_version_cases _ _ _ _ _ _ _ _ Hrun2)
    as [[Hf ->]|(ver2 & ag2 & _ & _ & _ & Ha2 & [[=]|He'] & _)]; [eauto|].
  unfold d2 in Ha2. simpl in Ha2. rewrite lookup_insert_eq in Ha2. simplify_eq/=.
Qed.

(** Resolving and inserting are two statements, and another transaction
    can commit between them: under the isolation level the source uses, a
    submission whose resolution saw version 21 released can still create its
    task, pinned to version 21, after that version was disabled. *)
Theorem resolution_can_be_stale :
  ∃ res d1 sub d2, reachable rg_routed ∧
    resolve_route 1 "research" (txn_at 9) rg_routed = inr (res, rg_routed) ∧
    run_admin (SetVersionStatus (rs_version_id res) VersionStatus.DISABLED) (txn_at 10) rg_routed
      = inr (tt, d1) ∧
    submit_task 1 "demo.tools" ∅ None 100 (rs_max_attempts res) (rs_max_execution_time_s res) None
      (Some (rs_version_id res)) (rs_required_capabilities res) (txn_new 9 40) d1 = inr (sub, d2) ∧
    (∃ r : task_row, tasks d2 !! 40%N = Some r ∧ t_state r = State.QUEUED ∧
      t_agent_version_id r = Some (rs_version_id res) ∧
      v_status <$> agent_versions d2 !! rs_version_id res = Some VersionStatus.DISABLED).
Proof.
  eexists _, _, _, _. split; [exact rg_routed_reachable|].
  split; [vm_compute; reflexivity|]. split; [vm_compute; reflexivity|].
  split; [vm_compute; reflexivity|].
  eexists. split; [vm_compute; reflexivity|]. split; [reflexivity|]. split; reflexivity.
Qed.
