(* ===== verification/Integrity.v ===== *)
(** * Referential integrity of every reachable state

    What the invariants of the other files leave open and the schema's
    constraints speak of: widths, the rows foreign keys refer to, and the
    numbering of the two logs.  Each statement of the source preserves it;
    the query functions do because they are made of these statements. *)

From S2P Require Import Prelude PyStr Json States Capability Policy Db Samples Transitions.
From S2P Require Import Completion Lease Workers Claim Reap Tasks Agents Tools Frames Registry.
From S2P Require Import Effects Protocol Scenario Gauges.
#[local] Open Scope Z_scope.

Record referential (d : db) : Prop := {
  rf_tenants : ∀ i te, tenants d !! i = Some te →
    fits_int4 (te_max_concurrent_tasks te) = true ∧ fits_int4 (te_max_queued_tasks te) = true ∧
    fits_int4 (te_priority_weight te) = true;
  rf_workers : ∀ w r, workers d !! w = Some r →
    w_id r = w ∧ fits_int4 (w_pid r) = true ∧ fits_int4 (w_capacity r) = true ∧ 1 ≤ w_capacity r;
  rf_pins : ∀ i (r : task_row), tasks d !! i = Some r →
    version_exists d (t_agent_version_id r) = true;
  rf_events : ∀ e, e ∈ task_events d →
    is_Some (tasks d !! ev_task_id e) ∧ fits_int4 (default 0 (ev_attempt e)) = true;
  rf_event_ids : ev_id <$> task_events d = seq 1 (length (task_events d));
  rf_attempts : ∀ k a, task_attempts d !! k = Some a → is_Some (workers d !! a_worker_id a);
  rf_agents : ∀ i a, agents d !! i = Some a → is_Some (tenants d !! ag_tenant_id a);
  rf_routes : ∀ k r, agent_routes d !! k = Some r → is_Some (tenants d !! ro_tenant_id r);
  rf_tools : ∀ i r, tools d !! i = Some r → is_Some (tenants d !! tl_tenant_id r);
  rf_audit_ids : au_id <$> audit_events d = seq 1 (length (audit_events d));
}.

Lemma referential_empty : referential empty_db.
Proof. split; try done. by intros e ?%not_elem_of_nil. Qed.

(** ** The statements *)

#[local] Abbreviation Intact m := (Preserves referential m).

(** Close the parts a statement does not reach. *)
Ltac rest := split; simpl; try done.

(** Rows change, but no row appears and no pin moves. *)
Lemma referential_tasks d ts :
  referential d →
  (∀ i, is_Some (tasks d !! i) → is_Some (ts !! i)) →
  (∀ i (r' : task_row), ts !! i = Some r' → ∃ r, tasks d !! i = Some r ∧ t_spec r' = t_spec r) →
  referential (set_tasks ts d).
Proof.
  intros [] Hdom Hspec. rest.
  - intros i r' (r & Hr & Hsp)%Hspec. rewrite Hsp. by apply (rf_pins0 i).
  - intros e (Ht & Hf)%rf_events0. auto.
Qed.

Lemma update_task_intact i p f : Intact (update_task i p f).
Proof.
  intros t d a d' Hd H. unfold update_task in H. rewrite bind_run in H. cbn [get] in H.
  destruct (tasks d !! i) as [r|] eqn:Hr; [|by injection H as _ <-].
  destruct (p r); [|by injection H as _ <-]. destruct (task_error _); [done|].
  injection H as _ <-. apply referential_tasks; [done| |].
  - intros j Hj. apply lookup_insert_is_Some'. by right.
  - intros j r' [[<- <-]|[_ Hj]]%lookup_insert_Some; [|eauto].
    exists r. split; [done|]. apply assigns_spec.
Qed.

Lemma update_tasks_intact p f : Intact (update_tasks p f).
Proof.
  intros t d a d' Hd (_ & -> & _)%update_tasks_inv. apply referential_tasks; [done| |].
  - intros i. by rewrite lookup_update_where, fmap_is_Some.
  - intros i r'. rewrite lookup_update_where, fmap_Some. intros (r & Hr & ->). exists r.
    split; [done|]. case_match; [apply assigns_spec|done].
Qed.

Lemma seq_snoc {A} (f : A → nat) l x :
  f <$> l = seq 1 (length l) → f x = S (length l) → f <$> (l ++ [x]) = seq 1 (length (l ++ [x])).
Proof. intros Hl Hx. rewrite fmap_app, Hl, length_app, seq_app. simpl. by rewrite Hx. Qed.

Lemma insert_event_intact i a ty w data : Intact (insert_event i a ty w data).
Proof.
  intros t d u d' Hd H. unfold insert_event in H. rewrite bind_run in H. cbn [get] in H.
  rewrite bind_run in H. cbn [ask] in H. destruct (fits_int4 _) eqn:Hf; [|done].
  destruct (tasks d !! i) as [r|] eqn:Hr; [|done]. injection H as _ <-. destruct Hd. rest.
  - intros e [He| ->%list_elem_of_singleton]%elem_of_app; [by apply rf_events0|].
    simpl. by rewrite Hr.
  - by apply seq_snoc.
Qed.

Lemma insert_attempt_intact i a w : Intact (insert_attempt i a w).
Proof.
  intros t d u d' Hd H. unfold insert_attempt in H. rewrite bind_run in H. cbn [get] in H.
  rewrite bind_run in H. cbn [ask] in H. case_bool_decide; [done|]. case_bool_decide; [done|].
  case_bool_decide as Hw; [done|]. injection H as _ <-. destruct Hd. rest.
  intros k x [[_ <-]|[_ Hx]]%lookup_insert_Some; [|by eapply rf_attempts0].
  by apply not_eq_None_Some.
Qed.

Lemma finish_attempt_intact i a o c m : Intact (finish_attempt i a o c m).
Proof.
  intros t d u d' [] [= _ <-]. rest. intros k x.
  rewrite lookup_alter_Some. intros [(<- & y & Hy & ->)|[_ Hx]]; simpl; by eapply rf_attempts0.
Qed.

Lemma insert_task_intact row : Intact (insert_task row).
Proof.
  intros t d u d' Hd H. unfold insert_task in H. rewrite bind_run in H. cbn [get] in H.
  destruct (task_error row); [done|]. destruct (select _ _); [|by injection H as _ <-].
  case_bool_decide; [done|]. case_bool_decide; [done|].
  destruct (version_exists d _) eqn:Hv; [|done]. injection H as _ <-. destruct Hd. rest.
  - intros j r [[_ <-]|[_ Hr]]%lookup_insert_Some; [done|by eapply rf_pins0].
  - intros e [Ht Hf]%rf_events0. split; [|done]. apply lookup_insert_is_Some'. by right.
Qed.

(** A worker row is added or changed. *)
Lemma referential_workers d ws :
  referential d → (∀ w, is_Some (workers d !! w) → is_Some (ws !! w)) →
  (∀ w r', ws !! w = Some r' →
     w_id r' = w ∧ fits_int4 (w_pid r') = true ∧ fits_int4 (w_capacity r') = true ∧
     1 ≤ w_capacity r') →
  referential (set_workers ws d).
Proof. intros [] Hdom Hrows. rest. intros k a Ha%rf_attempts0. auto. Qed.

Lemma register_worker_intact w host pid cap caps : Intact (register_worker w host pid cap caps).
Proof.
  intros t d u d' Hd H. unfold register_worker in H. rewrite bind_run in H. cbn [ask] in H.
  rewrite bind_run in H. cbn [get] in H. destruct (fits_int4 pid && fits_int4 cap) eqn:Hf; [|done].
  apply andb_true_iff in Hf as [Hp Hc]. case_bool_decide; [done|].
  destruct (1 <=? cap) eqn:H1; [|done]. injection H as _ <-. apply referential_workers; [done| |].
  - intros j Hj. apply lookup_insert_is_Some'. by right.
  - intros j r [[<- <-]|[_ Hr]]%lookup_insert_Some; [|exact (rf_workers _ Hd _ _ Hr)].
    simpl. apply Z.leb_le in H1. done.
Qed.

Lemma heartbeat_intact w : Intact (heartbeat w).
Proof.
  intros t d u d' Hd H. unfold heartbeat in H. rewrite bind_run in H. cbn [ask] in H.
  rewrite bind_run in H. cbn [get] in H. destruct (workers d !! w) as [r|] eqn:Hr; [|by injection H as _ <-].
  case_bool_decide; [|by injection H as _ <-]. injection H as _ <-.
  apply referential_workers; [done| |].
  - intros j Hj. apply lookup_insert_is_Some'. by right.
  - intros j r' [[<- <-]|[_ Hj]]%lookup_insert_Some; [exact (rf_workers _ Hd _ _ Hr)|exact (rf_workers _ Hd _ _ Hj)].
Qed.

Lemma set_worker_status_intact w s : Intact (set_worker_status w s).
Proof.
  intros t d u d' Hd [= _ <-]. apply referential_workers; [done| |].
  - intros j. rewrite lookup_alter. case_decide; [subst; by rewrite fmap_is_Some|done].
  - intros j r'. rewrite lookup_alter_Some. intros [(<- & r & Hr & ->)|[_ Hr]];
      exact (rf_workers _ Hd _ _ Hr).
Qed.

Lemma mark_dead_intact n : Intact (mark_dead_workers n).
Proof.
  intros t d u d' Hd [= _ <-]. apply referential_workers; [done| |].
  - intros j. by rewrite lookup_update_where, fmap_is_Some.
  - intros j r'. rewrite lookup_update_where, fmap_Some. intros (r & Hr & ->).
    case_match; exact (rf_workers _ Hd _ _ Hr).
Qed.

Lemma create_tenant_intact name mc mq : Intact (create_tenant name mc mq).
Proof.
  intros t d u d' Hd H. unfold create_tenant in H. rewrite bind_run in H. cbn [ask] in H.
  rewrite bind_run in H. cbn [get] in H. destruct (fits_int4 mc && fits_int4 mq) eqn:Hf; [|done].
  apply andb_true_iff in Hf as [Hc Hq]. case_bool_decide; [done|]. case_bool_decide; [done|].
  injection H as _ <-. destruct Hd.
  assert (∀ i x, is_Some (tenants d !! i) → is_Some (<[new_uuid t := x]> (tenants d) !! i)) as Hg.
  { intros i x Hi. apply lookup_insert_is_Some'. by right. }
  rest; [|by intros ? ? H%rf_agents0; apply Hg|by intros ? ? H%rf_routes0; apply Hg
          |by intros ? ? H%rf_tools0; apply Hg].
  intros i te [[_ <-]|[_ Hi]]%lookup_insert_Some; [done|by eapply rf_tenants0].
Qed.

Lemma record_audit_intact te action rt out rid actor data :
  Intact (record_audit te action rt out rid actor data).
Proof. intros t d u d' [] [= _ <-]. rest. by apply seq_snoc. Qed.

(** ** Administration *)

Lemma referential_change d d' : referential d → change d d' → referential d'.
Proof.
  intros [] Hc. destruct Hc as [|t te name desc Hn Hte Hex|t i a s dv Ha Hdv|t a spec caps cfg ma mx st Ha He Hn
    |i v s Hv|te rt a row Hte Ha <- <- <-|t te name desc ty cfg Hn Hte Hex|i r s Hr|t v i Hv Hi|v i];
    rest.
  - intros i a [[_ <-]|[_ Ha]]%lookup_insert_Some; [done|by eapply rf_agents0].
  - intros j b [[<- <-]|[_ Hb]]%lookup_insert_Some; [exact (rf_agents0 _ _ Ha)|by eapply rf_agents0].
  - intros j r Hr%rf_pins0. unfold version_exists in *. destruct (t_agent_version_id r); [|done].
    apply bool_decide_eq_true in Hr. apply bool_decide_eq_true. apply lookup_insert_is_Some'. by right.
  - intros j r Hr%rf_pins0. unfold version_exists in *. destruct (t_agent_version_id r); [|done].
    apply bool_decide_eq_true in Hr. apply bool_decide_eq_true. apply lookup_insert_is_Some'. by right.
  - intros k r [[_ <-]|[_ Hr]]%lookup_insert_Some; [done|by eapply rf_routes0].
  - intros i r [[_ <-]|[_ Hr]]%lookup_insert_Some; [done|by eapply rf_tools0].
  - intros j b [[<- <-]|[_ Hb]]%lookup_insert_Some; [exact (rf_tools0 _ _ Hr)|by eapply rf_tools0].
Qed.

Lemma referential_changes d d' : referential d → changes d d' → referential d'.
Proof. intros Hd Hc. induction Hc as [|d d1 d2 Hc _ IH]; [done|]. apply IH. by eapply referential_change. Qed.

(** ** Every transaction *)

Ltac intact_leaf :=
  first [ apply update_task_intact | apply update_tasks_intact | apply insert_event_intact
        | apply insert_attempt_intact | apply finish_attempt_intact | apply insert_task_intact ].

Lemma transition_intact i e s ty sets data : Intact (transition i e s ty sets data).
Proof. unfold transition, explain, require_legal. preserves_walk intact_leaf. Qed.

Lemma record_event_intact i ty a w data : Intact (record_event i ty a w data).
Proof. unfold record_event. preserves_walk intact_leaf. Qed.

Ltac query_leaf := first [ apply transition_intact | apply record_event_intact | intact_leaf ].

Lemma submit_intact te ty p key prio ma mx av ver caps :
  Intact (submit_task te ty p key prio ma mx av ver caps).
Proof. unfold submit_task. preserves_walk query_leaf. Qed.

Lemma grant_claimed_intact w ttl ids : Intact (grant_claimed w ttl ids).
Proof. unfold grant_claimed, int_seconds, load_timestamp. preserves_walk query_leaf. Qed.

Lemma claim_intact w limit ttl policy caps : Intact (claim_tasks w limit ttl policy caps).
Proof. unfold claim_tasks. preserves_walk ltac:(first [apply grant_claimed_intact|query_leaf]). Qed.

Lemma renew_intact i w a ttl : Intact (renew_lease i w a ttl).
Proof. unfold renew_lease, int_seconds, load_timestamp. preserves_walk query_leaf. Qed.

Lemma run_completion_intact c i a w : Intact (run_completion c i a w).
Proof.
  destruct c; simpl; unfold complete_success, complete_retry, complete_failed, complete_cancelled,
    complete_abandoned, float_seconds, load_timestamp; preserves_walk query_leaf.
Qed.

Lemma reap_batch_intact k limit : Intact (reap_batch k limit).
Proof.
  destruct k; simpl; unfold reap_expired_leases, reap_hung_tasks, find_expired_leases,
    find_hung_tasks, limit_rows, reap_task, reap_hung_task; preserves_walk query_leaf.
Qed.

Lemma cancel_intact i : Intact (cancel_task i).
Proof. unfold cancel_task, get_task. preserves_walk query_leaf. Qed.

Lemma cancel_agent_intact q rn vs reason : Intact (cancel_found q rn vs reason).
Proof. unfold cancel_found. preserves_walk query_leaf. Qed.

Lemma referential_step t d d' : referential d → step t d d' → referential d'.
Proof.
  intros Hd Hs. destruct Hs as [? ? ? ? ? ? ? ? ? ? ? d' H|? ? ? ? ? ? d' H|? ? ? ? ? d' H
    |c ? ? ? ? d' H|k ? ? d' H|? ? d' H|? ? ? ? ? d' H|? ? ? ? ? ? d' _ H|? ? ? ? ? ? d' H|? ? d' H
    |? ? ? d' H|? ? d' H|name mc mq row d' H|op ? d' H|? ? ? ? ? ? ? ? d' H
    |? ? ? ? ? ? d' _ H].
  - by eapply submit_intact.
  - by eapply claim_intact.
  - by eapply renew_intact.
  - by eapply run_completion_intact.
  - by eapply reap_batch_intact.
  - by eapply cancel_intact.
  - by eapply cancel_agent_intact.
  - by eapply record_event_intact.
  - by eapply register_worker_intact.
  - by eapply heartbeat_intact.
  - by eapply set_worker_status_intact.
  - by eapply mark_dead_intact.
  - by eapply create_tenant_intact.
  - apply admin_changes in H. by eapply referential_changes.
  - by eapply record_audit_intact.
  - by eapply grant_claimed_intact.
Qed.

Lemma referential_reachable d : reachable d → referential d.
Proof.
  unfold reachable. intros H. remember empty_db as d0 eqn:E.
  induction H as [d|t d d1 d2 _ IH Hs]; [subst; apply referential_empty|].
  eapply referential_step; [by apply IH|done].
Qed.
