(* ===== verification/Conforms.v ===== *)
(** * The database conforms to the migrated schema

    [table_rows] writes the records of Db.v as rows of columns, and
    [reachable_conforms] shows that the rows of every reachable state satisfy
    every constraint the nine migrations create.  The constraints the query
    functions check while they run are thus not a list made up beside the
    schema: together they are the schema. *)

From S2P Require Import Prelude PyStr Json States Authz Capability Policy Db Schema Migrations Upgrade Samples.
From S2P Require Import Transitions Completion Lease Workers Claim Reap Tasks Agents Tools Frames.
From S2P Require Import Registry Effects Protocol Scenario Gauges Integrity Governance.
#[local] Open Scope Z_scope.

(** ** Rows *)

Definition nullable {A} (f : A → value) (o : option A) : value :=
  match o with Some a => f a | None => VNull end.

Definition tenant_cells (te : tenant_row) : row :=
  [("id", VUuid (te_id te)); ("name", VText (te_name te));
   ("max_concurrent_tasks", VInt (te_max_concurrent_tasks te));
   ("max_queued_tasks", VInt (te_max_queued_tasks te));
   ("priority_weight", VInt (te_priority_weight te)); ("created_at", VTime (te_created_at te))].

Definition task_cells (r : task_row) : row :=
  [("id", VUuid (t_id r)); ("tenant_id", VUuid (t_tenant_id r)); ("task_type", VText (t_task_type r));
   ("payload", VJson (t_payload r)); ("idempotency_key", nullable VText (t_idempotency_key r));
   ("priority", VInt (t_priority r)); ("state", VText (State.value (t_state r)));
   ("attempt", VInt (t_attempt r)); ("max_attempts", VInt (t_max_attempts r));
   ("max_execution_time_s", VInt (t_max_execution_time_s r));
   ("available_at", VTime (t_available_at r));
   ("lease_worker_id", nullable VText (t_lease_worker_id r));
   ("lease_expires_at", nullable VTime (t_lease_expires_at r));
   ("agent_version_id", nullable VUuid (t_agent_version_id r));
   ("required_capabilities", VTexts (t_required_capabilities r));
   ("capability_key", VText (t_capability_key r)); ("cancel_requested", VBool (t_cancel_requested r));
   ("result", nullable VJson (t_result r)); ("error_class", nullable VText (t_error_class r));
   ("error_message", nullable VText (t_error_message r)); ("created_at", VTime (t_created_at r));
   ("updated_at", VTime (t_updated_at r)); ("first_started_at", nullable VTime (t_first_started_at r));
   ("finished_at", nullable VTime (t_finished_at r))].

Definition event_cells (e : event_row) : row :=
  [("id", VInt (Z.of_nat (ev_id e))); ("task_id", VUuid (ev_task_id e));
   ("attempt", nullable VInt (ev_attempt e)); ("event_type", VText (EventType.value (ev_type e)));
   ("worker_id", nullable VText (ev_worker_id e)); ("data", VJson (ev_data e));
   ("created_at", VTime (ev_created_at e))].

Definition worker_cells (w : worker_row) : row :=
  [("id", VText (w_id w)); ("hostname", VText (w_hostname w)); ("pid", VInt (w_pid w));
   ("capacity", VInt (w_capacity w)); ("capabilities", VTexts (w_capabilities w));
   ("status", VText (status_text (w_status w))); ("registered_at", VTime (w_registered_at w));
   ("last_heartbeat_at", VTime (w_last_heartbeat_at w))].

Definition attempt_cells (a : attempt_row) : row :=
  [("task_id", VUuid (a_task_id a)); ("attempt", VInt (a_attempt a)); ("worker_id", VText (a_worker_id a));
   ("started_at", VTime (a_started_at a)); ("finished_at", nullable VTime (a_finished_at a));
   ("outcome", nullable (λ o, VText (Outcome.value o)) (a_outcome a));
   ("error_class", nullable VText (a_error_class a));
   ("error_message", nullable VText (a_error_message a))].

Definition agent_cells (a : agent_row) : row :=
  [("id", VUuid (ag_id a)); ("tenant_id", VUuid (ag_tenant_id a)); ("name", VText (ag_name a));
   ("description", nullable VText (ag_description a));
   ("status", VText (AgentStatus.value (ag_status a)));
   ("default_version_id", nullable VUuid (ag_default_version_id a));
   ("created_at", VTime (ag_created_at a)); ("updated_at", VTime (ag_updated_at a))].

Definition version_cells (v : version_row) : row :=
  [("id", VUuid (v_id v)); ("agent_id", VUuid (v_agent_id v)); ("version", VInt (v_version v));
   ("runtime_spec", VJson (v_runtime_spec v));
   ("required_capabilities", VTexts (v_required_capabilities v)); ("config", VJson (v_config v));
   ("max_attempts", VInt (v_max_attempts v)); ("max_execution_time_s", VInt (v_max_execution_time_s v));
   ("status", VText (VersionStatus.value (v_status v))); ("created_at", VTime (v_created_at v))].

Definition route_cells (r : route_row) : row :=
  [("tenant_id", VUuid (ro_tenant_id r)); ("request_type", VText (ro_request_type r));
   ("agent_id", VUuid (ro_agent_id r)); ("created_at", VTime (ro_created_at r))].

Definition tool_cells (r : tool_row) : row :=
  [("id", VUuid (tl_id r)); ("tenant_id", VUuid (tl_tenant_id r)); ("name", VText (tl_name r));
   ("description", nullable VText (tl_description r));
   ("tool_type", VText (ToolType.value (tl_tool_type r))); ("config", VJson (tl_config r));
   ("status", VText (ToolStatus.value (tl_status r))); ("created_at", VTime (tl_created_at r))].

Definition grant_cells (g : grant_row) : row :=
  [("agent_version_id", VUuid (gr_agent_version_id g)); ("tool_id", VUuid (gr_tool_id g));
   ("created_at", VTime (gr_created_at g))].

Definition audit_cells (e : audit_row) : row :=
  [("id", VInt (Z.of_nat (au_id e))); ("tenant_id", VUuid (au_tenant_id e)); ("actor", VText (au_actor e));
   ("action", VText (au_action e)); ("resource_type", VText (au_resource_type e));
   ("resource_id", nullable VUuid (au_resource_id e)); ("outcome", VText (au_outcome e));
   ("data", VJson (au_data e)); ("created_at", VTime (au_created_at e))].

Definition table_rows (d : db) : list (text * list row) :=
  [("tenants", tenant_cells <$> rows (tenants d)); ("tasks", task_cells <$> rows (tasks d));
   ("task_events", event_cells <$> task_events d); ("workers", worker_cells <$> rows (workers d));
   ("task_attempts", attempt_cells <$> rows (task_attempts d));
   ("agents", agent_cells <$> rows (agents d));
   ("agent_versions", version_cells <$> rows (agent_versions d));
   ("agent_routes", route_cells <$> rows (agent_routes d)); ("tools", tool_cells <$> rows (tools d));
   ("agent_version_tool_grants", grant_cells <$> rows (agent_version_tool_grants d));
   ("audit_events", audit_cells <$> audit_events d)].

Definition data_of (d : db) : data := λ n,
  match List.find (λ x : text * list row, String.eqb x.1 n) (table_rows d) with
  | Some x => x.2 | None => []
  end.

(** ** Keys and references *)

Lemma unique_enc {A} (enc : A → row) cs (l : list A) :
  (∀ i j a b, l !! i = Some a → l !! j = Some b → total (key cs (enc a)) = true →
     key cs (enc a) = key cs (enc b) → i = j) →
  unique_on cs (enc <$> l).
Proof.
  unfold unique_on. intros H. rewrite <-list_fmap_compose.
  induction l as [|a l IH]; [constructor|]. rewrite fmap_cons, filter_cons.
  assert (NoDup (filter (λ k, total k = true) (key cs ∘ enc <$> l))) as Hl.
  { apply IH. intros i j x y Hi Hj Ht He. by apply (H (S i) (S j) x y Hi Hj) in He as [= ->]. }
  case_decide as Ht; [|done]. constructor; [|done].
  intros [_ (b & Hb & [j Hj]%list_elem_of_lookup)%list_elem_of_fmap]%list_elem_of_filter.
  by specialize (H 0%nat (S j) a b eq_refl Hj Ht Hb).
Qed.

Lemma unique_map {K A} `{Countable K} (enc : A → row) cs (m : gmap K A) :
  (∀ i j a b, m !! i = Some a → m !! j = Some b → total (key cs (enc a)) = true →
     key cs (enc a) = key cs (enc b) → i = j) →
  unique_on cs (enc <$> rows m).
Proof.
  intros Hm. apply unique_enc. unfold rows. intros i j a b Hi Hj Ht He.
  apply list_lookup_fmap_Some in Hi as ([k a'] & -> & Hi).
  apply list_lookup_fmap_Some in Hj as ([k' b'] & -> & Hj). simpl in *.
  assert (k = k') as <-.
  { eapply Hm; [| |done|done]; by eapply elem_of_map_to_list, list_elem_of_lookup_2. }
  eapply (NoDup_lookup (map_to_list m).*1); [apply NoDup_fst_map_to_list| |];
    apply list_lookup_fmap_Some; [by exists (k, a')|by exists (k, b')].
Qed.

(** A row of a log, by its number. *)
Lemma unique_log {A} (enc : A → row) (id : A → nat) (l : list A) :
  id <$> l = seq 1 (length l) → (∀ a, cell (enc a) "id" = VInt (Z.of_nat (id a))) →
  unique_on ["id"] (enc <$> l).
Proof.
  intros Hid Henc. apply unique_enc. intros i j a b Hi Hj _ He. unfold key in He. simpl in He.
  rewrite !Henc in He. injection He as He%Nat2Z.inj.
  eapply (NoDup_lookup (id <$> l)); [rewrite Hid; apply NoDup_seq| |];
    apply list_lookup_fmap_Some; [by exists a|by exists b].
Qed.

Lemma rows_forall {K A} `{Countable K} (enc : A → row) (P : row → Prop) (m : gmap K A) :
  (∀ i a, m !! i = Some a → P (enc a)) → ∀ r, r ∈ enc <$> rows m → P r.
Proof. intros H' r (a & -> & [i Hi]%elem_of_rows)%list_elem_of_fmap. by eapply H'. Qed.

Lemma rows_Forall {K A} `{Countable K} (enc : A → row) (P : row → Prop) (m : gmap K A) :
  (∀ i a, m !! i = Some a → P (enc a)) → Forall P (enc <$> rows m).
Proof. intros H'. apply Forall_forall. by apply rows_forall. Qed.

Lemma in_rows {K A} `{Countable K} (enc : A → row) (P : row → Prop) (m : gmap K A) i :
  is_Some (m !! i) → (∀ a, m !! i = Some a → P (enc a)) → ∃ r', r' ∈ enc <$> rows m ∧ P r'.
Proof.
  intros [a Ha] HP. exists (enc a). split; [|by apply HP].
  apply list_elem_of_fmap_2, elem_of_rows. eauto.
Qed.

Lemma NoDup_fmap_eq {A B} (f : A → B) (l : list A) x y :
  NoDup (f <$> l) → x ∈ l → y ∈ l → f x = f y → x = y.
Proof.
  intros Hnd [i Hi]%list_elem_of_lookup [j Hj]%list_elem_of_lookup He.
  assert (i = j) as <-; [|congruence].
  eapply (NoDup_lookup (f <$> l)); [done|apply list_lookup_fmap_Some; by exists x|].
  apply list_lookup_fmap_Some. by exists y.
Qed.

(** ** Columns *)

Lemma column_nullable {A} labels c (f : A → value) o :
  col_nullable c = true → (∀ a, o = Some a → fits labels (col_type c) (f a) = true) →
  column_ok labels c (nullable f o) = true.
Proof.
  intros Hn Hf. unfold column_ok. rewrite Hn, orb_true_l, andb_true_r.
  destruct o; [by apply Hf|]. by destruct (col_type c).
Qed.

#[local] Abbreviation labels := (list_to_map head_enums : gmap text (list text)).

Lemma label_fits n s l : labels !! n = Some l → s ∈ l → fits labels (ENUM n) (VText s) = true.
Proof. intros Hl Hs. unfold fits. rewrite Hl. by apply bool_decide_eq_true. Qed.

(** The labels of the database are the members of the Python enums. *)
Lemma state_fits s : fits labels (ENUM "task_state") (VText (State.value s)) = true.
Proof. eapply label_fits; [vm_compute; reflexivity|]. destruct s; set_solver. Qed.
Lemma status_fits s : fits labels (ENUM "worker_status") (VText (status_text s)) = true.
Proof. eapply label_fits; [vm_compute; reflexivity|]. destruct s; set_solver. Qed.
Lemma outcome_fits o : fits labels (ENUM "attempt_outcome") (VText (Outcome.value o)) = true.
Proof. eapply label_fits; [vm_compute; reflexivity|]. destruct o; set_solver. Qed.
Lemma agent_status_fits s : fits labels (ENUM "agent_status") (VText (AgentStatus.value s)) = true.
Proof. eapply label_fits; [vm_compute; reflexivity|]. destruct s; set_solver. Qed.
Lemma version_status_fits s :
  fits labels (ENUM "version_status") (VText (VersionStatus.value s)) = true.
Proof. eapply label_fits; [vm_compute; reflexivity|]. destruct s; set_solver. Qed.
Lemma tool_status_fits s : fits labels (ENUM "tool_status") (VText (ToolStatus.value s)) = true.
Proof. eapply label_fits; [vm_compute; reflexivity|]. destruct s; set_solver. Qed.

Lemma enum_column labels c v :
  fits labels (col_type c) v = true → is_null v = false → column_ok labels c v = true.
Proof. intros Hf Hv. unfold column_ok. by rewrite Hf, Hv, orb_true_r. Qed.

Create HintDb fits.
#[local] Hint Resolve state_fits status_fits outcome_fits agent_status_fits version_status_fits
  tool_status_fits : fits.

(** Prove the columns of a row whose widths are hypotheses. *)
Ltac solve_column :=
  lazymatch goal with
  | |- column_ok _ ?c (cell ?r ?n) = true =>
      let v := eval cbv [cell List.find String.eqb Ascii.eqb Bool.eqb fst snd tenant_cells task_cells
        event_cells worker_cells attempt_cells agent_cells version_cells route_cells tool_cells
        grant_cells audit_cells] in (cell r n) in change (cell r n) with v;
      lazymatch v with
      | nullable _ _ => apply column_nullable; [reflexivity|intros; first [reflexivity|solve [eauto with fits]|cbn [fits col_type]; solve [eauto]]]
      | _ => apply enum_column; [|reflexivity]; first [reflexivity|solve [eauto with fits]|cbn [fits col_type]; solve [eauto]]
      end
  end.
Ltac solve_columns := repeat (apply Forall_cons; split; [cbn [fst snd]; solve_column|]); apply Forall_nil; exact I.

(** The table called [n] of the head schema. *)
Definition entry (n : text) : listed_table :=
  default (MkListed n [] []) (List.find (λ l, String.eqb (li_name l) n) head_tables).

(** Unfold what [listed_ok] asks of one table: a goal for its rows and one
    for each of its constraints. *)
Ltac open_table d n rs :=
  let e := eval vm_compute in (entry n) in
  change (entry n) with e; unfold listed_ok; cbn [li_name li_columns li_constraints];
  change (data_of d n) with rs; split;
  [|repeat (apply Forall_cons; split; [cbn [snd constraint_holds]|]); [..|apply Forall_nil; exact I]].

(** The columns of each row. *)
Ltac open_rows := apply rows_Forall; intros i r Hr; split; [decide_closed|].

(** No two rows of a table with the same key. *)
Ltac open_unique := apply unique_map; intros i j a b Ha Hb Ht He; unfold key in He, Ht; simpl in He, Ht.
Ltac open_primary := split; [open_unique|by apply rows_forall].

(** A foreign key, from a row [r] into table [n] of [d], whose rows [m] are
    written by [enc], to the row [k]. *)
Ltac open_foreign := intros x (r & -> & [i Hr]%elem_of_rows)%list_elem_of_fmap Ht.
Ltac refers_to d n enc m k :=
  change (data_of d n) with (enc <$> rows m); apply (in_rows enc _ m k);
  [|intros a Ha; unfold key, cell; simpl].

(** ** The checks of [task_error] are the schema's *)

Lemma fits_int4_spec z : fits_int4 z = true ↔ - (int4_max + 1) ≤ z ≤ int4_max.
Proof. unfold fits_int4. rewrite andb_true_iff, !Z.leb_le. done. Qed.

Lemma fits_int2_spec z : fits_int2 z = true ↔ - (int2_max + 1) ≤ z ≤ int2_max.
Proof. unfold fits_int2. rewrite andb_true_iff, !Z.leb_le. done. Qed.

Lemma fits_int8_nat n : Z.of_nat n < 2 ^ 63 → fits_int8 (Z.of_nat n) = true.
Proof. intros H. apply bool_decide_eq_true. lia. Qed.

Lemma at_least_holds c n r z :
  cell r c = VInt z → holds (AtLeast c n) r ≠ Some false ↔ n ≤ z.
Proof. simpl. intros ->. rewrite <-Z.leb_le. destruct (n <=? z); naive_solver. Qed.

Lemma lease_coherence_holds (r : task_row) :
  holds lease_coherence (task_cells r) ≠ Some false ↔ coherent r.
Proof.
  rewrite <-coherent_bool. unfold lease_coherence. simpl. unfold cell. simpl.
  assert (bool_decide (State.value (t_state r) = "RUNNING") = bool_decide (t_state r = State.RUNNING))
    as -> by (by destruct (t_state r)).
  destruct (t_lease_worker_id r), (t_lease_expires_at r); simpl;
    destruct (bool_decide (t_state r = State.RUNNING)); simpl; naive_solver.
Qed.

Definition check_holds (r : row) (c : table_constraint) : Prop :=
  match c with Check p => holds p r ≠ Some false | _ => True end.

Abbreviation columns_ok n r :=
  (Forall (λ c, column_ok labels c.2 (cell r c.1) = true) (li_columns (entry n))).
Abbreviation checks_ok n r := (Forall (λ c, check_holds r c.2) (li_constraints (entry n))).

(** Write [entry n] out. *)
Ltac open_entry n :=
  let e := eval vm_compute in (entry n) in
  change (entry n) with e; cbn [li_columns li_constraints].

Lemma task_columns (r : task_row) : task_ok r → columns_ok "tasks" (task_cells r).
Proof.
  intros ((H1 & H2 & H3) & H4 & _)%task_ok_spec. unfold int4_max, int2_max in *.
  assert (fits_int4 (t_max_attempts r) = true) by (apply fits_int4_spec; unfold int4_max; lia).
  assert (fits_int4 (t_max_execution_time_s r) = true) by (apply fits_int4_spec; unfold int4_max; lia).
  assert (fits_int2 (t_priority r) = true) by (apply fits_int2_spec; unfold int2_max; lia).
  assert (fits_int4 (t_attempt r) = true) by (apply fits_int4_spec; unfold int4_max; lia).
  open_entry "tasks". solve_columns.
Qed.

Lemma task_checks (r : task_row) : task_ok r → checks_ok "tasks" (task_cells r).
Proof.
  intros (([? _] & [? _] & [? _]) & [? _] & ?)%task_ok_spec. open_entry "tasks".
  repeat (apply Forall_cons; split; [cbn [check_holds snd];
    first [exact I|by eapply at_least_holds|by apply lease_coherence_holds]|]). by apply Forall_nil.
Qed.

Lemma version_bounds v : version_error v = None ↔
  1 ≤ v_version v ≤ int4_max ∧ 1 ≤ v_max_attempts v ≤ int4_max ∧
  1 ≤ v_max_execution_time_s v ≤ int4_max.
Proof.
  unfold version_error.
  destruct (v_version v <=? _) eqn:E1; cbn [negb]; [|to_prop; split; [done|lia]].
  destruct (v_max_attempts v <=? _) eqn:E2; cbn [negb]; [|to_prop; split; [done|lia]].
  destruct (v_max_execution_time_s v <=? _) eqn:E3; cbn [negb]; [|to_prop; split; [done|lia]].
  destruct (1 <=? v_version v) eqn:E4; cbn [negb]; [|to_prop; split; [done|lia]].
  destruct (1 <=? v_max_attempts v) eqn:E5; cbn [negb]; [|to_prop; split; [done|lia]].
  destruct (1 <=? v_max_execution_time_s v) eqn:E6; cbn [negb]; [|to_prop; split; [done|lia]].
  to_prop. split; [lia|done].
Qed.

Lemma version_columns v : version_error v = None → columns_ok "agent_versions" (version_cells v).
Proof.
  intros (H1 & H2 & H3)%version_bounds.
  assert (∀ z, 1 ≤ z ≤ int4_max → fits_int4 z = true) as Hf.
  { intros z Hz. apply fits_int4_spec. unfold int4_max in *. lia. }
  apply Hf in H1. apply Hf in H2. apply Hf in H3. open_entry "agent_versions". solve_columns.
Qed.

Lemma version_checks v : version_error v = None → checks_ok "agent_versions" (version_cells v).
Proof.
  intros ([? _] & [? _] & [? _])%version_bounds. open_entry "agent_versions".
  repeat (apply Forall_cons; split; [cbn [check_holds snd];
    first [exact I|by eapply at_least_holds]|]). by apply Forall_nil.
Qed.

Section conforms.
Context (d : db) (Hinv : inv d) (Hreg : registry_ok d) (Hten : tenancy d) (Href : referential d).
Context (Hev : Z.of_nat (length (task_events d)) < 2 ^ 63).
Context (Hau : Z.of_nat (length (audit_events d)) < 2 ^ 63).

Lemma tenants_conform : listed_ok (data_of d) (entry "tenants").
Proof using Hten Href.
  open_table d "tenants" (tenant_cells <$> rows (tenants d)).
  - open_rows. destruct (rf_tenants d Href i r Hr) as (H1 & H2 & H3). solve_columns.
  - open_unique. injection He as He. by eapply (tn_name d Hten).
  - open_primary. injection He as He. by rewrite <-(tn_id d Hten i a Ha), <-(tn_id d Hten j b Hb).
Qed.

Lemma tasks_conform : listed_ok (data_of d) (entry "tasks").
Proof using Hinv Hreg Hten Href.
  assert (∀ i (r : task_row), tasks d !! i = Some r → t_id r = i ∧ task_ok r) as Hok.
  { intros i r Hr. split; [exact (inv_ids d Hinv i r Hr)|exact (inv_ok d Hinv i r Hr)]. }
  pose proof task_columns as Hcols. pose proof task_checks as Hchecks.
  open_table d "tasks" (task_cells <$> rows (tasks d)).
  all: try (apply rows_forall; intros i r Hr; destruct (Hok i r Hr) as (_ & Hr'); clear Hok;
    apply Hchecks in Hr'; revert Hr'; open_entry "tasks"; rewrite !Forall_cons; cbn [check_holds snd];
    tauto).
  - open_rows. by apply Hcols, (Hok i).
  - open_foreign. pose proof (rf_pins d Href i r Hr) as Hv. unfold key, cell in *. simpl in *.
    destruct (t_agent_version_id r) as [v|]; [|done].
    refers_to d "agent_versions" version_cells (agent_versions d) v; [by apply bool_decide_eq_true in Hv|].
    by destruct (rg_versions d Hreg v a Ha) as (-> & _).
  - open_foreign. refers_to d "tenants" tenant_cells (tenants d) (t_tenant_id r).
    + by eapply (tn_tasks d Hten).
    + by rewrite (tn_id d Hten _ a Ha).
  - open_primary. injection He as He. destruct (Hok i a Ha) as [<- _], (Hok j b Hb) as [<- _]. done.
Qed.

Lemma task_events_conform : listed_ok (data_of d) (entry "task_events").
Proof using Hinv Href Hev.
  open_table d "task_events" (event_cells <$> task_events d).
  - apply Forall_fmap, Forall_forall. intros r Hr. destruct (rf_events d Href r Hr) as [_ Hf].
    assert (fits_int8 (Z.of_nat (ev_id r)) = true).
    { apply fits_int8_nat. assert (ev_id r ∈ ev_id <$> task_events d) as Hid by by apply list_elem_of_fmap_2.
      rewrite (rf_event_ids d Href), elem_of_seq in Hid. lia. }
    split; [decide_closed|]. assert (∀ n, ev_attempt r = Some n → fits_int4 n = true).
    { intros n Hn. by rewrite Hn in Hf. }
    solve_columns.
  - intros x (r & -> & Hr)%list_elem_of_fmap _. destruct (rf_events d Href r Hr) as [Ht _].
    refers_to d "tasks" task_cells (tasks d) (ev_task_id r); [done|].
    by rewrite <-(inv_ids d Hinv _ _ Ha).
  - split; [|by intros x (r & -> & _)%list_elem_of_fmap].
    apply (unique_log _ ev_id); [apply (rf_event_ids d Href)|done].
Qed.

Lemma workers_conform : listed_ok (data_of d) (entry "workers").
Proof using Href.
  open_table d "workers" (worker_cells <$> rows (workers d)).
  - open_rows. destruct (rf_workers d Href i r Hr) as (_ & H1 & H2 & _). solve_columns.
  - open_primary. injection He as He.
    by destruct (rf_workers d Href i a Ha) as [<- _], (rf_workers d Href j b Hb) as [<- _].
  - apply rows_forall. intros i r Hr. eapply at_least_holds; [done|]. apply (rf_workers d Href i r Hr).
Qed.

Lemma attempt_task k a : task_attempts d !! k = Some a →
  k = (a_task_id a, a_attempt a) ∧ is_Some (tasks d !! k.1) ∧ fits_int4 (a_attempt a) = true.
Proof using Hinv.
  destruct k as [i n]. intros Ha. pose proof (inv_view d Hinv i) as Hv. unfold vinv in Hv.
  destruct (tasks d !! i) as [r|] eqn:Hr; [|destruct Hv as [_ Hn]; by rewrite Hn in Ha].
  destruct (ti_keys d i r Hv n a Ha) as [-> ->]. split; [done|]. split; [eauto|].
  apply fits_int4_spec. pose proof (proj1 (ti_attempts d i r Hv n) (mk_is_Some _ _ Ha)).
  pose proof (proj1 (task_ok_spec r) (ti_ok d i r Hv)) as (_ & ? & _). unfold int4_max in *. lia.
Qed.

Lemma task_attempts_conform : listed_ok (data_of d) (entry "task_attempts").
Proof using Hinv Href.
  open_table d "task_attempts" (attempt_cells <$> rows (task_attempts d)).
  - open_rows. destruct (attempt_task i r Hr) as (_ & _ & Hf). solve_columns.
  - open_foreign. refers_to d "workers" worker_cells (workers d) (a_worker_id r).
    + by eapply (rf_attempts d Href).
    + by destruct (rf_workers d Href _ a Ha) as [-> _].
  - open_foreign. destruct (attempt_task i r Hr) as (-> & Ht' & _). simpl in Ht'.
    refers_to d "tasks" task_cells (tasks d) (a_task_id r); [done|].
    by rewrite <-(inv_ids d Hinv _ _ Ha).
  - open_primary. injection He as He1 He2.
    destruct (attempt_task i a Ha) as [-> _], (attempt_task j b Hb) as [-> _]. congruence.
Qed.
Lemma agents_conform : listed_ok (data_of d) (entry "agents").
Proof using Hreg Hten Href.
  open_table d "agents" (agent_cells <$> rows (agents d)).
  - open_rows. solve_columns.
  - open_unique. injection He as He1 He2. by eapply (rg_names d Hreg).
  - open_foreign. refers_to d "tenants" tenant_cells (tenants d) (ag_tenant_id r).
    + by eapply (rf_agents d Href).
    + by rewrite (tn_id d Hten _ a Ha).
  - open_primary. injection He as He.
    by rewrite <-(rg_agents d Hreg i a Ha), <-(rg_agents d Hreg j b Hb).
  - open_foreign. unfold key, cell in *. simpl in *.
    destruct (ag_default_version_id r) as [v|] eqn:Hv; [|done].
    refers_to d "agent_versions" version_cells (agent_versions d) v.
    + destruct (rg_default d Hreg i r v Hr Hv) as (x & Hx & _). eauto.
    + by destruct (rg_versions d Hreg v a Ha) as (-> & _).
Qed.

Lemma versions_unique i j v w :
  agent_versions d !! i = Some v → agent_versions d !! j = Some w →
  v_agent_id v = v_agent_id w → v_version v = v_version w → i = j.
Proof using Hreg.
  intros Hv Hw Ha Hn. assert (v = w) as <-.
  { eapply (NoDup_fmap_eq v_version (versions_of d (v_agent_id v))); [| | |done].
    - rewrite (rg_dense d Hreg (v_agent_id v)). apply NoDup_seqZ.
    - apply elem_of_select. split; [by apply bool_decide_eq_true|eauto].
    - apply elem_of_select. split; [by apply bool_decide_eq_true|eauto]. }
  destruct (rg_versions d Hreg i v Hv) as [<- _], (rg_versions d Hreg j v Hw) as [? _]. done.
Qed.

Lemma agent_versions_conform : listed_ok (data_of d) (entry "agent_versions").
Proof using Hreg.
  assert (∀ i v, agent_versions d !! i = Some v → version_error v = None) as Hok.
  { intros i v Hv. apply (rg_versions d Hreg i v Hv). }
  pose proof version_columns as Hcols. pose proof version_checks as Hchecks.
  open_table d "agent_versions" (version_cells <$> rows (agent_versions d)).
  all: try (apply rows_forall; intros i r Hr; apply Hok, Hchecks in Hr; revert Hr;
    open_entry "agent_versions"; rewrite !Forall_cons; cbn [check_holds snd]; tauto).
  - open_rows. by apply Hcols, (Hok i).
  - open_unique. injection He as He1 He2. by eapply versions_unique.
  - open_foreign. refers_to d "agents" agent_cells (agents d) (v_agent_id r).
    + by destruct (rg_versions d Hreg i r Hr) as (_ & ? & _).
    + by rewrite (rg_agents d Hreg _ a Ha).
  - open_primary. injection He as He.
    by destruct (rg_versions d Hreg i a Ha) as [<- _], (rg_versions d Hreg j b Hb) as [<- _].
Qed.

Lemma agent_routes_conform : listed_ok (data_of d) (entry "agent_routes").
Proof using Hreg Hten Href.
  open_table d "agent_routes" (route_cells <$> rows (agent_routes d)).
  - open_rows. solve_columns.
  - open_foreign. refers_to d "agents" agent_cells (agents d) (ro_agent_id r).
    + by destruct (rg_routes d Hreg i r Hr) as [_ ?].
    + by rewrite (rg_agents d Hreg _ a Ha).
  - open_foreign. refers_to d "tenants" tenant_cells (tenants d) (ro_tenant_id r).
    + by eapply (rf_routes d Href).
    + by rewrite (tn_id d Hten _ a Ha).
  - open_primary. injection He as He1 He2.
    destruct (rg_routes d Hreg i a Ha) as [-> _], (rg_routes d Hreg j b Hb) as [-> _]. congruence.
Qed.

Lemma tools_conform : listed_ok (data_of d) (entry "tools").
Proof using Hreg Hten Href.
  pose proof (rg_tools d Hreg) as Htk. open_table d "tools" (tool_cells <$> rows (tools d)).
  - open_rows. solve_columns.
  - apply rows_forall. intros i r Hr. unfold holds, cell. simpl. by destruct (tl_tool_type r).
  - open_unique. injection He as He1 He2. by eapply (tk_names d Htk).
  - open_foreign. refers_to d "tenants" tenant_cells (tenants d) (tl_tenant_id r).
    + by eapply (rf_tools d Href).
    + by rewrite (tn_id d Hten _ a Ha).
  - open_primary. injection He as He. by rewrite <-(tk_ids d Htk i a Ha), <-(tk_ids d Htk j b Hb).
Qed.

Lemma grants_conform : listed_ok (data_of d) (entry "agent_version_tool_grants").
Proof using Hreg.
  pose proof (tk_grants d (rg_tools d Hreg)) as Hk.
  open_table d "agent_version_tool_grants" (grant_cells <$> rows (agent_version_tool_grants d)).
  - open_rows. solve_columns.
  - open_foreign. pose proof (Hk i r Hr) as ->. destruct (rg_grants d Hreg _ _ _ Hr) as [Hv _].
    refers_to d "agent_versions" version_cells (agent_versions d) (gr_agent_version_id r); [done|].
    by destruct (rg_versions d Hreg _ a Ha) as (-> & _).
  - open_foreign. pose proof (Hk i r Hr) as ->. destruct (rg_grants d Hreg _ _ _ Hr) as [_ Hi].
    refers_to d "tools" tool_cells (tools d) (gr_tool_id r); [done|].
    by rewrite (tk_ids d (rg_tools d Hreg) _ a Ha).
  - open_primary. injection He as He1 He2. rewrite (Hk i a Ha), (Hk j b Hb). congruence.
Qed.

Lemma audit_conform : listed_ok (data_of d) (entry "audit_events").
Proof using Href Hau.
  open_table d "audit_events" (audit_cells <$> audit_events d).
  - apply Forall_fmap, Forall_forall. intros r Hr.
    assert (fits_int8 (Z.of_nat (au_id r)) = true).
    { apply fits_int8_nat. assert (au_id r ∈ au_id <$> audit_events d) as Hid by by apply list_elem_of_fmap_2.
      rewrite (rf_audit_ids d Href), elem_of_seq in Hid. lia. }
    split; [decide_closed|]. solve_columns.
  - split; [|by intros x (r & -> & _)%list_elem_of_fmap].
    apply (unique_log _ au_id); [apply (rf_audit_ids d Href)|done].
Qed.
End conforms.

(** ** The whole *)

Lemma unique_on_filter cs (P : row → Prop) `{!∀ r, Decision (P r)} rs :
  unique_on cs rs → unique_on cs (filter P rs).
Proof.
  unfold unique_on. intros Hnd. eapply sublist_NoDup; [exact Hnd|]. clear Hnd.
  induction rs as [|r rs IH]; [done|]. rewrite filter_cons. case_decide as HP; simpl.
  - rewrite !filter_cons. case_decide; [by constructor|done].
  - rewrite filter_cons. case_decide; [by constructor|done].
Qed.

(** ** What a row must satisfy on its own *)

Definition head_table (n : text) : table := default (MkTable ∅ ∅ ∅) (tables head_schema !! n).

(** The table takes the row, whatever the other rows are. *)
Definition accepts (t : table) (r : row) : Prop :=
  row_ok (enums head_schema) t r ∧
  ∀ k p, constraints t !! k = Some (Check p) → holds p r ≠ Some false.

Lemma accepts_listed t l r :
  map_to_list (columns t) = li_columns l → map_to_list (constraints t) = li_constraints l →
  r.*1 ≡ₚ (li_columns l).*1 →
  accepts t r ↔
    Forall (λ c, column_ok labels c.2 (cell r c.1) = true) (li_columns l) ∧
    Forall (λ c, check_holds r c.2) (li_constraints l).
Proof.
  intros Hcol Hcon Hp. unfold accepts, row_ok. rewrite head_enums_listed, map_Forall_to_list, Hcol.
  rewrite <-Hcon, (Forall_forall _ (map_to_list (constraints t))), Hp, <-Hcol. split.
  - intros ((_ & _ & Hc) & Hk). split; [eapply Forall_impl; [done|by intros []]|].
    intros [k c] Hin%elem_of_map_to_list. simpl. destruct c; try done. by eapply Hk.
  - intros [Hc Hk]. split_and!.
    + apply NoDup_fst_map_to_list.
    + symmetry. apply leibniz_equiv, dom_alt.
    + eapply Forall_impl; [done|]. by intros [].
    + intros k p Hkp%elem_of_map_to_list. by apply (Hk (k, Check p)).
Qed.

Lemma accepts_column t r n c v :
  accepts t r → columns t !! n = Some c → cell r n = v → fits (enums head_schema) (col_type c) v = true.
Proof. intros ((_ & _ & Hc) & _) Hn <-. specialize (Hc n c Hn). by apply andb_true_iff in Hc as [? _]. Qed.

(** Lower bounds from a CHECK, upper bounds from the column's width. *)
Ltac bounds_of Hacc n k :=
  lazymatch type of Hacc with
  | accepts ?t _ =>
      lazymatch eval vm_compute in (columns t !! n, constraints t !! k) with
      | (Some ?col, Some (Check ?chk)) =>
          let w := fresh in let b := fresh in
          pose proof (accepts_column _ _ n col _ Hacc ltac:(decide_closed) eq_refl) as w;
          pose proof (proj2 Hacc k chk ltac:(decide_closed)) as b;
          rewrite at_least_holds in b by reflexivity;
          first [apply fits_int4_spec in w|apply fits_int2_spec in w]
      end
  end.

(** The checks the model of an INSERT or UPDATE makes of a row of [tasks] or
    [agent_versions] before it stores it are, exactly, what the migrated
    schema asks of that row alone: its columns' types, widths and nullability
    and the table's CHECK constraints. *)
Theorem row_errors_are_the_schema :
  (∀ r : task_row, task_error r = None ↔ accepts (head_table "tasks") (task_cells r)) ∧
  (∀ v, version_error v = None ↔ accepts (head_table "agent_versions") (version_cells v)).
Proof.
  split.
  - intros r. split.
    + intros Hok. apply (accepts_listed _ (entry "tasks")); [decide_closed..|].
      split; [by apply task_columns|by apply task_checks].
    + intros Hacc. apply task_ok_spec. unfold pinned_ok.
      bounds_of Hacc "attempt" "ck_tasks_attempt_nonneg".
      bounds_of Hacc "priority" "ck_tasks_priority_nonneg".
      bounds_of Hacc "max_attempts" "ck_tasks_max_attempts".
      bounds_of Hacc "max_execution_time_s" "ck_tasks_max_execution_time".
      pose proof (proj2 Hacc "ck_tasks_lease_coherence" lease_coherence ltac:(decide_closed)) as Hl.
      apply lease_coherence_holds in Hl. unfold int4_max, int2_max in *. split_and!; (done || lia).
  - intros v. split.
    + intros Hok. apply (accepts_listed _ (entry "agent_versions")); [decide_closed..|].
      split; [by apply version_columns|by apply version_checks].
    + intros Hacc.
      bounds_of Hacc "version" "ck_agent_versions_version".
      bounds_of Hacc "max_attempts" "ck_agent_versions_max_attempts".
      bounds_of Hacc "max_execution_time_s" "ck_agent_versions_max_execution_time".
      apply version_bounds. unfold int4_max in *. split_and!; lia.
Qed.

Lemma rows_conform d :
  reachable d →
  Z.of_nat (length (task_events d)) < 2 ^ 63 → Z.of_nat (length (audit_events d)) < 2 ^ 63 →
  conforms head_schema (data_of d).
Proof.
  intros Hd Hev Hau. pose proof (inv_reachable d Hd) as Hinv.
  pose proof (reachable_registry_ok d Hd) as Hreg. pose proof (tenancy_reachable d Hd) as Hten.
  pose proof (referential_reachable d Hd) as Href. apply head_conforms.
  - intros n Hn. unfold data_of in Hn.
    destruct (List.find _ _) as [[m rs]|] eqn:E; [|done]. apply List.find_some in E as [Hin Hm].
    apply String.eqb_eq in Hm. simpl in Hm. subst m. clear Hn.
    assert (n ∈ (table_rows d).*1) as H by (apply list_elem_of_fmap; exists (n, rs); by rewrite list_elem_of_In).
    revert H. simpl. set_solver.
  - repeat (apply Forall_cons; split); [..|by apply Forall_nil].
    + by apply workers_conform.
    + by apply grants_conform.
    + by apply agent_versions_conform.
    + by apply agent_routes_conform.
    + by apply agents_conform.
    + by apply audit_conform.
    + by apply tools_conform.
    + by apply tenants_conform.
    + by apply task_events_conform.
    + by apply task_attempts_conform.
    + by apply tasks_conform.
  - repeat (apply Forall_cons; split; [cbn [snd ix_unique]; try done; intros _|]);
      [|by apply Forall_nil].
    cbn [ix_columns ix_where ix_table indexed]. apply unique_on_filter.
    change (data_of d _) with (task_cells <$> rows (tasks d)).
    open_unique. unfold cell in *. simpl in He, Ht.
    destruct (t_idempotency_key a) as [k|] eqn:Hka; [|done].
    destruct (t_idempotency_key b) as [k'|] eqn:Hkb; [|done]. simpl in He.
    injection He as He1 <-. by eapply (inv_keys d Hinv).
Qed.

(** The trigger lets an UPDATE through exactly when the definition stays. *)
Lemma trigger_freezes_definition v w :
  update_allowed head_schema (head_table "agent_versions") (version_cells v) (version_cells w) = true ↔
  v_agent_id w = v_agent_id v ∧ v_version w = v_version v ∧ v_runtime_spec w = v_runtime_spec v ∧
  v_required_capabilities w = v_required_capabilities v ∧ v_config w = v_config v ∧
  v_max_attempts w = v_max_attempts v ∧ v_max_execution_time_s w = v_max_execution_time_s v.
Proof.
  unfold update_allowed.
  assert (map_to_list (triggers (head_table "agent_versions")) =
    [("trg_agent_versions_immutable", "acp_agent_versions_immutable")]) as -> by decide_closed.
  assert (functions head_schema !! "acp_agent_versions_immutable" = Some frozen_columns)
    as Hf by decide_closed.
  cbn [forallb snd]. rewrite Hf, andb_true_r. unfold default, from_option, id, frozen_columns.
  cbn [forallb]. rewrite andb_true_r, !andb_true_iff, !bool_decide_eq_true. unfold cell. simpl. split.
  - intros (H1 & H2 & H3 & H4 & H5 & H6 & H7). split_and!; congruence.
  - intros (H1 & H2 & H3 & H4 & H5 & H6 & H7). split_and!; congruence.
Qed.

(** C12: what the server's constraints say holds of every reachable state: each
    row has exactly the columns of its table in the migrated schema and a
    value of the column's type, width and nullability in each; primary keys
    and unique constraints identify rows; every foreign key refers to a row
    that exists; every CHECK constraint holds; and no two tasks of a tenant
    share an idempotency key.  And along any run from there the trigger on
    agent_versions has nothing to reject.  The logs are shorter than BIGSERIAL
    counts. *)
Theorem reachable_conforms d :
  reachable d →
  Z.of_nat (length (task_events d)) < 2 ^ 63 → Z.of_nat (length (audit_events d)) < 2 ^ 63 →
  conforms head_schema (data_of d) ∧
  ∀ d' i v w, steps d d' → agent_versions d !! i = Some v → agent_versions d' !! i = Some w →
    update_allowed head_schema (head_table "agent_versions") (version_cells v) (version_cells w) = true.
Proof.
  intros Hd Hev Hau. split; [by apply rows_conform|].
  intros d' i v w Hs Hv Hw. apply trigger_freezes_definition.
  destruct (ev_versions _ _ (steps_evolves _ _ Hs) i v Hv) as [s Hs']. by simplify_eq.
Qed.

Lemma reachable_conforms_witness : conforms head_schema (data_of sc_done) ∧
  ∀ d' i v w, steps sc_done d' → agent_versions sc_done !! i = Some v →
    agent_versions d' !! i = Some w →
    update_allowed head_schema (head_table "agent_versions") (version_cells v) (version_cells w) = true.
Proof. apply reachable_conforms; [apply sc_done_reachable|vm_compute; reflexivity..]. Defined.

(** The same rows before revision 0009. *)
Definition before_0009 (d : db) : data := rows_after_all downgrade_0009 (data_of d).

Lemma before_0009_conforms d :
  conforms head_schema (data_of d) → conforms (at_revision 8).2 (before_0009 d).
Proof.
  intros Hcf. unfold head_schema in Hcf.
  exact (downgrade_conforms 8 (MkMigration "0009" (Some "0008") upgrade_0009 downgrade_0009) _ eq_refl Hcf).
Qed.

Lemma migrations_keep_rows_witness : ∃ dt',
  alters upgrade_0009 ((at_revision 8).2, before_0009 sc_done) (head_schema, dt') ∧
  conforms head_schema dt' ∧
  ∀ n, dt' n = (λ r : row, r ++ added 8 n) <$> before_0009 sc_done n.
Proof.
  destruct (migrations_keep_rows 8 (MkMigration "0009" (Some "0008") upgrade_0009 downgrade_0009)
    (before_0009 sc_done) eq_refl) as (dt' & _ & Ha & Hcf & Hrows & _).
  { apply before_0009_conforms, rows_conform; [apply sc_done_reachable|vm_compute; reflexivity..]. }
  by exists dt'.
Defined.
