(* ===== verification/ApiRun.v ===== *)
(** * Runs of the service

    [Preserves P m] with [P := steps d] says that the handlers of the API are
    sequences of protocol steps; other choices of [P] are the invariants of
    Isolation.v.  Histories of requests, with what a request reads before it
    writes taken from earlier moments, are in StaleChecks.v. *)

From S2P Require Import Prelude PyStr Json States Authz Capability Policy Admission Db Config.
From S2P Require Import Samples Transitions Completion Lease Workers Claim Reap Tasks Agents.
From S2P Require Import Paging Tools Tracing Frames Registry Effects Protocol Scenario Governance Api.
#[local] Open Scope Z_scope.

(** ** Reads *)

#[export] Instance get_task_reads i : Keeps id (get_task i).
Proof. unfold get_task. solve_keeps. Qed.
#[export] Instance get_task_events_reads i n : Keeps id (get_task_events i n).
Proof. unfold get_task_events. solve_keeps. Qed.
#[export] Instance get_tenant_reads i : Keeps id (get_tenant i).
Proof. unfold get_tenant. solve_keeps. Qed.
#[export] Instance queued_count_reads i : Keeps id (queued_count_for_tenant i).
Proof. unfold queued_count_for_tenant. solve_keeps. Qed.
#[export] Instance get_agent_reads i : Keeps id (get_agent i).
Proof. unfold get_agent. solve_keeps. Qed.
#[export] Instance get_version_reads i : Keeps id (get_version i).
Proof. unfold get_version. solve_keeps. Qed.
#[export] Instance list_versions_reads i : Keeps id (list_versions i).
Proof. unfold list_versions. solve_keeps. Qed.
#[export] Instance get_tool_reads i : Keeps id (get_tool i).
Proof. unfold get_tool. solve_keeps. Qed.
#[export] Instance resolve_route_reads te rt : Keeps id (resolve_route te rt).
Proof. unfold resolve_route. solve_keeps. Qed.
#[export] Instance require_reads {A} message (o : option A) : Keeps id (require message o).
Proof. unfold require. solve_keeps. Qed.
#[export] Instance unreleased_reads v : Keeps id (unreleased v).
Proof. unfold unreleased. solve_keeps. Qed.
#[export] Instance admit_reads env te q : Keeps id (admit_submission env te q).
Proof. unfold admit_submission. solve_keeps. Qed.
#[export] Instance routed_type_reads env rs : Keeps id (routed_type env rs).
Proof. unfold routed_type. solve_keeps. Qed.
#[export] Instance plan_of_reads env b : Keeps id (plan_of env b).
Proof. unfold plan_of, resolve_for. solve_keeps. Qed.

#[export] Instance list_tasks_reads iso te st limit cursor :
  Keeps id (list_tasks iso te st limit cursor).
Proof. unfold list_tasks, read_cursor. solve_keeps. Qed.

#[export] Instance read_reads env q : Keeps id (read env q).
Proof.
  destruct q; unfold read, status_of, show_task, show_tasks, get_events, show_tenant, show_agent,
    show_agents, show_versions, show_routes, show_tools, show_grants, show_audit, list_agents,
    list_routes, list_tools, list_grants, list_audit; solve_keeps.
Qed.

(** ** The handlers are sequences of protocol steps *)

Section steps_from.
Context (d0 : db).
Implicit Types (d : db).
#[local] Abbreviation Steps m := (Preserves (steps d0) m).

Lemma preserves_step_of {A} (m : M A) :
  (∀ t d a d', m t d = inr (a, d') → step t d d') → Steps m.
Proof. intros H t d a d' Hd Hm. eapply steps_snoc; [done|by eapply H]. Qed.

Lemma preserves_admin {A} (m : M A) op : (m ;; mret tt) = run_admin op → Steps m.
Proof.
  intros Heq. apply preserves_step_of. intros t d a d' H. apply (step_admin t d op tt).
  rewrite <-Heq, bind_run. by rewrite H.
Qed.

#[local] Instance submit_task_steps te ty p key prio ma mx av ver caps :
  Steps (submit_task te ty p key prio ma mx av ver caps).
Proof. apply preserves_step_of. intros. by eapply step_submit. Qed.
#[local] Instance cancel_task_steps i : Steps (cancel_task i).
Proof. apply preserves_step_of. intros. by eapply step_cancel. Qed.
#[export] Instance cancel_found_steps q rn vs reason : Steps (cancel_found q rn vs reason).
Proof. apply preserves_step_of. intros. by eapply step_disable. Qed.
#[local] Instance create_tenant_steps name mc mq : Steps (create_tenant name mc mq).
Proof. apply preserves_step_of. intros. by eapply step_tenant. Qed.
#[local] Instance record_audit_steps te action rt out rid actor data :
  Steps (record_audit te action rt out rid actor data).
Proof. apply preserves_step_of. intros. by eapply step_audit. Qed.
#[local] Instance create_agent_steps te name desc : Steps (create_agent te name desc).
Proof. by apply (preserves_admin _ (CreateAgent te name desc)). Qed.
#[local] Instance set_agent_status_steps a s : Steps (set_agent_status a s).
Proof. by apply (preserves_admin _ (SetAgentStatus a s)). Qed.
#[local] Instance create_version_steps a spec caps cfg ma mx st :
  Steps (create_version a spec caps cfg ma mx st).
Proof. by apply (preserves_admin _ (CreateVersion a spec caps cfg ma mx st)). Qed.
#[local] Instance set_version_status_steps v s : Steps (set_version_status v s).
Proof. by apply (preserves_admin _ (SetVersionStatus v s)). Qed.
#[local] Instance activate_version_steps a v e req : Steps (activate_version a v e req).
Proof. by apply (preserves_admin _ (ActivateVersion a v e req)). Qed.
#[local] Instance create_tool_steps te name ty cfg desc : Steps (create_tool te name ty cfg desc).
Proof. by apply (preserves_admin _ (CreateTool te name ty cfg desc)). Qed.
#[local] Instance set_tool_status_steps i s : Steps (set_tool_status i s).
Proof. by apply (preserves_admin _ (SetToolStatus i s)). Qed.
#[local] Instance revoke_grant_steps v i : Steps (revoke_grant v i).
Proof. by apply (preserves_admin _ (RevokeGrant v i)). Qed.
#[local] Instance set_route_steps te rt a : Steps (set_route te rt a).
Proof. apply preserves_step_of. intros. by apply (step_admin _ _ (SetRoute te rt a) a0). Qed.
#[local] Instance grant_tool_steps v i : Steps (grant_tool v i).
Proof. apply preserves_step_of. intros. by apply (step_admin _ _ (GrantTool v i) a). Qed.

Lemma handle_preserves_steps env rq : Steps (handle env rq).
Proof.
  destruct rq; unfold handle, checked, status_of, submit, cancel, post_tenant, post_agent,
    post_version, activate, disable, disable_found, put_route, post_tool, disable_tool, enable_tool, switch_tool,
    grant, ungrant; preserves_walk ltac:(apply _).
Qed.
End steps_from.

Lemma handle_steps env rq t d s d' : handle env rq t d = inr (s, d') → steps d d'.
Proof. apply handle_preserves_steps, steps_refl. Qed.

Lemma respond_cases env rq t d :
  (∃ s d', handle env rq t d = inr (s, d') ∧ respond env rq t d = ((s, None), d')) ∨
  (∃ e, handle env rq t d = inl e ∧ respond env rq t d = (error_response e, d)).
Proof.
  unfold respond, transaction. destruct (handle env rq t d) as [e|[s d']]; [right|left]; eauto.
Qed.

Lemma respond_steps env rq t d : steps d (respond env rq t d).2.
Proof.
  destruct (respond_cases env rq t d) as [(s & d' & H & ->)|(e & H & ->)]; [|apply steps_refl].
  by eapply handle_steps.
Qed.
