(* ===== verification/ApiStatus.v ===== *)
(** * What a response's status code says

    Every error the API answers has a code of 400 or more and leaves the
    tables as they were; every success has a code from 200 to 204 and is a
    sequence of protocol steps. *)

From S2P Require Import Prelude PyStr Json States Authz Capability Policy Admission Db Config.
From S2P Require Import Samples Transitions Completion Lease Workers Claim Reap Tasks Agents.
From S2P Require Import Paging Tools Tracing Frames Registry Effects Protocol Scenario Governance Api ApiRun.
#[local] Open Scope Z_scope.

(** ** Status codes

    [Coded ok m]: what [m] raises is answered with a code of 400 or more, and
    what it returns satisfies [ok]. *)
Class Coded {A} (ok : A → Prop) (m : M A) : Prop :=
  coded t d : match m t d with inl e => 400 ≤ (error_response e).1 | inr (a, _) => ok a end.

(** Any computation that raises nothing wrong, whatever it returns. *)
Abbreviation Any m := (Coded (λ _, True) m).

Section coded.
Context {A : Type}.
Implicit Types ok : A → Prop.

Lemma coded_ret ok a : ok a → Coded ok (mret a).
Proof. by intros Ha t d. Qed.
Lemma coded_raise ok e : 400 ≤ (error_response e).1 → Coded ok (raise e).
Proof. by intros He t d. Qed.
Lemma coded_bind {B} ok (m : M B) (k : B → M A) :
  Any m → (∀ b, Coded ok (k b)) → Coded ok (m ≫= k).
Proof.
  intros Hm Hk t d. rewrite bind_run. specialize (Hm t d). destruct (m t d) as [|[b d1]]; [done|apply Hk].
Qed.
Lemma coded_translate ok (m : M A) h :
  Coded ok m → (∀ e, 400 ≤ (error_response e).1 → 400 ≤ (error_response (h e)).1) →
  Coded ok (translate m h).
Proof.
  intros Hm Hh t d. unfold translate. specialize (Hm t d). destruct (m t d) as [e|[a d1]]; [by apply Hh|done].
Qed.
End coded.

Lemma coded_status {A} (m : M (Z * A)) ok : Coded (λ x, ok x.1) m → Coded ok (status_of m).
Proof.
  intros Hm t d. unfold status_of. rewrite bind_run. specialize (Hm t d). by destruct (m t d) as [|[]].
Qed.

Lemma coded_ask : Any ask.
Proof. by intros t d. Qed.
Lemma coded_get : Any get.
Proof. by intros t d. Qed.
Lemma coded_modify f : Any (modify f).
Proof. by intros t d. Qed.
Lemma coded_for_each {A} (l : list A) body : (∀ x, Any (body x)) → Any (for_each l body).
Proof. intros H. induction l; simpl; [by apply coded_ret|]. by apply coded_bind. Qed.

(** A violated constraint is no [ApiError]. *)
Lemma task_error_code r e : task_error r = Some e → (error_response e).1 = 500.
Proof.
  unfold task_error. repeat (case_match; [by intros [= <-]|]).
  by intros (c & _ & ->)%fmap_Some.
Qed.
Lemma version_error_code v e : version_error v = Some e → (error_response e).1 = 500.
Proof. unfold version_error. repeat (case_match; [by intros [= <-]|]). done. Qed.

Lemma coded_update_task i p f : Any (update_task i p f).
Proof.
  intros t d. unfold update_task. rewrite bind_run. cbn [get].
  destruct (tasks d !! i) as [r|]; [|done]. destruct (p r); [|done]. cbv zeta.
  destruct (task_error _) as [e|] eqn:He; [|done]. simpl. rewrite (task_error_code _ _ He). done.
Qed.
Lemma coded_update_tasks p f : Any (update_tasks p f).
Proof.
  intros t d. unfold update_tasks. rewrite bind_run. cbn [get]. cbv zeta.
  destruct (omap task_error _) as [|e l] eqn:He; [done|]. simpl.
  assert (e ∈ omap task_error ((λ r, assigns (f r) r) <$> select p (tasks d))) as Hin
    by (rewrite He; by left).
  apply list_elem_of_omap in Hin as (r & _ & Hr). by rewrite (task_error_code _ _ Hr).
Qed.
Lemma coded_insert_task row : Any (insert_task row).
Proof.
  intros t d. unfold insert_task. rewrite bind_run. cbn [get].
  destruct (task_error _) as [e|] eqn:He; [simpl; by rewrite (task_error_code _ _ He)|].
  destruct (select _ _); [|done]. case_bool_decide; [done|]. case_bool_decide; [done|].
  by destruct (negb _).
Qed.
Lemma coded_create_version a spec caps cfg ma mx st : Any (create_version a spec caps cfg ma mx st).
Proof.
  intros t d. unfold create_version. rewrite bind_run. cbn [ask]. rewrite bind_run. cbn [get].
  destruct (agents d !! a); [|done]. cbv zeta.
  destruct (version_error _) as [e|] eqn:He; [simpl; by rewrite (version_error_code _ _ He)|].
  by repeat case_bool_decide.
Qed.

(** Walk through a computation; [leaf] proves the functions it calls. *)
Ltac coded_walk leaf :=
  repeat
    match goal with
    | |- 400 ≤ (error_response _).1 => done
    | |- Coded _ (mret _) => apply coded_ret; simpl
    | |- Coded _ (raise _) => apply coded_raise
    | |- Coded _ ask => apply coded_ask
    | |- Coded _ get => apply coded_get
    | |- Coded _ (modify _) => apply coded_modify
    | |- Coded _ (update_task _ _ _) => apply coded_update_task
    | |- Coded _ (update_tasks _ _) => apply coded_update_tasks
    | |- Coded _ (insert_task _) => apply coded_insert_task
    | |- Coded _ (create_version _ _ _ _ _ _ _) => apply coded_create_version
    | |- Coded _ (_ ≫= _) => apply coded_bind; [|intros]
    | |- Coded _ (for_each _ _) => apply coded_for_each; intros
    | |- Coded _ (translate _ _) => apply coded_translate; [|by intros []]
    | |- Coded _ (let _ := _ in _) => cbv zeta
    | |- Coded _ (match ?x with _ => _ end) => destruct x
    | |- True => done
    | |- 200 ≤ _ ≤ 204 => repeat case_match; lia
    | |- Coded _ (status_of _) => apply coded_status
    | |- Coded _ _ => leaf
    end.

Lemma submit_task_coded te ty p key prio ma mx av ver caps :
  Any (submit_task te ty p key prio ma mx av ver caps).
Proof. unfold submit_task, record_event, insert_event. coded_walk fail. Qed.

Lemma cancel_task_coded i : Any (cancel_task i).
Proof.
  unfold cancel_task, get_task, transition, explain, require_legal, record_event, insert_event. coded_walk fail.
Qed.

Lemma cancel_found_coded q rn vs reason : Any (cancel_found q rn vs reason).
Proof. unfold cancel_found, record_event, insert_event. coded_walk fail. Qed.

Ltac open_endpoints :=
  unfold handle, checked, submit, cancel, post_tenant, post_agent, post_version, activate,
    disable, disable_found, put_route, post_tool, disable_tool, enable_tool, switch_tool, grant, ungrant,
    unreleased, admit_submission, plan_of, resolve_for, routed_type, require.
Ltac open_shows :=
  unfold read, show_task, show_tasks, get_events, show_tenant, show_agent, show_agents,
    show_versions, show_routes, show_tools, show_grants, show_audit, get_task, get_task_events,
    list_tasks, read_cursor, list_agents, list_routes, list_tools, list_grants, list_audit.
Ltac open_reads :=
  unfold get_tenant, queued_count_for_tenant, resolve_route, get_agent, get_version, list_versions,
    get_tool.
Ltac open_writes :=
  unfold create_tenant, create_agent, set_agent_status, activate_version, activate_read, set_version_status,
    set_route, create_tool, set_tool_status, grant_tool, revoke_grant, record_audit.

Lemma handle_coded env rq : Coded (λ s, 200 ≤ s ≤ 204) (handle env rq).
Proof.
  destruct rq as [| | | | | | | | | | | | |[]]; open_endpoints; open_shows; unfold require; open_writes; open_reads;
    coded_walk ltac:(first
      [ apply submit_task_coded | apply cancel_task_coded | apply cancel_found_coded ]).
Qed.

(** A response: the tables before, the answer, the tables after. *)
Definition well_answered (d : db) (answer : Z * option text) (d' : db) : Prop :=
  (200 ≤ answer.1 ≤ 204 ∧ answer.2 = None) ∨ (400 ≤ answer.1 ∧ d' = d).

(** The API refines the protocol. Every request whatsoever takes the
    tables through a sequence of protocol steps; it is answered with a
    success code from 200 to 204 and no Retry-After, or with an error code of
    400 or more, and then the tables are untouched. *)
Theorem api_refines_protocol env rq t d :
  let '(answer, d') := respond env rq t d in steps d d' ∧ well_answered d answer d'.
Proof.
  pose proof (respond_steps env rq t d) as Hs. pose proof (handle_coded env rq t d) as H.
  destruct (respond_cases env rq t d) as [(s & d' & Hrun & Heq)|(e & Hrun & Heq)];
    rewrite Heq in Hs |- *; rewrite Hrun in H; (split; [exact Hs|]).
  - by left.
  - right. split; [exact H|done].
Qed.

(** A cursor that does not decode is answered 500, not 422. *)
Lemma bad_cursor_is_500 env te st limit c t d :
  in_range 1 200 limit = true → truthy c = true → decode_cursor (iso_forms env) c = None →
  respond env (Read (GetTasks te st limit (Some c))) t d = ((500, None), d).
Proof.
  intros Hl Hc Hd. unfold respond, transaction, handle, checked, valid_query, read, status_of, show_tasks.
  rewrite Hl, bind_run, bind_run, bad_cursor_raises by done. done.
Qed.
