(* ===== verification/ApiSubmit.v ===== *)
(** * Submission through the API

    [answers] lists what POST /v1/tasks can answer, with the condition of
    each answer and what it stores; [post_task_answers] shows that the
    handler gives no other answer. *)

From S2P Require Import Prelude PyStr Json States Authz Capability Policy Admission Db Config.
From S2P Require Import Samples Transitions Completion Lease Workers Claim Reap Tasks Agents.
From S2P Require Import Paging Tools Tracing Frames Registry Effects Protocol Scenario Governance Api ApiRun.
#[local] Open Scope Z_scope.

(** ** The plan of a submission *)

(** The task type a resolution leads to, if the text column can hold it. *)
Definition stored_type (env : api_env) (rs : Resolution) : option text :=
  match rs_runtime_spec rs !! "task_type" with
  | Some (JStr s) => Some s
  | Some JNull => None
  | Some v => bind_text env v
  | None => Some (rs_agent_name rs)
  end.

(** The request's own type and limits, or those of the released version. *)
Definition planned (env : api_env) (d : db) (b : TaskCreate) (p : plan) : Prop :=
  match tc_request_type b with
  | None =>
      p = MkPlan (default EmptyString (tc_task_type b)) (tc_max_attempts b)
            (tc_max_execution_time_s b) None []
  | Some rt =>
      ∃ res, resolved d (tc_tenant_id b) rt res ∧
        p = MkPlan (pl_task_type p) (rs_max_attempts res) (rs_max_execution_time_s res)
              (Some (rs_version_id res)) (rs_required_capabilities res) ∧
        stored_type env res = Some (pl_task_type p)
  end.

(** The released version names a task type the column cannot hold. *)
Definition mistyped (env : api_env) (d : db) (b : TaskCreate) : Prop :=
  ∃ rt res, tc_request_type b = Some rt ∧ resolved d (tc_tenant_id b) rt res ∧
    stored_type env res = None.

Lemma routed_type_run env rs t d :
  match stored_type env rs with
  | Some ty => routed_type env rs t d = inr (ty, d)
  | None => ∃ e, routed_type env rs t d = inl e ∧ error_response e = (500, None)
  end.
Proof.
  unfold stored_type, routed_type. destruct (rs_runtime_spec rs !! "task_type") as [v|]; [|done].
  destruct v; try done; try (by eexists); destruct (bind_text env _); by try eexists.
Qed.

Lemma plan_of_cases env b t d :
  registry_ok d →
  match plan_of env b t d with
  | inr (p, d1) => d1 = d ∧ planned env d b p
  | inl e =>
      (∃ rt m, tc_request_type b = Some rt ∧ agent_routes d !! (tc_tenant_id b, rt) = None ∧
         e = NotFound m) ∨
      (∃ rt m, tc_request_type b = Some rt ∧ withdrawn d (tc_tenant_id b) rt ∧ e = Conflict m) ∨
      (mistyped env d b ∧ error_response e = (500, None))
  end.
Proof.
  intros Hok. unfold plan_of, planned. destruct (tc_request_type b) as [rt|] eqn:Hrt; [|done].
  rewrite bind_run. unfold resolve_for, translate.
  pose proof (resolve_route_cases (tc_tenant_id b) rt t d Hok) as Hres.
  destruct (resolve_route _ _ _ _) as [e|[res d1]].
  { destruct e; try done; [left|right; left]; eauto. }
  destruct Hres as [-> Hres]. rewrite bind_run. pose proof (routed_type_run env res t d) as Hty.
  destruct (stored_type env res) as [ty|] eqn:Hst; [rewrite Hty; simpl; eauto 10|].
  destruct Hty as (e & -> & He). right; right. split; [|done]. by exists rt, res.
Qed.

(** A plan's limits satisfy the constraints of the task row. *)
Definition plan_row (t : txn) (env : api_env) (b : TaskCreate) (p : plan) : task_row :=
  submitted_row t (tc_tenant_id b) (pl_task_type p) (traced (tc_payload b) (carrier env))
    (tc_idempotency_key b) (tc_priority b) (pl_max_attempts p) (pl_max_execution_time_s p)
    (tc_available_at b) (pl_version p) (pl_capabilities p).

Lemma version_error_limits v :
  version_error v = None → 1 ≤ v_max_attempts v ≤ int4_max ∧ 1 ≤ v_max_execution_time_s v ≤ int4_max.
Proof. unfold version_error. intros H. repeat (case_match; try done). to_prop. lia. Qed.

Lemma submitted_ok t te ty p key prio ma mx av ver caps :
  1 ≤ ma ≤ int4_max → 1 ≤ mx ≤ int4_max → 0 ≤ prio ≤ int2_max →
  task_error (submitted_row t te ty p key prio ma mx av ver caps) = None.
Proof.
  intros H1 H2 H3. unfold task_error, task_check. cbn -[int4_max int2_max Z.leb].
  rewrite !(proj2 (Z.leb_le _ _)) by lia. by destruct int4_max.
Qed.

Lemma in_range_spec lo hi x : in_range lo hi x = true ↔ lo ≤ x ≤ hi.
Proof. unfold in_range. rewrite andb_true_iff, !Z.leb_le. done. Qed.

Lemma plan_row_ok t env b d p :
  registry_ok d → validate_task b = true → planned env d b p → task_error (plan_row t env b p) = None.
Proof.
  intros Hok Hb Hp. unfold validate_task in Hb. rewrite !andb_true_iff, !in_range_spec in Hb.
  destruct Hb as [[[[[[[_ _] _] Hprio] Hma] Hmx] _] _]. unfold planned in Hp.
  assert (1 ≤ pl_max_attempts p ≤ int4_max ∧ 1 ≤ pl_max_execution_time_s p ≤ int4_max) as [H1 H2].
  { destruct (tc_request_type b).
    - destruct Hp as (res & Hres & -> & _). destruct Hres as (route & a & v & _ & _ & _ & _ & Hv & _ & _ & ->).
      simpl. apply version_error_limits. by eapply rg_versions.
    - subst p. simpl. unfold int4_max. lia. }
  apply submitted_ok; [done|done|unfold int2_max; lia].
Qed.

Lemma planned_version env d b p :
  planned env d b p → version_exists d (pl_version p) = true.
Proof.
  unfold planned. destruct (tc_request_type b); [|by intros ->].
  intros (res & (route & a & v & _ & _ & _ & _ & Hv & _ & _ & ->) & -> & _). simpl.
  apply bool_decide_eq_true. eauto.
Qed.

(** ** The answers *)

Definition queued_of (d : db) (te : uuid) : Z :=
  Z.of_nat (length (select (λ r : task_row, bool_decide (t_tenant_id r = te)
                              && bool_decide (t_state r = State.QUEUED)) (tasks d))).

(** The system is at its threshold, and shedding is on. *)
Definition shedding (env : api_env) : Prop :=
  0 < global_queue_shed_threshold (api_settings env) ≤ cached_global_queued env.

(** The tenant and the system have room for one more task. *)
Definition has_room (env : api_env) (d : db) (te : uuid) : Prop :=
  ∃ tn, tenants d !! te = Some tn ∧ queued_of d te < te_max_queued_tasks tn ∧ ¬ shedding env.

Definition same_submission (env : api_env) (b : TaskCreate) (r : task_row) : bool :=
  dict_eqb (without_trace (t_payload r)) (without_trace (traced (tc_payload b) (carrier env))).

Inductive answers (env : api_env) (b : TaskCreate) (t : txn) (d : db) : Z * option text → db → Prop :=
  | ans_created p :
      has_room env d (tc_tenant_id b) → planned env d b p →
      (∀ i (r : task_row), tasks d !! i = Some r →
         same_key (tc_tenant_id b) (tc_idempotency_key b) r = false) →
      tasks d !! new_uuid t = None → sent_loads (tc_available_at b) = true →
      answers env b t d (201, None) (created_db t (plan_row t env b p) d)
  | ans_duplicate i (r : task_row) :
      has_room env d (tc_tenant_id b) → tasks d !! i = Some r →
      same_key (tc_tenant_id b) (tc_idempotency_key b) r = true → same_submission env b r = true →
      answers env b t d (200, None) d
  | ans_mismatch i (r : task_row) :
      has_room env d (tc_tenant_id b) → tasks d !! i = Some r →
      same_key (tc_tenant_id b) (tc_idempotency_key b) r = true → same_submission env b r = false →
      answers env b t d (409, None) d
  | ans_unknown_tenant :
      tenants d !! tc_tenant_id b = None → answers env b t d (404, None) d
  | ans_quota tn :
      tenants d !! tc_tenant_id b = Some tn → te_max_queued_tasks tn ≤ queued_of d (tc_tenant_id b) →
      answers env b t d (429, Some "5") d
  | ans_overloaded tn :
      tenants d !! tc_tenant_id b = Some tn → queued_of d (tc_tenant_id b) < te_max_queued_tasks tn →
      shedding env → answers env b t d (503, Some "30") d
  | ans_no_route rt :
      has_room env d (tc_tenant_id b) → tc_request_type b = Some rt →
      agent_routes d !! (tc_tenant_id b, rt) = None → answers env b t d (404, None) d
  | ans_withdrawn rt :
      has_room env d (tc_tenant_id b) → tc_request_type b = Some rt →
      withdrawn d (tc_tenant_id b) rt → answers env b t d (409, None) d
  | ans_mistyped :
      has_room env d (tc_tenant_id b) → mistyped env d b → answers env b t d (500, None) d
  | ans_undatable :
      has_room env d (tc_tenant_id b) → sent_loads (tc_available_at b) = false →
      answers env b t d (500, None) d
  | ans_id_taken :
      is_Some (tasks d !! new_uuid t) → answers env b t d (500, None) d.

(** The last statement of the handler. *)
Definition store (env : api_env) (b : TaskCreate) (p : plan) : M SubmitResult :=
  translate (submit_task (tc_tenant_id b) (pl_task_type p) (traced (tc_payload b) (carrier env))
    (tc_idempotency_key b) (tc_priority b) (pl_max_attempts p) (pl_max_execution_time_s p)
    (tc_available_at b) (pl_version p) (pl_capabilities p)) submit_errors.

Lemma store_run env b p t d :
  task_error (plan_row t env b p) = None → is_Some (tenants d !! tc_tenant_id b) →
  version_exists d (pl_version p) = true →
  match select (same_key (tc_tenant_id b) (tc_idempotency_key b)) (tasks d) with
  | r :: _ =>
      store env b p t d =
      if same_submission env b r then inr (MkSubmit false r, d)
      else inl (Conflict "idempotency_key was reused with a different payload")
  | [] =>
      store env b p t d =
      if decide (is_Some (tasks d !! new_uuid t)) then inl (IntegrityError "tasks_pkey")
      else if negb (sent_loads (tc_available_at b)) then inl (DataError "timestamp")
      else inr (MkSubmit true (plan_row t env b p), created_db t (plan_row t env b p) d)
  end.
Proof.
  intros Hok Hte Hver. unfold store, translate, plan_row, same_submission in *.
  destruct (select _ _) as [|r l] eqn:Hsel.
  - case_decide as Hid.
    + unfold submit_task. rewrite bind_run. cbn [ask]. rewrite bind_run.
      unfold insert_task. rewrite bind_run. cbn [get]. rewrite Hok.
      unfold submitted_row in *. simpl. rewrite Hsel. by rewrite bool_decide_eq_true_2.
    + rewrite submit_creates by (try done; by apply eq_None_not_Some). by destruct (sent_loads _).
  - rewrite (submit_existing _ _ _ _ _ _ _ _ _ _ _ _ _ _ Hok Hsel). by destruct (dict_eqb _ _).
Qed.

Lemma select_key_case te key d :
  (∃ i r l, select (same_key te key) (tasks d) = r :: l ∧ tasks d !! i = Some r ∧
     same_key te key r = true) ∨
  (select (same_key te key) (tasks d) = [] ∧
     ∀ i (r : task_row), tasks d !! i = Some r → same_key te key r = false).
Proof.
  destruct (select _ _) as [|r l] eqn:Hsel; [right|left].
  - split; [done|]. intros i r Hr. apply not_true_is_false. intros Hk.
    apply (not_elem_of_nil r). rewrite <-Hsel. apply elem_of_select. eauto.
  - assert (r ∈ select (same_key te key) (tasks d)) as [Hk [i Hi]]%elem_of_select by (rewrite Hsel; by left).
    by exists i, r, l.
Qed.

(** Once the plan is known. *)
Lemma store_answers env b t d p :
  registry_ok d → validate_task b = true → has_room env d (tc_tenant_id b) → planned env d b p →
  match store env b p t d with
  | inr (res, d') => answers env b t d (if created res then 201 else 200, None) d'
  | inl e => answers env b t d (error_response e) d
  end.
Proof.
  intros Hok Hb Hroom Hp. pose proof (store_run env b p t d) as Hrun.
  specialize (Hrun (plan_row_ok _ _ _ _ _ Hok Hb Hp)).
  pose proof Hroom as (tn & Htn & _).
  specialize (Hrun (mk_is_Some _ _ Htn) (planned_version _ _ _ _ Hp)).
  destruct (select_key_case (tc_tenant_id b) (tc_idempotency_key b) d)
    as [(i & r & l & Hsel & Hi & Hk)|[Hsel Hfree]]; rewrite Hsel in Hrun; rewrite Hrun.
  - destruct (same_submission env b r) eqn:Hs; [by eapply ans_duplicate|by eapply ans_mismatch].
  - case_decide as Hid; [by apply ans_id_taken|].
    destruct (sent_loads (tc_available_at b)) eqn:Hav; simpl; [|by apply ans_undatable].
    apply (ans_created _ _ _ _ p); try done. by apply eq_None_not_Some.
Qed.

Lemma submit_answers env b t d :
  registry_ok d → validate_task b = true →
  match submit env b t d with
  | inr ((s, _), d') => answers env b t d (s, None) d'
  | inl e => answers env b t d (error_response e) d
  end.
Proof.
  intros Hok Hb. unfold submit, get_tenant, queued_count_for_tenant.
  rewrite bind_run, bind_run. cbn [get mret M_ret].
  destruct (tenants d !! tc_tenant_id b) as [tn|] eqn:Htn; [|by apply ans_unknown_tenant].
  rewrite bind_run. cbn [require mret M_ret]. rewrite bind_run, bind_run. cbn [get mret M_ret].
  fold (queued_of d (tc_tenant_id b)). rewrite bind_run. unfold admit_submission.
  pose proof (admission.decide_reject (queued_of d (tc_tenant_id b)) (te_max_queued_tasks tn)
                (cached_global_queued env) (global_queue_shed_threshold (api_settings env))) as Hrej.
  pose proof (admission.decide_shed (queued_of d (tc_tenant_id b)) (te_max_queued_tasks tn)
                (cached_global_queued env) (global_queue_shed_threshold (api_settings env))) as Hshed.
  pose proof (admission.decide_admit (queued_of d (tc_tenant_id b)) (te_max_queued_tasks tn)
                (cached_global_queued env) (global_queue_shed_threshold (api_settings env))) as Hadm.
  set (v := admission.decide _ _ _ _) in *. destruct (admission.decision v) eqn:Hv.
  - cbn [mret M_ret].
    assert (has_room env d (tc_tenant_id b)) as Hroom.
    { exists tn. apply proj1 in Hadm. specialize (Hadm eq_refl) as [? ?].
      split; [done|]. split; [done|]. unfold shedding. lia. }
    rewrite bind_run. pose proof (plan_of_cases env b t d Hok) as Hplan.
    destruct (plan_of env b t d) as [e|[p d1]].
    + destruct Hplan as [(rt & m & Hrt & Hno & ->)|[(rt & m & Hrt & Hw & ->)|[Hm He]]].
      * by eapply ans_no_route.
      * by eapply ans_withdrawn.
      * rewrite He. by apply ans_mistyped.
    + destruct Hplan as [-> Hp]. fold (store env b p). rewrite bind_run.
      pose proof (store_answers env b t d p Hok Hb Hroom Hp) as Hs.
      by destruct (store env b p t d) as [|[res d']].
  - assert (admission.retry_after_s v = 5) as Hra.
    { unfold v, admission.decide in *. by repeat case_match. }
    cbn [raise]. rewrite Hra. eapply ans_quota; [done|]. by apply Hrej.
  - assert (admission.retry_after_s v = 30) as Hra.
    { unfold v, admission.decide in *. by repeat case_match. }
    cbn [raise]. rewrite Hra. destruct (proj1 Hshed eq_refl) as (H1 & H2 & H3).
    by eapply ans_overloaded.
Qed.


Definition ex_env : api_env := MkApiEnv 0 default_settings None (λ _, None) (λ _, None).
(** A request routed to the agent of the registry's sample run. *)
Definition ex_routed : TaskCreate :=
  MkTaskCreate 1 None (Some "research") {[ "q" := JStr "x" ]} (Some "req-1") 100 3 300 None.

