(* ===== verification/ApiGuarantees.v ===== *)
(** * Guarantees about the API

    What a client of the HTTP API can rely on, on top of the guarantees of
    the tables: the outcome of a submission, what disabling an agent stops,
    that released grants are frozen and that tenants stay apart. *)

From S2P Require Import Prelude PyStr Json States Authz Capability Policy Admission Db Config.
From S2P Require Import Samples Transitions Completion Lease Workers Claim Reap Tasks Agents.
From S2P Require Import Paging Tools Tracing Frames Registry Effects Protocol Scenario Governance Api ApiRun.
#[local] Open Scope Z_scope.

(** ** Frames of single requests *)

Lemma reader_keeps {A B} (f : db → B) (m : M A) : Keeps id m → Keeps f m.
Proof. intros Hm t d a d' H%Hm. simpl in H. by rewrite H. Qed.
#[export] Hint Extern 50 (Keeps ?f _) =>
  (lazymatch f with @id _ => fail | _ => apply reader_keeps; apply _ end) : typeclass_instances.

(** Which of the registry's tables a request can change. *)
Definition may_route (rq : request) : bool := match rq with PutRoute _ _ _ => true | _ => false end.
Definition may_grant (rq : request) : bool :=
  match rq with PostGrant _ _ | DeleteGrant _ _ => true | _ => false end.
Definition may_submit (rq : request) : bool := match rq with PostTask _ => true | _ => false end.

Section frames.
Context {B : Type} (f : db → B).

(** A table of the registry is kept by whatever keeps the registry. *)
Lemma table_keeps {A} (m : M A) (g : _ → B) :
  (∀ d, f d = g (registry d)) → Keeps registry m → Keeps f m.
Proof. intros Hf Hm t d a d' H%Hm. by rewrite !Hf, H. Qed.
End frames.

#[export] Hint Extern 5 (Keeps agent_routes _) =>
  (apply (table_keeps _ _ (λ x, x.1.1.2)); [reflexivity|apply _]) : typeclass_instances.
#[export] Hint Extern 5 (Keeps agent_version_tool_grants _) =>
  (apply (table_keeps _ _ (λ x, x.2)); [reflexivity|apply _]) : typeclass_instances.

#[export] Hint Extern 5 (Keeps agent_versions _) =>
  (apply (table_keeps _ _ (λ x, x.1.1.1.2)); [reflexivity|apply _]) : typeclass_instances.
#[export] Hint Extern 5 (Keeps agents _) =>
  (apply (table_keeps _ _ (λ x, x.1.1.1.1)); [reflexivity|apply _]) : typeclass_instances.

Ltac open_handler :=
  unfold handle, checked, status_of, submit, cancel, post_tenant, post_agent,
    post_version, activate, disable, disable_found, put_route, post_tool, disable_tool, enable_tool, switch_tool,
    grant, ungrant.
Ltac open_queries :=
  unfold create_agent, set_agent_status, create_version, activate_version, activate_read, set_version_status,
    create_tool, set_tool_status, set_route, grant_tool, revoke_grant.

Lemma handle_keeps_routes env rq : may_route rq = false → Keeps agent_routes (handle env rq).
Proof.
  intros Hrq. destruct rq; try done; clear Hrq; open_handler; open_queries;
    solve_keeps.
Qed.

Lemma handle_keeps_grants env rq :
  may_grant rq = false → Keeps agent_version_tool_grants (handle env rq).
Proof.
  intros Hrq. destruct rq; try done; clear Hrq; open_handler; open_queries;
    solve_keeps.
Qed.

(** ** Disabling an agent *)

(** The versions table after [set_version_status .. DISABLED] on each id. *)
Definition disable_ids (m : gmap uuid version_row) (ids : list uuid) : gmap uuid version_row :=
  foldl (λ m i, alter (version_with VersionStatus.DISABLED) i m) m ids.

Lemma set_versions_self d : set_versions (agent_versions d) d = d.
Proof. by destruct d. Qed.

Lemma set_version_status_alter i s t d :
  set_version_status i s t d =
  inr (version_with s <$> agent_versions d !! i,
       set_versions (alter (version_with s) i (agent_versions d)) d).
Proof.
  unfold set_version_status. rewrite bind_run. cbn [get].
  destruct (agent_versions d !! i) as [w|] eqn:Hw.
  - rewrite bind_run. cbn [modify mret M_ret fmap option_fmap option_map].
    assert (alter (version_with s) i (agent_versions d) = <[i := version_with s w]> (agent_versions d))
      as ->; [|done]. apply map_eq. intros j. destruct (decide (j = i)) as [->|Hne].
    + by rewrite lookup_alter_eq, Hw, lookup_insert_eq.
    + by rewrite lookup_alter_ne, lookup_insert_ne.
  - by rewrite alter_id', set_versions_self.
Qed.

Lemma for_each_disable (l : list version_row) t d :
  for_each l (λ v, set_version_status (v_id v) VersionStatus.DISABLED ;; mret tt) t d
  = inr (tt, set_versions (disable_ids (agent_versions d) (v_id <$> l)) d).
Proof.
  revert d. induction l as [|v l IH]; intros d; simpl.
  { by rewrite set_versions_self. }
  rewrite !bind_run, set_version_status_alter. cbn [mret M_ret]. by rewrite IH.
Qed.

Lemma lookup_disable_ids m ids i :
  disable_ids m ids !! i =
  if decide (i ∈ ids) then version_with VersionStatus.DISABLED <$> m !! i else m !! i.
Proof.
  revert m. induction ids as [|j ids IH]; intros m; simpl; [done|].
  unfold disable_ids in *. simpl. rewrite IH.
  destruct (decide (i = j)) as [->|Hne].
  - rewrite lookup_alter_eq, (decide_True (P:=j ∈ j :: ids)) by (by left).
    case_decide; [|done]. by destruct (m !! j).
  - rewrite lookup_alter_ne by done. do 2 case_decide; try done; exfalso;
      rewrite elem_of_cons in *; naive_solver.
Qed.

(** The versions of an agent, by id. *)
Definition version_ids (d : db) (a : uuid) : list uuid :=
  v_id <$> order_by (le_on Z.le v_version) (versions_of d a).

Lemma elem_of_version_ids d a i :
  registry_ok d →
  i ∈ version_ids d a ↔ ∃ v, agent_versions d !! i = Some v ∧ v_agent_id v = a.
Proof.
  intros Hok. unfold version_ids. rewrite list_elem_of_fmap. split.
  - intros (v & -> & Hv). rewrite elem_of_order_by in Hv. apply elem_of_select in Hv as [Hp [k Hk]].
    to_prop. rewrite (proj1 (rg_versions _ Hok _ _ Hk)). eauto.
  - intros (v & Hv & <-). exists v. split; [symmetry; by eapply rg_versions|].
    rewrite elem_of_order_by. apply elem_of_select. split; [by apply bool_decide_eq_true|eauto].
Qed.

(** What [disable] has written when it turns to the tasks. *)
Definition disabled_registry (t : txn) (a : uuid) (ag : agent_row) (d : db) : db :=
  set_versions (disable_ids (agent_versions d) (version_ids d a))
    (set_agents (<[a := agent_with AgentStatus.DISABLED (ag_default_version_id ag) (now t) ag]>
                   (agents d)) d).

Lemma disable_run q rn a ag t d :
  agents d !! a = Some ag →
  disable_found q rn a t d =
  match cancel_found q rn (version_ids d a) ("agent " +:+ repr (ag_name ag) +:+ " disabled") t
          (disabled_registry t a ag d) with
  | inl e => inl e
  | inr (n, d') =>
      inr ((200, (agent_with AgentStatus.DISABLED (ag_default_version_id ag) (now t) ag, n)), d')
  end.
Proof.
  intros Ha. unfold disable_found, set_agent_status. rewrite bind_run, bind_run. cbn [ask].
  rewrite bind_run. cbn [get]. rewrite Ha, bind_run. cbn [modify mret M_ret].
  rewrite bind_run. cbn [require mret M_ret]. unfold list_versions.
  rewrite bind_run, bind_run. cbn [get mret M_ret]. rewrite bind_run, for_each_disable. reflexivity.
Qed.

Lemma disable_row_nil q rn t reason r : disable_row q rn [] reason t r = r.
Proof.
  unfold disable_row, disable_queued, disable_running, of_versions.
  destruct (t_agent_version_id r); by rewrite !andb_false_r.
Qed.

Lemma cancel_found_rows q rn vs reason t d :
  ids_ok d → (∀ i r, tasks d !! i = Some r → task_ok r) →
  ∃ n d', cancel_found q rn vs reason t d = inr (n, d') ∧
    tasks d' = disable_row q rn vs reason t <$> tasks d ∧ registry d' = registry d.
Proof.
  intros Hids Hok. destruct (decide (vs = [])) as [->|Hvs].
  - exists 0, d. split; [done|]. split; [|done]. rewrite <-(map_fmap_id (tasks d)) at 1.
    apply map_fmap_ext. intros i r _. by rewrite disable_row_nil.
  - eexists _, _. pose proof (cancel_found_run q rn vs reason t d Hids Hok Hvs) as Hrun.
    split; [exact Hrun|]. split; [|by apply (keeps _ _ _ _ Hrun)].
    unfold disabled_db. by rewrite !row_events_tasks.
Qed.

Lemma cancel_agent_rows vs reason t d :
  ids_ok d → (∀ i r, tasks d !! i = Some r → task_ok r) →
  ∃ n d', cancel_agent_tasks vs reason t d = inr (n, d') ∧
    tasks d' = disable_row every_row every_row vs reason t <$> tasks d ∧ registry d' = registry d.
Proof. apply cancel_found_rows. Qed.

(** The task runs a version of this agent. *)
Definition pinned_to (d : db) (a : uuid) (r : task_row) : Prop :=
  ∃ i v, t_agent_version_id r = Some i ∧ agent_versions d !! i = Some v ∧ v_agent_id v = a.

Lemma of_version_ids d a (r : task_row) :
  registry_ok d → of_versions (version_ids d a) r = true ↔ pinned_to d a r.
Proof.
  intros Hok. unfold of_versions, pinned_to. destruct (t_agent_version_id r) as [i|].
  - rewrite bool_decide_eq_true, elem_of_version_ids by done. naive_solver.
  - split; [done|]. by intros (? & ? & ? & _).
Qed.

(** What disabling its agent makes of a task. *)
Definition stopped_by (r r' : task_row) : Prop :=
  match t_state r with
  | State.QUEUED => t_state r' = State.CANCELLED ∧ t_cancel_requested r' = true
  | State.RUNNING => t_state r' = State.RUNNING ∧ t_cancel_requested r' = true ∧
                     t_lease_worker_id r' = t_lease_worker_id r ∧ t_attempt r' = t_attempt r
  | _ => r' = r
  end.

Lemma disable_row_stops vs reason t r :
  (of_versions vs r = false → disable_row every_row every_row vs reason t r = r) ∧
  (of_versions vs r = true → stopped_by r (disable_row every_row every_row vs reason t r)).
Proof.
  unfold disable_row, disable_queued, disable_running, stopped_by. split; intros ->; [done|]. simpl.
  destruct (t_state r) eqn:Hs; simpl; try done.
  destruct (t_cancel_requested r) eqn:Hc; simpl; by rewrite ?Hs.
Qed.

Lemma disabled_registry_versions t a ag d i :
  registry_ok d →
  agent_versions (disabled_registry t a ag d) !! i =
  (λ v, if decide (v_agent_id v = a) then version_with VersionStatus.DISABLED v else v)
    <$> agent_versions d !! i.
Proof.
  intros Hok. simpl. rewrite lookup_disable_ids.
  destruct (agent_versions d !! i) as [v|] eqn:Hv; simpl; [|by case_decide].
  pose proof (elem_of_version_ids d a i Hok) as Hin. rewrite Hv in Hin.
  case_decide as Hi; case_decide as Ha; try done; exfalso; naive_solver.
Qed.

(** The agent kill switch. In every reachable state the request to
    disable an agent is answered 404 and changes nothing if there is no such
    agent; otherwise it is answered 200, the agent and every version of it
    are DISABLED, each task pinned to one of those versions is cancelled if it
    was QUEUED and flagged, keeping its owner, if it was RUNNING, every other
    task and version is untouched, and from then on no request type routed to
    the agent resolves. *)
Theorem disable_stops_agent env a t d :
  reachable d →
  match agents d !! a with
  | None => respond env (DisableAgent a) t d = ((404, None), d)
  | Some ag =>
      ∃ d', respond env (DisableAgent a) t d = ((200, None), d') ∧
        ag_status <$> agents d' !! a = Some AgentStatus.DISABLED ∧
        (∀ i, agent_versions d' !! i =
           (λ v, if decide (v_agent_id v = a) then version_with VersionStatus.DISABLED v else v)
             <$> agent_versions d !! i) ∧
        (∀ i (r : task_row), tasks d !! i = Some r → ∃ r', tasks d' !! i = Some r' ∧
           (pinned_to d a r → stopped_by r r') ∧ (¬ pinned_to d a r → r' = r)) ∧
        (∀ te rt route t2, agent_routes d' !! (te, rt) = Some route → ro_agent_id route = a →
           ∃ m, resolve_route te rt t2 d' = inl (NotRoutable m))
  end.
Proof.
  intros Hd. pose proof (reachable_registry_ok d Hd) as Hok.
  pose proof (inv_reachable d Hd) as Hinv. destruct (agents d !! a) as [ag|] eqn:Ha.
  - destruct (cancel_agent_rows (version_ids d a) ("agent " +:+ repr (ag_name ag) +:+ " disabled") t
      (disabled_registry t a ag d)) as (n & d' & Hrun & Htasks & Hreg).
    { apply (inv_ids d Hinv). } { apply (inv_ok d Hinv). }
    unfold registry in Hreg. injection Hreg as Hag Hv Hro _ _.
    exists d'. split.
    { unfold respond, transaction, handle, status_of, disable.
      rewrite bind_run, (disable_run _ _ a ag) by done. unfold cancel_agent_tasks in Hrun. by rewrite Hrun. }
    rewrite Hag, Hv, Hro, Htasks. split; [simpl; by rewrite lookup_insert_eq|].
    split; [intros i; by apply (disabled_registry_versions t a ag)|]. split.
    + intros i r Hr. simpl. rewrite lookup_fmap, Hr. eexists. split; [done|].
      rewrite <-of_version_ids by done.
      pose proof (disable_row_stops (version_ids d a)
        ("agent " +:+ repr (ag_name ag) +:+ " disabled") t r) as [H1 H2].
      split; [done|]. intros Hn. by apply H1, not_true_is_false.
    + intros te rt route t2 Hroute <-. unfold resolve_route. rewrite bind_run. cbn [get].
      rewrite Hro, Hroute. simpl. rewrite Hag. simpl. rewrite lookup_insert_eq.
      rewrite bool_decide_eq_true_2; [by eexists|]. simpl. by intros ?%list_elem_of_singleton.
  - unfold respond, transaction, handle, status_of, disable, disable_found, set_agent_status.
    rewrite bind_run, bind_run, bind_run. cbn [ask]. rewrite bind_run. cbn [get]. by rewrite Ha.
Qed.

Lemma disable_stops_agent_witness :
  ∃ d', respond (MkApiEnv 0 default_settings None (λ _, None) (λ _, None)) (DisableAgent 20) (txn_at 9) rg_routed
      = ((200, None), d') ∧
    ag_status <$> agents d' !! 20%N = Some AgentStatus.DISABLED ∧
    (∃ m, resolve_route 1 "research" (txn_at 10) d' = inl (NotRoutable m)).
Proof.
  pose proof (disable_stops_agent (MkApiEnv 0 default_settings None (λ _, None) (λ _, None)) 20 (txn_at 9) rg_routed
                rg_routed_reachable) as H.
  assert (∃ ag, agents rg_routed !! 20%N = Some ag) as [ag Ha] by (eexists; vm_compute; reflexivity).
  with_strategy opaque [rg_routed] rewrite Ha in H.
  destruct H as (d' & Hrun & Hag & _ & _ & Hres). exists d'. split; [exact Hrun|].
  split; [exact Hag|].
  assert (agent_routes (respond (MkApiEnv 0 default_settings None (λ _, None) (λ _, None)) (DisableAgent 20) (txn_at 9)
            rg_routed).2 !! (1%N, "research") = Some (MkRoute 1 "research" 20 (us 8))) as Hro
    by (vm_compute; reflexivity).
  with_strategy opaque [rg_routed respond] rewrite Hrun in Hro. cbn [snd] in Hro.
  exact (Hres 1%N "research" _ (txn_at 10) Hro eq_refl).
Defined.
