(* ===== verification/ApiRegistry.v ===== *)
(** * The write endpoints of the control plane, as a decision table

    [administers] lists, request by request, what the API answers to a
    well-formed request other than a submission (for those see ApiSubmit.v),
    under which condition on the tables, and exactly what it leaves in them;
    [registry_answers] shows that the handlers of Api.v give these answers in
    every reachable state.  The table mentions none of the queries the
    handlers call. *)

From S2P Require Import Prelude PyStr Json States Authz Capability Policy Admission Db Config.
From S2P Require Import Samples Transitions Completion Lease Workers Claim Reap Tasks Agents.
From S2P Require Import Paging Tools Tracing Frames Registry Effects Protocol Scenario Governance Integrity Api ApiRun.
From S2P Require Import ApiSubmit ApiGuarantees.
#[local] Open Scope Z_scope.

(** ** Requests *)

(** 422: a field of the body is out of bounds. *)
Definition malformed (rq : request) : Prop :=
  match rq with
  | PostTenant name mc mq =>
      ¬ (1 ≤ String.length name ≤ 64)%nat ∨ ¬ 1 ≤ mc ≤ 10000 ∨ ¬ 1 ≤ mq ≤ 1000000
  | PostAgent _ name _ | PostTool _ name _ _ _ => ¬ (1 ≤ String.length name ≤ 128)%nat
  | PutRoute _ rt _ => ¬ (1 ≤ String.length rt ≤ 128)%nat
  | PostVersion _ _ _ _ ma mx => ¬ 1 ≤ ma ≤ 20 ∨ ¬ 1 ≤ mx ≤ 86400
  | _ => False
  end.

(** What this file is about. *)
Definition administrative (rq : request) : Prop :=
  match rq with PostTask _ | Read _ => False | _ => True end.

(** ** The table *)

(** One more row of the audit log. *)
Definition logged (t : txn) (te : uuid) (action resource : text) (rid : uuid) (data : jdict) (d : db) : db :=
  set_audit (audit_events d ++
    [MkAudit (S (length (audit_events d))) te "system" action resource (Some rid) "OK" data (now t)]) d.

(** The audit row of a grant or a revocation. *)
Definition grant_logged (t : txn) (action : text) (v : uuid) (tool : tool_row) (d : db) : db :=
  logged t (tl_tenant_id tool) action "agent_version" v
    {[ "tool_id" := JStr (uuid_str (tl_id tool)); "tool" := JStr (tl_name tool) ]} d.

Definition tenant_named (d : db) (name : text) : Prop := ∃ i te, tenants d !! i = Some te ∧ te_name te = name.
Definition agent_named (d : db) (te : uuid) (name : text) : Prop :=
  ∃ i a, agents d !! i = Some a ∧ ag_tenant_id a = te ∧ ag_name a = name.
Definition tool_named (d : db) (te : uuid) (name : text) : Prop :=
  ∃ i r, tools d !! i = Some r ∧ tl_tenant_id r = te ∧ tl_name r = name.
(** How many versions the agent has. *)
Definition version_count (d : db) (a : uuid) : Z :=
  Z.of_nat (size (filter (λ p : uuid * version_row, v_agent_id p.2 = a) (agent_versions d))).
Definition switched (s : tool_status) (r : tool_row) : tool_row :=
  MkTool (tl_id r) (tl_tenant_id r) (tl_name r) (tl_description r) (tl_tool_type r) (tl_config r) s
    (tl_created_at r).

Inductive administers (t : txn) (d : db) : request → Z * option text → db → Prop :=
  (** tenants *)
  | adm_tenant name mc mq :
      ¬ tenant_named d name → tenants d !! new_uuid t = None →
      administers t d (PostTenant name mc mq) (201, None)
        (set_tenants (<[new_uuid t := MkTenant (new_uuid t) name mc mq 1 (now t)]> (tenants d)) d)
  | adm_tenant_taken name mc mq :
      tenant_named d name ∨ is_Some (tenants d !! new_uuid t) →
      administers t d (PostTenant name mc mq) (409, None) d
  (** agents *)
  | adm_agent te name desc :
      is_Some (tenants d !! te) → ¬ agent_named d te name → agents d !! new_uuid t = None →
      administers t d (PostAgent te name desc) (201, None)
        (set_agents (<[new_uuid t := MkAgent (new_uuid t) te name desc AgentStatus.ACTIVE None
                                       (now t) (now t)]> (agents d)) d)
  | adm_agent_taken te name desc :
      is_Some (tenants d !! te) → agent_named d te name ∨ is_Some (agents d !! new_uuid t) →
      administers t d (PostAgent te name desc) (409, None) d
  | adm_agent_no_tenant te name desc :
      tenants d !! te = None → administers t d (PostAgent te name desc) (404, None) d
  (** versions: numbered one after the other *)
  | adm_version a spec caps cfg ma mx :
      is_Some (agents d !! a) → version_count d a < int4_max → agent_versions d !! new_uuid t = None →
      administers t d (PostVersion a spec caps cfg ma mx) (201, None)
        (set_versions (<[new_uuid t := MkVersion (new_uuid t) a (version_count d a + 1) spec caps cfg
                                         ma mx VersionStatus.DRAFT (now t)]> (agent_versions d)) d)
  | adm_version_full a spec caps cfg ma mx :
      is_Some (agents d !! a) → int4_max ≤ version_count d a ∨ is_Some (agent_versions d !! new_uuid t) →
      administers t d (PostVersion a spec caps cfg ma mx) (500, None) d
  | adm_version_no_agent a spec caps cfg ma mx :
      agents d !! a = None → administers t d (PostVersion a spec caps cfg ma mx) (404, None) d
  (** releases *)
  | adm_release a v e req ver ag :
      agent_versions d !! v = Some ver → v_agent_id ver = a → v_status ver ≠ VersionStatus.DISABLED →
      agents d !! a = Some ag → (req = true → ag_default_version_id ag = e) →
      administers t d (Activate a v e req) (200, None)
        (set_versions (<[v := version_with VersionStatus.ACTIVE ver]> (agent_versions d))
           (set_agents (<[a := agent_with (ag_status ag) (Some v) (now t) ag]> (agents d)) d))
  | adm_release_refused a v e req ver ag :
      agent_versions d !! v = Some ver → v_agent_id ver = a → agents d !! a = Some ag →
      v_status ver = VersionStatus.DISABLED ∨ req = true ∧ ag_default_version_id ag ≠ e →
      administers t d (Activate a v e req) (409, None) d
  | adm_release_unknown a v e req :
      (∀ ver, agent_versions d !! v = Some ver → v_agent_id ver ≠ a) →
      administers t d (Activate a v e req) (404, None) d
  (** the kill switch *)
  | adm_disable a ag d' :
      agents d !! a = Some ag →
      agents d' = <[a := agent_with AgentStatus.DISABLED (ag_default_version_id ag) (now t) ag]> (agents d) →
      (∀ i, agent_versions d' !! i =
         (λ v, if decide (v_agent_id v = a) then version_with VersionStatus.DISABLED v else v)
           <$> agent_versions d !! i) →
      (∀ i, match tasks d !! i with
            | Some r => ∃ r', tasks d' !! i = Some r' ∧
                (pinned_to d a r → stopped_by r r') ∧ (¬ pinned_to d a r → r' = r)
            | None => tasks d' !! i = None
            end) →
      (agent_routes d', tools d', agent_version_tool_grants d', tenants d', audit_events d')
      = (agent_routes d, tools d, agent_version_tool_grants d, tenants d, audit_events d) →
      administers t d (DisableAgent a) (200, None) d'
  | adm_disable_unknown a :
      agents d !! a = None → administers t d (DisableAgent a) (404, None) d
  (** routes *)
  | adm_route te rt a ag :
      agents d !! a = Some ag → ag_tenant_id ag = te →
      administers t d (PutRoute te rt a) (200, None)
        (set_routes (<[(te, rt) := MkRoute te rt a
           (default (now t) (ro_created_at <$> agent_routes d !! (te, rt)))]> (agent_routes d)) d)
  | adm_route_foreign te rt a ag :
      agents d !! a = Some ag → ag_tenant_id ag ≠ te → administers t d (PutRoute te rt a) (409, None) d
  | adm_route_unknown te rt a :
      agents d !! a = None → administers t d (PutRoute te rt a) (404, None) d
  (** tools *)
  | adm_tool te name ty cfg desc :
      is_Some (tenants d !! te) → ¬ tool_named d te name → tools d !! new_uuid t = None →
      administers t d (PostTool te name ty cfg desc) (201, None)
        (set_tools (<[new_uuid t := MkTool (new_uuid t) te name desc ty cfg ToolStatus.ACTIVE (now t)]>
                      (tools d)) d)
  | adm_tool_taken te name ty cfg desc :
      is_Some (tenants d !! te) → tool_named d te name ∨ is_Some (tools d !! new_uuid t) →
      administers t d (PostTool te name ty cfg desc) (409, None) d
  | adm_tool_no_tenant te name ty cfg desc :
      tenants d !! te = None → administers t d (PostTool te name ty cfg desc) (404, None) d
  | adm_tool_disabled i r :
      tools d !! i = Some r →
      administers t d (DisableTool i) (200, None)
        (logged t (tl_tenant_id r) "TOOL_DISABLED" "tool" i {[ "name" := JStr (tl_name r) ]}
           (set_tools (<[i := switched ToolStatus.DISABLED r]> (tools d)) d))
  | adm_tool_enabled i r :
      tools d !! i = Some r →
      administers t d (EnableTool i) (200, None)
        (logged t (tl_tenant_id r) "TOOL_ENABLED" "tool" i {[ "name" := JStr (tl_name r) ]}
           (set_tools (<[i := switched ToolStatus.ACTIVE r]> (tools d)) d))
  | adm_tool_unknown i rq :
      rq = DisableTool i ∨ rq = EnableTool i → tools d !! i = None → administers t d rq (404, None) d
  (** grants *)
  | adm_grant v i ver tool ag :
      agent_versions d !! v = Some ver → v_status ver ≠ VersionStatus.ACTIVE →
      tools d !! i = Some tool → agents d !! v_agent_id ver = Some ag →
      ag_tenant_id ag = tl_tenant_id tool → agent_version_tool_grants d !! (v, i) = None →
      administers t d (PostGrant v i) (201, None)
        (grant_logged t "TOOL_GRANTED" v tool
           (set_grants (<[(v, i) := MkGrant v i (now t)]> (agent_version_tool_grants d)) d))
  | adm_grant_again v i ver tool ag :
      agent_versions d !! v = Some ver → v_status ver ≠ VersionStatus.ACTIVE →
      tools d !! i = Some tool → agents d !! v_agent_id ver = Some ag →
      ag_tenant_id ag = tl_tenant_id tool → is_Some (agent_version_tool_grants d !! (v, i)) →
      administers t d (PostGrant v i) (201, None) (grant_logged t "TOOL_GRANTED" v tool d)
  | adm_grant_foreign v i ver tool ag :
      agent_versions d !! v = Some ver → v_status ver ≠ VersionStatus.ACTIVE →
      tools d !! i = Some tool → agents d !! v_agent_id ver = Some ag →
      ag_tenant_id ag ≠ tl_tenant_id tool → administers t d (PostGrant v i) (409, None) d
  | adm_ungrant v i ver tool :
      agent_versions d !! v = Some ver → v_status ver ≠ VersionStatus.ACTIVE →
      tools d !! i = Some tool → is_Some (agent_version_tool_grants d !! (v, i)) →
      administers t d (DeleteGrant v i) (204, None)
        (grant_logged t "TOOL_GRANT_REVOKED" v tool
           (set_grants (delete (v, i) (agent_version_tool_grants d)) d))
  | adm_ungrant_none v i ver :
      agent_versions d !! v = Some ver → v_status ver ≠ VersionStatus.ACTIVE →
      is_Some (tools d !! i) → agent_version_tool_grants d !! (v, i) = None →
      administers t d (DeleteGrant v i) (404, None) d
  | adm_grants_no_version v i rq :
      rq = PostGrant v i ∨ rq = DeleteGrant v i → agent_versions d !! v = None →
      administers t d rq (404, None) d
  | adm_grants_released v i rq ver :
      rq = PostGrant v i ∨ rq = DeleteGrant v i → agent_versions d !! v = Some ver →
      v_status ver = VersionStatus.ACTIVE → administers t d rq (409, None) d
  | adm_grants_no_tool v i rq ver :
      rq = PostGrant v i ∨ rq = DeleteGrant v i → agent_versions d !! v = Some ver →
      v_status ver ≠ VersionStatus.ACTIVE → tools d !! i = None → administers t d rq (404, None) d
  (** cancellation *)
  | adm_cancel i r :
      tasks d !! i = Some r → t_state r = State.QUEUED →
      administers t d (CancelTask i) (200, None) (cancelled_db t d i r)
  | adm_cancel_flag i r :
      tasks d !! i = Some r → t_state r = State.RUNNING → t_cancel_requested r = false →
      administers t d (CancelTask i) (202, None) (requested_db t d i r)
  | adm_cancel_flagged i r :
      tasks d !! i = Some r → t_state r = State.RUNNING → t_cancel_requested r = true →
      administers t d (CancelTask i) (202, None) d
  | adm_cancel_again i r :
      tasks d !! i = Some r → t_state r = State.CANCELLED → administers t d (CancelTask i) (200, None) d
  | adm_cancel_late i r :
      tasks d !! i = Some r → t_state r ∈ [State.SUCCEEDED; State.FAILED] →
      administers t d (CancelTask i) (409, None) d
  | adm_cancel_unknown i :
      tasks d !! i = None → administers t d (CancelTask i) (404, None) d.

(** ** Conditions *)

Lemma text_length_spec lo hi s : text_length lo hi s = true ↔ (lo ≤ String.length s ≤ hi)%nat.
Proof. unfold text_length. rewrite andb_true_iff, !Nat.leb_le. done. Qed.

Lemma validate_tenant_spec name mc mq :
  validate_tenant name mc mq = true ↔ ¬ malformed (PostTenant name mc mq).
Proof.
  unfold validate_tenant, malformed. rewrite !andb_true_iff, text_length_spec, !in_range_spec.
  split; [tauto|]. intros H. split_and!; apply dec_stable; tauto.
Qed.

Lemma validate_version_spec a spec caps cfg ma mx :
  validate_version ma mx = true ↔ ¬ malformed (PostVersion a spec caps cfg ma mx).
Proof.
  unfold validate_version, malformed. rewrite andb_true_iff, !in_range_spec.
  split; [tauto|]. intros H. split; apply dec_stable; tauto.
Qed.

Lemma name_spec (s : text) : text_length 1 128 s = true ↔ ¬ ¬ (1 ≤ String.length s ≤ 128)%nat.
Proof. rewrite text_length_spec. split; [tauto|]. apply dec_stable. Qed.

Lemma exists_row {A} (P : A → Prop) `{∀ x, Decision (P x)} (m : gmap uuid A) :
  Exists P (rows m) ↔ ∃ i r, m !! i = Some r ∧ P r.
Proof.
  rewrite Exists_exists. split.
  - intros (r & [i Hi]%elem_of_rows & HP). eauto.
  - intros (i & r & Hi & HP). exists r. split; [|done]. apply elem_of_rows. eauto.
Qed.

Lemma version_count_length d a : version_count d a = Z.of_nat (length (versions_of d a)).
Proof.
  unfold version_count, versions_of, select, rows. f_equal. rewrite map_filter_alt, map_size_list_to_map.
  - generalize (map_to_list (agent_versions d)). induction l as [|[i v] l IH]; [done|].
    simpl. rewrite !filter_cons. simpl.
    destruct (decide (v_agent_id v = a)), (decide (bool_decide (v_agent_id v = a) = true));
      simpl; rewrite ?IH; try done; rewrite bool_decide_eq_true in *; done.
  - pose proof (NoDup_fst_map_to_list (agent_versions d)) as Hnd. revert Hnd.
    generalize (map_to_list (agent_versions d)). induction l as [|[i v] l IH]; [done|].
    rewrite filter_cons. simpl. intros [Hi Hl]%NoDup_cons. case_decide; [|by apply IH]. simpl.
    apply NoDup_cons. split; [|by apply IH]. contradict Hi.
    apply list_elem_of_fmap in Hi as (p & -> & [_ Hp]%list_elem_of_filter). by apply list_elem_of_fmap_2.
Qed.

(** ** The handlers answer so *)

Section handlers.
Context (t : txn) (d : db).
Hypothesis Hok : registry_ok d.
Hypothesis Href : referential d.

(** A run of a handler is what the table says. *)
Definition answers_so {A} (rq : request) (m : M (Z * A)) : Prop :=
  match m t d with
  | inr ((s, _), d') => administers t d rq (s, None) d'
  | inl e => administers t d rq (error_response e) d
  end.

Lemma post_tenant_so name mc mq :
  ¬ malformed (PostTenant name mc mq) → answers_so (PostTenant name mc mq) (post_tenant name mc mq).
Proof using.
  intros Hb%validate_tenant_spec. unfold answers_so, post_tenant, translate, create_tenant.
  unfold validate_tenant in Hb. rewrite !andb_true_iff, !in_range_spec in Hb.
  assert (fits_int4 mc && fits_int4 mq = true) as Hfit.
  { unfold fits_int4, int4_max. apply andb_true_iff. split; to_prop; lia. }
  rewrite !bind_run. cbn [ask]. rewrite bind_run. cbn [get]. rewrite Hfit. cbn [negb].
  case_bool_decide as Hn; [apply adm_tenant_taken; left; exact (proj1 (exists_row _ _) Hn)|].
  case_bool_decide as Hi; [by apply adm_tenant_taken; right|].
  apply adm_tenant; [|by apply eq_None_not_Some]. intros H. apply Hn. exact (proj2 (exists_row _ _) H).
Qed.

Lemma post_agent_so te name desc : answers_so (PostAgent te name desc) (post_agent te name desc).
Proof using.
  unfold answers_so, post_agent, translate, create_agent, get_tenant.
  rewrite bind_run, bind_run. cbn [get mret M_ret].
  destruct (tenants d !! te) as [tn|] eqn:Hte; [|by apply adm_agent_no_tenant].
  cbn [require]. rewrite !bind_run. cbn [mret M_ret]. rewrite !bind_run. cbn [ask]. rewrite bind_run.
  cbn [get]. cbv zeta.
  case_bool_decide as Hn; [apply adm_agent_taken; [by eauto|left; exact (proj1 (exists_row _ _) Hn)]|].
  case_bool_decide as Hi; [by apply adm_agent_taken; [eauto|right]|].
  rewrite bool_decide_eq_false_2 by congruence.
  apply adm_agent; [by eauto| |by apply eq_None_not_Some]. intros H. apply Hn. exact (proj2 (exists_row _ _) H).
Qed.

Lemma post_tool_so te name ty cfg desc :
  answers_so (PostTool te name ty cfg desc) (post_tool te name ty cfg desc).
Proof using.
  unfold answers_so, post_tool, translate, create_tool, get_tenant.
  rewrite bind_run, bind_run. cbn [get mret M_ret].
  destruct (tenants d !! te) as [tn|] eqn:Hte; [|by apply adm_tool_no_tenant].
  cbn [require]. rewrite !bind_run. cbn [mret M_ret]. rewrite !bind_run. cbn [ask]. rewrite bind_run.
  cbn [get]. cbv zeta.
  case_bool_decide as Hn; [apply adm_tool_taken; [by eauto|left; exact (proj1 (exists_row _ _) Hn)]|].
  case_bool_decide as Hi; [by apply adm_tool_taken; [eauto|right]|].
  rewrite bool_decide_eq_false_2 by congruence.
  apply adm_tool; [by eauto| |by apply eq_None_not_Some]. intros H. apply Hn. exact (proj2 (exists_row _ _) H).
Qed.

Lemma post_version_so a spec caps cfg ma mx :
  ¬ malformed (PostVersion a spec caps cfg ma mx) →
  answers_so (PostVersion a spec caps cfg ma mx) (post_version a spec caps cfg ma mx).
Proof using Hok.
  intros Hb%(validate_version_spec a spec caps cfg). unfold validate_version in Hb.
  rewrite andb_true_iff, !in_range_spec in Hb. destruct Hb as [Hma Hmx].
  unfold answers_so, post_version, translate, create_version. rewrite !bind_run. cbn [ask].
  rewrite bind_run. cbn [get]. destruct (agents d !! a) as [ag|] eqn:Ha; [|by apply adm_version_no_agent].
  cbv zeta. rewrite next_version_dense by apply Hok.
  rewrite <-(version_count_length d a). set (n := version_count d a).
  assert (0 ≤ n) as Hn by (unfold n, version_count; lia).
  assert (version_error (MkVersion (new_uuid t) a (n + 1) spec caps cfg ma mx VersionStatus.DRAFT (now t))
    = if n <? int4_max then None else Some (DataError "version")) as Herr.
  { unfold version_error. simpl. destruct (Z.ltb_spec n int4_max) as [Hlt|Hge].
    - rewrite !(proj2 (Z.leb_le _ _)) by (unfold int4_max in *; lia). done.
    - by rewrite (proj2 (Z.leb_gt (n + 1) int4_max)) by lia. }
  unfold id, from_option. rewrite Herr. destruct (Z.ltb_spec n int4_max) as [Hlt|Hge].
  2: { apply adm_version_full; [by eauto|by left]. }
  rewrite bool_decide_eq_false_2.
  2: { rewrite Exists_exists. intros (v & Hv & Heq). simpl in Heq.
       assert (v_version v ∈ v_version <$> versions_of d a) as Hin by by apply list_elem_of_fmap_2.
       rewrite (rg_dense _ Hok a), elem_of_seqZ in Hin. unfold n in Heq. rewrite version_count_length in Heq. lia. }
  case_bool_decide as Hi; [apply adm_version_full; [by eauto|by right]|].
  apply adm_version; [by eauto|done|by apply eq_None_not_Some].
Qed.

Lemma activate_so a v e req : answers_so (Activate a v e req) (activate a v e req).
Proof using Hok.
  unfold answers_so, activate, activate_version, get_version. rewrite bind_run, bind_run, bind_run.
  cbn [get mret M_ret]. unfold activate_read. rewrite bind_run. cbn [ask].
  destruct (agent_versions d !! v) as [ver|] eqn:Hv; [|by apply adm_release_unknown; congruence].
  case_bool_decide as Hva; [apply adm_release_unknown; congruence|].
  destruct (rg_versions _ Hok _ _ Hv) as (_ & [ag Ha] & _). rewrite Hva in Ha.
  case_bool_decide as Hs; [by eapply adm_release_refused; [..|left]|]. rewrite bind_run. cbn [get].
  rewrite Ha. destruct (negb req || _) eqn:Hreq.
  - rewrite bind_run. cbn [modify]. unfold set_version_status. rewrite !bind_run. cbn [get].
    change (agent_versions (set_agents ?x d)) with (agent_versions d). rewrite Hv. cbn [act_applied].
    eapply adm_release; [done..|]. intros ->. by apply orb_true_iff in Hreq as [?|?%bool_decide_eq_true].
  - cbn. apply orb_false_iff in Hreq as [->%negb_false_iff Hne%bool_decide_eq_false].
    eapply adm_release_refused; [done..|by right].
Qed.

Lemma put_route_so te rt a : answers_so (PutRoute te rt a) (put_route te rt a).
Proof using Href.
  unfold answers_so, put_route, get_agent. rewrite bind_run, bind_run. cbn [get mret M_ret].
  destruct (agents d !! a) as [ag|] eqn:Ha; [|by apply adm_route_unknown].
  cbn [require]. rewrite bind_run. cbn [mret M_ret].
  case_bool_decide as Hte; [by eapply adm_route_foreign|].
  unfold set_route. rewrite !bind_run. cbn [ask]. rewrite bind_run. cbn [get].
  destruct (rf_agents _ Href _ _ Ha) as [tn Htn]. rewrite Hte in Htn.
  rewrite !bool_decide_eq_false_2 by congruence. cbv zeta. cbn.
  pose proof (adm_route t d te rt a ag Ha Hte) as H. by destruct (agent_routes d !! (te, rt)).
Qed.

Lemma switch_tool_so s action rq i :
  rq = DisableTool i ∨ rq = EnableTool i →
  (∀ r, tools d !! i = Some r → administers t d rq (200, None)
     (logged t (tl_tenant_id r) action "tool" i {[ "name" := JStr (tl_name r) ]}
        (set_tools (<[i := switched s r]> (tools d)) d))) →
  answers_so rq (switch_tool s action i).
Proof using.
  intros Hrq Hadm. unfold answers_so, switch_tool, set_tool_status. rewrite bind_run, bind_run. cbn [get].
  destruct (tools d !! i) as [r|] eqn:Hi; [|by eapply adm_tool_unknown].
  rewrite bind_run. cbn [modify mret M_ret]. rewrite bind_run. cbn [require mret M_ret].
  unfold record_audit. rewrite !bind_run. cbn [ask]. exact (Hadm r eq_refl).
Qed.

Lemma grant_so v i : answers_so (PostGrant v i) (grant v i).
Proof using Hok.
  unfold answers_so, grant, unreleased, get_version. rewrite bind_run, bind_run, bind_run.
  cbn [get mret M_ret]. destruct (agent_versions d !! v) as [ver|] eqn:Hv.
  2: { by eapply adm_grants_no_version; [left|]. }
  cbn [require]. rewrite bind_run. cbn [mret M_ret]. case_bool_decide as Hact.
  { by eapply adm_grants_released; [left|..]. }
  cbn [mret M_ret]. unfold get_tool. rewrite bind_run, bind_run. cbn [get mret M_ret].
  destruct (tools d !! i) as [tool|] eqn:Hi; [|by eapply adm_grants_no_tool; [left|..]].
  cbn [require]. rewrite bind_run. cbn [mret M_ret]. unfold get_agent. rewrite bind_run, bind_run.
  cbn [get mret M_ret]. destruct (rg_versions _ Hok _ _ Hv) as (_ & [ag Ha] & _). rewrite Ha.
  case_bool_decide as Hte; [by eapply adm_grant_foreign|].
  pose proof (tk_ids _ (rg_tools _ Hok) _ _ Hi) as Hid.
  unfold grant_tool. rewrite !bind_run. cbn [ask]. rewrite bind_run. cbn [get].
  case_bool_decide as Hg.
  - cbn [mret M_ret]. rewrite bind_run. unfold record_audit. rewrite bind_run. cbn.
    pose proof (adm_grant_again t d v i ver tool ag Hv Hact Hi Ha Hte Hg) as H.
    unfold grant_logged in H. by rewrite Hid in H.
  - rewrite !bool_decide_eq_false_2 by congruence. cbn [modify]. rewrite bind_run. unfold record_audit.
    rewrite bind_run. cbn. apply eq_None_not_Some in Hg.
    pose proof (adm_grant t d v i ver tool ag Hv Hact Hi Ha Hte Hg) as H.
    unfold grant_logged in H. by rewrite Hid in H.
Qed.

Lemma ungrant_so v i : answers_so (DeleteGrant v i) (ungrant v i).
Proof using Hok.
  unfold answers_so, ungrant, unreleased, get_version. rewrite bind_run, bind_run, bind_run.
  cbn [get mret M_ret]. destruct (agent_versions d !! v) as [ver|] eqn:Hv.
  2: { by eapply adm_grants_no_version; [right|]. }
  cbn [require]. rewrite bind_run. cbn [mret M_ret]. case_bool_decide as Hact.
  { by eapply adm_grants_released; [right|..]. }
  cbn [mret M_ret]. unfold get_tool. rewrite bind_run, bind_run. cbn [get mret M_ret].
  destruct (tools d !! i) as [tool|] eqn:Hi; [|by eapply adm_grants_no_tool; [right|..]].
  cbn [require]. rewrite bind_run. cbn [mret M_ret]. unfold revoke_grant. rewrite !bind_run. cbn [get].
  rewrite bind_run. cbn [modify mret M_ret]. pose proof (tk_ids _ (rg_tools _ Hok) _ _ Hi) as Hid.
  case_bool_decide as Hg.
  - rewrite bind_run. unfold record_audit. rewrite bind_run. cbn.
    pose proof (adm_ungrant t d v i ver tool Hv Hact Hi Hg) as H. unfold grant_logged in H. by rewrite Hid in H.
  - apply eq_None_not_Some in Hg. by eapply adm_ungrant_none; eauto.
Qed.

Lemma cancel_so i : (∀ r, tasks d !! i = Some r → task_ok r) → answers_so (CancelTask i) (cancel i).
Proof using.
  intros Htok. unfold answers_so, cancel. rewrite bind_run, cancel_task_run by done. unfold cancel_spec.
  destruct (tasks d !! i) as [r|] eqn:Hr; [|by apply adm_cancel_unknown].
  destruct (t_state r) eqn:Hs; [|destruct (t_cancel_requested r) eqn:Hc|..]; cbn.
  - by eapply adm_cancel.
  - by eapply adm_cancel_flagged.
  - by eapply adm_cancel_flag.
  - eapply adm_cancel_late; [done|]. rewrite Hs. by left.
  - eapply adm_cancel_late; [done|]. rewrite Hs. by right; left.
  - by eapply adm_cancel_again.
Qed.

#[local] Instance sweep_audit vs reason : Keeps audit_events (cancel_agent_tasks vs reason).
Proof using.
  unfold cancel_agent_tasks, cancel_found, update_tasks, record_event, insert_event. solve_keeps.
Qed.

Lemma disable_so a : inv d → answers_so (DisableAgent a) (disable a).
Proof using Hok.
  intros Hinv. unfold answers_so, disable. destruct (agents d !! a) as [ag|] eqn:Ha.
  2: { unfold disable_found, set_agent_status. rewrite bind_run, bind_run. cbn [ask]. rewrite bind_run.
       cbn [get]. rewrite Ha. by apply adm_disable_unknown. }
  rewrite (disable_run _ _ a ag) by done. fold (cancel_agent_tasks (version_ids d a)).
  destruct (cancel_agent_rows (version_ids d a) ("agent " +:+ repr (ag_name ag) +:+ " disabled") t
    (disabled_registry t a ag d)) as (n & d' & Hrun & Htasks & Hreg);
    [apply (inv_ids d Hinv)|apply (inv_ok d Hinv)|].
  change (cancel_found every_row every_row) with cancel_agent_tasks. rewrite Hrun.
  pose proof (keeps (f := audit_events) _ _ _ _ Hrun) as Haud.
  pose proof (keeps (f := tenants) _ _ _ _ Hrun) as Hten.
  unfold registry in Hreg. injection Hreg as Hag Hv Hro Hto Hgr. apply (adm_disable t d a ag d').
  - done.
  - by rewrite Hag.
  - intros i. rewrite Hv. by apply (disabled_registry_versions t a ag).
  - intros i. rewrite Htasks. simpl. rewrite lookup_fmap. destruct (tasks d !! i) as [r|]; [|done]. simpl.
    eexists. split; [done|]. rewrite <-of_version_ids by done.
    pose proof (disable_row_stops (version_ids d a) ("agent " +:+ repr (ag_name ag) +:+ " disabled") t r)
      as [H1 H2]. split; [done|]. intros Hn. by apply H1, not_true_is_false.
  - rewrite Hro, Hto, Hgr, Hten, Haud. done.
Qed.
End handlers.

(** From the handler to the answer a client sees. *)
Lemma respond_so {A} env rq t d (m : M (Z * A)) :
  handle env rq = status_of m → answers_so t d rq m →
  administers t d rq (respond env rq t d).1 (respond env rq t d).2.
Proof.
  unfold answers_so, respond, transaction. intros -> H. unfold status_of. rewrite bind_run.
  by destruct (m t d) as [|[[s a] d']].
Qed.


