(* ===== verification/Isolation.v ===== *)
(** * What a request does to the registry's invariants

    Statuses no request can undo, the frozen grants of a released version,
    the border between two tenants, a disabled agent: what one request, run in
    one go, and one background transaction preserve.  StaleChecks.v carries
    this over to requests whose checks are out of date, and to histories. *)

From S2P Require Import Prelude PyStr Json States Authz Capability Policy Admission Db Config.
From S2P Require Import Samples Transitions Completion Lease Workers Claim Reap Tasks Agents.
From S2P Require Import Paging Tools Tracing Frames Registry Effects Protocol Scenario Guarantees Governance Api.
From S2P Require Import ApiRun ApiSubmit ApiGuarantees.
#[local] Open Scope Z_scope.

(** ** Statuses a request cannot undo *)

(** The version exists with one of these statuses. *)
Definition status_in (S : list version_status) (v : uuid) (d : db) : Prop :=
  ∃ row, agent_versions d !! v = Some row ∧ v_status row ∈ S.

(** Sets of statuses no request leads out of: activation leads to ACTIVE,
    but not from DISABLED. *)
Definition closed_statuses (S : list version_status) : Prop :=
  VersionStatus.DISABLED ∈ S ∧
  (VersionStatus.ACTIVE ∈ S ∨ ∀ s, s ∈ S → s = VersionStatus.DISABLED).

Section statuses.
Context (S : list version_status) (v : uuid) (HS : closed_statuses S).
#[local] Abbreviation Stays m := (Preserves (status_in S v) m).

Lemma status_in_ext d d' :
  agent_versions d' = agent_versions d → status_in S v d → status_in S v d'.
Proof using. unfold status_in. by intros ->. Qed.

Lemma stays_keeps {A} (m : M A) : Keeps agent_versions m → Stays m.
Proof using. apply preserves_keeps, status_in_ext. Qed.

Lemma create_version_stays a spec caps cfg ma mx st : Stays (create_version a spec caps cfg ma mx st).
Proof using.
  intros t d r d' (row & Hrow & Hin) (-> & -> & _ & _ & Hnew)%create_version_inv.
  exists row. simpl. rewrite lookup_insert_ne by congruence. done.
Qed.

Lemma disable_version_stays i : Stays (set_version_status i VersionStatus.DISABLED).
Proof using HS.
  intros t d r d' (row & Hrow & Hin). rewrite set_version_status_alter. intros [= _ <-].
  unfold status_in. simpl. destruct (decide (v = i)) as [->|Hne].
  - rewrite lookup_alter_eq, Hrow. eexists. split; [done|]. apply HS.
  - rewrite lookup_alter_ne by done. eauto.
Qed.

Lemma activate_version_stays a i e req : Stays (activate_version a i e req).
Proof using HS.
  intros t d r d' (row & Hrow & Hin)
    [[_ ->]|(ver & ag & Hver & _ & Hs & _ & _ & _ & ->)]%activate_version_cases; [by exists row|].
  unfold status_in. simpl. destruct (decide (v = i)) as [->|Hne].
  - rewrite lookup_insert_eq. eexists. split; [done|]. simpl. simplify_eq.
    destruct HS as [_ [?|Hall]]; [done|]. by apply Hall in Hin.
  - rewrite lookup_insert_ne by done. eauto.
Qed.
End statuses.

Ltac keeps_table :=
  open_queries; solve_keeps.

Lemma handle_stays S v env rq : closed_statuses S → Preserves (status_in S v) (handle env rq).
Proof.
  intros HS. destruct rq; open_handler;
    preserves_walk ltac:(first
      [ apply create_version_stays | by apply disable_version_stays
      | by apply activate_version_stays | apply stays_keeps; keeps_table ]).
Qed.

(** The agent exists and is disabled. *)
Definition agent_off (a : uuid) (d : db) : Prop :=
  ∃ ag, agents d !! a = Some ag ∧ ag_status ag = AgentStatus.DISABLED.

Section agent_off.
Context (a : uuid).

Lemma agent_off_ext d d' : agents d' = agents d → agent_off a d → agent_off a d'.
Proof using. unfold agent_off. by intros ->. Qed.

Lemma off_keeps {A} (m : M A) : Keeps agents m → Preserves (agent_off a) m.
Proof using. apply preserves_keeps, agent_off_ext. Qed.

Lemma create_agent_off te name desc : Preserves (agent_off a) (create_agent te name desc).
Proof using.
  intros t d r d' (ag & Ha & Hs) H. unfold create_agent in H. rewrite bind_run in H.
  cbn [ask] in H. rewrite bind_run in H. cbn [get] in H. cbv zeta in H.
  case_bool_decide; [done|]. case_bool_decide as Hnew; [done|]. case_bool_decide; [done|].
  injection H as _ <-. exists ag. simpl. rewrite lookup_insert_ne; [done|].
  intros Heq. apply Hnew. rewrite Heq. eauto.
Qed.

Lemma disable_agent_off i : Preserves (agent_off a) (set_agent_status i AgentStatus.DISABLED).
Proof using.
  intros t d r d' (ag & Ha & Hs) H. unfold set_agent_status in H. rewrite bind_run in H.
  cbn [ask] in H. rewrite bind_run in H. cbn [get] in H.
  destruct (agents d !! i) as [b|] eqn:Hi; injection H as _ <-; [|by exists ag].
  unfold agent_off. simpl. destruct (decide (a = i)) as [->|Hne].
  - rewrite lookup_insert_eq. eauto.
  - rewrite lookup_insert_ne by done. eauto.
Qed.

Lemma activate_version_off b i e req : Preserves (agent_off a) (activate_version b i e req).
Proof using.
  intros t d r d' (ag & Ha & Hs)
    [[_ ->]|(ver & bg & _ & _ & _ & Hb & _ & _ & ->)]%activate_version_cases; [by exists ag|].
  unfold agent_off. simpl. destruct (decide (a = b)) as [->|Hne].
  - rewrite lookup_insert_eq. simplify_eq. eauto.
  - rewrite lookup_insert_ne by done. eauto.
Qed.
End agent_off.

Lemma handle_off a env rq : Preserves (agent_off a) (handle env rq).
Proof.
  destruct rq; open_handler;
    preserves_walk ltac:(first
      [ apply create_agent_off | apply disable_agent_off | apply activate_version_off
      | apply off_keeps; keeps_table ]).
Qed.

(** ** The tasks a request creates *)

#[local] Hint Extern 5 (Keeps tasks (record_audit _ _ _ _ _ _ _)) =>
  (unfold record_audit; solve_keeps) : typeclass_instances.
#[local] Hint Extern 5 (Keeps tasks (create_tenant _ _ _)) =>
  (unfold create_tenant; solve_keeps) : typeclass_instances.

(** Requests that touch no task at all. *)
Definition taskless (rq : request) : bool :=
  match rq with PostTask _ | CancelTask _ | DisableAgent _ => false | _ => true end.

Lemma handle_keeps_tasks env rq : taskless rq = true → Keeps tasks (handle env rq).
Proof. intros Hrq. destruct rq; try done; clear Hrq; open_handler; keeps_table. Qed.

(** Tasks that were there stay as they are, but for a QUEUED one that is
    cancelled and flags. *)
Definition only_stops (d d' : db) : Prop :=
  ∀ i (r' : task_row), tasks d' !! i = Some r' → ∃ r, tasks d !! i = Some r ∧
    t_spec r' = t_spec r ∧ t_attempt r' = t_attempt r ∧
    (t_state r' = t_state r ∨ t_state r = State.QUEUED ∧ t_state r' = State.CANCELLED).

Lemma only_stops_same d d' : tasks d' = tasks d → only_stops d d'.
Proof. intros H i r' Hr'. rewrite H in Hr'. exists r'. split_and!; [done..|by left]. Qed.

Lemma only_stops_rows d d' : only_stops d d' → no_new_rows d d'.
Proof. intros H i [r' (r & Hr & _)%H]. by rewrite Hr. Qed.

Lemma only_stops_insert d d' i (r r' : task_row) :
  tasks d !! i = Some r → tasks d' = <[i := r']> (tasks d) →
  t_spec r' = t_spec r → t_attempt r' = t_attempt r →
  t_state r' = t_state r ∨ t_state r = State.QUEUED ∧ t_state r' = State.CANCELLED →
  only_stops d d'.
Proof.
  intros Hr Ht Hsp Ha Hs j r2. rewrite Ht. intros [[<- <-]|[_ Hr2]]%lookup_insert_Some; [eauto|].
  exists r2. split_and!; [done..|by left].
Qed.

Lemma cancel_only_stops t d i : only_stops d (cancel_spec t d i).2.
Proof.
  unfold cancel_spec. destruct (tasks d !! i) as [r|] eqn:Hr; [|by apply only_stops_same].
  destruct (t_state r) eqn:Hs; [|destruct (t_cancel_requested r)|..]; simpl; try by apply only_stops_same.
  - eapply (only_stops_insert _ _ i r); [done|reflexivity|done|done|by right].
  - eapply (only_stops_insert _ _ i r); [done|reflexivity|done|done|by left].
Qed.

Lemma disabled_row_stops q rn vs reason t (r : task_row) :
  let r' := disable_row q rn vs reason t r in
  t_spec r' = t_spec r ∧ t_attempt r' = t_attempt r ∧
  (t_state r' = t_state r ∨ t_state r = State.QUEUED ∧ t_state r' = State.CANCELLED).
Proof.
  unfold disable_row. destruct (disable_queued q vs r) eqn:Hq.
  - apply andb_true_iff in Hq as [_ Hq%bool_decide_eq_true]. by auto.
  - destruct (disable_running rn vs r); by auto.
Qed.

(** Disabling an agent, whichever rows the sweep finds. *)
Lemma disable_found_stops q rn a t d r d' :
  ids_ok d → (∀ i r, tasks d !! i = Some r → task_ok r) →
  disable_found q rn a t d = inr (r, d') →
  only_stops d d' ∧
  ∃ ag, agents d !! a = Some ag ∧ registry d' = registry (disabled_registry t a ag d).
Proof.
  intros Hids Hok H. destruct (agents d !! a) as [ag|] eqn:Ha.
  - rewrite (disable_run _ _ a ag) in H by done.
    destruct (cancel_found_rows q rn (version_ids d a) ("agent " +:+ repr (ag_name ag) +:+ " disabled")
      t (disabled_registry t a ag d)) as (n & d2 & Hrun & Htasks & Hreg); [done..|].
    rewrite Hrun in H. injection H as _ <-. split; [|by exists ag]. intros i r'. rewrite Htasks. simpl.
    rewrite lookup_fmap. intros (r0 & Hr & ->)%fmap_Some. exists r0. split; [done|].
    apply disabled_row_stops.
  - unfold disable_found, set_agent_status in H. rewrite bind_run, bind_run in H. cbn [ask] in H.
    rewrite bind_run in H. cbn [get] in H. by rewrite Ha in H.
Qed.

Lemma handle_cases env rq t d s d' :
  registry_ok d → inv d → handle env rq t d = inr (s, d') →
  only_stops d d' ∨ ∃ b p, planned env d b p ∧ d' = created_db t (plan_row t env b p) d.
Proof.
  intros Hok Hinv H. pose proof (inv_ids d Hinv) as Hids. pose proof (inv_ok d Hinv) as Htok.
  destruct (taskless rq) eqn:Hrq; [left; apply only_stops_same; by eapply handle_keeps_tasks|].
  destruct rq as [b|i| | | | |a| | | | | | |]; try done; unfold handle, checked, status_of in H.
  - destruct (validate_task b) eqn:Hb; [|done]. apply bind_ok in H as ([s' r] & d1 & H & [= _ <-]).
    pose proof (submit_answers env b t d Hok Hb) as Ha. rewrite H in Ha.
    inversion Ha; subst; try (by left; apply only_stops_same). right. by exists b, p.
  - apply bind_ok in H as (r & d1 & H & [= _ <-]). unfold cancel in H.
    apply bind_ok in H as (res & d2 & H & H2). rewrite cancel_task_run in H by apply Htok.
    injection H as H. assert (d2 = (cancel_spec t d i).2) as Heq by (by rewrite H).
    destruct (cn_outcome res); try done; injection H2 as _ <-; left; rewrite Heq;
      apply cancel_only_stops.
  - apply bind_ok in H as (r & d1 & H & [= _ <-]). left.
    exact (proj1 (disable_found_stops _ _ _ _ _ _ _ Hids Htok H)).
Qed.

(** What a request or a background transaction does to the rows: it adds
    none, or the one a submission planned. *)
Lemma steps_no_new_spec d d' i (r' : task_row) :
  inv d → steps d d' → no_new_rows d d' → tasks d' !! i = Some r' →
  ∃ r, tasks d !! i = Some r ∧ t_spec r' = t_spec r.
Proof.
  intros Hinv Hs Hno Hr'. destruct (Hno i) as [r Hr]; [by rewrite Hr'|].
  destruct (steps_row d d' i r) as (r2 & Hr2 & Hsp & _); [done..|]. simplify_eq. eauto.
Qed.

(** ** Released grants are frozen *)

(** The grants of a version. *)
Definition version_grant (d : db) (v : uuid) (i : uuid) : option grant_row :=
  agent_version_tool_grants d !! (v, i).

Lemma unreleased_inv v t d row d' :
  unreleased v t d = inr (row, d') →
  d' = d ∧ agent_versions d !! v = Some row ∧ v_status row ≠ VersionStatus.ACTIVE.
Proof.
  unfold unreleased, get_version. rewrite bind_run, bind_run. cbn [get mret M_ret]. rewrite bind_run.
  destruct (agent_versions d !! v) as [x|]; [|done]. cbn [require mret M_ret].
  case_bool_decide; [done|]. by intros [= <- <-].
Qed.

Definition grants_kept (d0 : db) (v : uuid) (d : db) : Prop :=
  ∀ i, version_grant d v i = version_grant d0 v i.

Section grants_kept.
Context (d0 : db) (v : uuid).

Lemma grants_kept_alter w x f d :
  w ≠ v → grants_kept d0 v d →
  grants_kept d0 v (set_grants (partial_alter f (w, x) (agent_version_tool_grants d)) d).
Proof using.
  intros Hw Hd i. unfold version_grant. simpl. rewrite lookup_partial_alter_ne; [apply Hd|congruence].
Qed.

Lemma audit_kept te action rt out rid actor data :
  Preserves (grants_kept d0 v) (record_audit te action rt out rid actor data).
Proof using.
  apply (preserves_keeps registry); [|apply _]. unfold registry, grants_kept, version_grant.
  intros d d' [=] Hd. congruence.
Qed.

Lemma grant_tool_kept w x : w ≠ v → Preserves (grants_kept d0 v) (grant_tool w x).
Proof using.
  intros Hw t d a d' Hd H. unfold grant_tool in H.
  apply bind_ok in H as (t' & d1 & [= <- <-] & H). apply bind_ok in H as (d2 & d1 & [= <- <-] & H).
  case_bool_decide; [by injection H as _ <-|]. case_bool_decide; [done|].
  case_bool_decide; [done|]. injection H as _ <-. by apply grants_kept_alter.
Qed.

Lemma revoke_grant_kept w x : w ≠ v → Preserves (grants_kept d0 v) (revoke_grant w x).
Proof using.
  intros Hw t d a d' Hd H. unfold revoke_grant in H.
  apply bind_ok in H as (d2 & d1 & [= <- <-] & H).
  apply bind_ok in H as (u & d1 & [= _ <-] & [= _ <-]). by apply grants_kept_alter.
Qed.
End grants_kept.

(** The two grant endpoints change the grants of an unreleased version only. *)
Lemma handle_grants env rq t d s d' v row :
  handle env rq t d = inr (s, d') → agent_versions d !! v = Some row →
  v_status row = VersionStatus.ACTIVE → grants_kept d v d'.
Proof.
  intros H Hv Hact.
  destruct (may_grant rq) eqn:Hrq.
  2: { intros i. unfold version_grant. by rewrite (handle_keeps_grants env rq Hrq _ _ _ _ H). }
  destruct rq as [| | | | | | | | | | |w x|w x|]; try done; unfold handle, status_of in H;
    apply bind_ok in H as (r & d1 & H & [= _ <-]); unfold grant, ungrant in H;
    apply bind_ok in H as (ver & d2 & (-> & Hw & Hnot)%unreleased_inv & H);
    assert (w ≠ v) as Hwv by congruence;
    match type of H with ?m _ _ = _ => assert (Preserves (grants_kept d v) m) as Hm end;
    try (by eapply Hm; [|exact H]);
    preserves_walk ltac:(first
      [ apply audit_kept | by apply grant_tool_kept | by apply revoke_grant_kept ]).
Qed.

Lemma closed_released : closed_statuses [VersionStatus.ACTIVE; VersionStatus.DISABLED].
Proof. split; [right; by left|]. left. by left. Qed.
Lemma closed_disabled : closed_statuses [VersionStatus.DISABLED].
Proof. split; [by left|]. right. by intros s ->%list_elem_of_singleton. Qed.

(** ** Tenants *)

(** Nothing of one tenant refers to anything of another. *)
Record isolated (d : db) : Prop := {
  iso_routes : ∀ te rt route, agent_routes d !! (te, rt) = Some route →
    ∃ a, agents d !! ro_agent_id route = Some a ∧ ag_tenant_id a = te;
  iso_grants : ∀ v i g, agent_version_tool_grants d !! (v, i) = Some g →
    ∃ ver tool, version_tenant d v = Some (ver, tl_tenant_id tool) ∧ tools d !! i = Some tool;
  iso_pins : ∀ i (r : task_row) v, tasks d !! i = Some r → t_agent_version_id r = Some v →
    ∃ ver, version_tenant d v = Some (ver, t_tenant_id r);
}.

Lemma version_tenant_spec d v ver te :
  version_tenant d v = Some (ver, te) ↔
  agent_versions d !! v = Some ver ∧ ∃ a, agents d !! v_agent_id ver = Some a ∧ ag_tenant_id a = te.
Proof.
  unfold version_tenant. split.
  - intros (x & Hx & (a & Ha & [= <- <-])%bind_Some)%bind_Some. eauto.
  - intros (-> & a & Ha & <-). simpl. by rewrite Ha.
Qed.

Lemma version_tenant_evolves d d' v ver te :
  evolves d d' → version_tenant d v = Some (ver, te) →
  ∃ s, version_tenant d' v = Some (version_with s ver, te).
Proof.
  intros [HA HV _]. rewrite version_tenant_spec. intros (Hv & a & Ha & <-).
  destruct (HV _ _ Hv) as [s Hs], (HA _ _ Ha) as (s' & dv & at_ & Ha').
  exists s. apply version_tenant_spec. split; [done|]. eexists. by split.
Qed.

(** What the evolution of the tables alone preserves. *)
Lemma routes_evolve d d' :
  evolves d d' → agent_routes d' = agent_routes d → isolated d →
  ∀ te rt route, agent_routes d' !! (te, rt) = Some route →
    ∃ a, agents d' !! ro_agent_id route = Some a ∧ ag_tenant_id a = te.
Proof.
  intros Hev -> Hiso te rt route (a & Ha & <-)%(iso_routes _ Hiso).
  destruct (ev_agents _ _ Hev _ _ Ha) as (s & dv & at_ & Ha').
  eexists. by split.
Qed.

Lemma grant_evolves d d' v i :
  evolves d d' →
  (∃ ver tool, version_tenant d v = Some (ver, tl_tenant_id tool) ∧ tools d !! i = Some tool) →
  ∃ ver tool, version_tenant d' v = Some (ver, tl_tenant_id tool) ∧ tools d' !! i = Some tool.
Proof.
  intros Hev (ver & tool & Hv & Hi). destruct (version_tenant_evolves _ _ _ _ _ Hev Hv) as [s Hs].
  destruct (ev_tools _ _ Hev _ _ Hi) as [s' Hi'].
  exists (version_with s ver), (tool_with s' tool). by split.
Qed.

Lemma pins_evolve d d' :
  evolves d d' → isolated d → inv d → steps d d' → no_new_rows d d' →
  ∀ i (r : task_row) v, tasks d' !! i = Some r → t_agent_version_id r = Some v →
    ∃ ver, version_tenant d' v = Some (ver, t_tenant_id r).
Proof.
  intros Hev Hiso Hinv Hs Hno i r' v Hr' Hpin.
  destruct (steps_no_new_spec d d' i r') as (r & Hr & Hsp); [done..|]. rewrite Hsp in Hpin |- *.
  destruct (iso_pins _ Hiso _ _ _ Hr Hpin) as [ver Hver].
  destruct (version_tenant_evolves _ _ _ _ _ Hev Hver) as [s Hv']. eauto.
Qed.

(** A planned version belongs to the submitting tenant. *)
Lemma planned_tenant env d b p v :
  registry_ok d → isolated d → planned env d b p → pl_version p = Some v →
  ∃ ver, version_tenant d v = Some (ver, tc_tenant_id b).
Proof.
  intros Hok Hiso Hp. unfold planned in Hp. destruct (tc_request_type b) as [rt|]; [|by subst].
  destruct Hp as (res & (route & a & ver & Hro & Ha & _ & _ & Hver & _ & Hag & ->) & -> & _).
  intros [= <-]. exists ver. apply version_tenant_spec. split; [done|].
  destruct (iso_routes _ Hiso _ _ _ Hro) as (a' & Ha' & <-). simplify_eq.
  exists a. by rewrite Hag, (rg_agents _ Hok _ _ Ha).
Qed.

(** *** The requests that write routes and grants *)

Lemma put_route_inv te rt a t d r d' :
  put_route te rt a t d = inr (r, d') →
  ∃ ag row, agents d !! a = Some ag ∧ ag_tenant_id ag = te ∧ ro_agent_id row = a ∧
    d' = set_routes (<[(te, rt) := row]> (agent_routes d)) d.
Proof.
  unfold put_route, get_agent. intros (o & d1 & (d2 & d3 & [= <- <-] & [= <- <-])%bind_ok & H)%bind_ok.
  apply bind_ok in H as (ag & d2 & Hreq & H).
  destruct (agents d !! a) as [ag'|]; [|done]. injection Hreq as <- <-.
  case_bool_decide as Hte; [done|]. apply bind_ok in H as (u & d2 & H & [= _ <-]).
  unfold set_route in H. apply bind_ok in H as (t' & d3 & [= <- <-] & H).
  apply bind_ok in H as (d4 & d3 & [= <- <-] & H).
  case_bool_decide; [done|]. case_bool_decide; [done|]. injection H as _ <-.
  exists ag'. eexists. split; [done|]. split; [done|]. split; [|reflexivity]. done.
Qed.

Lemma grant_handler_inv v i t d r d' :
  registry_ok d → grant v i t d = inr (r, d') →
  ∃ ver tool, version_tenant d v = Some (ver, tl_tenant_id tool) ∧ tools d !! i = Some tool ∧
    ∀ k g, agent_version_tool_grants d' !! k = Some g → k ≠ (v, i) →
      agent_version_tool_grants d !! k = Some g.
Proof.
  intros Hok. unfold grant. intros (ver & d1 & (-> & Hv & _)%unreleased_inv & H)%bind_ok.
  apply bind_ok in H as (o & d1 & [= <- <-] & H). apply bind_ok in H as (tool & d1 & Hreq & H).
  destruct (tools d !! i) as [tool'|] eqn:Hi; [|done]. injection Hreq as <- <-.
  apply bind_ok in H as (arow & d1 & [= <- <-] & H).
  destruct (agents d !! v_agent_id ver) as [ag|] eqn:Ha; [|done]. case_bool_decide as Hte; [done|].
  exists ver, tool'. split; [|split; [done|]].
  { apply version_tenant_spec. eauto. }
  intros [w x] g Hg Hne. apply bind_ok in H as (u & d2 & Hgr & H).
  apply bind_ok in H as (u2 & d3 & Haud & [= _ <-]).
  rewrite (keeps (f := agent_version_tool_grants) _ _ _ _ Haud) in Hg.
  unfold grant_tool in Hgr. apply bind_ok in Hgr as (t' & d4 & [= <- <-] & Hgr).
  apply bind_ok in Hgr as (d5 & d4 & [= <- <-] & Hgr). case_bool_decide; [by injection Hgr as _ <-|].
  case_bool_decide; [done|]. case_bool_decide; [done|]. injection Hgr as _ <-. simpl in Hg.
  by rewrite lookup_insert_ne in Hg.
Qed.

Lemma ungrant_inv v i t d r d' :
  ungrant v i t d = inr (r, d') →
  ∀ k g, agent_version_tool_grants d' !! k = Some g → agent_version_tool_grants d !! k = Some g.
Proof.
  unfold ungrant. intros (ver & d1 & (-> & _)%unreleased_inv & H)%bind_ok k g Hg.
  apply bind_ok in H as (o & d1 & [= <- <-] & H). apply bind_ok in H as (tool & d1 & Hreq & H).
  assert (d1 = d) as -> by exact (require_reads _ _ _ _ _ _ Hreq).
  apply bind_ok in H as (removed & d2 & Hrev & H). destruct removed; [|done].
  apply bind_ok in H as (u2 & d3 & Haud & [= _ <-]).
  rewrite (keeps (f := agent_version_tool_grants) _ _ _ _ Haud) in Hg.
  unfold revoke_grant in Hrev. apply bind_ok in Hrev as (d5 & d6 & [= <- <-] & Hrev).
  apply bind_ok in Hrev as (u & d6 & [= _ <-] & [= _ <-]). simpl in Hg.
  by apply lookup_delete_Some in Hg as [_ Hg].
Qed.

Lemma handle_routes env rq t d s d' te rt route :
  isolated d → evolves d d' → handle env rq t d = inr (s, d') →
  agent_routes d' !! (te, rt) = Some route →
  ∃ a, agents d' !! ro_agent_id route = Some a ∧ ag_tenant_id a = te.
Proof.
  intros Hiso Hev H Hro. destruct (may_route rq) eqn:Hrq.
  - destruct rq as [| | | | | | |te' rt' a'| | | | | |]; try done. unfold handle, checked, status_of in H.
    destruct (text_length _ _ _); [|done]. apply bind_ok in H as (r & d1 & H & [= _ <-]).
    apply put_route_inv in H as (ag & row & Ha & Hte & Hrow & ->). simpl in *.
    apply lookup_insert_Some in Hro as [[[= -> ->] ->]|[_ Hro]].
    + exists ag. by rewrite Hrow.
    + by apply (iso_routes _ Hiso _ rt).
  - eapply routes_evolve; [done| |done|done]. by eapply handle_keeps_routes.
Qed.

Lemma handle_grants_iso env rq t d s d' v i g :
  registry_ok d → isolated d → evolves d d' → handle env rq t d = inr (s, d') →
  agent_version_tool_grants d' !! (v, i) = Some g →
  ∃ ver tool, version_tenant d' v = Some (ver, tl_tenant_id tool) ∧ tools d' !! i = Some tool.
Proof.
  intros Hok Hiso Hev H Hg. eapply grant_evolves; [done|]. destruct (may_grant rq) eqn:Hrq.
  - destruct rq as [| | | | | | | | | | |w x|w x|]; try done; unfold handle, status_of in H;
      apply bind_ok in H as (r & d1 & H & [= _ <-]).
    + apply grant_handler_inv in H as (ver & tool & Hver & Htool & Hkeep); [|done].
      destruct (decide ((v, i) = (w, x))) as [[= -> ->]|Hne]; [eauto|].
      by eapply iso_grants, Hkeep.
    + by eapply iso_grants, ungrant_inv.
  - rewrite (handle_keeps_grants env rq Hrq _ _ _ _ H) in Hg. by eapply iso_grants.
Qed.

(** *** Every run keeps tenants apart *)

Lemma created_pin env b p t d i (r : task_row) v :
  registry_ok d → isolated d → planned env d b p →
  tasks (created_db t (plan_row t env b p) d) !! i = Some r → t_agent_version_id r = Some v →
  ∃ ver, version_tenant (created_db t (plan_row t env b p) d) v = Some (ver, t_tenant_id r).
Proof.
  intros Hok Hiso Hp. change (version_tenant (created_db _ _ d) v) with (version_tenant d v). simpl. intros [[<- <-]|[_ Hr]]%lookup_insert_Some Hpin.
  - by eapply planned_tenant.
  - by eapply iso_pins.
Qed.

Lemma handle_isolated env rq t d s d' :
  reachable d → isolated d → handle env rq t d = inr (s, d') → isolated d'.
Proof.
  intros Hd Hiso H. pose proof (reachable_registry_ok d Hd) as Hok.
  pose proof (inv_reachable d Hd) as Hinv. pose proof (handle_steps _ _ _ _ _ _ H) as Hs.
  pose proof (steps_evolves _ _ Hs) as Hev. split.
  - intros te rt route. by eapply handle_routes.
  - intros v i g. by eapply handle_grants_iso.
  - destruct (handle_cases env rq t d s d' Hok Hinv H) as [Hno%only_stops_rows|(b & p & Hp & ->)].
    + by eapply pins_evolve.
    + intros i r v. by apply created_pin.
Qed.

Lemma work_isolated t d d' :
  reachable d → isolated d → step t d d' → registry d' = registry d → no_new_rows d d' → isolated d'.
Proof.
  intros Hd Hiso Hs Hreg Hno. pose proof (inv_reachable d Hd) as Hinv.
  assert (steps d d') as Hss by (eapply steps_snoc; [apply steps_refl|done]).
  pose proof (steps_evolves _ _ Hss) as Hev. pose proof (pins_evolve d d') as Hpins.
  unfold registry in Hreg. injection Hreg as _ _ Hro _ Hg. split.
  - intros te rt route. by eapply routes_evolve.
  - intros v i g. rewrite Hg. intros H. eapply grant_evolves; [done|]. by eapply iso_grants.
  - by apply Hpins.
Qed.

Lemma isolated_empty : isolated empty_db.
Proof. by repeat (split || intros ?). Qed.

(** Within a tenant, only its tools: whatever policy a worker snapshots for a
    task allows only tools of that task's tenant. *)
Lemma isolated_policies ms :
  registry_ok (sees_versions ms) → registry_ok (sees_tools ms) → isolated (sees_versions ms) →
  ∀ i (r : task_row) v ids,
    tasks (sees_versions ms) !! i = Some r → t_agent_version_id r = Some v → Some v ∈ ids →
    ∃ pol, snapshot_policies ms ids !! v = Some pol ∧
      ∀ name, allowed (authorize pol name) = true →
        ∃ j tool, tools (sees_tools ms) !! j = Some tool ∧ tl_name tool = name ∧
          tl_tenant_id tool = t_tenant_id r.
Proof.
  intros Hok Hok2 Hiso i r v ids Hr Hpin Hin.
  destruct (iso_pins _ Hiso _ _ _ Hr Hpin) as [ver Hver].
  exists (policy_of ms ver (t_tenant_id r)). split.
  { apply snapshot_lookup; [|done..]. intros j w Hw. exact (proj1 (rg_versions _ Hok j w Hw)). }
  intros name. rewrite authorize_allowed. simpl.
  intros (_ & _ & ref & Href & _). apply tools_by_tenant_lookup in Href; [|apply Hok2].
  destruct Href as (j & tool & Hj & Hte & Hn & _). eauto.
Qed.

(** ** A disabled agent *)

Lemma pinned_evolves d d' a (r r' : task_row) i :
  isolated d → evolves d d' → tasks d !! i = Some r → t_spec r' = t_spec r →
  pinned_to d' a r' → pinned_to d a r.
Proof.
  intros Hiso Hev Hr Hsp (v & ver' & Hpin & Hv' & Ha). rewrite Hsp in Hpin.
  destruct (iso_pins _ Hiso _ _ _ Hr Hpin) as [ver [Hver _]%version_tenant_spec].
  destruct (ev_versions _ _ Hev _ _ Hver) as [s Hs]. rewrite Hv' in Hs. injection Hs as ->.
  by exists v, ver.
Qed.

(** Nothing planned is pinned to it. *)
Lemma planned_not_off env d b p v ver a :
  registry_ok d → planned env d b p → pl_version p = Some v → agent_versions d !! v = Some ver →
  v_agent_id ver = a → ¬ agent_off a d.
Proof.
  intros Hok Hp Hv Hver <-. unfold planned in Hp. destruct (tc_request_type b) as [rt|]; [|by subst].
  destruct Hp as (res & (route & ag & ver' & _ & Ha & Hact & _ & Hver' & _ & Hag & ->) & Hpl & _).
  rewrite Hpl in Hv. simpl in Hv. injection Hv as <-. simplify_eq. rewrite Hag, (rg_agents _ Hok _ _ Ha).
  intros (ag' & Ha' & Hoff). simplify_eq. congruence.
Qed.

(** Every task of this agent is one of [d0]'s. *)
Definition no_new_work (d0 : db) (a : uuid) (d : db) : Prop :=
  ∀ i (r' : task_row), tasks d !! i = Some r' → pinned_to d a r' →
    ∃ r, tasks d0 !! i = Some r ∧ t_spec r' = t_spec r.

Lemma no_new_work_steps d0 a d d' :
  inv d → isolated d → steps d d' → no_new_rows d d' → no_new_work d0 a d → no_new_work d0 a d'.
Proof.
  intros Hinv Hiso Hs Hno H i r' Hr' Hpin.
  destruct (steps_no_new_spec d d' i r') as (r & Hr & Hsp); [done..|].
  destruct (H i r Hr) as (r0 & Hr0 & Hsp0); [|exists r0; split; [done|congruence]].
  eapply pinned_evolves; [done| |done|done|done]. by apply steps_evolves.
Qed.

Lemma handle_no_new_work d0 a env rq t d s d' :
  reachable d → isolated d → agent_off a d → handle env rq t d = inr (s, d') →
  no_new_work d0 a d → no_new_work d0 a d'.
Proof.
  intros Hd Hiso Hoff H Hw. pose proof (reachable_registry_ok d Hd) as Hok.
  pose proof (inv_reachable d Hd) as Hinv.
  destruct (handle_cases env rq t d s d' Hok Hinv H) as [Hno%only_stops_rows|(b & p & Hp & ->)].
  - eapply no_new_work_steps; [done|done| |done|done]. by eapply handle_steps.
  - intros i r'. simpl. intros [[<- <-]|[_ Hr]]%lookup_insert_Some; [|by apply Hw].
    intros (v & ver & Hpin & Hv & Ha). exfalso. by eapply planned_not_off.
Qed.

(** ** A concrete run of the service

    From empty tables: a tenant, an agent, a version with a granted tool,
    released and routed; a routed task; then the agent is disabled. *)

Definition served_by (d : db) (l : list (request * txn)) : db :=
  foldl (λ d '(rq, t), (respond ex_env rq t d).2) d l.

Definition sv_release : list (request * txn) :=
  [(PostTenant "acme" 2 10, txn_new 1 1); (PostAgent 1 "researcher" None, txn_new 2 20);
   (PostVersion 20 ∅ [] ∅ 2 60, txn_new 3 21);
   (PostTool 1 "search" ToolType.SIMULATED ∅ None, txn_new 4 30); (PostGrant 21 30, txn_at 5);
   (Activate 20 21 None true, txn_at 6); (PutRoute 1 "research" 20, txn_at 7)].
Definition sv_released : db := served_by empty_db sv_release.
Definition sv_queued : db := served_by sv_released [(PostTask ex_routed, txn_new 8 40)].
Definition sv_disabled : db := served_by sv_queued [(DisableAgent 20, txn_at 9)].
(** A later submission is refused, a grant to the disabled version is not. *)
Definition sv_later : db :=
  served_by sv_disabled [(PostTask ex_routed, txn_new 10 41); (DeleteGrant 21 30, txn_at 11)].

Lemma status_of_row d v row s :
  agent_versions d !! v = Some row → v_status <$> agent_versions d !! v = Some s → v_status row = s.
Proof. intros ->. by intros [= <-]. Qed.
