(* ===== verification/StaleChecks.v ===== *)
(** * Requests whose checks are out of date (api/routes under READ COMMITTED)

    A request reads before it writes, and takes no lock on what it has read.
    In Api.v a handler runs in one go; here the handlers that write routes,
    grants, releases and pinned tasks read each row from tables as they were
    at some earlier moment, [reading], and write to the tables of now; and the
    two UPDATEs of a disabled agent's sweep may miss what has just changed.
    [late_run] collects the moments of a run, newest first: every request is
    such a late one, or runs in one go, between transactions of workers and
    reapers.  [late_checks_keep_tenants_apart] is tenant isolation under these
    runs: what its checks compare never changes.  Other checks compare what
    does change; the lemmas at the end show a grant that reaches a version
    just released, a task pinned to an agent just disabled, a disabled version
    released again, and a task the sweep misses. *)

From S2P Require Import Prelude PyStr Json States Authz Capability Policy Admission Db Config.
From S2P Require Import Samples Transitions Completion Lease Workers Claim Reap Tasks Agents.
From S2P Require Import Paging Tools Tracing Frames Registry Effects Protocol Scenario Guarantees Governance Api.
From S2P Require Import ApiRun ApiSubmit ApiGuarantees Isolation.
#[local] Open Scope Z_scope.

(** ** Handlers with late checks *)

(** A read of earlier tables. *)
Definition reading {A} (d1 : db) (m : M A) : M A := λ t d,
  match m t d1 with inl e => inl e | inr (a, _) => inr (a, d) end.

Definition late_put_route (d1 : db) (te : uuid) (request_type : text) (agent_id : uuid)
    : M (Z * unit) :=
  row ← reading d1 (get_agent agent_id);
  a ← require "unknown agent" row;
  if bool_decide (ag_tenant_id a ≠ te) then raise (Conflict "agent belongs to a different tenant")
  else set_route te request_type agent_id ;; mret (200, tt).

Definition late_grant (d1 d2 d3 : db) (version_id tool_id : uuid) : M (Z * unit) :=
  v ← reading d1 (unreleased version_id);
  row ← reading d2 (get_tool tool_id);
  tool ← require "unknown tool" row;
  arow ← reading d3 (get_agent (v_agent_id v));
  match arow with
  | None => raise (AssertionError "agent")
  | Some a =>
      if bool_decide (ag_tenant_id a ≠ tl_tenant_id tool)
      then raise (Conflict "tool belongs to a different tenant")
      else
        grant_tool version_id tool_id ;;
        record_audit (tl_tenant_id tool) "TOOL_GRANTED" "agent_version" "OK" (Some version_id) "system"
          (<["tool" := JStr (tl_name tool)]> {[ "tool_id" := JStr (uuid_str tool_id) ]}) ;;
        mret (201, tt)
  end.

Definition late_ungrant (d1 d2 : db) (version_id tool_id : uuid) : M (Z * unit) :=
  reading d1 (unreleased version_id) ;;
  row ← reading d2 (get_tool tool_id);
  tool ← require "unknown tool" row;
  removed ← revoke_grant version_id tool_id;
  if removed : bool then
    record_audit (tl_tenant_id tool) "TOOL_GRANT_REVOKED" "agent_version" "OK" (Some version_id)
      "system" (<["tool" := JStr (tl_name tool)]> {[ "tool_id" := JStr (uuid_str tool_id) ]}) ;;
    mret (204, tt)
  else raise (NotFound "grant does not exist").

(** The tenant and its backlog are read first, then the route; the INSERT
    comes last. *)
Definition late_submit (d1 d2 d3 : db) (env : api_env) (b : TaskCreate) : M (Z * task_row) :=
  tenant ← reading d1 (get_tenant (tc_tenant_id b));
  te ← require "unknown tenant" tenant;
  queued ← reading d2 (queued_count_for_tenant (tc_tenant_id b));
  admit_submission env te queued ;;
  p ← reading d3 (plan_of env b);
  res ← translate (submit_task (tc_tenant_id b) (pl_task_type p)
            (traced (tc_payload b) (carrier env)) (tc_idempotency_key b) (tc_priority b)
            (pl_max_attempts p) (pl_max_execution_time_s p) (tc_available_at b) (pl_version p)
            (pl_capabilities p)) submit_errors;
  mret (if created res then 201 else 200, submitted res).

(** The status of the version is read first; [activate_version] locks nothing
    before it UPDATEs the agent. *)
Definition late_activate (d1 : db) (agent_id version_id : uuid) (expected : option uuid)
    (require_expected : bool) : M (Z * option agent_row) :=
  version ← reading d1 (get_version version_id);
  res ← activate_read agent_id version_id expected require_expected version;
  if act_applied res then mret (200, act_agent res)
  else if bool_decide (act_reason res = Some "version_not_found_for_agent")
  then raise (NotFound "no such version for this agent")
  else raise (Conflict "activation rejected").

(** The rows an UPDATE of the tasks in state [s] finds when it began at [d1]:
    those it saw there and that did not change; others perhaps. *)
Definition finds (s : state) (d1 d : db) (q : task_row → bool) : Prop :=
  ∀ i (r : task_row), tasks d1 !! i = Some r → tasks d !! i = Some r → t_state r = s → q r = true.

(** With nothing in between they are the handlers. *)
Lemma reading_now {A} (m : M A) t d : Keeps id m → reading d m t d = m t d.
Proof.
  intros Hk. unfold reading. destruct (m t d) as [|[a d']] eqn:E; [done|].
  pose proof (keeps (f := id) _ _ _ _ E) as Heq. simpl in Heq. by rewrite Heq.
Qed.

Lemma late_put_route_now te rt a t d : late_put_route d te rt a t d = put_route te rt a t d.
Proof. unfold late_put_route, put_route. by rewrite !bind_run, reading_now by apply _. Qed.

Lemma bind_cong {A B} (m m' : M A) (k k' : A → M B) t d :
  m t d = m' t d → Keeps id m' → (∀ a, k a t d = k' a t d) → (m ≫= k) t d = (m' ≫= k') t d.
Proof.
  intros Hm Hk H. rewrite !bind_run, Hm. destruct (m' t d) as [|[a d']] eqn:E; [done|].
  pose proof (keeps (f := id) _ _ _ _ E) as Heq. simpl in Heq. by rewrite Heq.
Qed.

(** Both programs read the same and go on alike. *)
Ltac in_step :=
  repeat (apply bind_cong; [first [reflexivity|by apply reading_now, _]|by apply _|intros ?]); try reflexivity.

Lemma late_grant_now v i t d : late_grant d d d v i t d = grant v i t d.
Proof. unfold late_grant, grant. in_step. Qed.
Lemma late_ungrant_now v i t d : late_ungrant d d v i t d = ungrant v i t d.
Proof. unfold late_ungrant, ungrant. in_step. Qed.
Lemma late_activate_now a v e req t d : late_activate d a v e req t d = activate a v e req t d.
Proof. unfold late_activate, activate. by rewrite !bind_run, reading_now by apply _. Qed.
Lemma finds_every s d1 d : finds s d1 d every_row.
Proof. done. Qed.

Lemma late_submit_now env b t d : late_submit d d d env b t d = submit env b t d.
Proof. unfold late_submit, submit. in_step. Qed.

(** ** Runs *)

(** Reads at moments of a history, newest first, each at or after the one
    before it. *)
Fixpoint reads (h ds : list db) : Prop :=
  match ds with
  | [] => True
  | x :: ds => ∃ n, h !! n = Some x ∧ reads (take (S n) h) ds
  end.

(** What an API request that commits now may write, in a run with this
    history: in one go, or with its checks read along the history. *)
Inductive late_write (h : list db) (d : db) : db → Prop :=
  | write_now env rq t : late_write h d (respond env rq t d).2
  | write_route t da te rt a r d' :
      reads h [da] → late_put_route da te rt a t d = inr (r, d') → late_write h d d'
  | write_grant t da db dc v i r d' :
      reads h [da; db; dc] → late_grant da db dc v i t d = inr (r, d') → late_write h d d'
  | write_ungrant t da db v i r d' :
      reads h [da; db] → late_ungrant da db v i t d = inr (r, d') → late_write h d d'
  | write_release t da a v e req r d' :
      reads h [da] → late_activate da a v e req t d = inr (r, d') → late_write h d d'
  | write_disable t da db q rn a r d' :
      reads h [da; db] → finds State.QUEUED da d q → finds State.RUNNING db d rn →
      disable_found q rn a t d = inr (r, d') → late_write h d d'
  | write_task t da db dc env b r d' :
      reads h [da; db; dc] → validate_task b = true →
      late_submit da db dc env b t d = inr (r, d') → late_write h d d'.

(** A request, or a transaction of a worker or reaper. *)
Inductive late_move (h : list db) (d : db) : db → Prop :=
  | move_write d' : late_write h d d' → late_move h d d'
  | move_work t d' :
      step t d d' → registry d' = registry d → no_new_rows d d' → late_move h d d'.

(** The histories of the runs from [d0]. *)
Inductive late_run (d0 : db) : list db → Prop :=
  | late_start : late_run d0 [d0]
  | late_next d h d' :
      late_run d0 (d :: h) → late_move (d :: h) d d' → late_run d0 (d' :: d :: h).

(** *** Histories *)

(** Older moments lead to newer ones. *)
Abbreviation ordered := (StronglySorted (λ x y : db, steps y x)).

Lemma reads_in h ds x : reads h ds → x ∈ ds → x ∈ h.
Proof.
  revert h. induction ds as [|y ds IH]; intros h; [by intros _ []%elem_of_nil|].
  intros (n & Hn & Hr) [->|Hx]%elem_of_cons; [by eapply list_elem_of_lookup_2|].
  specialize (IH _ Hr Hx). apply list_elem_of_lookup in IH as [m Hm].
  apply lookup_take_Some in Hm as [Hm _]. by eapply list_elem_of_lookup_2.
Qed.

Lemma ordered_lookup h i j x y :
  ordered h → h !! i = Some x → h !! j = Some y → (i ≤ j)%nat → steps y x.
Proof.
  intros Hh. revert i j. induction Hh as [|z h _ IH Hz]; intros i j Hi Hj Hle; [done|].
  destruct i as [|i], j as [|j]; simpl in *; simplify_eq; [apply steps_refl| |lia|].
  - rewrite Forall_forall in Hz. apply Hz. by eapply list_elem_of_lookup_2.
  - eapply IH; [done|done|lia].
Qed.

Lemma ordered_take n h : ordered h → ordered (take n h).
Proof.
  intros Hh. revert n. induction Hh as [|z h _ IH Hz]; intros [|n]; simpl; try constructor; [done|].
  by apply Forall_take.
Qed.

Lemma reads_ordered h ds : ordered h → reads h ds → StronglySorted steps ds.
Proof.
  revert h. induction ds as [|x ds IH]; intros h Hh; [constructor|]. intros (n & Hn & Hr).
  constructor; [by eapply IH, Hr; apply ordered_take|]. apply Forall_forall. intros y Hy.
  pose proof (reads_in _ _ _ Hr Hy) as Hin. apply list_elem_of_lookup in Hin as [m Hm].
  apply lookup_take_Some in Hm as [Hm Hlt]. eapply ordered_lookup; [exact Hh|done|done|lia].
Qed.

Lemma reading_ok {A} d1 (m : M A) t d a d' :
  reading d1 m t d = inr (a, d') → d' = d ∧ ∃ d2, m t d1 = inr (a, d2).
Proof. unfold reading. destruct (m t d1) as [|[x d2]]; [done|]. intros [= <- <-]. eauto. Qed.

#[export] Instance reading_reads {A} d1 (m : M A) : Keeps id (reading d1 m).
Proof. intros t d a d' [-> _]%reading_ok. done. Qed.

(** *** They are runs of the protocol *)

Section late_steps.
Context (d0 : db).
#[local] Abbreviation Steps m := (Preserves (steps d0) m).

Lemma admin_steps {A} (m : M A) op : (m ;; mret tt) = run_admin op → Steps m.
Proof using.
  intros Heq t d a d' Hd H. eapply steps_snoc; [exact Hd|]. apply (step_admin t d op tt).
  rewrite <-Heq. by rewrite bind_run, H.
Qed.

Lemma write_steps :
  (∀ te rt a, Steps (set_route te rt a)) ∧ (∀ v i, Steps (grant_tool v i)) ∧
  (∀ v i, Steps (revoke_grant v i)) ∧
  (∀ te action rt out rid actor data, Steps (record_audit te action rt out rid actor data)) ∧
  (∀ te ty p key prio ma mx av ver caps, Steps (submit_task te ty p key prio ma mx av ver caps)).
Proof using.
  split_and!.
  - intros te rt a t d x d' Hd H. eapply steps_snoc; [exact Hd|]. by apply (step_admin t d (SetRoute te rt a) x).
  - intros v i t d x d' Hd H. eapply steps_snoc; [exact Hd|]. by apply (step_admin t d (GrantTool v i) x).
  - intros v i. by apply (admin_steps _ (RevokeGrant v i)).
  - intros. intros t d x d' Hd H. eapply steps_snoc; [exact Hd|by eapply step_audit].
  - intros. intros t d x d' Hd H. eapply steps_snoc; [exact Hd|by eapply step_submit].
Qed.

Ltac late_walk :=
  destruct write_steps as (? & ? & ? & ? & ?); preserves_walk ltac:(first [by auto|apply preserves_reader, _]).

Lemma late_put_route_steps d1 te rt a : Steps (late_put_route d1 te rt a).
Proof using. unfold late_put_route. late_walk. Qed.
Lemma late_grant_steps d1 d2 d3 v i : Steps (late_grant d1 d2 d3 v i).
Proof using. unfold late_grant. late_walk. Qed.
Lemma late_ungrant_steps d1 d2 v i : Steps (late_ungrant d1 d2 v i).
Proof using. unfold late_ungrant. late_walk. Qed.
Lemma late_submit_steps d1 d2 d3 env b : Steps (late_submit d1 d2 d3 env b).
Proof using. unfold late_submit. late_walk. Qed.

#[local] Instance agent_status_steps a s : Steps (set_agent_status a s).
Proof using. by apply (admin_steps _ (SetAgentStatus a s)). Qed.
#[local] Instance version_status_steps v s : Steps (set_version_status v s).
Proof using. by apply (admin_steps _ (SetVersionStatus v s)). Qed.
Lemma disable_found_steps q rn a : Steps (disable_found q rn a).
Proof using. unfold disable_found. preserves_walk ltac:(apply _). Qed.
End late_steps.

Lemma late_activate_inv d1 a v e req t d r d' :
  late_activate d1 a v e req t d = inr (r, d') →
  ∃ ver ag, agent_versions d1 !! v = Some ver ∧ v_agent_id ver = a ∧
    v_status ver ≠ VersionStatus.DISABLED ∧ agents d !! a = Some ag ∧
    (req = false ∨ ag_default_version_id ag = e) ∧
    d' = set_versions (alter (version_with VersionStatus.ACTIVE) v (agent_versions d))
           (set_agents (<[a := agent_with (ag_status ag) (Some v) (now t) ag]> (agents d)) d).
Proof.
  unfold late_activate. intros (o & d2 & [-> [d3 Ho]]%reading_ok & H)%bind_ok.
  apply bind_ok in H as (res & d2 & Hres & H).
  apply activate_read_cases in Hres as [[Hno _]|(ver & ag & Hver & Hva & Hs & Ha & Hcas & -> & ->)].
  { rewrite Hno in H. by case_bool_decide. }
  injection H as _ <-. unfold get_version in Ho. apply bind_ok in Ho as (x & d4 & [= <- <-] & [= Ho _]).
  exists ver, ag. rewrite Ho. by split_and!.
Qed.

Lemma map_alter_twice `{Countable K} {A} (f : A → A) k (m : gmap K A) :
  (∀ x, f (f x) = f x) → alter f k (alter f k m) = alter f k m.
Proof.
  intros Hf. apply map_eq. intros i. destruct (decide (i = k)) as [->|Hne].
  - rewrite !lookup_alter_eq. destruct (m !! k); simpl; by rewrite ?Hf.
  - by rewrite !lookup_alter_ne by done.
Qed.

(** A release: the version's status, then the pointer. *)
Lemma late_activate_steps d1 a v e req t d r d' :
  steps d1 d → late_activate d1 a v e req t d = inr (r, d') → steps d d'.
Proof.
  intros Hs (ver & ag & Hver & Hva & Hdis & Ha & Hcas & ->)%late_activate_inv.
  destruct (ev_versions _ _ (steps_evolves _ _ Hs) _ _ Hver) as [s Hv].
  set (d2 := set_versions (alter (version_with VersionStatus.ACTIVE) v (agent_versions d)) d).
  assert (steps d d2) as H1.
  { eapply steps_snoc; [apply steps_refl|]. apply (step_admin t d (SetVersionStatus v VersionStatus.ACTIVE) tt).
    simpl. rewrite bind_run. rewrite set_version_status_alter. reflexivity. }
  eapply steps_snoc; [exact H1|]. apply (step_admin t d2 (ActivateVersion a v e req) tt). simpl.
  assert (agent_versions d2 !! v = Some (version_with VersionStatus.ACTIVE ver)) as Hv2.
  { unfold d2. simpl. by rewrite lookup_alter_eq, Hv. }
  assert (agents d2 !! a = Some ag) as Ha2 by done.
  assert (negb req || bool_decide (ag_default_version_id ag = e) = true) as Hreq.
  { destruct Hcas as [-> | ->]; [done|]. by rewrite bool_decide_eq_true_2, orb_true_r. }
  rewrite bind_run, activate_version_read, Hv2. unfold activate_read. rewrite bind_run. cbn [ask].
  rewrite (bool_decide_eq_false_2 (v_agent_id _ ≠ a)) by (by intros []).
  rewrite bool_decide_eq_false_2 by done.
  rewrite bind_run. cbn [get]. rewrite Ha2, Hreq, bind_run. cbn [modify].
  rewrite bind_run, set_version_status_alter.
  assert (agent_versions d2 = alter (version_with VersionStatus.ACTIVE) v (agent_versions d)) as Heq by done.
  change (agent_versions (set_agents _ d2)) with (agent_versions d2).
  assert (alter (version_with VersionStatus.ACTIVE) v (agent_versions d2) = agent_versions d2) as ->; [|done].
  rewrite Heq. by apply map_alter_twice.
Qed.

(** A committed request is at most a sequence of steps, in a run whose
    moments lead up to now. *)
Lemma late_write_steps h d d' :
  Forall (λ x, steps x d) h → late_write h d d' → steps d d'.
Proof.
  rewrite Forall_forall. intros Hh Hw. destruct Hw as [env rq t|t da te rt a r d' Hr H|t da db dc v i r d' Hr H
    |t da db v i r d' Hr H|t da a v e req r d' Hr H|t da db q rn a r d' Hr _ _ H|t da db dc env b r d' Hr _ H].
  - apply respond_steps.
  - eapply late_put_route_steps; [|exact H]. apply steps_refl.
  - eapply late_grant_steps; [|exact H]. apply steps_refl.
  - eapply late_ungrant_steps; [|exact H]. apply steps_refl.
  - eapply late_activate_steps; [|exact H]. apply Hh. eapply reads_in; [exact Hr|by left].
  - eapply disable_found_steps; [|exact H]. apply steps_refl.
  - eapply late_submit_steps; [|exact H]. apply steps_refl.
Qed.

Lemma late_move_steps h d d' : Forall (λ x, steps x d) h → late_move h d d' → steps d d'.
Proof.
  intros Hh [d1 Hw|t d1 Hs _ _]; [by eapply late_write_steps|].
  eapply steps_snoc; [apply steps_refl|done].
Qed.

(** A history in order, from reachable tables. *)
Record history (h : list db) : Prop := {
  hi_ordered : ordered h;
  hi_reachable : Forall reachable h;
}.

Lemma history_now d h : history (d :: h) → Forall (λ x, steps x d) (d :: h).
Proof.
  intros [Hh _]. apply Forall_cons. split; [apply steps_refl|]. by apply StronglySorted_inv in Hh as [_ ?].
Qed.

Lemma history_head d h : history (d :: h) → reachable d.
Proof. intros [_ Hr]. by apply Forall_inv in Hr. Qed.

Lemma history_next d h d' : history (d :: h) → steps d d' → history (d' :: d :: h).
Proof.
  intros Hh Hs. pose proof (history_now _ _ Hh) as Hnow. pose proof (history_head _ _ Hh) as Hd.
  destruct Hh as [Ho Hr]. split.
  - constructor; [done|]. eapply Forall_impl; [exact Hnow|]. intros x Hx. exact (steps_trans _ _ _ Hx Hs).
  - constructor; [|done]. exact (steps_trans _ _ _ Hd Hs).
Qed.

Lemma history_one d : reachable d → history [d].
Proof. intros Hd. split; by repeat constructor. Qed.

Lemma history_in h x : history h → x ∈ h → reachable x.
Proof. intros [_ Hr]. rewrite Forall_forall in Hr. by apply Hr. Qed.

(** What one move keeps, given it of every earlier moment, holds throughout. *)
Lemma late_run_ind_inv (P : db → Prop) d0 h :
  reachable d0 → P d0 →
  (∀ d h d', history (d :: h) → Forall P (d :: h) → late_move (d :: h) d d' → P d') →
  late_run d0 h → Forall P h.
Proof.
  intros Hd0 H0 Hmove Hrun.
  enough (history h ∧ Forall P h) as [_ ?] by done.
  induction Hrun as [|d h d' _ [Hh HP] Hm]; [split; [by apply history_one|by constructor]|].
  pose proof (late_move_steps _ _ _ (history_now _ _ Hh) Hm) as Hs.
  split; [by apply history_next|]. constructor; [|done]. by eapply Hmove.
Qed.

Lemma late_run_history d0 h : reachable d0 → late_run d0 h → history h.
Proof.
  intros Hd0. induction 1 as [|d h d' _ Hh Hm]; [by apply history_one|].
  apply history_next; [done|]. by eapply late_move_steps; [apply history_now|].
Qed.

(** *** Tenants *)

(** What was isolated stays so, and what is new is looked at by itself. *)
Lemma isolated_later d d' :
  isolated d → steps d d' →
  (∀ te rt route, agent_routes d' !! (te, rt) = Some route →
     agent_routes d !! (te, rt) = Some route ∨
     ∃ a, agents d' !! ro_agent_id route = Some a ∧ ag_tenant_id a = te) →
  (∀ v i g, agent_version_tool_grants d' !! (v, i) = Some g →
     agent_version_tool_grants d !! (v, i) = Some g ∨
     ∃ ver tool, version_tenant d' v = Some (ver, tl_tenant_id tool) ∧ tools d' !! i = Some tool) →
  (∀ i (r : task_row) v, tasks d' !! i = Some r → t_agent_version_id r = Some v →
     tasks d !! i = Some r ∨ ∃ ver, version_tenant d' v = Some (ver, t_tenant_id r)) →
  isolated d'.
Proof.
  intros Hiso Hev%steps_evolves Hro Hgr Hpin. split.
  - intros te rt route [H|H]%Hro; [|done]. destruct (iso_routes _ Hiso _ _ _ H) as (a & Ha & <-).
    destruct (ev_agents _ _ Hev _ _ Ha) as (s & dv & at_ & Ha'). eexists. by split.
  - intros v i g [H|H]%Hgr; [|done]. eapply grant_evolves; [done|]. by eapply iso_grants.
  - intros i r v Hr Hv. destruct (Hpin i r v Hr Hv) as [H|H]; [|done].
    destruct (iso_pins _ Hiso _ _ _ H Hv) as [ver Hver].
    destruct (version_tenant_evolves _ _ _ _ _ Hev Hver) as [s Hs]. eauto.
Qed.

Lemma late_put_route_inv da te rt a t d r d' :
  late_put_route da te rt a t d = inr (r, d') →
  ∃ ag row, agents da !! a = Some ag ∧ ag_tenant_id ag = te ∧ ro_agent_id row = a ∧
    d' = set_routes (<[(te, rt) := row]> (agent_routes d)) d.
Proof.
  unfold late_put_route. intros (o & d1 & [-> [d2 Ho]]%reading_ok & H)%bind_ok.
  apply bind_ok in H as (ag & d1 & Hreq & H). unfold get_agent in Ho.
  apply bind_ok in Ho as (x & d3 & [= <- <-] & [= <- _]).
  destruct (agents da !! a) as [ag'|] eqn:Ha; [|done]. injection Hreq as <- <-.
  case_bool_decide as Hte; [done|]. apply bind_ok in H as (u & d3 & H & [= _ <-]).
  unfold set_route in H. apply bind_ok in H as (t' & d4 & [= <- <-] & H).
  apply bind_ok in H as (d5 & d6 & [= <- <-] & H).
  case_bool_decide; [done|]. case_bool_decide; [done|]. injection H as _ <-.
  exists ag'. eexists. split; [done|]. split; [done|]. split; [|reflexivity]. done.
Qed.

Lemma grant_tool_inv v i t d u d' :
  grant_tool v i t d = inr (u, d') →
  agent_routes d' = agent_routes d ∧ tasks d' = tasks d ∧
  ∀ k g, agent_version_tool_grants d' !! k = Some g → k ≠ (v, i) →
    agent_version_tool_grants d !! k = Some g.
Proof.
  unfold grant_tool. intros (t' & d4 & [= <- <-] & H)%bind_ok. apply bind_ok in H as (d5 & d4 & [= <- <-] & H).
  case_bool_decide; [by injection H as _ <-|]. case_bool_decide; [done|]. case_bool_decide; [done|].
  injection H as _ <-. split; [done|]. split; [done|]. simpl. intros k g Hg Hne.
  by rewrite lookup_insert_ne in Hg.
Qed.

Lemma record_audit_inv te action rt out rid actor data t d u d' :
  record_audit te action rt out rid actor data t d = inr (u, d') →
  d' = set_audit (audit_events d') d.
Proof. unfold record_audit. intros (t' & d1 & [= <- <-] & [= _ <-])%bind_ok. done. Qed.

Lemma late_grant_inv da db dc v i t d r d' :
  late_grant da db dc v i t d = inr (r, d') →
  (∃ ver tool a, agent_versions da !! v = Some ver ∧ tools db !! i = Some tool ∧
     agents dc !! v_agent_id ver = Some a ∧ ag_tenant_id a = tl_tenant_id tool) ∧
  agent_routes d' = agent_routes d ∧ tasks d' = tasks d ∧
  ∀ k g, agent_version_tool_grants d' !! k = Some g → k ≠ (v, i) →
    agent_version_tool_grants d !! k = Some g.
Proof.
  unfold late_grant. intros (ver & d1 & [-> [d2 (_ & Hv & _)%unreleased_inv]]%reading_ok & H)%bind_ok.
  apply bind_ok in H as (o & d1 & [-> [d3 Ho]]%reading_ok & H). unfold get_tool in Ho.
  apply bind_ok in Ho as (x & d4 & [= <- <-] & [= <- _]). apply bind_ok in H as (tool & d1 & Hreq & H).
  destruct (tools db !! i) as [tool'|] eqn:Hi; [|done]. injection Hreq as <- <-.
  apply bind_ok in H as (arow & d1 & [-> [d4 Ha]]%reading_ok & H). unfold get_agent in Ha.
  apply bind_ok in Ha as (x & d5 & [= <- <-] & [= <- _]).
  destruct (agents dc !! v_agent_id ver) as [ag|] eqn:Hag; [|done]. case_bool_decide as Hte; [done|].
  split; [exists ver, tool', ag; by split_and!|].
  apply bind_ok in H as (u & d5 & (Hro & Ht & Hg)%grant_tool_inv & H).
  apply bind_ok in H as (u2 & d6 & Haud & [= _ <-]).
  apply record_audit_inv in Haud as ->. done.
Qed.

Lemma late_ungrant_inv da db v i t d r d' :
  late_ungrant da db v i t d = inr (r, d') →
  agent_routes d' = agent_routes d ∧ tasks d' = tasks d ∧
  ∀ k g, agent_version_tool_grants d' !! k = Some g → agent_version_tool_grants d !! k = Some g.
Proof.
  unfold late_ungrant. intros (ver & d1 & [-> _]%reading_ok & H)%bind_ok.
  apply bind_ok in H as (o & d1 & [-> _]%reading_ok & H). apply bind_ok in H as (tool & d1 & Hreq & H).
  assert (d1 = d) as -> by exact (require_reads _ _ _ _ _ _ Hreq).
  apply bind_ok in H as (removed & d2 & Hrev & H). destruct removed; [|done].
  apply bind_ok in H as (u2 & d3 & Haud & [= _ <-]). apply record_audit_inv in Haud as ->.
  unfold revoke_grant in Hrev. apply bind_ok in Hrev as (d5 & d6 & [= <- <-] & Hrev).
  apply bind_ok in Hrev as (u & d6 & [= _ <-] & [= _ <-]). split; [done|]. split; [done|].
  simpl. by intros k g [_ Hg]%lookup_delete_Some.
Qed.

Lemma late_submit_inv da db dc env b t d r d' :
  registry_ok dc → late_submit da db dc env b t d = inr (r, d') →
  d' = d ∨ ∃ p, planned env dc b p ∧ d' = created_db t (plan_row t env b p) d.
Proof.
  intros Hok. unfold late_submit. intros (tn & d1 & [-> _]%reading_ok & H)%bind_ok.
  apply bind_ok in H as (te & d1 & Hreq & H).
  assert (d1 = d) as -> by exact (require_reads _ _ _ _ _ _ Hreq).
  apply bind_ok in H as (n & d1 & [-> _]%reading_ok & H). apply bind_ok in H as (u & d1 & Hadm & H).
  assert (d1 = d) as -> by exact (keeps (f := id) _ _ _ _ Hadm).
  apply bind_ok in H as (p & d1 & [-> [d2 Hp]]%reading_ok & H).
  pose proof (plan_of_cases env b t dc Hok) as Hplan. rewrite Hp in Hplan. destruct Hplan as [_ Hplan].
  apply bind_ok in H as (res & d1 & H & [= _ <-]).
  apply translate_ok, submit_inv in H as [(_ & -> & _)|(r' & l & _ & -> & _)]; [right|by left].
  by exists p.
Qed.

(** *** The invariant *)

Lemma grants_later d d' v i g :
  isolated d → evolves d d' → agent_version_tool_grants d !! (v, i) = Some g →
  ∃ ver tool, version_tenant d' v = Some (ver, tl_tenant_id tool) ∧ tools d' !! i = Some tool.
Proof. intros Hiso Hev H. eapply grant_evolves; [done|]. by eapply iso_grants. Qed.

Lemma late_route_isolated da d te rt a t r d' :
  steps da d → isolated d → late_put_route da te rt a t d = inr (r, d') → isolated d'.
Proof.
  intros Hs Hiso H. pose proof (late_put_route_steps d _ _ _ _ _ _ _ _ (steps_refl d) H) as Hs'.
  apply late_put_route_inv in H as (ag & row & Ha & <- & Hrow & ->).
  destruct (ev_agents _ _ (steps_evolves _ _ Hs) _ _ Ha) as (s & dv & at_ & Ha').
  eapply isolated_later; [done|done| | |]; simpl; [|by left|by left].
  intros te rt' route [[[= <- <-] <-]|[_ Hro]]%lookup_insert_Some; [right|by left].
  rewrite Hrow. eexists. by split.
Qed.

Lemma late_grant_isolated da db dc d v i t r d' :
  steps da dc → steps db dc → steps dc d → registry_ok da → isolated d →
  late_grant da db dc v i t d = inr (r, d') → isolated d'.
Proof.
  intros Hac Hbc Hcd Hok Hiso H. pose proof (late_grant_steps d _ _ _ _ _ _ _ _ _ (steps_refl d) H) as Hs.
  apply late_grant_inv in H as ((ver & tool & a & Hv & Hi & Ha & Hte) & Hro & Ht & Hg).
  eapply isolated_later; [done|done|..].
  - intros te rt route. rewrite Hro. by left.
  - intros w j g Hwj. destruct (decide ((w, j) = (v, i))) as [[= -> ->]|Hne]; [right|left; by apply Hg].
    apply (grant_evolves dc); [apply steps_evolves; by eapply steps_trans|].
    destruct (ev_versions _ _ (steps_evolves _ _ Hac) _ _ Hv) as [s Hs'].
    destruct (ev_tools _ _ (steps_evolves _ _ Hbc) _ _ Hi) as [s2 Hi'].
    eexists _, _. split; [|exact Hi']. apply version_tenant_spec. split; [exact Hs'|]. eauto.
  - intros j r'. rewrite Ht. by left.
Qed.

Lemma late_ungrant_isolated da db d v i t r d' :
  isolated d → late_ungrant da db v i t d = inr (r, d') → isolated d'.
Proof.
  intros Hiso H. pose proof (late_ungrant_steps d _ _ _ _ _ _ _ _ (steps_refl d) H) as Hs.
  apply late_ungrant_inv in H as (Hro & Ht & Hg). eapply isolated_later; [done|done|..].
  - intros te rt route. rewrite Hro. by left.
  - intros w j g. left. by apply Hg.
  - intros j r'. rewrite Ht. by left.
Qed.

Lemma late_submit_isolated da db dc d env b t r d' :
  steps dc d → registry_ok dc → isolated dc → isolated d →
  late_submit da db dc env b t d = inr (r, d') → isolated d'.
Proof.
  intros Hcd Hok Hc Hiso H. pose proof (late_submit_steps d _ _ _ _ _ _ _ _ _ (steps_refl d) H) as Hs.
  destruct (late_submit_inv _ _ _ _ _ _ _ _ _ Hok H) as [->|(p & Hp & ->)]; [done|].
  eapply isolated_later; [done|done|by left|by left|]. simpl.
  intros i r' v [[_ <-]|[_ Hr]]%lookup_insert_Some Hpin; [right|by left].
  destruct (planned_tenant _ _ _ _ _ Hok Hc Hp Hpin) as [ver Hver].
  destruct (version_tenant_evolves _ _ _ _ _ (steps_evolves _ _ Hcd) Hver) as [s Hs']. by eexists.
Qed.

Lemma isolated_stops d d' :
  isolated d → steps d d' → agent_routes d' = agent_routes d →
  agent_version_tool_grants d' = agent_version_tool_grants d → only_stops d d' → isolated d'.
Proof.
  intros Hiso Hs Hro Hgr Ht. eapply isolated_later; [done|done| | |].
  - intros te rt route. rewrite Hro. by left.
  - intros v i g. rewrite Hgr. by left.
  - intros i r' v Hr' Hpin. right. destruct (Ht _ _ Hr') as (r & Hr & Hsp & _). rewrite Hsp in Hpin |- *.
    destruct (iso_pins _ Hiso _ _ _ Hr Hpin) as [ver Hver].
    destruct (version_tenant_evolves _ _ _ _ _ (steps_evolves _ _ Hs) Hver) as [s Hs']. by eexists.
Qed.

Lemma late_activate_isolated da d a v e req t r d' :
  steps da d → isolated d → late_activate da a v e req t d = inr (r, d') → isolated d'.
Proof.
  intros Hs Hiso H. pose proof (late_activate_steps _ _ _ _ _ _ _ _ _ Hs H) as Hs'.
  apply late_activate_inv in H as (ver & ag & _ & _ & _ & _ & _ & ->).
  apply (isolated_stops d); [done|done|done|done|by apply only_stops_same].
Qed.

Lemma disable_found_isolated q rn a d t r d' :
  reachable d → isolated d → disable_found q rn a t d = inr (r, d') → isolated d'.
Proof.
  intros Hd Hiso H. pose proof (disable_found_steps d q rn a _ _ _ _ (steps_refl d) H) as Hs.
  pose proof (inv_reachable d Hd) as Hinv.
  apply disable_found_stops in H as (Ht & ag & _ & Hreg); [|apply inv_ids, Hinv|apply inv_ok, Hinv].
  unfold registry in Hreg. injection Hreg as _ _ Hro _ Hgr. by apply (isolated_stops d).
Qed.

(** The moments of up to three reads. *)
Lemma reads_three d h da db dc :
  history (d :: h) → reads (d :: h) [da; db; dc] →
  (da ∈ d :: h ∧ db ∈ d :: h ∧ dc ∈ d :: h) ∧ steps da db ∧ steps db dc ∧ steps dc d.
Proof.
  intros Hh Hr. assert (∀ x, x ∈ [da; db; dc] → x ∈ d :: h) as Hin by (intros; by eapply reads_in).
  pose proof (history_now _ _ Hh) as Hnow. rewrite Forall_forall in Hnow.
  pose proof (reads_ordered _ _ (hi_ordered _ Hh) Hr) as Ho.
  apply StronglySorted_inv in Ho as [Ho Ha]. apply StronglySorted_inv in Ho as [_ Hb].
  rewrite Forall_forall in Ha, Hb. 
  assert (da ∈ [da; db; dc]) as H1 by (by left). assert (db ∈ [da; db; dc]) as H2 by (by right; left).
  assert (dc ∈ [da; db; dc]) as H3 by (by right; right; left).
  split; [split_and!; by apply Hin|]. split; [apply Ha; by left|].
  split; [apply Hb; by left|by apply Hnow, Hin].
Qed.

Lemma reads_one d h da : history (d :: h) → reads (d :: h) [da] → da ∈ d :: h ∧ steps da d.
Proof.
  intros Hh Hr. pose proof (reads_in _ _ da Hr ltac:(by left)) as Hin. split; [done|].
  pose proof (history_now _ _ Hh) as Hnow. rewrite Forall_forall in Hnow. by apply Hnow.
Qed.

Lemma late_write_isolated d h d' :
  history (d :: h) → Forall isolated (d :: h) → late_write (d :: h) d d' → isolated d'.
Proof.
  intros Hh Hall Hw. pose proof (history_head _ _ Hh) as Hd. pose proof (Forall_inv Hall) as Hiso.
  destruct Hw as [env rq t|t da te rt a r d' Hr H|t da db dc v i r d' Hr H
    |t da db v i r d' Hr H|t da a v e req r d' Hr H|t da db q rn a r d' Hr _ _ H|t da db dc env b r d' Hr _ H].
  - destruct (respond_cases env rq t d) as [(s & d' & H & ->)|(e & _ & ->)]; [|done].
    by eapply handle_isolated.
  - apply reads_one in Hr as [_ Hs]; [|done]. exact (late_route_isolated _ _ _ _ _ _ _ _ Hs Hiso H).
  - apply reads_three in Hr as ((Hin & _) & Hab & Hbc & Hcd); [|done].
    pose proof (reachable_registry_ok _ (history_in _ _ Hh Hin)) as Hok.
    eapply late_grant_isolated; [| | | | |exact H]; eauto using steps_trans.
  - by eapply late_ungrant_isolated.
  - apply reads_one in Hr as [_ Hs]; [|done].
    exact (late_activate_isolated _ _ _ _ _ _ _ _ _ Hs Hiso H).
  - by eapply disable_found_isolated.
  - apply reads_three in Hr as ((_ & _ & Hin) & _ & _ & Hcd); [|done].
    pose proof (reachable_registry_ok _ (history_in _ _ Hh Hin)) as Hok.
    rewrite Forall_forall in Hall. pose proof (Hall _ Hin) as Hc.
    exact (late_submit_isolated _ _ _ _ _ _ _ _ _ Hcd Hok Hc Hiso H).
Qed.

Lemma late_run_isolated d0 h :
  reachable d0 → isolated d0 → late_run d0 h → Forall isolated h.
Proof.
  intros Hd0 Hiso. apply late_run_ind_inv; [done|done|].
  intros d h' d' Hh Hall [d1 Hw|t d1 Hs Hreg Hno]; [by eapply late_write_isolated|].
  apply (work_isolated t d); [by eapply history_head|by apply Forall_inv in Hall|done..].
Qed.

(** C13: tenant isolation, checks out of date. However the service runs from
    empty tables, with every read that a request makes before it writes a
    route, a grant, a release or a pinned task seeing the tables of some
    earlier moment of the run: a route leads to an agent of its own tenant, a
    grant joins a version and a tool of one tenant, a task is pinned to a
    version of its own tenant's, and whatever policy a worker snapshots for a
    task it holds, its three SELECTs at three moments of the run, allows only
    tools of that task's tenant. *)
Theorem late_checks_keep_tenants_apart d h :
  late_run empty_db (d :: h) →
  isolated d ∧
  ∀ ms, reads (d :: h) [sees_versions ms; sees_tools ms; sees_grants ms] →
    ∀ i (r : task_row) v ids,
      tasks (sees_versions ms) !! i = Some r → t_agent_version_id r = Some v → Some v ∈ ids →
      ∃ pol, snapshot_policies ms ids !! v = Some pol ∧
        ∀ name, allowed (authorize pol name) = true →
          ∃ j tool, tools (sees_tools ms) !! j = Some tool ∧ tl_name tool = name ∧
            tl_tenant_id tool = t_tenant_id r.
Proof.
  intros Hrun. pose proof (late_run_isolated _ _ (steps_refl empty_db) isolated_empty Hrun) as Hall.
  pose proof (late_run_history _ _ (steps_refl empty_db) Hrun) as Hh.
  split; [by apply Forall_inv in Hall|]. intros ms Hr.
  apply reads_three in Hr as ((Hv & Ht & _) & _); [|done]. rewrite Forall_forall in Hall.
  apply isolated_policies; [| |by apply Hall]; apply reachable_registry_ok; by eapply history_in.
Qed.

(** *** Tasks and attempts *)

(** A committed request leaves the tasks alone but for stops, or adds the one
    task it planned, from the registry as it was when it looked. *)
Lemma late_write_tasks d h d' :
  history (d :: h) → late_write (d :: h) d d' →
  only_stops d d' ∨
  ∃ dc t env b p, dc ∈ d :: h ∧ planned env dc b p ∧ d' = created_db t (plan_row t env b p) d.
Proof.
  intros Hh Hw. pose proof (history_head _ _ Hh) as Hd. pose proof (inv_reachable d Hd) as Hinv.
  destruct Hw as [env rq t|t da te rt a r d' Hr H|t da db dc v i r d' Hr H
    |t da db v i r d' Hr H|t da a v e req r d' Hr H|t da db q rn a r d' Hr _ _ H|t da db dc env b r d' Hr _ H].
  - destruct (respond_cases env rq t d) as [(s & d' & H & ->)|(e & _ & ->)]; simpl;
      [|left; by apply only_stops_same].
    destruct (handle_cases env rq t d s d' (reachable_registry_ok d Hd) Hinv H) as [?|(b & p & Hp & ->)];
      [by left|right]. exists d, t, env, b, p. split; [by left|done].
  - left. apply late_put_route_inv in H as (ag & row & _ & _ & _ & ->). by apply only_stops_same.
  - left. apply late_grant_inv in H as (_ & _ & Ht & _). by apply only_stops_same.
  - left. apply late_ungrant_inv in H as (_ & Ht & _). by apply only_stops_same.
  - left. apply late_activate_inv in H as (ver & ag & _ & _ & _ & _ & _ & ->). by apply only_stops_same.
  - left. by apply disable_found_stops in H as [? _]; [|apply inv_ids, Hinv|apply inv_ok, Hinv].
  - apply reads_three in Hr as ((_ & _ & Hin) & _); [|done].
    pose proof (reachable_registry_ok _ (history_in _ _ Hh Hin)) as Hok.
    destruct (late_submit_inv _ _ _ _ _ _ _ _ _ Hok H) as [->|(p & Hp & ->)];
      [left; by apply only_stops_same|right]. by exists dc, t, env, b, p.
Qed.

(** The API never writes an attempt. *)
Section api_attempts.
#[local] Abbreviation Same m := (Keeps task_attempts m).

#[local] Instance update_task_same i p g : Same (update_task i p g).
Proof. unfold update_task. solve_keeps. Qed.
#[local] Instance update_tasks_same p g : Same (update_tasks p g).
Proof. unfold update_tasks. solve_keeps. Qed.
#[local] Instance event_same i a ty w data : Same (insert_event i a ty w data).
Proof. unfold insert_event. solve_keeps. Qed.
#[local] Instance submit_same te ty p key prio ma mx av ver caps :
  Same (submit_task te ty p key prio ma mx av ver caps).
Proof. unfold submit_task, insert_task, record_event. solve_keeps. Qed.
#[local] Instance cancel_same i : Same (cancel_task i).
Proof. unfold cancel_task, get_task, transition, explain, require_legal, record_event. solve_keeps. Qed.
#[local] Instance cancel_found_same q rn vs reason : Same (cancel_found q rn vs reason).
Proof. unfold cancel_found, record_event. solve_keeps. Qed.
#[local] Instance cancel_agent_same vs reason : Same (cancel_agent_tasks vs reason).
Proof. apply cancel_found_same. Qed.
#[local] Instance audit_same te action rt out rid actor data :
  Same (record_audit te action rt out rid actor data).
Proof. unfold record_audit. solve_keeps. Qed.
#[local] Instance tenant_same name mc mq : Same (create_tenant name mc mq).
Proof. unfold create_tenant. solve_keeps. Qed.

Lemma handle_same env rq : Same (handle env rq).
Proof. destruct rq; open_handler; keeps_table. Qed.

#[local] Instance reading_same {A} d1 (m : M A) : Same (reading d1 m).
Proof. by intros t d a d' [-> _]%reading_ok. Qed.
Lemma late_submit_same d1 d2 d3 env b : Same (late_submit d1 d2 d3 env b).
Proof. unfold late_submit. open_queries; solve_keeps. Qed.
Lemma late_grant_same d1 d2 d3 v i : Same (late_grant d1 d2 d3 v i).
Proof. unfold late_grant. open_queries; solve_keeps. Qed.
Lemma late_ungrant_same d1 d2 v i : Same (late_ungrant d1 d2 v i).
Proof. unfold late_ungrant. open_queries; solve_keeps. Qed.
Lemma disable_found_same q rn a : Same (disable_found q rn a).
Proof. unfold disable_found. open_queries; solve_keeps. Qed.

Lemma late_write_attempts h d d' : late_write h d d' → task_attempts d' = task_attempts d.
Proof.
  intros Hw. destruct Hw as [env rq t|t da te rt a r d' _ H|t da db dc v i r d' _ H
    |t da db v i r d' _ H|t da a v e req r d' _ H|t da db q rn a r d' _ _ _ H|t da db dc env b r d' _ _ H].
  - destruct (respond_cases env rq t d) as [(s & d' & H & ->)|(e & _ & ->)]; [|done].
    by apply (handle_same env rq) in H.
  - by apply late_put_route_inv in H as (ag & row & _ & _ & _ & ->).
  - by apply late_grant_same in H.
  - by apply late_ungrant_same in H.
  - by apply late_activate_inv in H as (ver & ag & _ & _ & _ & _ & _ & ->).
  - by apply disable_found_same in H.
  - by apply late_submit_same in H.
Qed.
End api_attempts.

(** ** Checks that compare what does change *)

#[local] Instance row_events_keep (l : list task_row) ty data :
  Keeps tasks (for_each l (λ row : task_row,
    record_event (t_id row) ty (Some (t_attempt row)) None data)).
Proof. unfold record_event, insert_event. solve_keeps. Qed.

(** A sweep can only miss what changed since it looked: [q] and [rn] are what
    its two UPDATEs found. *)
Lemma sweep_misses q rn da db vs reason t d n d' i (r' : task_row) :
  finds State.QUEUED da d q → finds State.RUNNING db d rn →
  cancel_found q rn vs reason t d = inr (n, d') → tasks d' !! i = Some r' → of_versions vs r' = true →
  (t_state r' = State.QUEUED → tasks d !! i = Some r' ∧ tasks da !! i ≠ Some r') ∧
  (t_state r' = State.RUNNING → t_cancel_requested r' = false →
     tasks d !! i = Some r' ∧ tasks db !! i ≠ Some r').
Proof.
  intros Hq Hrn. unfold cancel_found. case_bool_decide as Hvs.
  { subst vs. intros _ _ Hof. unfold of_versions in Hof. by destruct (t_agent_version_id r'). }
  intros (t' & d2 & [= <- <-] & H)%bind_ok.
  apply bind_ok in H as (qs & d2 & (_ & -> & _)%update_tasks_inv & H).
  apply bind_ok in H as (rs & d2 & (_ & -> & _)%update_tasks_inv & H).
  apply bind_ok in H as (u1 & d3 & H1 & H). apply bind_ok in H as (u2 & d4 & H2 & [= _ <-]).
  rewrite (keeps (f := tasks) _ _ _ _ H2), (keeps (f := tasks) _ _ _ _ H1). simpl.
  rewrite !lookup_update_where. destruct (tasks d !! i) as [r|] eqn:Hr; [|done]. simpl.
  intros [= <-]. destruct (q r && of_versions vs r && _) eqn:Hf; simpl.
  { rewrite andb_false_r. simpl. by intros _. }
  destruct (_ && _ && _ && _) eqn:Hrun; simpl.
  { apply andb_true_iff in Hrun as [[_ Hst%bool_decide_eq_true]%andb_true_iff _].
    intros _. split; [|done]. congruence. }
  intros Hof. split.
  - intros Hst. split; [done|]. intros Hda. by rewrite (Hq i r Hda Hr Hst), Hof, bool_decide_eq_true_2 in Hf.
  - intros Hst Hc. split; [done|]. intros Hdb.
    by rewrite (Hrn i r Hdb Hr Hst), Hof, Hc, bool_decide_eq_true_2 in Hrun.
Qed.

(** What an UPDATE of QUEUED rows that began at [d1] finds at least. *)
Definition was_queued (d1 : db) (r : task_row) : bool :=
  match tasks d1 !! t_id r with Some r1 => bool_decide (t_state r1 = State.QUEUED) | None => false end.

Lemma was_queued_finds d1 d :
  (∀ i (r : task_row), tasks d !! i = Some r → t_id r = i) → finds State.QUEUED d1 d (was_queued d1).
Proof. intros Hids i r H1 Hr Hst. unfold was_queued. rewrite (Hids i r Hr), H1. by apply bool_decide_eq_true. Qed.

(** *** Histories of requests *)

Definition history_by (l : list (request * txn)) (h : list db) : list db :=
  foldl (λ h '(rq, t), (respond ex_env rq t (hd empty_db h)).2 :: h) h l.
Definition latest (h : list db) : db := hd empty_db h.

Lemma history_by_runs l d0 h : late_run d0 h → late_run d0 (history_by l h).
Proof.
  revert h. induction l as [|[rq t] l IH]; intros h Hh; [done|]. apply IH.
  assert (∃ d h', h = d :: h') as (d & h' & ->) by (destruct Hh; eauto).
  apply late_next; [done|]. apply move_write, write_now.
Qed.

(** Reads all at the moment before a request. *)
Lemma reads_before d h l : (h ≠ []) → reads (d :: h) (replicate l (latest h)).
Proof.
  intros Hne. destruct h as [|x h]; [done|]. unfold latest. simpl.
  assert (∀ l, reads [d; x] (replicate l x)) as H.
  { clear. induction l as [|l IH]; [done|]. by exists 1%nat. }
  destruct l as [|l]; [done|]. exists 1%nat. split; [done|]. apply H.
Qed.

Lemma late_run_latest d0 h : late_run d0 h → h = latest h :: tail h.
Proof. by destruct 1. Qed.

(** The version and the tool, then its release. *)
Definition lt_drafts : list db := history_by (take 4 sv_release) [empty_db].
Definition lt_drafted : db := latest lt_drafts.
Definition lt_actives : list db := history_by [(Activate 20 21 None true, txn_at 6)] lt_drafts.
Definition lt_active : db := latest lt_actives.
(** A grant that found the version in draft writes after the release. *)
Definition lt_widened : db :=
  after (late_grant lt_drafted lt_drafted lt_drafted 21 30) (txn_at 7) lt_active.
Definition lt_history : list db :=
  history_by [(PutRoute 1 "research" 20, txn_at 8); (PostTask ex_routed, txn_new 9 40)]
    (lt_widened :: lt_actives).
Definition lt_queued : db := latest lt_history.

Lemma lt_drafts_run : late_run empty_db lt_drafts.
Proof. apply history_by_runs, late_start. Qed.
Lemma lt_actives_run : late_run empty_db lt_actives.
Proof. apply history_by_runs, lt_drafts_run. Qed.

Lemma lt_widened_run : late_run empty_db (lt_widened :: lt_actives).
Proof.
  assert (∃ r, late_grant lt_drafted lt_drafted lt_drafted 21 30 (txn_at 7) lt_active = inr (r, lt_widened))
    as [r H] by (eexists; vm_compute; reflexivity).
  pose proof lt_actives_run as Hrun. rewrite (late_run_latest _ _ Hrun) in Hrun |- *.
  apply late_next; [exact Hrun|]. apply move_write. eapply write_grant; [|exact H].
  change (reads (lt_active :: lt_drafts) (replicate 3 (latest lt_drafts))). by apply reads_before.
Qed.

Lemma lt_history_run : late_run empty_db (lt_queued :: tail lt_history).
Proof.
  pose proof (history_by_runs [(PutRoute 1 "research" 20, txn_at 8); (PostTask ex_routed, txn_new 9 40)]
    _ _ lt_widened_run) as Hrun.
  change (late_run empty_db lt_history) in Hrun. by rewrite (late_run_latest _ _ Hrun) in Hrun.
Qed.

(** A released version whose grants change. *)
Lemma late_grant_widens_release :
  v_status <$> agent_versions lt_active !! 21%N = Some VersionStatus.ACTIVE ∧
  version_grant lt_active 21 30 = None ∧
  agent_versions lt_widened !! 21%N = agent_versions lt_active !! 21%N ∧
  is_Some (version_grant lt_widened 21 30).
Proof. split_and!; [vm_compute; reflexivity..|]. eexists. vm_compute. reflexivity. Qed.

(** A submission that resolved its route before the agent was disabled: the
    task it stores is pinned to the disabled agent, and queued. *)
Definition lt_off : db := served_by sv_released [(DisableAgent 20, txn_at 9)].
Definition lt_escaped : db :=
  after (late_submit sv_released sv_released sv_released ex_env ex_routed) (txn_new 10 41) lt_off.

Lemma late_submission_escapes :
  ag_status <$> agents lt_escaped !! 20%N = Some AgentStatus.DISABLED ∧
  (λ r : task_row, (t_state r, t_cancel_requested r, t_agent_version_id r)) <$> tasks lt_escaped !! 41%N
  = Some (State.QUEUED, false, Some 21%N) ∧ tasks lt_off !! 41%N = None.
Proof. split_and!; vm_compute; reflexivity. Qed.

(** An activation that read the version before its agent was disabled: the
    DISABLED version is ACTIVE again. *)
Definition lt_revived : db := after (late_activate sv_released 20 21 None false) (txn_at 10) lt_off.

Lemma late_release_revives :
  v_status <$> agent_versions lt_off !! 21%N = Some VersionStatus.DISABLED ∧
  v_status <$> agent_versions lt_revived !! 21%N = Some VersionStatus.ACTIVE ∧
  ag_status <$> agents lt_revived !! 20%N = Some AgentStatus.DISABLED.
Proof. split_and!; vm_compute; reflexivity. Qed.

(** A task of the agent, running when the sweep looks for queued tasks and
    queued again when it looks for running ones. *)
Definition lt_worker : db := after (register_worker "w1" "host" 1 4 []) (txn_at 10) sv_queued.
Definition lt_running : db := after (claim_tasks "w1" 1 30 DEFAULT_POLICY []) (txn_at 11) lt_worker.
Definition lt_retried : db :=
  after (run_completion (CRetry "TransientError" "again" 1) 40 1 "w1") (txn_at 12) lt_running.

Definition row_status (d : db) (i : uuid) : option (state * bool) :=
  (λ r : task_row, (t_state r, t_cancel_requested r)) <$> tasks d !! i.

Lemma late_sweep_misses_a_retry :
  row_status (after (cancel_found (was_queued lt_running) every_row [21%N] "disabled") (txn_at 13) lt_retried) 40
    = Some (State.QUEUED, false) ∧
  row_status (after (cancel_agent_tasks [21%N] "disabled") (txn_at 13) lt_running) 40
    = Some (State.RUNNING, true) ∧
  row_status (after (cancel_agent_tasks [21%N] "disabled") (txn_at 13) lt_retried) 40
    = Some (State.CANCELLED, true).
Proof. split_and!; vm_compute; reflexivity. Qed.

Lemma late_checks_keep_tenants_apart_witness :
  ∃ (r : task_row) pol, tasks lt_queued !! 40%N = Some r ∧ t_agent_version_id r = Some 21%N ∧
    snapshot_policies (at_once lt_queued) [Some 21%N] !! 21%N = Some pol ∧
    allowed (authorize pol "search") = true ∧
    (∃ j tool, tools lt_queued !! j = Some tool ∧ tl_name tool = "search" ∧
       tl_tenant_id tool = t_tenant_id r).
Proof.
  assert (∃ (r : task_row) pol, tasks lt_queued !! 40%N = Some r ∧ t_agent_version_id r = Some 21%N ∧
    snapshot_policies (at_once lt_queued) [Some 21%N] !! 21%N = Some pol ∧
    allowed (authorize pol "search") = true)
    as (r & pol & Hr & Hpin & Hpol & Hall).
  { eexists _, _. split; [vm_compute; reflexivity|]. split; [reflexivity|].
    split; vm_compute; reflexivity. }
  exists r, pol. split; [exact Hr|]. split; [exact Hpin|]. split; [exact Hpol|]. split; [exact Hall|].
  assert (reads (lt_queued :: tail lt_history)
    [sees_versions (at_once lt_queued); sees_tools (at_once lt_queued); sees_grants (at_once lt_queued)])
    as Hreads by (exists 0%nat; split; [reflexivity|]; exists 0%nat; split; [reflexivity|];
                  exists 0%nat; split; [reflexivity|exact I]).
  destruct (proj2 (late_checks_keep_tenants_apart lt_queued (tail lt_history) lt_history_run)
    (at_once lt_queued) Hreads 40%N r 21%N [Some 21%N] Hr Hpin ltac:(by left)) as (pol' & Hpol' & H).
  rewrite Hpol in Hpol'. injection Hpol' as <-. exact (H "search" Hall).
Defined.
