(* ===== verification/Releases.v ===== *)
(** * Released versions and disabled agents

    What a release promises, along histories of requests whose checks may be
    out of date (StaleChecks.v): [released_version_is_frozen], and what
    disabling an agent stops, [disabled_agent_gets_no_work].  Both say which
    requests, under way at the time, the program cannot hold to it. *)

From S2P Require Import Prelude PyStr Json States Authz Capability Policy Admission Db Config.
From S2P Require Import Samples Transitions Completion Lease Workers Claim Reap Tasks Agents.
From S2P Require Import Paging Tools Tracing Frames Registry Effects Protocol Scenario Guarantees Governance Api.
From S2P Require Import ApiRun ApiSubmit ApiGuarantees Isolation StaleChecks.
#[local] Open Scope Z_scope.

(** ** One late request *)

#[local] Hint Extern 5 (Keeps _ (reading _ _)) =>
  (intros ? ? ? ? [-> _]%reading_ok; reflexivity) : typeclass_instances.

Ltac late_keeps := open_queries; unfold record_audit; solve_keeps.

Lemma late_put_route_frame d1 te rt a :
  Keeps (λ d, (agents d, agent_versions d, agent_version_tool_grants d)) (late_put_route d1 te rt a).
Proof. intros t d r d' (ag & row & _ & _ & _ & ->)%late_put_route_inv. done. Qed.

Lemma late_grant_frame d1 d2 d3 v i :
  Keeps (λ d, (agents d, agent_versions d)) (late_grant d1 d2 d3 v i).
Proof. unfold late_grant. late_keeps. Qed.

Lemma late_ungrant_frame d1 d2 v i :
  Keeps (λ d, (agents d, agent_versions d)) (late_ungrant d1 d2 v i).
Proof. unfold late_ungrant. late_keeps. Qed.

Lemma late_submit_frame d1 d2 d3 env b : Keeps registry (late_submit d1 d2 d3 env b).
Proof. unfold late_submit. solve_keeps. Qed.

Ltac late_cases Hw :=
  destruct Hw as [env rq t|t da te rt a0 r d' Hr H|t da db dc w i r d' Hr H
    |t da db w i r d' Hr H|t da a0 w e req r d' Hr H|t da db q rn a0 r d' Hr _ _ H
    |t da db dc env b r d' Hr _ H].

Lemma disable_found_registry d h q rn a t r d' :
  history (d :: h) → disable_found q rn a t d = inr (r, d') →
  ∃ ag, agents d !! a = Some ag ∧ registry d' = registry (disabled_registry t a ag d).
Proof.
  intros Hh. pose proof (inv_reachable d (history_head _ _ Hh)) as Hinv.
  intros [_ ?]%disable_found_stops; [done|apply inv_ids, Hinv|apply inv_ok, Hinv].
Qed.

Lemma late_write_stays S v d h d' :
  closed_statuses S → history (d :: h) → Forall (status_in S v) (d :: h) →
  late_write (d :: h) d d' → status_in S v d'.
Proof.
  intros HS Hh Hall Hw. pose proof (Forall_inv Hall) as Hin. rewrite Forall_forall in Hall.
  pose proof (history_head _ _ Hh) as Hd. late_cases Hw.
  - destruct (respond_cases env rq t d) as [(s & d' & H & ->)|(e & _ & ->)]; [|done].
    by eapply (handle_stays S v env rq).
  - eapply status_in_ext; [|exact Hin]. pose proof (late_put_route_frame _ _ _ _ _ _ _ _ H) as E. congruence.
  - eapply status_in_ext; [|exact Hin]. pose proof (late_grant_frame _ _ _ _ _ _ _ _ _ H) as E. congruence.
  - eapply status_in_ext; [|exact Hin]. pose proof (late_ungrant_frame _ _ _ _ _ _ _ _ H) as E. congruence.
  - apply late_activate_inv in H as (ver & ag & Hver & _ & Hs & _ & _ & ->).
    destruct Hin as (row & Hrow & Hst). unfold status_in. simpl. destruct (decide (v = w)) as [->|Hne].
    + rewrite lookup_alter_eq, Hrow. eexists. split; [done|]. simpl.
      destruct (Hall da) as (row2 & Hrow2 & Hst2); [by eapply reads_in; [exact Hr|left]|]. simplify_eq.
      destruct HS as [_ [?|Hone]]; [done|]. by apply Hone in Hst2.
    + rewrite lookup_alter_ne by done. eauto.
  - apply (disable_found_registry _ h) in H as (ag & _ & Hreg); [|done].
    destruct Hin as (row & Hrow & Hst). unfold registry in Hreg. injection Hreg as _ Hv _ _ _.
    unfold status_in. rewrite Hv, lookup_disable_ids, Hrow.
    case_decide; simpl; eexists; (split; [done|]); [apply HS|done].
  - eapply status_in_ext; [|exact Hin]. pose proof (late_submit_frame _ _ _ _ _ _ _ _ _ H) as E.
    unfold registry in E. congruence.
Qed.

Lemma late_write_off a d h d' :
  history (d :: h) → agent_off a d → late_write (d :: h) d d' → agent_off a d'.
Proof.
  intros Hh Hoff Hw. late_cases Hw.
  - destruct (respond_cases env rq t d) as [(s & d' & H & ->)|(e & _ & ->)]; [|done].
    by eapply (handle_off a env rq).
  - eapply agent_off_ext; [|exact Hoff]. pose proof (late_put_route_frame _ _ _ _ _ _ _ _ H) as E. congruence.
  - eapply agent_off_ext; [|exact Hoff]. pose proof (late_grant_frame _ _ _ _ _ _ _ _ _ H) as E. congruence.
  - eapply agent_off_ext; [|exact Hoff]. pose proof (late_ungrant_frame _ _ _ _ _ _ _ _ H) as E. congruence.
  - apply late_activate_inv in H as (ver & ag & _ & _ & _ & Ha & _ & ->).
    destruct Hoff as (ag' & Ha' & Hs). unfold agent_off. simpl. destruct (decide (a = a0)) as [->|Hne].
    + rewrite lookup_insert_eq. simplify_eq. eauto.
    + rewrite lookup_insert_ne by done. eauto.
  - apply (disable_found_registry _ h) in H as (ag & Ha & Hreg); [|done].
    unfold registry in Hreg. injection Hreg as Hag _ _ _ _. destruct Hoff as (ag' & Ha' & Hs).
    unfold agent_off. rewrite Hag. simpl. destruct (decide (a = a0)) as [->|Hne].
    + rewrite lookup_insert_eq. eauto.
    + rewrite lookup_insert_ne by done. eauto.
  - eapply agent_off_ext; [|exact Hoff]. pose proof (late_submit_frame _ _ _ _ _ _ _ _ _ H) as E.
    unfold registry in E. congruence.
Qed.

(** No grant of a version changes that was released whenever a grant request
    looked at its status. *)
Lemma late_write_grants v d h d' :
  history (d :: h) → Forall (status_in [VersionStatus.ACTIVE] v) (d :: h) →
  late_write (d :: h) d d' → grants_kept d v d'.
Proof.
  intros Hh Hall Hw. pose proof (Forall_inv Hall) as (row & Hrow & Hact%list_elem_of_singleton).
  rewrite Forall_forall in Hall.
  assert (∀ da w ds, reads (d :: h) (da :: ds) →
    (∃ d2 t ver, unreleased w t da = inr (ver, d2)) → w ≠ v) as Hother.
  { intros da w ds Hr (d2 & t & ver & (_ & Hw' & Hnot)%unreleased_inv) ->.
    destruct (Hall da) as (row2 & Hrow2 & Hst%list_elem_of_singleton); [by eapply reads_in; [exact Hr|left]|].
    congruence. }
  assert (grants_kept d v d) as Hnow by by intros i. late_cases Hw.
  - destruct (respond_cases env rq t d) as [(s & d' & H & ->)|(e & _ & ->)]; [|done].
    by eapply handle_grants.
  - intros i. unfold version_grant. pose proof (late_put_route_frame _ _ _ _ _ _ _ _ H) as [=]. congruence.
  - unfold late_grant in H. apply bind_ok in H as (ver & d1 & [-> [d2 Hun]]%reading_ok & H).
    assert (w ≠ v) as Hne by (eapply Hother; [exact Hr|eauto]).
    match type of H with ?m _ _ = _ => assert (Preserves (grants_kept d v) m) as Hm end.
    { preserves_walk ltac:(first [apply audit_kept|by apply grant_tool_kept|apply preserves_reader, _]). }
    by eapply Hm; [|exact H].
  - unfold late_ungrant in H. apply bind_ok in H as (ver & d1 & [-> [d2 Hun]]%reading_ok & H).
    assert (w ≠ v) as Hne by (eapply Hother; [exact Hr|eauto]).
    match type of H with ?m _ _ = _ => assert (Preserves (grants_kept d v) m) as Hm end.
    { preserves_walk ltac:(first [apply audit_kept|by apply revoke_grant_kept|apply preserves_reader, _]). }
    by eapply Hm; [|exact H].
  - by apply late_activate_inv in H as (ver & ag & _ & _ & _ & _ & _ & ->).
  - apply (disable_found_registry _ h) in H as (ag & _ & Hreg); [|done].
    unfold registry in Hreg. injection Hreg as _ _ _ _ Hg. intros i. unfold version_grant. by rewrite Hg.
  - pose proof (late_submit_frame _ _ _ _ _ _ _ _ _ H) as E. unfold registry in E.
    injection E as _ _ _ _ Hg. intros i. unfold version_grant. by rewrite Hg.
Qed.

(** ** Along a history *)

Lemma late_run_stays S v d0 h :
  closed_statuses S → reachable d0 → status_in S v d0 → late_run d0 h → Forall (status_in S v) h.
Proof.
  intros HS Hd0 H0. apply late_run_ind_inv; [done|done|].
  intros d h' d' Hh Hall [d1 Hw|t d1 _ Hreg _]; [by eapply late_write_stays|].
  eapply status_in_ext; [|by apply Forall_inv in Hall]. unfold registry in Hreg. congruence.
Qed.

Lemma late_run_grants v d0 h :
  reachable d0 → late_run d0 h → Forall (status_in [VersionStatus.ACTIVE] v) h →
  Forall (grants_kept d0 v) h.
Proof.
  intros Hd0. induction 1 as [|d h d' Hrun IH Hm]; intros Hall.
  { constructor; [by intros i|done]. }
  apply Forall_cons in Hall as [_ Hall]. specialize (IH Hall). constructor; [|done].
  pose proof (Forall_inv IH) as Hd. destruct Hm as [d1 Hw|t d1 _ Hreg _].
  - pose proof (late_write_grants v d h d1 (late_run_history _ _ Hd0 Hrun) Hall Hw) as Hg.
    intros i. by rewrite Hg.
  - unfold registry in Hreg. injection Hreg as _ _ _ _ Hg. intros i. unfold version_grant. rewrite Hg. apply Hd.
Qed.

(** C14: a released version is frozen. Take a version ACTIVE in a reachable
    state [d0], and any run of the service from there, its requests checking
    what may be out of date. The version's row never changes but for its
    status, which is ACTIVE or DISABLED; and as long as no moment of the run
    has it DISABLED, the row is the same and it has exactly the grants it had.
    A version DISABLED at [d0] keeps its row for good. The requests that
    escape this are those already under way at [d0]: see
    [late_grant_widens_release] and [late_release_revives]. *)
Theorem released_version_is_frozen d0 d h v row :
  reachable d0 → late_run d0 (d :: h) → agent_versions d0 !! v = Some row →
  (v_status row = VersionStatus.ACTIVE →
     (∃ s, agent_versions d !! v = Some (version_with s row) ∧
        s ∈ [VersionStatus.ACTIVE; VersionStatus.DISABLED]) ∧
     ((∀ x, x ∈ d :: h → v_status <$> agent_versions x !! v ≠ Some VersionStatus.DISABLED) →
        agent_versions d !! v = Some row ∧ ∀ i, version_grant d v i = version_grant d0 v i)) ∧
  (v_status row = VersionStatus.DISABLED → agent_versions d !! v = Some row).
Proof.
  intros Hd0 Hrun Hrow. pose proof (late_run_history _ _ Hd0 Hrun) as Hh.
  assert (∃ s, agent_versions d !! v = Some (version_with s row)) as [s Hv].
  { apply (ev_versions d0 d); [|done]. apply steps_evolves.
    pose proof (history_now _ _ Hh) as Hnow. rewrite Forall_forall in Hnow. apply Hnow. clear -Hrun.
    remember (d :: h) as l. clear Heql. induction Hrun; [by left|by right]. }
  assert (∀ S, closed_statuses S → v_status row ∈ S → Forall (status_in S v) (d :: h)) as Hstays.
  { intros S HS Hin. apply (late_run_stays S v d0); [done..| |done]. by exists row. }
  split; intros Hst.
  - pose proof (Hstays _ closed_released) as Hall. rewrite Hst in Hall. specialize (Hall ltac:(by left)).
    split.
    + exists s. split; [done|]. destruct (Forall_inv Hall) as (row2 & Hrow2 & Hin). by simplify_eq.
    + intros Hnever. assert (Forall (status_in [VersionStatus.ACTIVE] v) (d :: h)) as Hact.
      { rewrite Forall_forall in Hall |- *. intros x Hx. destruct (Hall x Hx) as (r & Hr & Hin).
        exists r. split; [done|]. specialize (Hnever x Hx). rewrite Hr in Hnever. simpl in Hnever.
        apply elem_of_cons in Hin as [->|Hin%list_elem_of_singleton]; [by left|congruence]. }
      pose proof (late_run_grants v d0 _ Hd0 Hrun Hact) as Hg. split; [|exact (Forall_inv Hg)].
      destruct (Forall_inv Hact) as (r & Hr & Hin%list_elem_of_singleton). rewrite Hv in Hr |- *.
      injection Hr as <-. simpl in Hin. f_equal. by rewrite Hin, <-Hst, version_with_self.
  - pose proof (Hstays _ closed_disabled) as Hall. rewrite Hst in Hall. specialize (Hall ltac:(by left)).
    destruct (Forall_inv Hall) as (r & Hr & Hin%list_elem_of_singleton). rewrite Hv in Hr |- *.
    injection Hr as <-. simpl in Hin. f_equal. by rewrite Hin, <-Hst, version_with_self.
Qed.

(** ** Tasks of a disabled agent *)

(** Every task of the agent is one of [d0]'s, or was planned from one of the
    moments [before] it, when the agent was not disabled. *)
Definition work_accounted (before : list db) (d0 : db) (a : uuid) (d : db) : Prop :=
  ∀ i (r' : task_row), tasks d !! i = Some r' → pinned_to d a r' →
    (∃ r, tasks d0 !! i = Some r ∧ t_spec r' = t_spec r) ∨
    ∃ dc t env b p, dc ∈ before ∧ ¬ agent_off a dc ∧ planned env dc b p ∧
      t_spec r' = t_spec (plan_row t env b p).

Lemma work_rows before d0 a d d' :
  isolated d → evolves d d' →
  (∀ i (r' : task_row), tasks d' !! i = Some r' → ∃ r, tasks d !! i = Some r ∧ t_spec r' = t_spec r) →
  work_accounted before d0 a d → work_accounted before d0 a d'.
Proof.
  intros Hiso Hev Hrows Hacc i r' Hr' Hpin. destruct (Hrows i r' Hr') as (r & Hr & Hsp).
  rewrite Hsp. apply (Hacc i r Hr). by eapply pinned_evolves.
Qed.

(** The new task of an agent was planned when it was not disabled. *)
Lemma created_planned d0 d dc t env b p a r' :
  reachable dc → isolated dc → steps dc d →
  d0 = created_db t (plan_row t env b p) d → r' = plan_row t env b p →
  planned env dc b p → steps d d0 → pinned_to d0 a r' → ¬ agent_off a dc.
Proof.
  intros Hdc Hiso Hs -> -> Hp Hs' (v & ver' & Hpin & Hver' & Ha).
  pose proof (reachable_registry_ok _ Hdc) as Hok. change (pl_version p = Some v) in Hpin.
  destruct (planned_tenant _ _ _ _ _ Hok Hiso Hp Hpin) as [ver [Hver _]%version_tenant_spec].
  destruct (ev_versions _ _ (steps_evolves _ _ (steps_trans _ _ _ Hs Hs')) _ _ Hver) as [s Hs2].
  rewrite Hver' in Hs2. injection Hs2 as ->. by eapply planned_not_off.
Qed.

Lemma late_move_work before d0 later a d h d' :
  history (d :: h) → Forall isolated (d :: h) → d :: h = later ++ d0 :: before →
  Forall (λ x, agent_off a x ∧ work_accounted before d0 a x) (later ++ [d0]) →
  late_move (d :: h) d d' → agent_off a d' ∧ work_accounted before d0 a d'.
Proof.
  intros Hh Hiso Heq Hall Hm. pose proof (history_head _ _ Hh) as Hd.
  pose proof (late_move_steps _ _ _ (history_now _ _ Hh) Hm) as Hs. pose proof (Forall_inv Hiso) as Hd1.
  assert (agent_off a d ∧ work_accounted before d0 a d) as [Hoff Hacc].
  { rewrite Forall_forall in Hall. apply Hall. destruct later; simplify_eq/=; by left. }
  destruct Hm as [d1 Hw|t d1 Hst Hreg Hno].
  2: { split; [eapply agent_off_ext; [|done]; unfold registry in Hreg; congruence|].
       eapply work_rows; [done|by apply steps_evolves| |done].
       intros i r' Hr'. by eapply steps_no_new_spec; [apply inv_reachable| | |]. }
  split; [by eapply late_write_off|].
  destruct (late_write_tasks d h d1 Hh Hw) as [Hstop|(dc & t & env & b & p & Hin & Hp & Heq1)].
  - eapply work_rows; [done|by apply steps_evolves| |done].
    intros i r' (r & Hr & Hsp & _)%Hstop. eauto.
  - intros i r' Hr' Hpin. pose proof Hr' as Hr. rewrite Heq1 in Hr. simpl in Hr.
    apply lookup_insert_Some in Hr as [[_ Hnew]|[_ Hr]].
    + right. pose proof (history_now _ _ Hh) as Hnow. rewrite Forall_forall in Hnow, Hiso.
      assert (¬ agent_off a dc) as Hnot.
      { eapply (created_planned d1 d); [by eapply history_in|by apply Hiso|by apply Hnow|done..| |done|done].
        done. }
      exists dc, t, env, b, p. split; [|split; [done|split; [done|by rewrite <-Hnew]]].
      rewrite Heq, elem_of_app, elem_of_cons in Hin. rewrite Forall_forall in Hall.
      destruct Hin as [Hin|[->|Hin]]; [| |done]; exfalso; apply Hnot, Hall; set_solver.
    + apply (Hacc i r' Hr). eapply (pinned_evolves d d1); [done|by apply steps_evolves|done|done|done].
Qed.

Lemma late_run_work s before d0 later a :
  reachable s → isolated s → late_run s (later ++ d0 :: before) → agent_off a d0 →
  Forall (λ x, agent_off a x ∧ work_accounted before d0 a x) (later ++ [d0]).
Proof.
  intros Hs Hiso Hrun Hoff. induction later as [|d' later IH]; simpl.
  { constructor; [|done]. split; [done|]. intros i r Hr _. left. eauto. }
  simpl in Hrun. inversion Hrun as [Heq|d h d1 Hrun' Hm [Heq1 Heq]]; [by destruct later|subst d1].
  rewrite <-Heq in IH. specialize (IH Hrun'). constructor; [|done].
  eapply late_move_work; [by eapply late_run_history| |exact Heq|done|done].
  by eapply late_run_isolated.
Qed.

(** C15: a disabled agent gets no new work. Once a run of the service, with
    checks that may be out of date, has disabled an agent, the agent stays
    disabled; and a task pinned to one of its versions at any later moment was
    there when it was disabled, or was submitted by a request that had
    resolved its route before, when the agent was not disabled. If no such
    request was under way, every one was there. *)
Theorem disabled_agent_gets_no_work before d0 later d a :
  late_run empty_db (later ++ d0 :: before) → agent_off a d0 → d ∈ later →
  agent_off a d ∧
  ∀ i (r' : task_row), tasks d !! i = Some r' → pinned_to d a r' →
    ((∃ r, tasks d0 !! i = Some r ∧ t_spec r' = t_spec r) ∨
     ∃ dc t env b p, dc ∈ before ∧ ¬ agent_off a dc ∧ planned env dc b p ∧
       t_spec r' = t_spec (plan_row t env b p)) ∧
    (late_run d0 (later ++ [d0]) → ∃ r, tasks d0 !! i = Some r ∧ t_spec r' = t_spec r).
Proof.
  intros Hrun Hoff Hd. pose proof (late_run_history _ _ (steps_refl empty_db) Hrun) as Hh.
  pose proof (late_run_isolated _ _ (steps_refl empty_db) isolated_empty Hrun) as Hiso.
  pose proof (late_run_work _ _ _ _ _ (steps_refl empty_db) isolated_empty Hrun Hoff) as Hall.
  assert (d ∈ later ++ [d0]) as Hin by (apply elem_of_app; by left).
  pose proof Hall as Hall2. rewrite Forall_forall in Hall2. destruct (Hall2 d Hin) as [Hd_off Hacc].
  split; [done|]. intros i r' Hr' Hpin. split; [by apply Hacc|]. intros Hrun2.
  assert (d0 ∈ later ++ d0 :: before) as Hd0 by (apply elem_of_app; right; by left).
  rewrite Forall_forall in Hiso.
  pose proof (late_run_work d0 [] d0 later a (history_in _ _ Hh Hd0) (Hiso _ Hd0) Hrun2 Hoff) as Hclean.
  rewrite Forall_forall in Hclean. destruct (proj2 (Hclean d Hin) i r' Hr' Hpin)
    as [?|(dc & t & env & b & p & []%elem_of_nil & _)]; done.
Qed.

(** ** Witnesses *)

Lemma served_by_steps d l : steps d (served_by d l).
Proof.
  revert d. induction l as [|[rq t] l IH]; intros d; [apply steps_refl|]. simpl.
  eapply steps_trans; [apply respond_steps|apply IH].
Qed.

(** From the release on: a submission; then the agent is disabled. *)
Definition rl_submit : list (request * txn) := [(PostTask ex_routed, txn_new 8 40)].
Definition rl_disable : list (request * txn) := [(DisableAgent 20, txn_at 9)].

Lemma released_version_is_frozen_witness :
  ∃ row, agent_versions sv_released !! 21%N = Some row ∧ v_status row = VersionStatus.ACTIVE ∧
    agent_versions sv_queued !! 21%N = Some row ∧ is_Some (version_grant sv_queued 21 30) ∧
    (∃ s, agent_versions sv_disabled !! 21%N = Some (version_with s row)).
Proof.
  assert (∃ row, agent_versions sv_released !! 21%N = Some row ∧ v_status row = VersionStatus.ACTIVE)
    as (row & Hrow & Hact) by (eexists; vm_compute; split; reflexivity).
  assert (reachable sv_released) as Hd by exact (served_by_steps empty_db sv_release).
  assert (late_run sv_released [sv_queued; sv_released]) as H1
    by exact (history_by_runs rl_submit _ _ (late_start sv_released)).
  assert (late_run sv_released [sv_disabled; sv_queued; sv_released]) as H2
    by exact (history_by_runs rl_disable _ _ H1).
  assert (is_Some (version_grant sv_released 21 30)) as Hg by (eexists; vm_compute; reflexivity).
  assert (v_status <$> agent_versions sv_queued !! 21%N = Some VersionStatus.ACTIVE) as E1
    by (vm_compute; reflexivity).
  exists row. split; [exact Hrow|]. split; [exact Hact|].
  destruct (proj1 (released_version_is_frozen _ _ _ 21%N row Hd H1 Hrow) Hact) as [_ Hfrozen].
  destruct Hfrozen as [Hsame Hgrants].
  { intros x Hx. apply elem_of_cons in Hx as [->|Hx]; [by rewrite E1|].
    apply list_elem_of_singleton in Hx as ->. rewrite Hrow. simpl. by rewrite Hact. }
  destruct (proj1 (released_version_is_frozen _ _ _ 21%N row Hd H2 Hrow) Hact) as [[s [Hs _]] _].
  split; [exact Hsame|]. split; [rewrite Hgrants; exact Hg|]. exists s. exact Hs.
Defined.

(** The moments of [sv_disabled], and after it a submission that is refused
    and one that had resolved its route before. *)
Definition ex_other : TaskCreate :=
  MkTaskCreate 1 None (Some "research") {[ "q" := JStr "y" ]} (Some "req-2") 100 3 300 None.
Definition rl_before : list db := history_by rl_submit (history_by sv_release [empty_db]).
Definition rl_queued : db := latest rl_before.
Definition rl_off : db := latest (history_by rl_disable rl_before).
Definition rl_refused : db := (respond ex_env (PostTask ex_other) (txn_new 10 41) rl_off).2.
Definition rl_escaped : db :=
  after (late_submit rl_queued rl_queued rl_queued ex_env ex_other) (txn_new 11 42) rl_refused.

Lemma rl_before_run : late_run empty_db rl_before.
Proof. do 2 apply history_by_runs. apply late_start. Qed.

Lemma rl_refused_run : late_run empty_db (rl_refused :: rl_off :: rl_before).
Proof.
  exact (history_by_runs [(PostTask ex_other, txn_new 10 41)] _ _
    (history_by_runs rl_disable _ _ rl_before_run)).
Qed.

Lemma rl_refused_run_off : late_run rl_off ([rl_refused] ++ [rl_off]).
Proof. exact (history_by_runs [(PostTask ex_other, txn_new 10 41)] _ _ (late_start rl_off)). Qed.

Lemma rl_escaped_run : late_run empty_db ([rl_escaped; rl_refused] ++ rl_off :: rl_before).
Proof.
  assert (∃ r, late_submit rl_queued rl_queued rl_queued ex_env ex_other (txn_new 11 42) rl_refused
    = inr (r, rl_escaped)) as [r H] by (eexists; vm_compute; reflexivity).
  apply late_next; [exact rl_refused_run|]. apply move_write.
  refine (write_task _ _ _ _ _ _ _ _ _ _ _ (eq_refl : validate_task ex_other = true) H).
  pose proof (late_run_latest _ _ rl_before_run) as Heq.
  assert (reads (rl_refused :: rl_off :: rl_queued :: tail rl_before) [rl_queued; rl_queued; rl_queued])
    as Hr by (do 3 (exists 2%nat; split; [reflexivity|]); exact I).
  change (rl_queued) with (latest rl_before) in Hr at 1. by rewrite <-Heq in Hr.
Qed.

Lemma disabled_agent_gets_no_work_witness :
  agent_off 20 rl_escaped ∧ ¬ agent_off 20 rl_queued ∧
  (∃ r : task_row, tasks rl_escaped !! 42%N = Some r ∧ pinned_to rl_escaped 20 r ∧
     ∃ dc t env b p, dc ∈ rl_before ∧ ¬ agent_off 20 dc ∧ planned env dc b p ∧
       t_spec r = t_spec (plan_row t env b p)) ∧
  ∀ i (r' : task_row), tasks rl_refused !! i = Some r' → pinned_to rl_refused 20 r' →
    ∃ r, tasks rl_off !! i = Some r ∧ t_spec r' = t_spec r.
Proof.
  assert (agent_off 20 rl_off) as Hoff.
  { assert (ag_status <$> agents rl_off !! 20%N = Some AgentStatus.DISABLED) as H
      by (vm_compute; reflexivity).
    apply fmap_Some in H as (ag & Ha & Hs). exists ag. split; [exact Ha|exact (eq_sym Hs)]. }
  destruct (disabled_agent_gets_no_work rl_before rl_off [rl_escaped; rl_refused] rl_escaped 20%N
    rl_escaped_run Hoff ltac:(by left)) as [H1 H2].
  destruct (disabled_agent_gets_no_work rl_before rl_off [rl_refused] rl_refused 20%N
    rl_refused_run Hoff ltac:(by left)) as [_ H3].
  assert (∃ r : task_row, tasks rl_escaped !! 42%N = Some r ∧ t_agent_version_id r = Some 21%N)
    as (r & Hr & Hv) by (eexists; split; [vm_compute; reflexivity|reflexivity]).
  assert (v_agent_id <$> agent_versions rl_escaped !! 21%N = Some 20%N) as Hver by (vm_compute; reflexivity).
  apply fmap_Some in Hver as (ver & Hver & Ha).
  assert (pinned_to rl_escaped 20 r) as Hpin by (exists 21%N, ver; split; [exact Hv|split; [exact Hver|exact (eq_sym Ha)]]).
  split; [exact H1|]. split.
  { intros (ag & Hag & Hs). assert (ag_status <$> agents rl_queued !! 20%N = Some AgentStatus.ACTIVE) as E
      by (vm_compute; reflexivity). rewrite Hag in E. simpl in E. congruence. }
  split.
  - exists r. split; [exact Hr|]. split; [exact Hpin|].
    destruct (proj1 (H2 42%N r Hr Hpin)) as [(r0 & Hr0 & _)|H]; [|exact H].
    assert (tasks rl_off !! 42%N = None) as E by (vm_compute; reflexivity). rewrite E in Hr0. discriminate Hr0.
  - intros i r' Hr' Hpin'. exact (proj2 (H3 i r' Hr' Hpin') rl_refused_run_off).
Defined.
