(* ===== verification/WorkerProps.v ===== *)
(** * What a worker's runs guarantee

    Invariants of a worker process next to the running system, by induction
    over its runs: whose attempts it works on, which tools it invokes, how
    many attempts it holds, what it may still write once fenced, and that no
    attempt gets stuck. *)

From S2P Require Import Prelude PyStr Json States Errors Retry Policy Capability Authz Db Config.
From S2P Require Import Adapters Samples Transitions Completion Lease Workers Claim Reap Tasks.
From S2P Require Import Agents Tools Tracing Worker Frames Registry Effects Protocol Scenario WorkerRun.
From S2P Require Import Governance.
From ITree Require Import ITree.
#[local] Open Scope Z_scope.

(** ** Stability along runs *)

(** An attempt keeps its worker. *)
Lemma tstep_attempt d d' i a x :
  vinv d i → tstep i d d' → task_attempts d !! (i, a) = Some x →
  ∃ x', task_attempts d' !! (i, a) = Some x' ∧ a_worker_id x' = a_worker_id x.
Proof.
  intros Hv Ht Hx. destruct Ht as
    [evs Hrow Hlog Hq Hnone Hatt|r0 r' evs Hr0 Hr' Htch _ _ Hatt|r' e Hr0 _ _ _ _ Hatt
    |w r0 r' e at_ Hr0 Hr' Hst _ _ Hfree _ _ _ _ _ Hold
    |to o' r0 r' e evs Hr0 Hr' Hl _ _ _ _ Hcl Hold|r0 r' e Hr0 Hr' Hst _ _ Hatt];
    try (rewrite Hatt; eauto).
  - rewrite Hold; [eauto|]. by intros ->; simplify_eq.
  - destruct (decide (a = t_attempt r0)) as [->|Hne]; [|rewrite Hold by done; eauto].
    rewrite Hx in Hcl. simpl in Hcl. destruct (task_attempts d' !! _) as [y|]; [|done].
    exists y. split; [done|]. tauto.
Qed.

Lemma steps_attempt d d' i a x :
  inv d → steps d d' → task_attempts d !! (i, a) = Some x →
  ∃ x', task_attempts d' !! (i, a) = Some x' ∧ a_worker_id x' = a_worker_id x.
Proof.
  intros Hinv Hs Hx.
  apply (steps_ind_inv (λ d2, ∃ x', task_attempts d2 !! (i, a) = Some x' ∧
    a_worker_id x' = a_worker_id x) d d' Hinv); [eauto| |done].
  intros t d1 d2 Hinv1 _ (x1 & H1 & Hw1) Hst.
  destruct (tstep_attempt d1 d2 i a x1) as (x2 & H2 & Hw2); [by apply inv_view| |done|].
  { by eapply step_tstep. }
  exists x2. split; [done|congruence].
Qed.

Lemma steps_spec d d' i (r : task_row) :
  inv d → steps d d' → tasks d !! i = Some r →
  ∃ r' : task_row, tasks d' !! i = Some r' ∧ t_spec r' = t_spec r.
Proof.
  intros Hinv Hs Hx.
  apply (steps_ind_inv (λ d2, ∃ r' : task_row, tasks d2 !! i = Some r' ∧ t_spec r' = t_spec r)
    d d' Hinv); [eauto| |done].
  intros t d1 d2 Hinv1 _ (x1 & H1 & Hw1) Hst.
  destruct (tstep_row i d1 d2 x1) as (x2 & H2 & Hw2 & _); [by eapply step_tstep|done|].
  exists x2. split; [done|congruence].
Qed.

(** ** One attempt *)

(** The tool whose call is under way. *)
Definition in_call (c : coroutine) (tool : ToolRef) : Prop :=
  match co_phase c with
  | Invoking tl _ _ | Reporting tl _ _ => tl = tool
  | _ => False
  end.

(** [cf]'s worker was granted attempt [a] of task [i]. *)
Definition granted_attempt (cf : worker_config) (d : db) (i : uuid) (a : Z) : Prop :=
  ∃ x, task_attempts d !! (i, a) = Some x ∧ a_worker_id x = cf_worker_id cf.

Record co_ok (cf : worker_config) (d : db) (c : coroutine) : Prop := {
  ok_granted : granted_attempt cf d (t_id (co_row c)) (t_attempt (co_row c));
  ok_pinned : ∃ r : task_row, tasks d !! t_id (co_row c) = Some r ∧ t_spec r = t_spec (co_row c);
  ok_policy : co_policy c = UNGOVERNED ∨
    ∃ ms v ver te, seen_before ms d ∧ t_agent_version_id (co_row c) = Some v ∧
      version_tenant (sees_versions ms) v = Some (ver, te) ∧ v_id ver = v ∧
      task_attempts (sees_grants ms) !! (t_id (co_row c), t_attempt (co_row c)) = None ∧
      co_policy c = policy_of ms ver te;
  ok_tool : ∀ tool, in_call c tool →
    ∃ name, allowed (authorize (co_policy c) name) = true ∧
            decision_tool (authorize (co_policy c) name) = Some tool;
  ok_stop : match co_phase c with
            | Joining _ | Finalising _ | Rejected _ _ | Unwinding => co_stop c = true
            | _ => True end;
}.

Lemma granted_steps cf d d' i a :
  inv d → steps d d' → granted_attempt cf d i a → granted_attempt cf d' i a.
Proof.
  intros Hinv Hs (x & Hx & Hw). destruct (steps_attempt _ _ _ _ _ Hinv Hs Hx) as (x' & Hx' & Hw').
  exists x'. split; [done|congruence].
Qed.

Lemma co_ok_steps cf d d' c : inv d → steps d d' → co_ok cf d c → co_ok cf d' c.
Proof.
  intros Hinv Hs []. split; try done.
  - by eapply granted_steps.
  - destruct ok_pinned0 as (r & Hr & Hsp). destruct (steps_spec _ _ _ _ Hinv Hs Hr) as (r' & Hr' & Hsp').
    exists r'. split; [done|congruence].
  - destruct ok_policy0 as [?|(ms & v & ver & te & ? & ?)]; [by left|right].
    exists ms, v, ver, te. split; [by eapply seen_before_steps|done].
Qed.

(** A coroutine keeps its row and its policy. *)
Lemma co_step_same cf t d s c d' s' c' :
  co_step cf t (d, s, c) (d', s', c') → co_row c' = co_row c ∧ co_policy c' = co_policy c.
Proof.
  inversion 1; subst; try done.
  - unfold start_attempt. by destruct (get_adapter _ _).
  - unfold after_renewal. by destruct res.
  - unfold after, after_finalize. by destruct (applied res).
Qed.

Lemma co_step_ok cf t d s c d' s' c' :
  co_step cf t (d, s, c) (d', s', c') → co_ok cf d c → co_ok cf d c'.
Proof.
  intros Hst Hok. destruct (co_step_same _ _ _ _ _ _ _ _ Hst) as [Hr Hp].
  destruct Hok. split; rewrite ?Hr, ?Hp; try done.
  - unfold in_call in *. inversion Hst; subst; simpl; try done.
    + unfold start_attempt. by destruct (get_adapter _ _).
    + intros ? <-. eauto.
    + match goal with H : co_phase _ = Invoking _ _ _ |- _ => rewrite H in ok_tool0 end.
      intros ? <-. by apply ok_tool0.
    + destruct res; exact ok_tool0.
    + unfold after, after_finalize. by destruct (applied res).
  - inversion Hst; subst; simpl; try done.
    + unfold start_attempt. by destruct (get_adapter _ _).
    + destruct res; exact ok_stop0.
    + match goal with H : co_phase _ = Joining _ |- _ => by rewrite H in ok_stop0 end.
    + match goal with H : co_phase _ = Finalising _ |- _ => rewrite H in ok_stop0 end.
      unfold after, after_finalize. by destruct (applied res).
Qed.

(** ** The ownership dict *)

Lemma elem_of_set_owned i a l j b : (j, b) ∈ set_owned i a l → (j, b) = (i, a) ∨ (j, b) ∈ l.
Proof.
  unfold set_owned. case_bool_decide.
  - intros ([k c] & Heq & Hin)%list_elem_of_fmap. case_bool_decide; simplify_eq; auto.
  - rewrite elem_of_app, list_elem_of_singleton. naive_solver.
Qed.

Lemma elem_of_pop_owned i l j b : (j, b) ∈ pop_owned i l ↔ j ≠ i ∧ (j, b) ∈ l.
Proof. unfold pop_owned. by rewrite list_elem_of_filter. Qed.

Lemma co_step_owned cf t d s c d' s' c' j b :
  co_step cf t (d, s, c) (d', s', c') → (j, b) ∈ sh_owned s' →
  (j, b) = (t_id (co_row c), t_attempt (co_row c)) ∨ (j, b) ∈ sh_owned s.
Proof.
  inversion 1; subst; simpl; auto; try (by intros [_ ?]%elem_of_pop_owned; auto).
  - by intros ?%elem_of_set_owned.
  - unfold after, after_finalize. destruct (applied res); simpl; [|auto].
    intros [_ ?]%elem_of_pop_owned. auto.
Qed.

Lemma cancel_coroutine_same c s c' s' :
  cancel_coroutine c s = (c', s') →
  co_row c' = co_row c ∧ co_policy c' = co_policy c ∧ (∀ x, x ∈ sh_owned s' → x ∈ sh_owned s).
Proof.
  unfold cancel_coroutine. destruct (co_phase c); intros [= <- <-]; split_and!; try done;
    intros [j b] [_ ?]%elem_of_pop_owned; done.
Qed.

Lemma cancel_coroutine_ok cf d c s : co_ok cf d c → co_ok cf d (cancel_coroutine c s).1.
Proof.
  intros []. unfold cancel_coroutine. destruct (co_phase c) eqn:E; split; simpl; try done;
    by rewrite E.
Qed.

Lemma cancel_all_spec cf d cs s cs' s' :
  cancel_all cs s = (cs', s') →
  length cs' = length cs ∧ (Forall (co_ok cf d) cs → Forall (co_ok cf d) cs') ∧
  (∀ x, x ∈ sh_owned s' → x ∈ sh_owned s).
Proof.
  revert s cs' s'. induction cs as [|c cs IH]; intros s cs' s'; simpl; [by intros [= <- <-]|].
  pose proof (cancel_coroutine_ok cf d c s) as Hok.
  destruct (cancel_coroutine c s) as [c1 s1] eqn:E1.
  destruct (cancel_all cs s1) as [cs2 s2] eqn:E2. intros [= <- <-].
  apply cancel_coroutine_same in E1 as (_ & _ & Hs1).
  apply IH in E2 as (Hl & Hcs & Hs2). split; [simpl; lia|]. split; [|auto].
  intros [? ?]%Forall_cons. constructor; auto.
Qed.

(** ** The invariant of a worker *)

Definition todo_of (m : main_phase) : list (uuid * Z) :=
  match m with HandingBack todo => todo | _ => [] end.

(** Where a fenced worker's main loop can be. *)
Definition leaving (m : main_phase) : Prop :=
  match m with Claiming | Draining | FencedExit | Exited => True | _ => False end.

Record wk_ok (cf : worker_config) (x : db * worker) : Prop := {
  wo_db : reachable x.1;
  wo_cos : Forall (co_ok cf x.1) (wk_inflight x.2);
  wo_owned : ∀ i a, (i, a) ∈ sh_owned (wk_shared x.2) ++ todo_of (wk_main x.2) →
    granted_attempt cf x.1 i a;
  wo_capacity : Z.of_nat (length (wk_inflight x.2)) ≤ Z.max 0 (cf_capacity cf);
  wo_fenced : wk_fenced x.2 = true → wk_stopping x.2 = true ∧ leaving (wk_main x.2);
}.

Lemma wk_ok_db cf d d' w t : wk_ok cf (d, w) → d' = d ∨ step t d d' → wk_ok cf (d', w).
Proof.
  intros Hok [->|Hst]; [done|]. destruct Hok; simpl in *.
  assert (inv d) as Hinv by (by apply inv_reachable).
  assert (steps d d') as Hs by (eapply steps_snoc; [apply steps_refl|done]).
  split; simpl; try done.
  - by eapply steps_snoc.
  - eapply Forall_impl; [done|]. intros c. by apply co_ok_steps.
  - intros i a Hin. eapply granted_steps; eauto.
Qed.

(** The claimed coroutines start well. *)
Lemma claimed_rows cf ms limit t d claimed policies d' (row : task_row) :
  reachable d → claims cf ms limit t d claimed policies d' → row ∈ claimed →
  tasks d' !! t_id row = Some row ∧ t_state row = State.RUNNING ∧
  t_lease_worker_id row = Some (cf_worker_id cf).
Proof.
  intros Hd (ids & Hch & Hc & _) Hrow.
  assert (ids_ok d) as Hids by (by apply inv_ids, inv_reachable).
  apply (chosen_inv t d limit (cf_capabilities cf)) in Hc as (rs & _ & Ht & _ & -> & -> & _); [|done..].
  apply list_elem_of_fmap in Hrow as (r & -> & Hr).
  pose proof (proj2 Ht _ Hr) as Hlook.
  rewrite claimed_tasks, claimed_row_spec, lookup_update_where, Hlook. simpl.
  rewrite bool_decide_eq_true_2; [done|]. apply list_elem_of_fmap. eauto.
Qed.

(** Its attempt did not exist when the policy was read. *)
Lemma claimed_unstarted cf ms limit t d claimed policies d' (row : task_row) :
  seen_before ms d → reachable d → claims cf ms limit t d claimed policies d' → row ∈ claimed →
  task_attempts (sees_grants ms) !! (t_id row, t_attempt row) = None.
Proof.
  intros Hms Hd (ids & Hch & Hc & _) Hrow.
  apply (chosen_inv t d limit (cf_capabilities cf)) in Hc as (rs & _ & _ & _ & -> & _ & Hrs);
    [|by apply inv_ids, inv_reachable|done].
  apply list_elem_of_fmap in Hrow as (r & -> & Hr). destruct (Hrs r Hr) as (_ & _ & Hno & _).
  apply eq_None_not_Some. intros [x Hx]. destruct (seen_reachable _ _ Hms) as (_ & _ & Hg).
  destruct (steps_attempt _ _ _ _ _ (inv_reachable _ Hg) (sb_now _ _ Hms) Hx) as (x' & Hx' & _).
  simpl in Hx'. congruence.
Qed.

Lemma claimed_length cf ms limit t d claimed policies d' :
  reachable d → claims cf ms limit t d claimed policies d' →
  Z.of_nat (length claimed) ≤ Z.max limit 0.
Proof.
  intros Hd (ids & Hch & Hc & _). pose proof Hch as (_ & Hl & _).
  apply (chosen_inv t d limit (cf_capabilities cf)) in Hc as (rs & -> & _ & _ & -> & _);
    [|by apply inv_ids, inv_reachable|done].
  rewrite length_fmap. etrans; [|exact Hl]. unfold ids_of. by rewrite length_fmap.
Qed.

Lemma version_tenant_id d v ver te :
  registry_ok d → version_tenant d v = Some (ver, te) → v_id ver = v.
Proof.
  intros Hok Hvt. unfold version_tenant in Hvt. apply bind_Some in Hvt as (ver' & Hv & Hvt).
  apply bind_Some in Hvt as (a & _ & [= <- _]). by apply (rg_versions _ Hok).
Qed.

Lemma reachable_versions_keyed d : reachable d → versions_keyed d.
Proof. intros Hd i v Hv. by apply (rg_versions _ (reachable_registry_ok d Hd)). Qed.

Lemma new_coroutine_ok cf ms limit t d claimed policies d' (row : task_row) :
  seen_before ms d → reachable d' → claims cf ms limit t d claimed policies d' →
  row ∈ claimed → co_ok cf d' (new_coroutine policies row).
Proof.
  intros Hms Hd' H Hrow. assert (reachable d) as Hd.
  { destruct (seen_reachable _ _ Hms) as (_ & _ & Hg). eapply steps_trans; [exact Hg|apply (sb_now _ _ Hms)]. }
  destruct (claimed_rows _ _ _ _ _ _ _ _ _ Hd H Hrow) as (Hlook & Hs & Hw).
  pose proof (inv_reachable _ Hd') as Hinv. split; simpl; try done.
  - pose proof (vinv_row _ _ _ (inv_view _ Hinv (t_id row)) Hlook) as Hi.
    destruct (proj2 (ti_attempts _ _ _ Hi (t_attempt row))) as [x Hx].
    { split; [|done]. apply (ti_started _ _ _ Hi). rewrite Hs. by left. }
    exists x. split; [done|]. pose proof (ti_owner _ _ _ Hi _ Hs Hx). congruence.
  - eauto.
  - pose proof (claims_step _ _ _ _ _ _ _ _ H) as Hst.
    pose proof (claimed_unstarted _ _ _ _ _ _ _ _ _ Hms Hd H Hrow) as Hno. destruct H as (ids & _ & _ & ->).
    unfold policy_for. destruct (t_agent_version_id row) as [v|] eqn:Hv; [|by left].
    destruct (snapshot_policies _ _ !! v) as [pol|] eqn:Hpol; [right|by left]. simpl.
    apply snapshot_inv in Hpol as (ver & te & Hvt & Hid & ->);
      [|by apply reachable_versions_keyed, (seen_reachable _ _ Hms)].
    exists ms, v, ver, te. split; [|done]. eapply seen_before_steps; [done|].
    eapply steps_snoc; [apply steps_refl|done].
Qed.

(** What a main step does to the worker, its transaction aside. *)
Lemma wk_ok_same cf d w w' :
  wk_ok cf (d, w) → wk_inflight w' = wk_inflight w →
  (∀ x, x ∈ sh_owned (wk_shared w') ++ todo_of (wk_main w') →
        x ∈ sh_owned (wk_shared w) ++ todo_of (wk_main w)) →
  (wk_fenced w' = true → wk_stopping w' = true ∧ leaving (wk_main w')) →
  wk_ok cf (d, w').
Proof.
  intros [] Hi Ho Hf. simpl in *. split; simpl; rewrite ?Hi; try done.
  intros i a Hin. by apply wo_owned0, Ho.
Qed.

Lemma wk_ok_inflight cf d w cs s :
  wk_ok cf (d, w) → Forall (co_ok cf d) cs →
  Z.of_nat (length cs) ≤ Z.max 0 (cf_capacity cf) →
  (∀ i a, (i, a) ∈ sh_owned s → granted_attempt cf d i a) → wk_ok cf (d, wk_with cs s w).
Proof.
  intros [] Hcs Hl Ho. simpl in *. split; simpl; try done.
  intros i a [?|?]%elem_of_app; [by apply Ho|]. apply wo_owned0, elem_of_app. by right.
Qed.

Lemma wk_ok_owned cf d w i a :
  wk_ok cf (d, w) → (i, a) ∈ sh_owned (wk_shared w) → granted_attempt cf d i a.
Proof. intros Hok Hin. eapply (wo_owned _ _ Hok), elem_of_app. by left. Qed.

Lemma wk_ok_harvest cf d w : wk_ok cf (d, w) → wk_ok cf (d, harvest w).
Proof.
  intros Hok. apply wk_ok_inflight; [done| | |].
  - pose proof (wo_cos _ _ Hok) as Hcs. rewrite Forall_forall in Hcs |- *.
    intros c [_ Hc]%list_elem_of_filter. by apply Hcs.
  - pose proof (wo_capacity _ _ Hok) as Hc. simpl in Hc.
    pose proof (length_filter (λ c, is_done c = false) (wk_inflight w)). lia.
  - intros i a. by apply wk_ok_owned.
Qed.

Lemma wk_ok_cancel cf d w : wk_ok cf (d, w) → wk_ok cf (d, cancel_inflight w).
Proof.
  intros Hok. unfold cancel_inflight. destruct (cancel_all _ _) as [cs s] eqn:E.
  destruct (cancel_all_spec cf d _ _ _ _ E) as (Hl & Hcs & Ho). apply wk_ok_inflight; [done| | |].
  - apply Hcs, (wo_cos _ _ Hok).
  - rewrite Hl. apply (wo_capacity _ _ Hok).
  - intros i a Hin. eapply wk_ok_owned; eauto.
Qed.

Lemma cancel_inflight_main w : wk_main (cancel_inflight w) = wk_main w ∧
  wk_fenced (cancel_inflight w) = wk_fenced w ∧ wk_stopping (cancel_inflight w) = wk_stopping w.
Proof. unfold cancel_inflight. by destruct (cancel_all _ _). Qed.

Lemma wk_ok_goto cf d w m :
  wk_ok cf (d, w) → todo_of m = [] → (wk_fenced w = true → leaving m) →
  wk_ok cf (d, wk_goto m w).
Proof.
  intros Hok Hm Hf. eapply wk_ok_same; [done|done| |].
  - simpl. rewrite Hm, app_nil_r. intros x ?. apply elem_of_app. by left.
  - simpl. intros H. split; [by apply (wo_fenced _ _ Hok)|auto].
Qed.

Lemma wk_ok_claim cf ms t d d' w claimed policies :
  seen_before ms d → wk_ok cf (d, w) → 0 < free_slots cf w →
  claims cf ms (claim_limit cf w) t d claimed policies d' →
  wk_ok cf (d', dispatch claimed policies w).
Proof.
  intros Hms Hok Hfree H. pose proof (wo_db _ _ Hok) as Hd. simpl in Hd.
  pose proof (claims_step _ _ _ _ _ _ _ _ H) as Hst.
  assert (wk_ok cf (d', w)) as Hok' by (eapply wk_ok_db; eauto).
  pose proof (wo_db _ _ Hok') as Hd'. simpl in Hd'.
  apply wk_ok_inflight; [done| | |].
  - apply Forall_app. split; [apply (wo_cos _ _ Hok')|]. apply Forall_fmap, Forall_forall.
    intros row Hrow. by eapply (new_coroutine_ok _ _ _ _ d).
  - rewrite length_app, length_fmap. pose proof (claimed_length _ _ _ _ _ _ _ _ Hd H) as Hl.
    unfold claim_limit, free_slots in *. lia.
  - intros i a. simpl. by apply wk_ok_owned.
Qed.

(** A fenced worker is not where [wk_main w] says, unless it is leaving. *)
Ltac not_fenced Hf :=
  let Hx := fresh in
  intros Hx; destruct (Hf Hx) as [? Hl];
  repeat match goal with E : wk_main _ = _ |- _ => rewrite E in Hl end; done.

Lemma main_step_ok cf t mono ms d w d' w' :
  seen_before ms d → wk_ok cf (d, w) → main_step cf t mono ms (d, w) (d', w') → wk_ok cf (d', w').
Proof.
  intros Hms Hok0 Hst. pose proof (main_step_db _ _ _ _ _ _ _ _ Hst) as Hdb.
  assert (wk_ok cf (d', w)) as Hok by (by eapply wk_ok_db).
  pose proof (wo_fenced _ _ Hok) as Hf. simpl in Hf.
  inversion Hst; subst; clear Hst;
    try (apply wk_ok_goto; [done|done|not_fenced Hf]).
  - eapply wk_ok_same; [done|done|done|]. simpl. intros Hx. split; [done|]. by apply Hf.
  - eapply wk_ok_same; [exact Hok| | |]; destruct alive; simpl; try done.
    + intros x. rewrite elem_of_app. intros [?|[]%elem_of_nil]. apply elem_of_app. by left.
    + intros x. rewrite elem_of_app. intros [?|[]%elem_of_nil]. apply elem_of_app. by left.
    + intros Hx. split; [|done]. by apply Hf.
  - eapply wk_ok_same; [exact Hok|done| |]; simpl.
    + intros x. rewrite elem_of_app. intros [?|[]%elem_of_nil]. apply elem_of_app. by left.
    + intros Hx. split; [|done]. by apply Hf.
  - apply wk_ok_goto; [by apply wk_ok_harvest|done|]. intros [Hx _]%Hf. congruence.
  - apply wk_ok_goto; [|done|intros [Hx _]%Hf; congruence]. apply wk_ok_harvest.
    eapply wk_ok_claim; [exact Hms|exact Hok0|done|]. apply claim_and_snapshot_inv; [by apply inv_ids, inv_reachable, (wo_db _ _ Hok0)|].
    match goal with H : transaction _ _ _ = _ |- _ => by apply commits_run in H end.
  - apply wk_ok_goto; [|done|intros [Hx _]%Hf; congruence]. apply wk_ok_harvest.
    eapply wk_ok_claim; [exact Hms|exact Hok0|done|]. eapply grant_and_snapshot_inv; [done|].
    match goal with H : transaction _ _ _ = _ |- _ => by apply commits_run in H end.
  - apply wk_ok_goto; [by apply wk_ok_cancel|done|done].
  - apply wk_ok_goto; [done|done|]. congruence.
  - apply wk_ok_goto; [by apply wk_ok_cancel|done|]. rewrite (proj1 (proj2 (cancel_inflight_main w))).
    not_fenced Hf.
  - eapply wk_ok_same; [exact Hok|done| |]; simpl.
    + intros x. rewrite !elem_of_app. intros [?|?]; by left.
    + not_fenced Hf.
  - eapply wk_ok_same; [exact Hok|done| |]; simpl.
    + match goal with E : wk_main w = _ |- _ => rewrite E end. simpl.
      intros x. rewrite !elem_of_app, elem_of_cons. tauto.
    + not_fenced Hf.
  - eapply wk_ok_same; [exact Hok|done| |]; simpl.
    + intros x []%elem_of_nil.
    + not_fenced Hf.
Qed.

Lemma co_sys_ok cf t d w d' n c c' s' :
  wk_ok cf (d, w) → wk_inflight w !! n = Some c →
  co_step cf t (d, wk_shared w, c) (d', s', c') →
  wk_ok cf (d', wk_with (<[n := c']> (wk_inflight w)) s' w).
Proof.
  intros Hok0 Hn Hst.
  assert (wk_ok cf (d', w)) as Hok by (eapply wk_ok_db; [done|by eapply co_step_db]).
  pose proof (wo_cos _ _ Hok0) as Hcos0. pose proof (wo_cos _ _ Hok) as Hcos. simpl in Hcos, Hcos0.
  pose proof (Forall_lookup_1 _ _ _ _ Hcos Hn) as Hc.
  apply wk_ok_inflight; [done| | |].
  - apply Forall_insert; [done|].
    pose proof (Forall_lookup_1 _ _ _ _ Hcos0 Hn) as Hc0.
    pose proof (co_step_ok _ _ _ _ _ _ _ _ Hst Hc0) as Hc'.
    destruct (co_step_db _ _ _ _ _ _ _ _ Hst) as [->|Hs]; [done|].
    eapply co_ok_steps; [|eapply steps_snoc; [apply steps_refl|done]|done].
    apply inv_reachable, (wo_db _ _ Hok0).
  - rewrite length_insert. apply (wo_capacity _ _ Hok).
  - intros i a Hin. destruct (co_step_owned _ _ _ _ _ _ _ _ _ _ Hst Hin) as [[= -> ->]|Hin'].
    + apply (ok_granted _ _ _ Hc).
    + eapply wk_ok_owned; eauto.
Qed.

Lemma sys_ok cf x y : wk_ok cf x → sys cf x y → wk_ok cf y.
Proof.
  intros Hok Hs. destruct Hs as [t mono ms d w [d' w'] Hms Hm|t d d' w n c c' s' Hn Hc|t d d' w Hst].
  - by eapply main_step_ok.
  - by eapply co_sys_ok.
  - eapply wk_ok_db; eauto.
Qed.

Lemma new_worker_ok cf d rng : reachable d → wk_ok cf (d, new_worker rng).
Proof.
  intros Hd. split; simpl; try done.
  - by intros i a ?%elem_of_nil.
  - lia.
Qed.

Lemma sys_run_ok cf x y : wk_ok cf x → sys_run cf x y → wk_ok cf y.
Proof. intros Hok Hr. induction Hr; [done|]. eapply sys_ok; [|done]. by apply IHHr. Qed.

Lemma started_ok cf x : started_run cf x → wk_ok cf x.
Proof. intros (d & rng & Hd & Hr). eapply sys_run_ok, Hr. by apply new_worker_ok. Qed.
