(* ===== verification/Interleave.v ===== *)
(** * Transactions statement by statement (db/session.py under READ COMMITTED)

    The other files run a transaction as one step.  Here the transactions
    that work on one task, completions, renewals and cancellations, are
    programs of SQL statements, and the statements of any number of sessions
    interleave: a statement sees the committed rows and its session's own
    writes; an UPDATE or SELECT FOR UPDATE that finds its row keeps it locked
    until the session ends and waits while another session holds it; nothing
    is visible to others before the commit.  [interleaving_is_serial] is what
    licenses the atomic steps. *)

From S2P Require Import Prelude PyStr Json States Capability Policy Db Samples Transitions.
From S2P Require Import Completion Lease Workers Claim Reap Tasks Effects Protocol Scenario.
From S2P Require Import Errors Retry Authz Config Adapters Agents Tools Tracing Worker Frames Registry.
From S2P Require Import WorkerRun Governance WorkerProps Guarantees.
#[local] Open Scope Z_scope.

(** ** Statements *)

(** An uncommitted row version; an event gets its number when it lands. *)
Inductive write :=
  | WTask (i : uuid) (r : task_row)
  | WEvent (e : nat → event_row)
  | WAttempt (i : uuid) (a : Z) (x : attempt_row).

Definition apply_write (d : db) (w : write) : db :=
  match w with
  | WTask i r => set_tasks (<[i := r]> (tasks d)) d
  | WEvent e => set_events (task_events d ++ [e (S (length (task_events d)))]) d
  | WAttempt i a x => set_attempts (<[(i, a) := x]> (task_attempts d)) d
  end.

(** What a session that wrote [ws] sees when [d] is committed. *)
Definition view (ws : list write) (d : db) : db := foldl apply_write d ws.

Inductive stmt : Type → Type :=
  | UpdateTask (i : uuid) (p : task_row → bool) (f : task_row → list assign) : stmt (option task_row)
  | LockTask (i : uuid) : stmt (option task_row)                      (* SELECT .. FOR UPDATE *)
  | SelectTask (i : uuid) : stmt (option task_row)
  | InsertEvent (i : uuid) (a : option Z) (ty : event_type) (w : option text) (data : jdict) : stmt unit
  | FinishAttempt (i : uuid) (a : Z) (o : outcome) (error_class error_message : option text) : stmt unit.

(** The result, the row versions written, and whether the task row is now
    locked; or the error. *)
Definition effect {X} (s : stmt X) (t : txn) (d : db) : exn + (X * list write * bool) :=
  match s with
  | UpdateTask i p f =>
      match tasks d !! i with
      | Some r =>
          if p r then
            let r' := assigns (f r) r in
            match task_error r' with
            | Some e => inl e
            | None => inr (Some r', [WTask i r'], true)
            end
          else inr (None, [], false)
      | None => inr (None, [], false)
      end
  | LockTask i => inr (tasks d !! i, [], bool_decide (is_Some (tasks d !! i)))
  | SelectTask i => inr (tasks d !! i, [], false)
  | InsertEvent i a ty w data =>
      if negb (fits_int4 (default 0 a)) then inl (DataError "attempt")
      else match tasks d !! i with
           | None => inl (IntegrityError "task_events_task_id_fkey")
           | Some _ => inr (tt, [WEvent (λ n, MkEvent n i a ty w data (now t))], false)
           end
  | FinishAttempt i a o ec em =>
      inr (tt, match task_attempts d !! (i, a) with
               | Some x => [WAttempt i a (finish_row t o ec em x)]
               | None => []
               end, false)
  end.

(** ** Programs *)

Inductive prog (A : Type) : Type :=
  | Done (a : A)
  | Throw (e : exn)
  | Do {X : Type} (s : stmt X) (k : X → prog A).
#[global] Arguments Done {A} a.
#[global] Arguments Throw {A} e.
#[global] Arguments Do {A X} s k.

Definition query {X} (s : stmt X) : prog X := Do s Done.

#[global] Instance prog_ret : MRet prog := λ A a, Done a.
#[global] Instance prog_bind : MBind prog := λ A B f,
  fix go (p : prog A) : prog B :=
    match p with
    | Done a => f a
    | Throw e => Throw e
    | Do s k => Do s (λ x, go (k x))
    end.

(** Run without anyone in between. *)
Fixpoint run {A} (p : prog A) (t : txn) (d : db) : exn + (A * db) :=
  match p with
  | Done a => inr (a, d)
  | Throw e => inl e
  | Do s k =>
      match effect s t d with
      | inl e => inl e
      | inr (x, ws, _) => run (k x) t (view ws d)
      end
  end.

(** The next statement on its own. *)
Definition advance {A} (t : txn) (d : db) (p : prog A) : option (exn + (prog A * list write * bool)) :=
  match p with
  | Done _ => None
  | Throw e => Some (inl e)
  | Do s k =>
      Some (match effect s t d with
            | inl e => inl e
            | inr (x, ws, locks) => inr (k x, ws, locks)
            end)
  end.

(** *** The query functions, statement by statement *)

Section queries.
Context (t : txn).

Fixpoint p_require_legal (to_state : state) (srcs : list state) : prog unit :=
  match srcs with
  | [] => Done tt
  | src :: srcs =>
      match assert_legal src to_state with
      | inl ex => Throw (ExnIllegal ex)
      | inr _ => p_require_legal to_state srcs
      end
  end.

Definition p_explain (task_id : uuid) (e : expectation) : prog TransitionResult :=
  row ← query (SelectTask task_id);
  match row with
  | None => mret (MkResult false None (Some Rejection.NOT_FOUND) None)
  | Some r => mret (MkResult false None (Some (explain_row (now t) e r)) (Some (observe r)))
  end.

Definition p_transition (task_id : uuid) (e : expectation) (to_state : state)
    (ty : event_type) (set_fields : list assign) (event_data : jdict) : prog TransitionResult :=
  if bool_decide (expect_state e = []) then
    Throw (ValueError "expect_state is required; it is the CAS anchor, not an optimisation")
  else
    p_require_legal to_state (expect_state e) ;;
    row ← query (UpdateTask task_id (cas_holds (now t) e)
                   (λ _, SetState to_state :: SetUpdatedAt (now t) :: set_fields));
    match row with
    | None => p_explain task_id e
    | Some r =>
        query (InsertEvent task_id (Some (t_attempt r)) ty
          (or_text (t_lease_worker_id r) (expect_worker e)) event_data) ;;
        mret (MkResult true (Some r) None None)
    end.

(** The five endings differ in the transition and in how they close the
    attempt; a retry computes its due time first and reads it back. *)
Definition p_completion (c : completion) (i : uuid) (attempt : Z) (w : text)
    : prog TransitionResult :=
  if negb (c_fits c t) then Throw (DataError "interval")
  else
    res ← p_transition i (owned_by attempt w) (c_state c) (c_event c) (c_sets c t) (c_data c);
    if applied res then
      if c_loads c t
      then query (FinishAttempt i attempt (c_outcome c) (c_errors c).1 (c_errors c).2) ;; mret res
      else Throw (DataError "timestamp")
    else mret res.

Definition p_renew_lease (task_id : uuid) (worker_id : text) (expect_attempt lease_ttl_s : Z)
    : prog (option renewal) :=
  ttl ← (if interval_fits (seconds lease_ttl_s) then mret (seconds lease_ttl_s)
         else Throw (DataError "interval"));
  row ← query (UpdateTask task_id
    (λ r, bool_decide (t_state r = State.RUNNING)
          && (t_attempt r =? expect_attempt)
          && sql_eq (t_lease_worker_id r) worker_id
          && sql_gt (t_lease_expires_at r) (now t))
    (λ _, [SetLeaseExpires (Some (now t + ttl)); SetUpdatedAt (now t)]));
  match row with
  | None => mret None
  | Some r =>
      (if loadable (now t + ttl) then mret tt else Throw (DataError "timestamp")) ;;
      mret (Some (MkRenewal (t_cancel_requested r) (t_lease_expires_at r)))
  end.

Definition p_cancel_task (task_id : uuid) : prog CancelResult :=
  row ← query (LockTask task_id);
  match row with
  | None => mret (MkCancel CancelOutcome.NOT_FOUND None)
  | Some row =>
      if bool_decide (t_state row = State.CANCELLED) then
        cur ← query (SelectTask task_id); mret (MkCancel CancelOutcome.ALREADY_CANCELLED cur)
      else if is_terminal (t_state row) then
        cur ← query (SelectTask task_id); mret (MkCancel CancelOutcome.ALREADY_TERMINAL cur)
      else if bool_decide (t_state row = State.QUEUED) then
        res ← p_transition task_id (Expect [State.QUEUED] None None false false) State.CANCELLED
                EventType.TASK_CANCELLED [SetCancelRequested true; SetFinishedAt (Some (now t))]
                {[ "reason" := JStr "cancelled_before_start" ]};
        if applied res then mret (MkCancel CancelOutcome.CANCELLED (task res))
        else Throw (AssertionError "cancel lost a race it holds the row lock for")
      else if t_cancel_requested row then
        cur ← query (SelectTask task_id); mret (MkCancel CancelOutcome.ALREADY_REQUESTED cur)
      else
        query (UpdateTask task_id (λ _, true) (λ _, [SetCancelRequested true; SetUpdatedAt (now t)])) ;;
        query (InsertEvent task_id (Some (t_attempt row)) EventType.CANCEL_REQUESTED None
          {[ "source" := JStr "api" ]}) ;;
        cur ← query (SelectTask task_id); mret (MkCancel CancelOutcome.REQUESTED cur)
  end.
End queries.

(** *** Run alone, they are the query functions *)

Lemma run_bind {A B} (p : prog A) (f : A → prog B) t d :
  run (p ≫= f) t d = match run p t d with inl e => inl e | inr (a, d') => run (f a) t d' end.
Proof.
  revert d. induction p as [a|e|X s k IH]; intros d; [done|done|].
  change (run (Do s k ≫= f) t d) with
    (match effect s t d with inl e => inl e | inr (x, ws, _) => run (k x ≫= f) t (view ws d) end).
  simpl. destruct (effect s t d) as [|[[x ws] lk]]; [done|]. apply IH.
Qed.

Lemma run_query {X} (s : stmt X) t d :
  run (query s) t d = match effect s t d with inl e => inl e | inr (x, ws, _) => inr (x, view ws d) end.
Proof. simpl. by destruct (effect s t d) as [|[[x ws] lk]]. Qed.

Definition denotes {A} (t : txn) (p : prog A) (m : M A) : Prop := ∀ d, run p t d = m t d.

Lemma denotes_ret {A} t (a : A) : denotes t (mret a) (mret a).
Proof. done. Qed.
Lemma denotes_throw {A} t e : denotes t (Throw (A:=A) e) (raise e).
Proof. done. Qed.
Lemma denotes_bind {A B} t (p : prog A) (m : M A) (f : A → prog B) (g : A → M B) :
  denotes t p m → (∀ a, denotes t (f a) (g a)) → denotes t (p ≫= f) (m ≫= g).
Proof. intros Hp Hf d. rewrite run_bind, bind_run, Hp. destruct (m t d) as [|[a d']]; [done|]. apply Hf. Qed.
Lemma denotes_ask {A} t (p : prog A) (g : txn → M A) : denotes t p (g t) → denotes t p (ask ≫= g).
Proof. intros H d. apply H. Qed.

Lemma denotes_update t i p f : denotes t (query (UpdateTask i p f)) (update_task i p f).
Proof.
  intros d. rewrite run_query. unfold update_task. rewrite bind_run. cbn [get effect].
  destruct (tasks d !! i) as [r|]; [|done]. destruct (p r); [|done]. by destruct (task_error _).
Qed.
Lemma denotes_insert t i a ty w data : denotes t (query (InsertEvent i a ty w data)) (insert_event i a ty w data).
Proof.
  intros d. rewrite run_query. unfold insert_event. rewrite bind_run. cbn [get effect].
  rewrite bind_run. cbn [ask]. destruct (fits_int4 _); [|done]. by destruct (tasks d !! i).
Qed.
Lemma denotes_finish t i a o ec em : denotes t (query (FinishAttempt i a o ec em)) (finish_attempt i a o ec em).
Proof.
  intros d. rewrite run_query. cbn [effect].
  change (finish_attempt i a o ec em t d) with (inr (A:=exn) (tt, finished_db t d i a o ec em)).
  unfold finished_db. destruct (task_attempts d !! (i, a)) as [x|] eqn:E; simpl.
  - assert (alter (finish_row t o ec em) (i, a) (task_attempts d)
            = <[(i, a) := finish_row t o ec em x]> (task_attempts d)) as ->; [|done].
    apply map_eq. intros k. destruct (decide (k = (i, a))) as [->|Hne].
    + by rewrite lookup_insert_eq, lookup_alter_eq, E.
    + by rewrite lookup_insert_ne, lookup_alter_ne by done.
  - assert (alter (finish_row t o ec em) (i, a) (task_attempts d) = task_attempts d) as ->; [|by destruct d].
    apply map_eq. intros k. destruct (decide (k = (i, a))) as [->|Hne].
    + by rewrite lookup_alter_eq, E.
    + by rewrite lookup_alter_ne by done.
Qed.
Lemma denotes_select t i : denotes t (query (SelectTask i)) (get_task i).
Proof. done. Qed.

Lemma denotes_require t to srcs :
  denotes t (p_require_legal to srcs) (for_each srcs (require_legal to)).
Proof.
  induction srcs as [|src srcs IH]; intros d; [done|]. simpl. rewrite bind_run. unfold require_legal at 1.
  destruct (assert_legal src to); [done|]. apply IH.
Qed.

Lemma denotes_explain t i e : denotes t (p_explain t i e) (explain i e).
Proof.
  intros d. unfold p_explain, explain. rewrite run_bind, !bind_run. cbn [ask].
  rewrite bind_run. cbn [get run query effect]. change (view [] d) with d.
  by destruct (tasks d !! i).
Qed.

Create HintDb denotes discriminated.
#[export] Hint Resolve denotes_ret denotes_throw denotes_update denotes_insert denotes_finish
  denotes_select denotes_require denotes_explain : denotes.

(** Follow the two programs in step. *)
Ltac denote :=
  repeat first
    [ solve [auto with denotes]
    | match goal with
      | |- denotes _ _ (ask ≫= _) => apply denotes_ask
      | |- denotes _ (_ ≫= _) (_ ≫= _) => apply denotes_bind; [|intros ?]
      | |- denotes _ (if ?b then _ else _) _ => destruct b
      | |- denotes _ (match ?x with _ => _ end) _ => destruct x
      end ].

Lemma denotes_transition t i e to ty sets data :
  denotes t (p_transition t i e to ty sets data) (transition i e to ty sets data).
Proof. unfold p_transition, transition. denote. Qed.
#[export] Hint Resolve denotes_transition : denotes.

Lemma denotes_completion t c i a w : denotes t (p_completion t c i a w) (run_completion c i a w).
Proof.
  intros d. unfold p_completion. destruct (c_fits c t) eqn:Hf; cbn [negb].
  2: { by rewrite run_completion_unfit. }
  rewrite run_completion_shape, run_bind, denotes_transition by done.
  destruct (transition _ _ _ _ _ _ t d) as [|[res d1]]; [done|].
  destruct (applied res); [|done]. destruct (c_loads c t); [|done].
  rewrite run_bind, denotes_finish. done.
Qed.

Lemma denotes_renew t i w a ttl : denotes t (p_renew_lease t i w a ttl) (renew_lease i w a ttl).
Proof. unfold p_renew_lease, renew_lease, int_seconds, load_timestamp. denote. Qed.

Lemma denotes_locked {A} t i (f : option task_row → prog A) (g : db → M A) :
  (∀ d, ∃ m, denotes t (f (tasks d !! i)) m ∧ g d = m) →
  denotes t (query (LockTask i) ≫= f) (get ≫= g).
Proof. intros H d. rewrite run_bind. destruct (H d) as (m & Hm & Hg). rewrite bind_run. cbn [get]. rewrite Hg. apply Hm. Qed.

Lemma denotes_cancel t i : denotes t (p_cancel_task t i) (cancel_task i).
Proof.
  apply denotes_ask, denotes_locked. intros d. eexists. split; [|reflexivity].
  destruct (tasks d !! i); denote.
Qed.

(** ** Sessions *)

Inductive op :=
  | OComplete (c : completion) (i : uuid) (attempt : Z) (w : text)
  | ORenew (i : uuid) (w : text) (attempt ttl : Z)
  | OCancel (i : uuid).

Inductive answer :=
  | ACompleted (res : TransitionResult)
  | ARenewed (res : option renewal)
  | ACancelled (res : CancelResult).

Definition op_task (o : op) : uuid :=
  match o with OComplete _ i _ _ | ORenew i _ _ _ | OCancel i => i end.

Definition op_run (o : op) : M answer :=
  match o with
  | OComplete c i a w => res ← run_completion c i a w; mret (ACompleted res)
  | ORenew i w a ttl => res ← renew_lease i w a ttl; mret (ARenewed res)
  | OCancel i => res ← cancel_task i; mret (ACancelled res)
  end.

Definition op_prog (o : op) (t : txn) : prog answer :=
  match o with
  | OComplete c i a w => res ← p_completion t c i a w; mret (ACompleted res)
  | ORenew i w a ttl => res ← p_renew_lease t i w a ttl; mret (ARenewed res)
  | OCancel i => res ← p_cancel_task t i; mret (ACancelled res)
  end.

(** An open transaction: where its program stands, the row versions it has
    written, and whether it holds the lock on its task's row. *)
Record session := MkSession {
  ss_op : op;
  ss_txn : txn;
  ss_rest : prog answer;
  ss_writes : list write;
  ss_locked : bool;
}.

Definition begin (o : op) (t : txn) : session := MkSession o t (op_prog o t) [] false.

Abbreviation sessions := (gmap nat session).

(** Another session has the row. *)
Definition held (ss : sessions) (n : nat) (i : uuid) : Prop :=
  ∃ m s, m ≠ n ∧ ss !! m = Some s ∧ ss_locked s = true ∧ op_task (ss_op s) = i.

(** The rows of one task. *)
Definition agree (i : uuid) (d d' : db) : Prop :=
  tasks d' !! i = tasks d !! i ∧ same_attempts i d d'.

Inductive istep : db * sessions → db * sessions → Prop :=
  | i_begin d ss n o t :
      ss !! n = None → istep (d, ss) (d, <[n := begin o t]> ss)
  | i_statement d ss n s rest ws locks :
      ss !! n = Some s →
      advance (ss_txn s) (view (ss_writes s) d) (ss_rest s) = Some (inr (rest, ws, locks)) →
      (locks = true → ¬ held ss n (op_task (ss_op s))) →
      istep (d, ss)
        (d, <[n := MkSession (ss_op s) (ss_txn s) rest (ss_writes s ++ ws) (ss_locked s || locks)]> ss)
  | i_error d ss n s e :
      ss !! n = Some s →
      advance (ss_txn s) (view (ss_writes s) d) (ss_rest s) = Some (inl e) →
      istep (d, ss) (d, delete n ss)
  | i_lost d ss n :                                  (* the connection goes away *)
      istep (d, ss) (d, delete n ss)
  | i_commit d ss n s a :
      ss !! n = Some s → ss_rest s = Done a →
      istep (d, ss) (view (ss_writes s) d, delete n ss)
  | i_other d d' ss t :                              (* any other transaction *)
      step t d d' → (∀ n s, ss !! n = Some s → ss_locked s = true → agree (op_task (ss_op s)) d d') →
      istep (d, ss) (d', ss).

Lemma op_prog_run o t : denotes t (op_prog o t) (op_run o).
Proof.
  destruct o; (apply denotes_bind; [|intros; apply denotes_ret]);
    [apply denotes_completion|apply denotes_renew|apply denotes_cancel].
Qed.

Lemma op_step o t d a d' : op_run o t d = inr (a, d') → step t d d'.
Proof.
  destruct o; simpl; intros (res & d1 & H & [= _ <-])%bind_ok.
  - by eapply step_complete.
  - by eapply step_renew.
  - by eapply step_cancel.
Qed.

(** ** Locality: a program about one task sees and writes its rows only *)

Definition stmt_task {X} (s : stmt X) : uuid :=
  match s with
  | UpdateTask i _ _ | LockTask i | SelectTask i | InsertEvent i _ _ _ _ | FinishAttempt i _ _ _ _ => i
  end.

Fixpoint about {A} (i : uuid) (p : prog A) : Prop :=
  match p with
  | Done _ | Throw _ => True
  | Do s k => stmt_task s = i ∧ ∀ x, about i (k x)
  end.

Definition write_task (i : uuid) (w : write) : Prop :=
  match w with WTask j _ | WAttempt j _ _ => j = i | WEvent _ => True end.

(** Nothing but reads from here on, and an answer in [Q]. *)
Fixpoint quiet {A} (Q : A → Prop) (p : prog A) : Prop :=
  match p with
  | Done a => Q a
  | Throw _ => False
  | Do s k => (∀ t d, ∃ x, effect s t d = inr (x, [], false)) ∧ ∀ x, quiet Q (k x)
  end.

(** The first statement takes the lock, or all that follows is quiet. *)
Definition opening {A} (Q : A → Prop) (p : prog A) : Prop :=
  match p with
  | Done a => Q a
  | Throw _ => True
  | Do s k => ∀ t d x ws, effect s t d = inr (x, ws, false) → ws = [] ∧ quiet Q (k x)
  end.

(** The answers of a transaction that found nothing to write. *)
Definition refusal (a : answer) : Prop :=
  match a with
  | ACompleted res => applied res = false
  | ARenewed res => res = None
  | ACancelled res => cn_outcome res = CancelOutcome.NOT_FOUND
  end.

Lemma about_bind {A B} i (p : prog A) (f : A → prog B) :
  about i p → (∀ a, about i (f a)) → about i (p ≫= f).
Proof. induction p as [a|e|X s k IH]; simpl; [auto..|]. intros [Hs Hk] Hf. split; [done|]. intros x. by apply IH. Qed.

Lemma about_query {X} i (s : stmt X) : stmt_task s = i → about i (query s).
Proof. done. Qed.

Lemma quiet_bind {A B} (Q : A → Prop) (R : B → Prop) (p : prog A) (f : A → prog B) :
  quiet Q p → (∀ a, Q a → quiet R (f a)) → quiet R (p ≫= f).
Proof. induction p as [a|e|X s k IH]; simpl; [auto..|]. intros [Hs Hk] Hf. split; [done|]. intros x. by apply IH. Qed.

Lemma opening_bind {A B} (Q : A → Prop) (R : B → Prop) (p : prog A) (f : A → prog B) :
  opening Q p → (∀ a, p ≠ Done a) → (∀ a, Q a → quiet R (f a)) → opening R (p ≫= f).
Proof.
  destruct p as [a|e|X s k]; simpl; [intros _ H; by destruct (H a)|done|]. intros Hp _ Hq t d x ws H.
  destruct (Hp _ _ _ _ H) as [-> Hk]. split; [done|]. by eapply quiet_bind.
Qed.

Lemma require_cases to srcs :
  p_require_legal to srcs = Done tt ∨ ∃ e, p_require_legal to srcs = Throw e.
Proof. induction srcs as [|src srcs IH]; simpl; [by left|]. destruct (assert_legal src to); eauto. Qed.

Lemma about_transition t i e to ty sets data : about i (p_transition t i e to ty sets data).
Proof.
  unfold p_transition. case_bool_decide; [done|].
  destruct (require_cases to (expect_state e)) as [-> | [ex ->]]; [|done].
  split; [done|]. intros [r|]; (split; [done|]); [done|]. by intros [].
Qed.

Lemma open_transition t i e to ty sets data :
  opening (λ res, applied res = false) (p_transition t i e to ty sets data) ∧
  ∀ a, p_transition t i e to ty sets data ≠ Done a.
Proof.
  unfold p_transition. case_bool_decide; [done|].
  destruct (require_cases to (expect_state e)) as [-> | [ex ->]]; [|done].
  split; [|done]. intros t' d x ws. simpl.
  destruct (tasks d !! i) as [r|]; [destruct (cas_holds _ _ _); [by destruct (task_error _)|]|];
    intros [= <- <-]; (split; [done|]); (split; [by eauto|]); by intros [].
Qed.

Lemma about_op o t : about (op_task o) (op_prog o t).
Proof.
  destruct o as [c i a w|i w a ttl|i]; (apply about_bind; [|done]); cbn [op_task].
  - unfold p_completion. destruct (c_fits c t); [|done]. apply about_bind; [apply about_transition|].
    intros res. destruct (applied res); [|done]. by destruct (c_loads c t).
  - unfold p_renew_lease. apply about_bind; [by destruct (interval_fits _)|]. intros ttl'.
    apply about_bind; [done|]. intros [row|]; [|done]. by destruct (loadable _).
  - apply about_bind; [done|]. intros [row|]; [|done]. case_bool_decide; [done|].
    destruct (is_terminal _); [done|]. case_bool_decide.
    + apply about_bind; [apply about_transition|]. intros res. by destruct (applied res).
    + destruct (t_cancel_requested row); [done|]. apply about_bind; [done|]. intros _.
      by apply about_bind.
Qed.

Lemma open_op o t : opening refusal (op_prog o t).
Proof.
  destruct o as [c i a w|i w a ttl|i]; unfold op_prog.
  - assert (opening (λ res, applied res = false) (p_completion t c i a w) ∧
            ∀ res, p_completion t c i a w ≠ Done res) as [H1 H2].
    { unfold p_completion. destruct (c_fits c t); [|done].
      destruct (open_transition t i (owned_by a w) (c_state c) (c_event c) (c_sets c t) (c_data c)) as [H1 H2].
      destruct (p_transition _ _ _ _ _ _ _) as [res|e|X s k]; [by destruct (H2 res)|done|]. split; [|done].
      eapply (opening_bind (λ res, applied res = false)); [exact H1|done|].
      intros res Hres. by rewrite Hres. }
    eapply opening_bind; [exact H1|exact H2|]. done.
  - unfold p_renew_lease. destruct (interval_fits _); [|done]. intros t' d x ws. simpl.
    destruct (tasks d !! i) as [r|]; [destruct (_ && _); [by destruct (task_error _)|]|];
      by intros [= <- <-].
  - intros t' d x ws. simpl. destruct (tasks d !! i) as [r|]; [by rewrite bool_decide_eq_true_2 by eauto|].
    by intros [= <- <-].
Qed.

Lemma effect_agree {X} (s : stmt X) t d d' :
  agree (stmt_task s) d d' → effect s t d' = effect s t d.
Proof.
  intros [Ht Ha]. destruct s; simpl in *; rewrite ?Ht; try done. by rewrite Ha.
Qed.

Lemma advance_agree {A} (p : prog A) i t d d' :
  about i p → agree i d d' → advance t d' p = advance t d p.
Proof. destruct p as [a|e|X s k]; simpl; [done..|]. intros [<- _] Hd. by rewrite (effect_agree _ _ d). Qed.

Lemma advance_about {A} (p p' : prog A) i t d ws locks :
  about i p → advance t d p = Some (inr (p', ws, locks)) → about i p' ∧ Forall (write_task i) ws.
Proof.
  destruct p as [a|e|X s k]; simpl; [done..|]. intros [<- Hk].
  destruct (effect s t d) as [|[[x ws'] l]] eqn:E; intros [= <- <- <-]. split; [apply Hk|].
  destruct s; simpl in *; repeat case_match; simplify_eq; repeat constructor.
Qed.

Lemma view_app ws ws' d : view (ws ++ ws') d = view ws' (view ws d).
Proof. apply foldl_app. Qed.

Lemma view_agree i ws d d' : Forall (write_task i) ws → agree i d d' → agree i (view ws d) (view ws d').
Proof.
  intros Hws. revert d d'. induction Hws as [|w ws Hw _ IH]; intros d d' Hd; [done|].
  apply IH. destruct Hd as [Ht Ha]. destruct w; simpl in *; subst; split; simpl; try done.
  - by rewrite !lookup_insert_eq.
  - intros b. simpl. destruct (decide (b = a)) as [->|]; [by rewrite !lookup_insert_eq|].
    rewrite !lookup_insert_ne by congruence. apply Ha.
Qed.

Lemma view_other i j ws d : i ≠ j → Forall (write_task j) ws → agree i d (view ws d).
Proof.
  intros Hij Hws. revert d. induction Hws as [|w ws Hw _ IH]; intros d; [done|].
  destruct (IH (apply_write d w)) as [Ht Ha]. change (view (w :: ws) d) with (view ws (apply_write d w)).
  split; [rewrite Ht|intros b; rewrite Ha]; destruct w; simpl in *; subst; try done;
    by rewrite lookup_insert_ne by congruence.
Qed.

(** ** The invariant *)

(** Run alone from the rows as they are committed now, the program would have
    written [ws] and stand at [q]. *)
Inductive replays {A} (t : txn) (d : db) (p : prog A) : list write → prog A → Prop :=
  | rp_start : replays t d p [] p
  | rp_next ws q q' ws' locks :
      replays t d p ws q → advance t (view ws d) q = Some (inr (q', ws', locks)) →
      replays t d p (ws ++ ws') q'.

Lemma replays_run {A} t d (p : prog A) ws q :
  replays t d p ws q → run p t d = run q t (view ws d).
Proof.
  induction 1 as [|ws q q' ws' locks _ IH Had]; [done|]. rewrite IH, view_app.
  destruct q as [a|e|X s k]; [done..|]. simpl in Had |- *.
  destruct (effect s t (view ws d)) as [|[[x ws1] l]]; [done|]. by injection Had as <- <- <-.
Qed.

Lemma replays_about {A} t d i (p : prog A) ws q :
  about i p → replays t d p ws q → about i q ∧ Forall (write_task i) ws.
Proof.
  intros Hp. induction 1 as [|ws q q' ws' locks _ IH Had]; [done|]. destruct IH as [Hq Hws].
  destruct (advance_about _ _ _ _ _ _ _ Hq Had). split; [done|]. by apply Forall_app.
Qed.

Lemma replays_agree {A} t d d' i (p : prog A) ws q :
  about i p → agree i d d' → replays t d p ws q → replays t d' p ws q.
Proof.
  intros Hp Hd. induction 1 as [|ws q q' ws' locks Hr IH Had]; [constructor|].
  destruct (replays_about _ _ _ _ _ _ Hp Hr) as [Hq Hws].
  econstructor; [done|]. rewrite <-Had. apply (advance_agree _ i); [done|]. by apply view_agree.
Qed.

Lemma quiet_run {A} (Q : A → Prop) (p : prog A) t d :
  quiet Q p → ∃ a, run p t d = inr (a, d) ∧ Q a.
Proof.
  revert d. induction p as [a|e|X s k IH]; intros d; simpl; [eauto|done|]. intros [Hs Hk].
  destruct (Hs t d) as [x ->]. by apply IH.
Qed.

Section machine.
Context (d0 : db).

(** At some moment of the run the operation would have been refused. *)
Definition turned_down (d : db) (s : session) : Prop :=
  ∃ d1 a1, steps d0 d1 ∧ steps d1 d ∧ op_run (ss_op s) (ss_txn s) d1 = inr (a1, d1) ∧ refusal a1.

Definition session_ok (d : db) (s : session) : Prop :=
  if ss_locked s then replays (ss_txn s) d (op_prog (ss_op s) (ss_txn s)) (ss_writes s) (ss_rest s)
  else ss_writes s = [] ∧
       (ss_rest s = op_prog (ss_op s) (ss_txn s) ∨ (quiet refusal (ss_rest s) ∧ turned_down d s)).

Record machine_ok (x : db * sessions) : Prop := {
  mk_steps : steps d0 x.1;
  mk_session : ∀ n s, x.2 !! n = Some s → session_ok x.1 s;
  mk_locks : ∀ n m s s', x.2 !! n = Some s → x.2 !! m = Some s' → ss_locked s = true →
    ss_locked s' = true → op_task (ss_op s) = op_task (ss_op s') → n = m;
}.

Lemma session_ok_later d d' s :
  steps d d' → (ss_locked s = true → agree (op_task (ss_op s)) d d') → session_ok d s → session_ok d' s.
Proof.
  intros Hd Hag. unfold session_ok. destruct (ss_locked s).
  - apply (replays_agree _ _ _ (op_task (ss_op s))); [apply about_op|by apply Hag].
  - intros [? [?|[? (d1 & a1 & ? & ? & ?)]]]; (split; [done|]); [by left|right]. split; [done|].
    exists d1, a1. split; [done|]. split; [by eapply steps_trans|done].
Qed.

Lemma machine_ok_delete d ss n : machine_ok (d, ss) → machine_ok (d, delete n ss).
Proof.
  intros [Hd Hs Hl]. split; simpl in *; [done| |].
  - intros m s [_ Hm]%lookup_delete_Some. by eapply Hs.
  - intros m k s s' [_ Hm]%lookup_delete_Some [_ Hk]%lookup_delete_Some. by eapply Hl.
Qed.

(** A statement of a session keeps its invariant. *)
Lemma session_ok_statement d s rest ws locks :
  steps d0 d → session_ok d s →
  advance (ss_txn s) (view (ss_writes s) d) (ss_rest s) = Some (inr (rest, ws, locks)) →
  session_ok d (MkSession (ss_op s) (ss_txn s) rest (ss_writes s ++ ws) (ss_locked s || locks)).
Proof.
  unfold session_ok. intros Hd. simpl. destruct (ss_locked s); simpl; [intros; by econstructor|].
  intros [Hws Hrest] Had. rewrite Hws in *. simpl in *. destruct Hrest as [Hrest|[Hq Hdown]].
  - pose proof Had as Had'. rewrite Hrest in Had'. destruct locks.
    { apply (rp_next _ _ _ [] (op_prog (ss_op s) (ss_txn s)) _ _ true); [constructor|done]. }
    pose proof (open_op (ss_op s) (ss_txn s)) as Ho. pose proof (op_prog_run (ss_op s) (ss_txn s) d) as Hrun.
    destruct (op_prog (ss_op s) (ss_txn s)) as [a|e|X st k]; [done..|]. simpl in Had', Ho, Hrun.
    destruct (effect st _ d) as [|[[x ws1] l]] eqn:E; [done|]. injection Had' as <- <- ->.
    destruct (Ho _ _ _ _ E) as [-> Hq]. split; [done|right]. split; [done|].
    destruct (quiet_run _ _ (ss_txn s) d Hq) as (a & Ha & HQ). change (view [] d) with d in Hrun.
    exists d, a. split; [done|]. split; [apply steps_refl|]. simpl. by rewrite <-Hrun.
  - destruct (ss_rest s) as [a|e|X st k]; [done..|]. simpl in Had, Hq. destruct Hq as [Hq Hk].
    destruct (Hq (ss_txn s) d) as [x E]. rewrite E in Had. injection Had as <- <- <-.
    split; [done|right]. split; [apply Hk|done].
Qed.

(** What a session has at its commit: its transaction, run in one go on the
    tables as they are then; or nothing written, and a refusal. *)
Lemma session_commits d s a :
  session_ok d s → ss_rest s = Done a →
  op_run (ss_op s) (ss_txn s) d = inr (a, view (ss_writes s) d) ∨
  (ss_writes s = [] ∧ refusal a ∧ turned_down d s).
Proof.
  unfold session_ok. intros Hok Hrest. destruct (ss_locked s).
  - left. rewrite <-op_prog_run. by rewrite (replays_run _ _ _ _ _ Hok), Hrest.
  - destruct Hok as [Hws [Hr|[Hq Hdown]]].
    + left. rewrite <-op_prog_run, <-Hr, Hrest, Hws. done.
    + right. by rewrite Hrest in Hq.
Qed.

Lemma session_writes d s :
  session_ok d s → Forall (write_task (op_task (ss_op s))) (ss_writes s).
Proof.
  unfold session_ok. destruct (ss_locked s).
  - intros H. eapply replays_about; [apply about_op|exact H].
  - by intros [-> _].
Qed.

Lemma commit_steps d s a : session_ok d s → ss_rest s = Done a → steps d (view (ss_writes s) d).
Proof.
  intros Hok Hrest. destruct (session_commits _ _ _ Hok Hrest) as [Hrun|[-> _]]; [|apply steps_refl].
  eapply steps_snoc; [apply steps_refl|]. by eapply op_step.
Qed.

Lemma istep_ok x y : machine_ok x → istep x y → machine_ok y.
Proof.
  intros Hok Hs. pose proof Hok as [Hd Hses Hlk]. destruct Hs as
    [d ss n o t Hn|d ss n s rest ws locks Hn Had Hfree|d ss n s e Hn Had|d ss n|d ss n s a Hn Hrest
    |d d' ss t Hst Hkeep]; simpl in *; try (by apply machine_ok_delete).
  - split; simpl; [done| |].
    + intros m s [[-> <-]|[_ Hm]]%lookup_insert_Some; [|by eapply Hses]. split; [done|by left].
    + intros m k s s' [[-> <-]|[_ Hm]]%lookup_insert_Some [[-> <-]|[_ Hk]]%lookup_insert_Some; try done.
      by eapply Hlk.
  - split; simpl; [done| |].
    + intros m s' [[-> <-]|[_ Hm]]%lookup_insert_Some; [|by eapply Hses].
      apply session_ok_statement; [done|by eapply Hses|done].
    + assert (∀ m s', n ≠ m → ss !! m = Some s' → ss_locked s || locks = true → ss_locked s' = true →
        op_task (ss_op s) ≠ op_task (ss_op s')) as Hclash.
      { intros m s' Hne Hm Hl Hl' Heq. destruct (ss_locked s) eqn:El; simpl in Hl.
        - by destruct Hne, (Hlk n m s s').
        - apply Hfree; [done|]. exists m, s'. done. }
      intros m k s1 s2 [[<- <-]|[Hnm Hm]]%lookup_insert_Some [[<- <-]|[Hnk Hk]]%lookup_insert_Some Hl1 Hl2 Heq;
        simpl in *; [done| | |by eapply Hlk].
      * by destruct (Hclash k s2).
      * by destruct (Hclash m s1).
  - pose proof (Hses _ _ Hn) as Hsn. pose proof (commit_steps _ _ _ Hsn Hrest) as Hc.
    split; simpl; [by eapply steps_trans| |].
    + intros m s' [Hne Hm]%lookup_delete_Some. apply (session_ok_later d); [done| |by eapply Hses].
      intros El'. destruct (ss_locked s) eqn:El.
      * apply (view_other _ (op_task (ss_op s))); [|by eapply session_writes].
        intros Heq. destruct Hne. by eapply (Hlk n m s s').
      * unfold session_ok in Hsn. rewrite El in Hsn. by destruct Hsn as [-> _].
    + intros m k s1 s2 [_ Hm]%lookup_delete_Some [_ Hk]%lookup_delete_Some. by eapply Hlk.
  - split; simpl; [by eapply steps_snoc| |done]. intros n s Hn.
    apply (session_ok_later d); [eapply steps_snoc; [apply steps_refl|done]| |by eapply Hses].
    by apply (Hkeep n).
Qed.

Lemma start_ok : machine_ok (d0, ∅).
Proof. split; [apply steps_refl|done|done]. Qed.

Lemma istep_reach x : rtc istep (d0, ∅) x → machine_ok x.
Proof. revert x. apply rtc_ind_r; [apply start_ok|]. intros x y _ Hs Hx. by eapply istep_ok. Qed.
End machine.

(** ** Properties *)

(** C6: the transactions on one task are serial. Let any number of sessions
    complete, renew and cancel, statement by statement and in any order, next
    to any other transactions that leave locked rows alone. From a reachable
    state the committed tables are reachable by whole transactions. A session
    about to commit commits what its transaction, run in one go on the tables
    of that moment, would answer and write; or it has written nothing, and
    answers a refusal that its transaction, run in one go at some earlier
    moment of the run, would have met. And a session that has its lock never
    waits for another, so no two wait for each other. *)
Theorem interleaving_is_serial d0 d ss :
  reachable d0 → rtc istep (d0, ∅) (d, ss) →
  reachable d ∧
  ∀ n s, ss !! n = Some s →
    (∀ a, ss_rest s = Done a →
       op_run (ss_op s) (ss_txn s) d = inr (a, view (ss_writes s) d) ∨
       view (ss_writes s) d = d ∧ refusal a ∧
         ∃ d1 a1, steps d0 d1 ∧ steps d1 d ∧ op_run (ss_op s) (ss_txn s) d1 = inr (a1, d1) ∧ refusal a1) ∧
    (ss_locked s = true → ¬ held ss n (op_task (ss_op s))).
Proof.
  intros Hd0 [Hd Hses Hlk]%istep_reach. split; [by eapply steps_trans|]. intros n s Hn. split.
  - intros a Ha. destruct (session_commits _ _ _ _ (Hses _ _ Hn) Ha) as [?|(Hws & ? & ?)]; [by left|right].
    rewrite Hws. done.
  - intros Hl (m & s' & Hne & Hm & Hl' & Heq). destruct Hne. symmetry. by eapply Hlk.
Qed.

(** A holder that has lost its attempt does not get it back. *)
Lemma lost_for_good d1 d' i a w :
  reachable d1 → is_Some (task_attempts d1 !! (i, a)) → ¬ holds d1 i a w → steps d1 d' → ¬ holds d' i a w.
Proof.
  intros Hd1 [x Hx] Hno Hs (y & Hy & Hyo & Hyw).
  destruct (a_outcome x) as [o|] eqn:Ho.
  - destruct (closed_attempt_is_final d1 d' i a x o Hd1 Hx Ho Hs) as [Hx' _]. congruence.
  - destruct (steps_attempt d1 d' i a x) as (x' & Hx' & Hw'); [by apply inv_reachable|done|done|].
    apply Hno. exists x. split; [done|]. split; [done|]. congruence.
Qed.

Lemma refused_not_holding c i a w t d res d' :
  reachable d → run_completion c i a w t d = inr (res, d') → applied res = false → ¬ holds d i a w.
Proof.
  intros Hd H Hn. pose proof (inv_view _ (inv_reachable _ Hd) i) as Hv.
  apply run_completion_inv in H as [(_ & _ & Hall)|(Ha & _)]; [|congruence].
  destruct (tasks d !! i) as [r|] eqn:Hr; [|by apply no_row_no_attempt].
  rewrite <-(owns_holds d i r) by done. by apply Hall.
Qed.

(** C9: a refused completion is refused for good. An UPDATE that misses keeps no
    lock, and the reason is read by a second statement from tables that may
    have moved on; still, when a session completes an attempt that was
    granted before the run and is refused, its worker does not hold the
    attempt when the answer is given nor at any later time, so a worker that
    drops the task on a refusal drops nothing it owns. *)
Theorem refusals_are_final d0 d d' ss n s c i a w res :
  reachable d0 → rtc istep (d0, ∅) (d, ss) → ss !! n = Some s →
  ss_op s = OComplete c i a w → ss_rest s = Done (ACompleted res) → applied res = false →
  is_Some (task_attempts d0 !! (i, a)) → steps d d' → ¬ holds d' i a w.
Proof.
  intros Hd0 [Hd Hses _]%istep_reach Hn Hop Hrest Hna [x Hx] Hs.
  assert (∃ d1 res1, steps d0 d1 ∧ steps d1 d ∧ applied res1 = false ∧
    run_completion c i a w (ss_txn s) d1 = inr (res1, d1)) as (d1 & res1 & H1 & H2 & Hn1 & Hrun).
  { destruct (session_commits _ _ _ _ (Hses _ _ Hn) Hrest) as [H|(_ & _ & d1 & a1 & H1 & H2 & H & Ha1)];
      rewrite Hop in H; simpl in H; apply bind_ok in H as (res' & d2 & H & [= Heq Hd2]).
    - subst res'. exists d, res. split; [done|]. split; [apply steps_refl|]. split; [done|].
      pose proof H as H'. apply run_completion_inv in H' as [(_ & -> & _)|(? & _)]; [done|congruence].
    - subst. simpl in Ha1. eauto 10. }
  pose proof (steps_trans _ _ _ Hd0 H1) as Hd1.
  destruct (steps_attempt d0 d1 i a x) as (x1 & Hx1 & _); [by apply inv_reachable|done|done|].
  eapply lost_for_good; [exact Hd1|eauto| |by eapply steps_trans].
  by eapply refused_not_holding.
Qed.

(** ** Two runs *)

(** A session after its next statement. *)
Definition il_exec (d : db) (s : session) : session :=
  match advance (ss_txn s) (view (ss_writes s) d) (ss_rest s) with
  | Some (inr (rest, ws, locks)) =>
      MkSession (ss_op s) (ss_txn s) rest (ss_writes s ++ ws) (ss_locked s || locks)
  | _ => s
  end.

Lemma il_statement d ss n s :
  ss !! n = Some s →
  match advance (ss_txn s) (view (ss_writes s) d) (ss_rest s) with
  | Some (inr _) => true | _ => false end = true →
  (∀ m s', m ≠ n → ss !! m = Some s' → ss_locked s' = false) →
  istep (d, ss) (d, <[n := il_exec d s]> ss).
Proof.
  intros Hn Had Hfree. unfold il_exec.
  destruct (advance _ _ _) as [[|[[rest ws] locks]]|] eqn:E; [done| |done].
  eapply i_statement; [done|done|]. intros _ (m & s' & Hne & Hm & Hl & _).
  by rewrite (Hfree m s') in Hl.
Qed.

(** A completion and a cancellation of the same attempt: the completion is
    first, and the cancellation has to wait for it. *)
Definition il_complete : session := begin (OComplete (CSuccess ∅) 5 1 "w1") (txn_at 30).
Definition il_cancel : session := begin (OCancel 5) (txn_at 31).
Definition il_moved : session := il_exec sc_claimed il_complete.
Definition il_logged : session := il_exec sc_claimed il_moved.
Definition il_done : session := il_exec sc_claimed il_logged.

Definition il_pair (s : session) : sessions := <[1%nat := s]> {[ 2%nat := il_cancel ]}.

Lemma il_pair_step s :
  match advance (ss_txn s) (view (ss_writes s) sc_claimed) (ss_rest s) with
  | Some (inr _) => true | _ => false end = true →
  istep (sc_claimed, il_pair s) (sc_claimed, il_pair (il_exec sc_claimed s)).
Proof.
  intros H.
  assert (il_pair (il_exec sc_claimed s) = <[1%nat := il_exec sc_claimed s]> (il_pair s)) as ->.
  { unfold il_pair. by rewrite insert_insert_eq. }
  apply il_statement; [apply lookup_insert_eq|done|]. unfold il_pair.
  intros m s' Hne [[<- _]|[_ [_ <-]%lookup_singleton_Some]]%lookup_insert_Some; done.
Qed.

Lemma il_race : rtc istep (sc_claimed, ∅) (sc_claimed, il_pair il_done).
Proof.
  eapply rtc_l; [by apply (i_begin _ _ 2 (OCancel 5) (txn_at 31))|].
  eapply rtc_l; [by apply (i_begin _ _ 1 (OComplete (CSuccess ∅) 5 1 "w1") (txn_at 30))|].
  rewrite insert_empty.
  apply (rtc_l _ _ (sc_claimed, il_pair il_moved)).
  { apply (il_pair_step il_complete). vm_compute. reflexivity. }
  apply (rtc_l _ _ (sc_claimed, il_pair il_logged)).
  { apply (il_pair_step il_moved). vm_compute. reflexivity. }
  apply rtc_once, (il_pair_step il_logged). vm_compute. reflexivity.
Qed.

Lemma interleaving_is_serial_witness :
  ∃ res, ss_rest il_done = Done (ACompleted res) ∧ applied res = true ∧
    op_run (ss_op il_done) (ss_txn il_done) sc_claimed
    = inr (ACompleted res, view (ss_writes il_done) sc_claimed) ∧
    ¬ held (il_pair il_done) 1 5.
Proof.
  destruct (interleaving_is_serial _ _ _ sc_claimed_reachable il_race) as [_ H].
  destruct (H 1%nat il_done) as [H1 H2]; [apply lookup_insert_eq|].
  destruct (ss_rest il_done) as [[res| |]| |] eqn:E; try (vm_compute in E; discriminate E).
  assert (applied res = true) as Ha by (vm_compute in E; injection E as <-; reflexivity).
  exists res. split; [reflexivity|]. split; [exact Ha|]. split.
  - destruct (H1 (ACompleted res) eq_refl) as [Hrun|(_ & Hno & _)]; [exact Hrun|].
    simpl in Hno. congruence.
  - apply H2. vm_compute. reflexivity.
Defined.

(** A late completion: its UPDATE misses a task the reaper has taken back,
    and it reads the reason after another worker has claimed it. *)
Definition il_late1 : session := il_exec sc_reaped il_complete.
Definition il_late2 : session := il_exec sc_reclaimed il_late1.

Lemma il_late : rtc istep (sc_claimed, ∅) (sc_reclaimed, {[ 1%nat := il_late2 ]}).
Proof.
  assert (∀ (d : db) s, match advance (ss_txn s) (view (ss_writes s) d) (ss_rest s) with
    | Some (inr _) => true | _ => false end = true →
    istep (d, {[ 1%nat := s ]}) (d, {[ 1%nat := il_exec d s ]})) as Hst.
  { intros d s H. rewrite <-(insert_singleton_eq 1%nat (il_exec d s) s).
    apply il_statement; [apply lookup_singleton_eq|done|].
    by intros m s' Hne [<- _]%lookup_singleton_Some. }
  assert (∀ (d d' : db) s t, ss_locked s = false → step t d d' →
    istep (d, {[ 1%nat := s ]}) (d', {[ 1%nat := s ]})) as Hother.
  { intros d d' s t Hl H. eapply i_other; [done|]. intros n s' [_ <-]%lookup_singleton_Some. congruence. }
  eapply rtc_l; [by apply (i_begin _ _ 1 (OComplete (CSuccess ∅) 5 1 "w1") (txn_at 30))|].
  rewrite insert_empty.
  eapply rtc_l; [apply (Hother _ sc_reaped il_complete (txn_at 60)); [done|apply sc_step_reaped]|].
  apply (rtc_l _ _ (sc_reaped, {[ 1%nat := il_late1 ]})).
  { apply (Hst _ il_complete). vm_compute. reflexivity. }
  eapply rtc_l; [apply (Hother _ sc_reclaimed il_late1 (txn_at 70));
    [vm_compute; reflexivity|apply sc_step_reclaimed]|].
  apply rtc_once, (Hst _ il_late1). vm_compute. reflexivity.
Qed.

Lemma refusals_are_final_witness :
  ∃ res, ss_rest il_late2 = Done (ACompleted res) ∧
    rejection res = Some Rejection.ATTEMPT_MISMATCH ∧ ¬ holds sc_done 5 1 "w1".
Proof.
  destruct (ss_rest il_late2) as [[res| |]| |] eqn:E; try (vm_compute in E; discriminate E).
  assert (applied res = false ∧ rejection res = Some Rejection.ATTEMPT_MISMATCH) as [Ha Hr].
  { vm_compute in E. injection E as <-. split; reflexivity. }
  exists res. split; [reflexivity|]. split; [exact Hr|].
  apply (refusals_are_final sc_claimed sc_reclaimed sc_done {[ 1%nat := il_late2 ]} 1 il_late2
    (CSuccess ∅) 5 1 "w1" res sc_claimed_reachable il_late).
  - reflexivity.
  - vm_compute. reflexivity.
  - exact E.
  - exact Ha.
  - assert (bool_decide (is_Some (task_attempts sc_claimed !! (5%N, 1))) = true) as H by (vm_compute; reflexivity).
    by apply bool_decide_eq_true in H.
  - eapply steps_snoc; [apply steps_refl|apply sc_step_done].
Defined.
