(* ===== verification/ClaimRace.v ===== *)
(** * Claims that overlap (db/queries/claim.py under READ COMMITTED)

    [claim_tasks] is one transaction of several statements, and any number of
    workers run it at once.  Here its statements are steps of their own: a
    candidate SELECT skips the rows other claims hold; the slack SELECT takes
    its snapshot when it starts, then waits for the tenants' rows; the UPDATE,
    the inserts and the commit are one step, since every row they touch is
    locked by then.  [claims_do_not_collide] says what the row locks are good
    for, [claims_overshoot_bounded] how far the tenant locks fall short of an
    exact cap; the two runs at the end reach that bound, and a deadlock. *)

From S2P Require Import Prelude PyStr Json States Capability Policy Db Samples Transitions.
From S2P Require Import Completion Lease Workers Claim Reap Tasks Effects Protocol Scenario.
From S2P Require Import Gauges.
#[local] Open Scope Z_scope.

(** ** The machine *)

(** Where a claim stands. [Locking] holds the snapshot its slack statement
    has taken. *)
Inductive claim_phase :=
  | Selecting
  | Selected (batch : list task_row)
  | Locking (snapshot : db) (batch : list task_row)
  | Granting.

Record claimer := MkClaimer {
  cm_worker : text;
  cm_limit : Z;
  cm_ttl : Z;
  cm_policy : ClaimPolicy;
  cm_caps : list text;
  cm_txn : txn;
  cm_rounds : nat;           (* rounds left *)
  cm_state : claim_state;
  cm_phase : claim_phase;
}.

Definition begin_claim (w : text) (limit ttl : Z) (p : ClaimPolicy) (caps : list text) (t : txn)
    : claimer :=
  MkClaimer w limit ttl p caps t MAX_ROUNDS no_claim Selecting.

Definition cm_at (rounds : nat) (st : claim_state) (ph : claim_phase) (s : claimer) : claimer :=
  MkClaimer (cm_worker s) (cm_limit s) (cm_ttl s) (cm_policy s) (cm_caps s) (cm_txn s) rounds st ph.

Definition goto (ph : claim_phase) (s : claimer) : claimer := cm_at (cm_rounds s) (cm_state s) ph s.

(** [need = limit - len(claimed_ids)]. *)
Definition need (s : claimer) : Z := cm_limit s - Z.of_nat (length (cl_claimed (cm_state s))).

Definition with_locked (l : gset uuid) (t : txn) : txn :=
  MkTxn (now t) l (new_uuid t) (interval_us t) (tie_rank t).

Definition candidates_of (l : gset uuid) (d : db) (s : claimer) : list task_row :=
  fetch_candidates (with_locked l (cm_txn s)) d (cm_caps s) (cm_policy s) (Z.to_nat (need s))
    (cl_seen (cm_state s)).

(** [seen_ids.update(..)]. *)
Definition seen_batch (batch : list task_row) (st : claim_state) : claim_state :=
  MkClaim (cl_claimed st) (cl_seen st ∪ list_to_set (t_id ∘ t_spec <$> batch)) (cl_slack st) (cl_known st).

(** The loop over the batch. *)
Definition spend_batch (limit : Z) (batch : list task_row) (st : claim_state) : claim_state :=
  let '(claimed, slack) := spend limit batch (cl_claimed st) (cl_slack st) in
  MkClaim claimed (cl_seen st) slack (cl_known st).

Abbreviation claimers := (gmap nat claimer).

(** Rows that candidate SELECTs of other claims have locked. *)
Definition skipped (ss : claimers) (n : nat) (l : gset uuid) : Prop :=
  ∀ m s, m ≠ n → ss !! m = Some s → cl_seen (cm_state s) ⊆ l.

(** A tenant row another claim has locked. *)
Definition tenant_held (ss : claimers) (n : nat) (te : uuid) : Prop :=
  ∃ m s, m ≠ n ∧ ss !! m = Some s ∧ te ∈ cl_known (cm_state s).

(** The transaction starts no attempt: it is not a claim. *)
Definition starts_nothing (d d' : db) : Prop :=
  ∀ i (r r' : task_row), tasks d !! i = Some r → tasks d' !! i = Some r' → t_attempt r' = t_attempt r.

(** At most [K] claims are open at a time; a worker has at most one. *)
Inductive cstep (K : nat) : db * claimers → db * claimers → Prop :=
  | c_begin d ss n w limit ttl p caps t :
      ss !! n = None → (size ss < K)%nat →
      cstep K (d, ss) (d, <[n := begin_claim w limit ttl p caps t]> ss)
  | c_rounds_over d ss n s :
      ss !! n = Some s → cm_phase s = Selecting → cm_rounds s = O ∨ need s ≤ 0 →
      cstep K (d, ss) (d, <[n := goto Granting s]> ss)
  | c_no_candidates d ss n s l :
      ss !! n = Some s → cm_phase s = Selecting → cm_rounds s ≠ O → 0 < need s →
      skipped ss n l → candidates_of l d s = [] →
      cstep K (d, ss) (d, <[n := goto Granting s]> ss)
  | c_select d ss n s l batch :
      ss !! n = Some s → cm_phase s = Selecting → cm_rounds s ≠ O → 0 < need s →
      skipped ss n l → candidates_of l d s = batch → batch ≠ [] →
      cstep K (d, ss)
        (d, <[n := cm_at (pred (cm_rounds s)) (seen_batch batch (cm_state s)) (Selected batch) s]> ss)
  | c_all_known d ss n s batch :
      ss !! n = Some s → cm_phase s = Selected batch → new_tenant_ids batch (cm_state s) = [] →
      cstep K (d, ss)
        (d, <[n := cm_at (cm_rounds s) (spend_batch (cm_limit s) batch (cm_state s)) Selecting s]> ss)
  | c_lock_tenants d ss n s batch :
      ss !! n = Some s → cm_phase s = Selected batch → new_tenant_ids batch (cm_state s) ≠ [] →
      cstep K (d, ss) (d, <[n := goto (Locking d batch) s]> ss)
  | c_tenants_locked d ss n s snapshot batch :
      ss !! n = Some s → cm_phase s = Locking snapshot batch →
      (∀ te, te ∈ new_tenant_ids batch (cm_state s) → ¬ tenant_held ss n te) →
      cstep K (d, ss)
        (d, <[n := cm_at (cm_rounds s)
                     (spend_batch (cm_limit s) batch (learn_slack snapshot batch (cm_state s)))
                     Selecting s]> ss)
  | c_commit d d' ss n s rows :
      ss !! n = Some s → cm_phase s = Granting →
      grant_claimed (cm_worker s) (cm_ttl s) (cl_claimed (cm_state s)) (cm_txn s) d = inr (rows, d') →
      cstep K (d, ss) (d', delete n ss)
  | c_gone d ss n :                                  (* an error, a deadlock, a lost connection *)
      cstep K (d, ss) (d, delete n ss)
  | c_other d d' ss t :                              (* any transaction but a claim *)
      step t d d' → starts_nothing d d' →
      (∀ n s i, ss !! n = Some s → i ∈ cl_seen (cm_state s) → tasks d' !! i = tasks d !! i) →
      cstep K (d, ss) (d', ss).

(** One round of [claim_rounds] in these terms. *)
Lemma claim_rounds_round t d limit caps policy rounds st :
  claim_rounds t d limit caps policy (S rounds) st =
  let need := limit - Z.of_nat (length (cl_claimed st)) in
  if need <=? 0 then st
  else match fetch_candidates t d caps policy (Z.to_nat need) (cl_seen st) with
       | [] => st
       | batch => claim_rounds t d limit caps policy rounds
                    (spend_batch limit batch (learn_slack d batch (seen_batch batch st)))
       end.
Proof.
  simpl. destruct (_ <=? 0); [done|]. destruct (fetch_candidates _ _ _ _ _ _) as [|r batch]; [done|].
  unfold spend_batch. by destruct (spend _ _ _ _).
Qed.

(** ** A claim no other overlaps is [claim_tasks] *)

Lemma learn_nothing d batch st : new_tenant_ids batch st = [] → learn_slack d batch st = st.
Proof. unfold learn_slack. intros ->. destruct st. f_equal. simpl. set_solver. Qed.

Lemma new_tenants_seen batch st : new_tenant_ids batch (seen_batch batch st) = new_tenant_ids batch st.
Proof. done. Qed.

Lemma alone_step K d n s s' :
  cstep K (d, {[ n := s ]}) (d, <[n := s']> {[ n := s ]}) → cstep K (d, {[ n := s ]}) (d, {[ n := s' ]}).
Proof. by rewrite insert_singleton_eq. Qed.

(** The round of a claim that is alone, in two or three steps. *)
Lemma alone_round K d n s l batch :
  cm_phase s = Selecting → cm_rounds s ≠ O → 0 < need s → candidates_of l d s = batch → batch ≠ [] →
  rtc (cstep K) (d, {[ n := s ]})
    (d, {[ n := cm_at (pred (cm_rounds s))
      (spend_batch (cm_limit s) batch (learn_slack d batch (seen_batch batch (cm_state s)))) Selecting s ]}).
Proof.
  intros Hph Hr Hn Hc Hne. set (st := seen_batch batch (cm_state s)).
  eapply rtc_l.
  { apply alone_step. eapply (c_select K d _ n s l batch); try done; [apply lookup_singleton_eq|].
    by intros m s' Hm [<- _]%lookup_singleton_Some. }
  fold st. set (s1 := cm_at (pred (cm_rounds s)) st (Selected batch) s).
  destruct (new_tenant_ids batch st) as [|te tes] eqn:Hnew.
  - apply rtc_once. rewrite learn_nothing by done.
    exact (alone_step K d n s1 _ (c_all_known K d _ n s1 batch (lookup_singleton_eq _ _) eq_refl Hnew)).
  - eapply rtc_l.
    { apply alone_step, (c_lock_tenants K d _ n s1 batch); [apply lookup_singleton_eq|done|].
      change (new_tenant_ids batch st ≠ []). by rewrite Hnew. }
    apply rtc_once, (alone_step K d n (goto (Locking d batch) s1)),
      (c_tenants_locked K d _ n (goto (Locking d batch) s1) d batch); [apply lookup_singleton_eq|done|].
    intros te' _ (m & s' & Hm & Hs & _). by apply lookup_singleton_Some in Hs as [<- _].
Qed.

Lemma alone_rounds K d n s l :
  cm_phase s = Selecting →
  ∃ k, rtc (cstep K) (d, {[ n := s ]})
    (d, {[ n := cm_at k
      (claim_rounds (with_locked l (cm_txn s)) d (cm_limit s) (cm_caps s) (cm_policy s) (cm_rounds s)
         (cm_state s)) Granting s ]}).
Proof.
  intros Hph. remember (cm_rounds s) as rounds eqn:Hr. revert s Hph Hr.
  induction rounds as [|rounds IH]; intros s Hph Hr.
  { exists (cm_rounds s). apply rtc_once, alone_step, c_rounds_over; [apply lookup_singleton_eq|done|by left]. }
  rewrite claim_rounds_round. cbv zeta. fold (need s). destruct (need s <=? 0) eqn:Hn; to_prop.
  { exists (cm_rounds s). apply rtc_once, alone_step, c_rounds_over; [apply lookup_singleton_eq|done|by right]. }
  fold (candidates_of l d s). destruct (candidates_of l d s) as [|r batch] eqn:Hc.
  { exists (cm_rounds s). apply rtc_once, alone_step.
    apply (c_no_candidates K d _ n s l); [apply lookup_singleton_eq|done|by rewrite <-Hr|lia| |done].
    by intros m s' Hm [<- _]%lookup_singleton_Some. }
  destruct (IH (cm_at rounds (spend_batch (cm_limit s) (r :: batch)
                 (learn_slack d (r :: batch) (seen_batch (r :: batch) (cm_state s)))) Selecting s)) as [k Hk];
    [done..|].
  exists k. etrans; [|exact Hk]. pose proof (alone_round K d n s l (r :: batch) Hph) as H.
  rewrite <-Hr in H. apply H; [done|lia|done|done].
Qed.

Lemma with_locked_self t : with_locked (locked t) t = t.
Proof. by destruct t. Qed.

Lemma claim_tasks_rounds w limit ttl p caps t d :
  claim_tasks w limit ttl p caps t d =
  grant_claimed w ttl (cl_claimed (claim_rounds t d limit caps p MAX_ROUNDS no_claim)) t d.
Proof. unfold claim_tasks. rewrite bind_run. cbn [ask]. rewrite bind_run. by cbn [get]. Qed.

(** Run by itself the machine is [claim_tasks]. *)
Lemma alone_is_claim_tasks K (n : nat) d w limit ttl p caps t rows d' :
  claim_tasks w limit ttl p caps t d = inr (rows, d') →
  rtc (cstep (S K)) (d, ∅) (d', ∅).
Proof.
  rewrite claim_tasks_rounds. intros H.
  destruct (alone_rounds (S K) d n (begin_claim w limit ttl p caps t) (locked t)) as [k Hk]; [done|].
  rewrite with_locked_self in Hk. cbn [cm_limit cm_caps cm_policy cm_rounds cm_state cm_txn begin_claim] in Hk.
  eapply rtc_l; [apply (c_begin _ d ∅ n w limit ttl p caps t); [done|rewrite map_size_empty; lia]|].
  rewrite insert_empty. etrans; [exact Hk|]. revert H. generalize (claim_rounds t d limit caps p MAX_ROUNDS no_claim).
  intros st H. apply rtc_once. set (s2 := cm_at _ _ _ _).
  assert ((d', ∅) = (d', delete n ({[ n := s2 ]} : claimers))) as -> by (by rewrite delete_singleton_eq).
  apply (c_commit (S K) d d' {[ n := s2 ]} n s2 rows); [apply lookup_singleton_eq|done|exact H].
Qed.

(** ** Counting *)

(** How many of [ids] are tasks of the tenant. *)
Definition of_tenant (d : db) (te i : uuid) : bool :=
  from_option (λ r : task_row, bool_decide (t_tenant_id r = te)) false (tasks d !! i).
Definition tally (d : db) (te : uuid) (ids : list uuid) : Z :=
  Z.of_nat (length (filter (λ i, of_tenant d te i = true) ids)).

Lemma tally_nonneg d te ids : 0 ≤ tally d te ids.
Proof. unfold tally. lia. Qed.

Lemma tally_app d te ids ids' : tally d te (ids ++ ids') = tally d te ids + tally d te ids'.
Proof. unfold tally. rewrite filter_app, length_app. lia. Qed.

Lemma tally_rows d te (rs : list task_row) :
  (∀ r : task_row, r ∈ rs → tasks d !! t_id r = Some r) → tally d te (ids_of rs) = tenant_count te rs.
Proof.
  induction rs as [|r rs IH]; intros H; [done|].
  assert (tally d te (ids_of rs) = tenant_count te rs) as IHr by (apply IH; intros r' Hr'; apply H; by right).
  change (ids_of (r :: rs)) with ([t_id r] ++ ids_of rs). rewrite tally_app, tenant_count_cons, IHr.
  f_equal. unfold tally. rewrite filter_cons. unfold of_tenant.
  rewrite (H r) by (by left). cbn [from_option].
  destruct (decide (t_tenant_id r = te)) as [E|E].
  - by rewrite (bool_decide_eq_true_2 _ E).
  - by rewrite (bool_decide_eq_false_2 _ E).
Qed.

Lemma tally_ext d d' te ids :
  (∀ i, i ∈ ids → tasks d' !! i = tasks d !! i) → tally d' te ids = tally d te ids.
Proof.
  intros H. unfold tally. do 2 f_equal. apply filter_ext_on. intros i Hi. unfold of_tenant. by rewrite H.
Qed.

Lemma running_count_nonneg d te : 0 ≤ running_count d te.
Proof. unfold running_count. lia. Qed.

(** The cap of a tenant; zero for one that is not there. *)
Definition cap_of (d : db) (te : uuid) : Z :=
  Z.max 0 (from_option te_max_concurrent_tasks 0 (tenants d !! te)).

Lemma slack0_cap d te :
  Z.max 0 (slack0 d te) = 0 ∨ running_count d te + Z.max 0 (slack0 d te) ≤ cap_of d te.
Proof.
  unfold slack0, tenant_slack, cap_of. destruct (tenants d !! te) as [tr|]; simpl; [|by left]. lia.
Qed.

(** Sums over the open claims. *)
Definition total (f : claimer → Z) (ss : claimers) : Z := foldr Z.add 0 (f <$> rows ss).

Lemma sum_perm (l l' : list Z) : l ≡ₚ l' → foldr Z.add 0 l = foldr Z.add 0 l'.
Proof. induction 1; simpl; lia. Qed.

Lemma total_delete f ss n s : ss !! n = Some s → total f ss = f s + total f (delete n ss).
Proof. intros H. unfold total. by rewrite (sum_perm _ _ (fmap_Permutation f _ _ (rows_delete ss n s H))). Qed.

Lemma total_insert f ss n s : total f (<[n := s]> ss) = f s + total f (delete n ss).
Proof. unfold total. by rewrite (sum_perm _ _ (fmap_Permutation f _ _ (rows_insert ss n s))). Qed.

Lemma total_update f ss n s s' :
  ss !! n = Some s → total f (<[n := s']> ss) = total f ss + (f s' - f s).
Proof. intros H. rewrite total_insert, (total_delete _ _ _ _ H). lia. Qed.

Lemma total_new f ss n s : ss !! n = None → total f (<[n := s]> ss) = f s + total f ss.
Proof. intros H. by rewrite total_insert, delete_id. Qed.

Lemma total_le f g ss : (∀ n s, ss !! n = Some s → f s ≤ g s) → total f ss ≤ total g ss.
Proof.
  intros H. unfold total. assert (∀ s, s ∈ rows ss → f s ≤ g s) as Hr by (intros s [n Hn]%elem_of_rows; eauto).
  induction (rows ss) as [|s l IH]; [done|]. rewrite !fmap_cons. cbn [foldr].
  assert (f s ≤ g s) by (apply Hr; by left). assert (foldr Z.add 0 (f <$> l) ≤ foldr Z.add 0 (g <$> l)); [|lia].
  apply IH. intros s' Hs'. apply Hr. by right.
Qed.

Lemma total_const C ss : total (λ _, C) ss = Z.of_nat (size ss) * C.
Proof.
  unfold total, rows. rewrite <-length_map_to_list. induction (map_to_list ss) as [|x l IH]; [done|].
  rewrite !fmap_cons. cbn [foldr length]. rewrite IH. lia.
Qed.

(** ** Only claims raise a tenant's running count *)

Lemma select_le (p : task_row → bool) d d' :
  ids_ok d → ids_ok d' →
  (∀ i (r' : task_row), tasks d' !! i = Some r' → p r' = true →
     ∃ r : task_row, tasks d !! i = Some r ∧ p r = true) →
  (length (select p (tasks d')) ≤ length (select p (tasks d)))%nat.
Proof.
  intros Hids Hids' H. rewrite <-(length_fmap (λ r : task_row, t_id r) (select p (tasks d'))),
    <-(length_fmap (λ r : task_row, t_id r) (select p (tasks d))).
  apply submseteq_length, NoDup_submseteq; [by apply select_ids_NoDup|].
  intros i (r' & -> & (Hp & k & Hk)%elem_of_select)%list_elem_of_fmap.
  pose proof (Hids' _ _ Hk) as <-. destruct (H _ _ Hk Hp) as (r & Hr & Hpr).
  apply list_elem_of_fmap. exists r. split; [by rewrite (Hids _ _ Hr)|]. apply elem_of_select. eauto.
Qed.

Lemma running_not_started i d d' (r' : task_row) :
  tstep i d d' → starts_nothing d d' → tasks d' !! i = Some r' → t_state r' = State.RUNNING →
  ∃ r : task_row, tasks d !! i = Some r ∧ t_state r = State.RUNNING ∧ t_tenant_id r' = t_tenant_id r.
Proof.
  intros Ht Hno Hr' Hs. destruct Ht as
    [evs Hrow|r r0 evs Hr Hr0 Htch|r0 e Hn Hr0 Hf|w r r0 e at_ Hr Hr0 Hst
    |to o r r0 e evs Hr Hr0 Hl|r r0 e Hr Hr0 Hst]; simplify_eq.
  - rewrite Hrow in Hr'. eauto.
  - destruct Htch as (Hsp & _ & _ & _ & _ & _ & _ & Hrun & _). exists r. by rewrite Hsp.
  - destruct Hf as (_ & Hq & _). congruence.
  - destruct Hst as (_ & _ & _ & Ha & _). specialize (Hno _ _ _ Hr Hr0). lia.
  - destruct Hl as (_ & _ & Hto & Hleg & _). rewrite Hs in Hto. by subst to.
  - destruct Hst as (_ & _ & Hc & _). congruence.
Qed.

Lemma running_falls t d d' te :
  inv d → step t d d' → starts_nothing d d' → running_count d' te ≤ running_count d te.
Proof.
  intros Hinv Hst Hno. unfold running_count. apply Nat2Z.inj_le, select_le.
  - by apply inv_ids.
  - by eapply inv_ids, inv_step.
  - intros i r' Hr' [Ht%bool_decide_eq_true Hs%bool_decide_eq_true]%andb_true_iff.
    destruct (running_not_started i d d' r') as (r & Hr & Hrun & Hte); [by eapply step_tstep|done..|].
    exists r. split; [done|]. by rewrite <-Hte, Ht, Hrun, !bool_decide_eq_true_2.
Qed.

Lemma step_cap t d d' te : step t d d' → cap_of d te ≤ cap_of d' te.
Proof.
  intros [Heq|(name & mc & mq & row & (_ & -> & Hn & _)%create_tenant_inv)]%step_tenants; unfold cap_of.
  - by rewrite Heq.
  - simpl. destruct (decide (new_uuid t = te)) as [<-|Hne].
    + rewrite Hn. simpl. lia.
    + by rewrite lookup_insert_ne.
Qed.

(** ** The invariant *)

Definition batch_of (ph : claim_phase) : list task_row :=
  match ph with Selected batch | Locking _ batch => batch | Selecting | Granting => [] end.

(** What the slack statement under way will bring. *)
Definition asked (te : uuid) (s : claimer) : Z :=
  match cm_phase s with
  | Locking snapshot batch =>
      if decide (te ∈ new_tenant_ids batch (cm_state s)) then Z.max 0 (slack0 snapshot te) else 0
  | _ => 0
  end.

(** What a claim has taken of a tenant or may still take. *)
Definition budget (d : db) (te : uuid) (s : claimer) : Z :=
  tally d te (cl_claimed (cm_state s)) + Z.max 0 (slack_of (cl_slack (cm_state s)) te) + asked te s.

(** Claimed and left over, per tenant. *)
Record state_ok (d : db) (st : claim_state) : Prop := {
  so_nodup : NoDup (cl_claimed st);
  so_seen : ∀ i, i ∈ cl_claimed st → i ∈ cl_seen st;
  so_unknown : ∀ te, te ∉ cl_known st → slack_of (cl_slack st) te = 0 ∧ tally d te (cl_claimed st) = 0;
  so_owed : ∀ te, tally d te (cl_claimed st) = 0 ∨ 0 ≤ slack_of (cl_slack st) te;
}.

Record claimer_ok (d : db) (s : claimer) : Prop := {
  ck_state : state_ok d (cm_state s);
  ck_length : Z.of_nat (length (cl_claimed (cm_state s))) ≤ Z.max (cm_limit s) 0;
  ck_rows : ∀ i, i ∈ cl_seen (cm_state s) → ∃ r : task_row, tasks d !! i = Some r ∧
    t_state r = State.QUEUED ∧ t_available_at r ≤ now (cm_txn s) ∧ claim_eligible (cm_caps s) r = true;
  ck_batch : ∀ r : task_row, r ∈ batch_of (cm_phase s) → tasks d !! t_id r = Some r ∧
    t_id r ∈ cl_seen (cm_state s) ∧ t_id r ∉ cl_claimed (cm_state s);
  ck_batch_nodup : NoDup (batch_of (cm_phase s));
  ck_budget : ∀ te, budget d te s ≤ cap_of d te;
}.

(** It only looks at the rows it has locked. *)
Lemma claimer_ok_same d d' s :
  claimer_ok d s → (∀ i, i ∈ cl_seen (cm_state s) → tasks d' !! i = tasks d !! i) →
  (∀ te, cap_of d te ≤ cap_of d' te) →
  claimer_ok d' s ∧ ∀ te, budget d' te s = budget d te s.
Proof.
  intros [[Hnd Hseen Hun Ho] Hl Hr Hb Hbn Hbud] Hsame Hcap.
  assert (∀ te, tally d' te (cl_claimed (cm_state s)) = tally d te (cl_claimed (cm_state s))) as Ht.
  { intros te. apply tally_ext. auto. }
  assert (∀ te, budget d' te s = budget d te s) as Hbs by (intros te; unfold budget; by rewrite Ht).
  split; [|done]. split; [split|..]; try done.
  - intros te. rewrite Ht. apply Hun.
  - intros te. rewrite Ht. apply Ho.
  - intros i Hi. rewrite Hsame by done. auto.
  - intros r Hin. destruct (Hb r Hin) as (? & ? & ?). by rewrite Hsame.
  - intros te. rewrite Hbs. etrans; [apply Hbud|apply Hcap].
Qed.

(** Learning brings what was asked for. *)
Lemma learn_ok d snapshot batch st te :
  state_ok d st →
  let st' := learn_slack snapshot batch st in
  state_ok d st' ∧
  slack_of (cl_slack st') te
  = (if decide (te ∈ new_tenant_ids batch st) then slack0 snapshot te else slack_of (cl_slack st) te) ∧
  (te ∈ new_tenant_ids batch st → slack_of (cl_slack st) te = 0 ∧ tally d te (cl_claimed st) = 0).
Proof.
  intros [Hnd Hseen Hun Ho]. cbv zeta.
  assert (∀ te, te ∈ new_tenant_ids batch st → te ∉ cl_known st) as Hnew.
  { intros te'. unfold new_tenant_ids. by intros [? _]%list_elem_of_filter. }
  assert (∀ te, slack_of (cl_slack (learn_slack snapshot batch st)) te
    = (if decide (te ∈ new_tenant_ids batch st) then slack0 snapshot te else slack_of (cl_slack st) te)) as Hs.
  { intros te'. simpl. case_decide as Hin; [|by apply learn_slack_of_ne].
    rewrite learn_slack_of by (by apply Hun, Hnew). by rewrite decide_True. }
  split; [|split; [apply Hs|intros Hin; by apply Hun, Hnew]].
  split; [done|done| |].
  - intros te' Hk. simpl in Hk. rewrite not_elem_of_union, elem_of_list_to_set in Hk.
    destruct Hk as [Hk Hin]. rewrite Hs, decide_False by done. by apply Hun.
  - intros te'. rewrite Hs. case_decide as Hin; [left; by apply Hun, Hnew|apply Ho].
Qed.

(** Spending moves slack into claimed tasks, one for one. *)
Lemma spend_ok d limit batch st :
  state_ok d st → NoDup (ids_of batch) → Z.of_nat (length (cl_claimed st)) ≤ Z.max limit 0 →
  (∀ r : task_row, r ∈ batch → tasks d !! t_id r = Some r ∧ t_id r ∈ cl_seen st ∧
     (t_id r ∉ cl_claimed st) ∧ t_tenant_id r ∈ cl_known st) →
  let st' := spend_batch limit batch st in
  state_ok d st' ∧ cl_seen st' = cl_seen st ∧
  Z.of_nat (length (cl_claimed st')) ≤ Z.max limit 0 ∧
  ∀ te, tally d te (cl_claimed st') + Z.max 0 (slack_of (cl_slack st') te)
        = tally d te (cl_claimed st) + Z.max 0 (slack_of (cl_slack st) te).
Proof.
  intros [Hnd Hseen Hun Ho] Hbn Hlen Hb. cbv zeta. unfold spend_batch.
  destruct (spend_spec limit batch (cl_claimed st) (cl_slack st)) as (rs & Hsub & Hc & Hs & Hnn & Hl).
  destruct (spend _ _ _ _) as [claimed slack]. simpl in *. subst claimed.
  assert (∀ r : task_row, r ∈ rs → r ∈ batch) as Hin.
  { intros r Hr. by eapply elem_of_submseteq; [|apply sublist_submseteq]. }
  assert (∀ te, tally d te (ids_of rs) = tenant_count te rs) as Ht.
  { intros te. apply tally_rows. intros r Hr%Hin. by apply Hb. }
  split; [|split; [done|split]].
  - split; simpl.
    + apply NoDup_app. split; [done|]. split.
      * intros i Hi (r & -> & Hr%Hin)%list_elem_of_fmap. by apply Hb in Hr as (_ & _ & ? & _).
      * eapply sublist_NoDup; [exact Hbn|]. by apply fmap_sublist.
    + intros i [Hi|(r & -> & Hr%Hin)%list_elem_of_fmap]%elem_of_app; [by apply Hseen|].
      by apply Hb in Hr as (_ & ? & _).
    + intros te Hte. destruct (Hun te Hte) as [Hz Hc0].
      assert (tenant_count te rs = 0) as Hzero.
      { destruct (decide (tenant_count te rs = 0)) as [|Hne]; [done|].
        apply tenant_count_pos in Hne as (r & Hr%Hin & <-). by apply Hb in Hr as (_ & _ & _ & ?). }
      rewrite tally_app, Ht, Hs, Hz, Hc0, Hzero. done.
    + intros te. rewrite tally_app, Ht, Hs. specialize (Ho te). specialize (Hnn te). lia.
  - rewrite length_app. unfold ids_of. rewrite length_fmap. lia.
  - intros te. rewrite tally_app, Ht, Hs. specialize (Ho te). specialize (Hnn te).
    pose proof (tenant_count_nonneg te rs). lia.
Qed.

(** *** One step of a claim *)

Lemma batch_ids_NoDup d (batch : list task_row) :
  NoDup batch → (∀ r : task_row, r ∈ batch → tasks d !! t_id r = Some r) → NoDup (ids_of batch).
Proof.
  intros Hnd Hr. apply NoDup_fmap_2_strong; [|done]. intros r1 r2 H1%Hr H2%Hr Heq.
  rewrite Heq in H1. congruence.
Qed.

Lemma rounds_over_ok d s :
  claimer_ok d s → cm_phase s = Selecting →
  claimer_ok d (goto Granting s) ∧ ∀ te, budget d te (goto Granting s) = budget d te s.
Proof.
  intros [Hst Hl Hr Hb Hbn Hbud] Hph.
  assert (∀ te, budget d te (goto Granting s) = budget d te s) as Heq.
  { intros te. unfold budget, asked. by rewrite Hph. }
  split; [|done]. split; simpl; [done|done|done| |constructor|].
  - by intros r ?%not_elem_of_nil.
  - intros te. by rewrite Heq.
Qed.

Lemma select_ok d s l batch :
  ids_ok d → claimer_ok d s → cm_phase s = Selecting → candidates_of l d s = batch →
  let s' := cm_at (pred (cm_rounds s)) (seen_batch batch (cm_state s)) (Selected batch) s in
  claimer_ok d s' ∧ (∀ te, budget d te s' = budget d te s) ∧
  ∀ i, i ∈ cl_seen (cm_state s') → i ∈ cl_seen (cm_state s) ∨ i ∉ l.
Proof.
  intros Hids [[Hnd Hseen Hun Ho] Hl Hr Hb Hbn Hbud] Hph Hc. cbv zeta.
  assert (∀ r : task_row, r ∈ batch → tasks d !! t_id r = Some r ∧ t_state r = State.QUEUED ∧
    t_available_at r ≤ now (cm_txn s) ∧ (t_id r ∉ cl_seen (cm_state s)) ∧ (t_id r ∉ l) ∧
    claim_eligible (cm_caps s) r = true) as Hbatch.
  { intros r Hin. rewrite <-Hc in Hin. unfold candidates_of in Hin.
    apply fetch_batch in Hin; [|done]. by apply elem_of_candidates in Hin. }
  assert (∀ te, budget d te (cm_at (pred (cm_rounds s)) (seen_batch batch (cm_state s)) (Selected batch) s)
    = budget d te s) as Heq by (intros te; unfold budget, asked; by rewrite Hph).
  assert (∀ i, i ∈ cl_seen (seen_batch batch (cm_state s)) →
    i ∈ cl_seen (cm_state s) ∨ ∃ r : task_row, r ∈ batch ∧ i = t_id r) as Hsplit.
  { intros i. simpl. rewrite elem_of_union, elem_of_list_to_set, list_elem_of_fmap.
    intros [?|(r & -> & ?)]; [by left|right]. by exists r. }
  split; [|split; [done|]].
  2: { simpl. intros i [?|(r & Hin & ->)]%Hsplit; [by left|right]. by apply Hbatch. }
  split; simpl.
  - split; simpl; [done| |done|done]. intros i Hi. apply elem_of_union. left. by apply Hseen.
  - done.
  - intros i [Hi|(r & Hin & ->)]%Hsplit; [by apply Hr|]. exists r. by apply Hbatch in Hin as (? & ? & ? & _ & _ & ?).
  - intros r Hin. pose proof (Hbatch r Hin) as (Hrow & _ & _ & Hns & _). split; [done|]. split.
    + apply elem_of_union. right. apply elem_of_list_to_set, list_elem_of_fmap. by exists r.
    + intros Hcl. by apply Hns, Hseen.
  - rewrite <-Hc. unfold candidates_of. by apply fetch_NoDup.
  - intros te. rewrite Heq. apply Hbud.
Qed.

Lemma lock_tenants_ok d s batch :
  claimer_ok d s → cm_phase s = Selected batch →
  claimer_ok d (goto (Locking d batch) s) ∧
  ∀ te, budget d te (goto (Locking d batch) s) = budget d te s ∨
        running_count d te + budget d te (goto (Locking d batch) s) ≤ cap_of d te.
Proof.
  intros [[Hnd Hseen Hun Ho] Hl Hr Hb Hbn Hbud] Hph.
  assert (∀ te, budget d te (goto (Locking d batch) s) = budget d te s ∨
        running_count d te + budget d te (goto (Locking d batch) s) ≤ cap_of d te) as Heq.
  { intros te. unfold budget, asked. rewrite Hph. simpl. case_decide as Hin; [|by left].
    unfold new_tenant_ids in Hin. apply list_elem_of_filter in Hin as [Hk _].
    destruct (Hun te Hk) as [-> ->]. destruct (slack0_cap d te); [left|right]; lia. }
  split; [|done]. rewrite Hph in Hb, Hbn. split; simpl; try done.
  intros te. destruct (Heq te) as [->|H]; [done|]. pose proof (running_count_nonneg d te). lia.
Qed.

(** The loop over a batch, with the slack as it is known by then. *)
Lemma spent_ok d s st :
  claimer_ok d s → state_ok d st → cl_claimed st = cl_claimed (cm_state s) →
  cl_seen st = cl_seen (cm_state s) →
  (∀ r : task_row, r ∈ batch_of (cm_phase s) → t_tenant_id r ∈ cl_known st) →
  (∀ te, tally d te (cl_claimed st) + Z.max 0 (slack_of (cl_slack st) te) = budget d te s) →
  let s' := cm_at (cm_rounds s) (spend_batch (cm_limit s) (batch_of (cm_phase s)) st) Selecting s in
  claimer_ok d s' ∧ cl_seen (cm_state s') = cl_seen (cm_state s) ∧
  ∀ te, budget d te s' = budget d te s.
Proof.
  intros [Hst0 Hl Hr Hb Hbn Hbud] Hst Hcl Hse Hkn Hsum. cbv zeta.
  destruct (spend_ok d (cm_limit s) (batch_of (cm_phase s)) st) as (Hst' & Hse' & Hl' & Hsum'); [done| | | |].
  { apply (batch_ids_NoDup d); [done|]. intros r Hin. by apply Hb. }
  { by rewrite Hcl. }
  { intros r Hin. rewrite Hcl, Hse. destruct (Hb r Hin) as (? & ? & ?). auto. }
  assert (∀ te, budget d te (cm_at (cm_rounds s) (spend_batch (cm_limit s) (batch_of (cm_phase s)) st)
    Selecting s) = budget d te s) as Heq.
  { intros te. unfold budget at 1, asked. simpl. rewrite Hsum', Hsum. lia. }
  split; [|split; [|done]]; [split|]; simpl; try done.
  - intros i Hi. rewrite Hse', Hse in Hi. by apply Hr.
  - by intros r ?%not_elem_of_nil.
  - constructor.
  - intros te. by rewrite Heq.
  - by rewrite Hse'.
Qed.

Lemma all_known_ok d s batch :
  claimer_ok d s → cm_phase s = Selected batch → new_tenant_ids batch (cm_state s) = [] →
  let s' := cm_at (cm_rounds s) (spend_batch (cm_limit s) batch (cm_state s)) Selecting s in
  claimer_ok d s' ∧ cl_seen (cm_state s') = cl_seen (cm_state s) ∧ ∀ te, budget d te s' = budget d te s.
Proof.
  intros Hok Hph Hnew. pose proof (spent_ok d s (cm_state s) Hok) as H. rewrite Hph in H. simpl in H.
  apply H; [apply Hok|done|done| |].
  - intros r Hin. destruct (decide (t_tenant_id r ∈ cl_known (cm_state s))) as [|Hk]; [done|].
    exfalso. apply (not_elem_of_nil (t_tenant_id r)). rewrite <-Hnew. apply elem_of_new_tenants. eauto.
  - intros te. unfold budget, asked. rewrite Hph. lia.
Qed.

Lemma tenants_locked_ok d s snapshot batch :
  claimer_ok d s → cm_phase s = Locking snapshot batch →
  let s' := cm_at (cm_rounds s)
              (spend_batch (cm_limit s) batch (learn_slack snapshot batch (cm_state s))) Selecting s in
  claimer_ok d s' ∧ cl_seen (cm_state s') = cl_seen (cm_state s) ∧ ∀ te, budget d te s' = budget d te s.
Proof.
  intros Hok Hph. pose proof (spent_ok d s (learn_slack snapshot batch (cm_state s)) Hok) as H.
  rewrite Hph in H. simpl in H. pose proof (λ te, learn_ok d snapshot batch (cm_state s) te (ck_state _ _ Hok)) as Hl.
  cbv zeta in Hl. apply H; [apply (Hl 0%N)|done|done| |].
  - intros r Hin. rewrite elem_of_union, elem_of_list_to_set, elem_of_new_tenants.
    destruct (decide (t_tenant_id r ∈ cl_known (cm_state s))); [by left|right]. eauto.
  - intros te. destruct (Hl te) as (_ & Hs & Hnew). simpl in Hs. rewrite Hs. unfold budget, asked. rewrite Hph.
    case_decide as Hin; [|lia]. destruct (Hnew Hin) as [-> ->]. lia.
Qed.

Lemma claimed_chosen d s :
  claimer_ok d s → chosen (cm_txn s) d (cm_limit s) (cm_caps s) (cl_claimed (cm_state s)).
Proof.
  intros [[Hnd Hseen _ _] Hl Hr _ _ _]. split; [done|]. split; [done|]. intros i Hi%Hseen. by apply Hr.
Qed.

Section race.
Context (K : nat) (d0 : db).
Hypothesis Hd0 : reachable d0.

Record race_ok (x : db * claimers) : Prop := {
  rk_steps : steps d0 x.1;
  rk_claimer : ∀ n s, x.2 !! n = Some s → claimer_ok x.1 s;
  rk_apart : ∀ n m s s', n ≠ m → x.2 !! n = Some s → x.2 !! m = Some s' →
    cl_seen (cm_state s) ## cl_seen (cm_state s');
  rk_size : (size x.2 ≤ K)%nat;
  rk_potential : ∀ te, running_count x.1 te + total (budget x.1 te) x.2
    ≤ Z.max (running_count d0 te) (Z.of_nat K * cap_of x.1 te);
}.

Lemma race_inv x : race_ok x → inv x.1.
Proof using Hd0. intros H. apply inv_reachable. eapply steps_trans; [exact Hd0|apply H]. Qed.

Lemma budget_nonneg d te s : 0 ≤ budget d te s.
Proof using.
  unfold budget, asked. pose proof (tally_nonneg d te (cl_claimed (cm_state s))).
  destruct (cm_phase s); try case_decide; lia.
Qed.

Lemma race_delete d ss n : race_ok (d, ss) → race_ok (d, delete n ss).
Proof using.
  intros [Hs Hc Ha Hz Hp]. simpl in *. split; simpl; [done| | | |].
  - intros m s [_ Hm]%lookup_delete_Some. by eapply Hc.
  - intros m k s s' Hne [_ Hm]%lookup_delete_Some [_ Hk]%lookup_delete_Some. by eapply Ha.
  - etrans; [|exact Hz]. apply map_subseteq_size, delete_subseteq.
  - intros te. specialize (Hp te). destruct (ss !! n) as [s|] eqn:Hn; [|by rewrite delete_id].
    rewrite (total_delete _ _ _ _ Hn) in Hp. pose proof (budget_nonneg d te s). lia.
Qed.

(** Room for one more claim that reads the tenant now. *)
Lemma others_le d ss n s te :
  race_ok (d, ss) → ss !! n = Some s →
  cap_of d te + total (budget d te) (delete n ss) ≤ Z.of_nat K * cap_of d te.
Proof using.
  intros [_ Hc _ Hz _] Hn. simpl in *. assert (0 ≤ cap_of d te) by (unfold cap_of; lia).
  etrans; [apply Z.add_le_mono_l, (total_le _ (λ _, cap_of d te))|].
  { intros m s' [_ Hm]%lookup_delete_Some. by apply (ck_budget _ _ (Hc _ _ Hm)). }
  rewrite total_const. rewrite map_size_delete_Some by eauto.
  assert (size ss ≠ 0%nat) by (intros Hz0%map_size_empty_inv; by rewrite Hz0 in Hn). nia.
Qed.

(** A claim moves on by itself. *)
Lemma race_update d ss n s s' :
  race_ok (d, ss) → ss !! n = Some s → claimer_ok d s' →
  (∀ m s1, m ≠ n → ss !! m = Some s1 → cl_seen (cm_state s') ## cl_seen (cm_state s1)) →
  (∀ te, budget d te s' = budget d te s ∨ running_count d te + budget d te s' ≤ cap_of d te) →
  race_ok (d, <[n := s']> ss).
Proof using.
  intros Hok Hn Hs' Hap Hbud. pose proof Hok as [Hs Hc Ha Hz Hp]. simpl in *.
  split; simpl; [done| | | |].
  - intros m s1 [[-> <-]|[_ Hm]]%lookup_insert_Some; [done|by eapply Hc].
  - intros m k s1 s2 Hne [[<- <-]|[Hnm Hm]]%lookup_insert_Some [[<- <-]|[Hnk Hk]]%lookup_insert_Some.
    + by destruct Hne.
    + by apply (Hap k).
    + symmetry. by apply (Hap m).
    + exact (Ha m k s1 s2 Hne Hm Hk).
  - rewrite map_size_insert_Some; [done|eauto].
  - intros te. destruct (Hbud te) as [Heq|Hle].
    + rewrite (total_update _ _ _ s) by done. specialize (Hp te). lia.
    + rewrite total_insert. pose proof (others_le d ss n s te Hok Hn). lia.
Qed.

Lemma race_begin d ss n w limit ttl p caps t :
  race_ok (d, ss) → ss !! n = None → (size ss < K)%nat →
  race_ok (d, <[n := begin_claim w limit ttl p caps t]> ss).
Proof using Hd0.
  intros [Hs Hc Ha Hz Hp] Hn Hk. simpl in *.
  assert (∀ te, budget d te (begin_claim w limit ttl p caps t) = 0) as Hb by done.
  split; simpl; [done| | | |].
  - intros m s [[-> <-]|[_ Hm]]%lookup_insert_Some; [|by apply (Hc m)].
    assert (∀ (X : Type) (P : X → Prop), ∀ x, x ∈ [] → P x) as Hnil by by intros X P x ?%not_elem_of_nil.
    split; simpl; [split; simpl|..].
    + constructor.
    + apply Hnil.
    + done.
    + by left.
    + lia.
    + intros i Hi. by apply not_elem_of_empty in Hi.
    + apply Hnil.
    + constructor.
    + intros te. rewrite Hb. unfold cap_of. lia.
  - intros m k s1 s2 Hne [[<- <-]|[Hnm Hm]]%lookup_insert_Some [[<- <-]|[Hnk Hk']]%lookup_insert_Some.
    + by destruct Hne.
    + simpl. set_solver.
    + simpl. clear -Ha. set_solver.
    + exact (Ha m k s1 s2 Hne Hm Hk').
  - rewrite map_size_insert_None by done. lia.
  - intros te. rewrite total_new, Hb by done. apply Hp.
Qed.

(** The tables move; the claims' rows do not. *)
Lemma race_moves d d' ss :
  race_ok (d, ss) → steps d0 d' → (∀ te, cap_of d te ≤ cap_of d' te) →
  (∀ n s i, ss !! n = Some s → i ∈ cl_seen (cm_state s) → tasks d' !! i = tasks d !! i) →
  (∀ te, running_count d' te + total (budget d te) ss
         ≤ Z.max (running_count d0 te) (Z.of_nat K * cap_of d te)) →
  race_ok (d', ss).
Proof using.
  intros [Hs Hc Ha Hz Hp] Hs' Hcap Hsame Hpot. simpl in *.
  assert (∀ n s, ss !! n = Some s → claimer_ok d' s ∧ ∀ te, budget d' te s = budget d te s) as Hc'.
  { intros n s Hn. apply claimer_ok_same; [by apply (Hc n)|intros i; by apply (Hsame n)|done]. }
  split; simpl; [done| |done|done|].
  - intros n s Hn. by apply (Hc' n).
  - intros te. specialize (Hpot te). specialize (Hcap te).
    assert (total (budget d' te) ss ≤ total (budget d te) ss) as Hle.
    { apply total_le. intros n s Hn. destruct (Hc' n s Hn) as [_ ->]. lia. }
    assert (Z.of_nat K * cap_of d te ≤ Z.of_nat K * cap_of d' te) by (apply Z.mul_le_mono_nonneg_l; lia).
    lia.
Qed.
Lemma commit_ok d d' ss n s rows :
  race_ok (d, ss) → ss !! n = Some s →
  grant_claimed (cm_worker s) (cm_ttl s) (cl_claimed (cm_state s)) (cm_txn s) d = inr (rows, d') →
  race_ok (d', delete n ss).
Proof using Hd0.
  intros Hok Hn Hg. pose proof Hok as [Hs Hc Ha Hz Hp]. simpl in *.
  pose proof (inv_ids _ (race_inv _ Hok)) as Hids. simpl in Hids.
  pose proof (claimed_chosen d s (Hc _ _ Hn)) as Hch.
  pose proof (step_grant _ _ _ _ _ _ _ _ _ Hch Hg) as Hst.
  apply (chosen_inv _ _ (cm_limit s) (cm_caps s)) in Hg as (rs & Hcl & Ht & Hq & -> & -> & _); [|done..].
  apply (race_moves d); [by apply race_delete|by eapply steps_snoc| | |].
  - intros te. unfold cap_of. by rewrite claimed_tenants.
  - intros m s' i [Hne Hm]%lookup_delete_Some Hi. rewrite claimed_tasks, lookup_update_where.
    destruct (tasks d !! i) as [r|] eqn:Hr; [|done]. simpl.
    rewrite (Hids _ _ Hr), bool_decide_eq_false_2; [done|]. rewrite <-Hcl. intros Hin.
    apply (Ha n m s s' Hne Hn Hm i); [|done]. by apply (so_seen _ _ (ck_state _ _ (Hc _ _ Hn))).
  - intros te. rewrite running_count_claimed; [|done|by eapply NoDup_fmap_1, (proj1 Ht)|].
    2: { intros r Hr. split; [by apply (proj2 Ht)|auto]. }
    rewrite <-(tally_rows d) by (apply (proj2 Ht)). rewrite <-Hcl. specialize (Hp te).
    rewrite (total_delete _ _ _ _ Hn) in Hp. unfold budget at 1 in Hp.
    assert (0 ≤ asked te s) by (unfold asked; destruct (cm_phase s); try case_decide; lia). lia.
Qed.

Lemma race_step x y : race_ok x → cstep K x y → race_ok y.
Proof using Hd0.
  intros Hok Hst. destruct Hst as [d ss n w limit ttl p caps t Hn Hk|d ss n s Hn Hph Hover
    |d ss n s l Hn Hph Hr Hneed Hskip Hc|d ss n s l batch Hn Hph Hr Hneed Hskip Hc Hne
    |d ss n s batch Hn Hph Hnew|d ss n s batch Hn Hph Hnew|d ss n s snapshot batch Hn Hph Hfree
    |d d' ss n s rows Hn Hph Hg|d ss n|d d' ss t Hst Hno Hsame];
    try (pose proof (rk_claimer _ Hok n s Hn) as Hs; simpl in Hs);
    try (pose proof (inv_ids _ (race_inv _ Hok)) as Hids; simpl in Hids).
  - by apply race_begin.
  - destruct (rounds_over_ok d s Hs Hph) as [Hs' Hb]. apply (race_update _ _ _ s); [done..| |auto].
    intros m s1 Hm Hs1. exact (rk_apart _ Hok n m s s1 (not_eq_sym Hm) Hn Hs1).
  - destruct (rounds_over_ok d s Hs Hph) as [Hs' Hb]. apply (race_update _ _ _ s); [done..| |auto].
    intros m s1 Hm Hs1. exact (rk_apart _ Hok n m s s1 (not_eq_sym Hm) Hn Hs1).
  - destruct (select_ok d s l batch Hids Hs Hph Hc) as (Hs' & Hb & Hseen).
    apply (race_update _ _ _ s); [done..| |auto]. intros m s1 Hm Hs1 i [Hi|Hi]%Hseen Hi1.
    + exact (rk_apart _ Hok n m s s1 (not_eq_sym Hm) Hn Hs1 i Hi Hi1).
    + by apply Hi, (Hskip m s1 Hm Hs1).
  - destruct (all_known_ok d s batch Hs Hph Hnew) as (Hs' & Hseen & Hb).
    apply (race_update _ _ _ s); [done..| |auto]. intros m s1 Hm Hs1. rewrite Hseen.
    exact (rk_apart _ Hok n m s s1 (not_eq_sym Hm) Hn Hs1).
  - destruct (lock_tenants_ok d s batch Hs Hph) as [Hs' Hb]. apply (race_update _ _ _ s); [done..| |auto].
    intros m s1 Hm Hs1. exact (rk_apart _ Hok n m s s1 (not_eq_sym Hm) Hn Hs1).
  - destruct (tenants_locked_ok d s snapshot batch Hs Hph) as (Hs' & Hseen & Hb).
    apply (race_update _ _ _ s); [done..| |auto]. intros m s1 Hm Hs1. rewrite Hseen.
    exact (rk_apart _ Hok n m s s1 (not_eq_sym Hm) Hn Hs1).
  - by eapply commit_ok.
  - by apply race_delete.
  - pose proof Hok as [Hs0 _ _ _ Hp]. simpl in *.
    apply (race_moves d); [done|by eapply steps_snoc|intros te; by eapply step_cap|done|].
    intros te. specialize (Hp te). pose proof (running_falls t d d' te (race_inv _ Hok) Hst Hno). lia.
Qed.

Lemma race_start : race_ok (d0, ∅).
Proof using.
  split; simpl; [apply steps_refl|done|done|rewrite map_size_empty; lia|].
  intros te. unfold total, rows. rewrite map_to_list_empty. simpl. lia.
Qed.

Lemma race_reach x : rtc (cstep K) (d0, ∅) x → race_ok x.
Proof using Hd0. revert x. apply rtc_ind_r; [apply race_start|]. intros x y _ Hs Hx. by eapply race_step. Qed.
End race.

(** ** Properties *)

(** C22: claims do not collide. Let any number of workers claim at once,
    statement by statement and in any order, next to any other transactions
    that leave locked rows alone. From a reachable state the committed tables
    are reachable by whole transactions. No two claims hold the same task. A
    claim about to write holds distinct tasks, no more than its limit, each
    still QUEUED, due and right for its worker; so its UPDATE and inserts go
    through, no attempt number being taken, whenever its worker is registered,
    its lease would end before the year 10000 and no task has spent all the
    attempt numbers there are. *)
Theorem claims_do_not_collide K d0 d ss :
  reachable d0 → rtc (cstep K) (d0, ∅) (d, ss) →
  reachable d ∧
  (∀ n m s s', n ≠ m → ss !! n = Some s → ss !! m = Some s' →
     cl_seen (cm_state s) ## cl_seen (cm_state s')) ∧
  ∀ n s, ss !! n = Some s →
    (∀ i, i ∈ cl_claimed (cm_state s) → i ∈ cl_seen (cm_state s)) ∧
    chosen (cm_txn s) d (cm_limit s) (cm_caps s) (cl_claimed (cm_state s)) ∧
    (is_Some (workers d !! cm_worker s) → ttl_fits (cm_txn s) (cm_ttl s) = true →
     (∀ i (r : task_row), tasks d !! i = Some r → t_state r = State.QUEUED → t_attempt r < int4_max) →
     ∃ rows d', ids_of rows = cl_claimed (cm_state s) ∧
       grant_claimed (cm_worker s) (cm_ttl s) (cl_claimed (cm_state s)) (cm_txn s) d = inr (rows, d')).
Proof.
  intros Hd0 Hrun. pose proof (race_reach K d0 Hd0 _ Hrun) as Hok.
  pose proof (race_inv K d0 Hd0 _ Hok) as Hinv. simpl in Hinv. pose proof (inv_ids _ Hinv) as Hids.
  split; [eapply steps_trans; [exact Hd0|apply (rk_steps _ _ _ Hok)]|].
  split; [apply (rk_apart _ _ _ Hok)|]. intros n s Hn. pose proof (rk_claimer _ _ _ Hok n s Hn) as Hs.
  simpl in Hs. split; [apply (so_seen _ _ (ck_state _ _ Hs))|].
  pose proof (claimed_chosen d s Hs) as Hch. split; [done|]. intros Hw Hfit Hlt.
  destruct (chosen_rows _ _ _ _ _ Hids Hch) as (rs & -> & Ht & Hq). eexists _, _.
  split; [|apply grant_claimed_run; [done..|]].
  - by rewrite ids_of_claimed.
  - intros r Hr. pose proof (proj2 Ht r Hr) as Hrow.
    destruct (queued_claimable d r Hinv Hrow (Hq r Hr)) as [Hrok Hfree].
    split; [done|]. split; [by apply (Hlt (t_id r)); auto|done].
Qed.

(** C23: how far a tenant can overshoot. Claims that overlap may each read a
    running count that the others' commits have left behind, so the tenant
    locks do not keep the cap exactly. But with at most [K] claims open at a
    time, a tenant that starts within its cap never runs more than [K] times
    its cap, however the claims interleave and whatever other transactions do
    meanwhile. In particular one worker alone keeps to the cap. *)
Theorem claims_overshoot_bounded K d0 d ss te :
  reachable d0 → rtc (cstep K) (d0, ∅) (d, ss) →
  running_count d te ≤ Z.max (running_count d0 te) (Z.of_nat K * cap_of d te).
Proof.
  intros Hd0 Hrun. pose proof (race_reach K d0 Hd0 _ Hrun) as Hok.
  etrans; [|apply (rk_potential _ _ _ Hok te)]. simpl.
  pose proof (total_le (λ _, 0) (budget d te) ss (λ _ s _, budget_nonneg d te s)) as H.
  rewrite total_const in H. lia.
Qed.

(** ** Two runs *)

(** Two tenants with a cap of one each, two workers. *)
Definition cr_submit (te i : uuid) (s : Z) (d : db) : db :=
  after (submit_task te "demo" ∅ None 100 3 300 None None []) (txn_new s i) d.
Definition cr_a : db := after (create_tenant "a" 1 10) (txn_new 1 1) empty_db.
Definition cr_b : db := after (create_tenant "b" 1 10) (txn_new 1 2) cr_a.
Definition cr_w1 : db := after (register_worker "w1" "host" 1 4 []) (txn_at 2) cr_b.
Definition cr_base : db := after (register_worker "w2" "host" 2 4 []) (txn_at 3) cr_w1.

Definition cr_steps (submitted : list (uuid * uuid)) (d : db) : db :=
  foldl (λ d x, cr_submit x.1 x.2 (10 + Z.of_N x.2) d) d submitted.
Definition cr_submits (d : db) (x : uuid * uuid) : bool :=
  match submit_task x.1 "demo" ∅ None 100 3 300 None None [] (txn_new (10 + Z.of_N x.2) x.2) d with
  | inl _ => false | inr _ => true
  end.

Lemma cr_base_reachable : reachable cr_base.
Proof.
  apply (steps_snoc (txn_at 3) _ cr_w1). 2: { apply after_step; [intros; by eapply step_register|vm_compute; reflexivity]. }
  apply (steps_snoc (txn_at 2) _ cr_b). 2: { apply after_step; [intros; by eapply step_register|vm_compute; reflexivity]. }
  apply (steps_snoc (txn_new 1 2) _ cr_a). 2: { apply after_step; [intros; by eapply step_tenant|vm_compute; reflexivity]. }
  apply (steps_snoc (txn_new 1 1) _ empty_db); [apply steps_refl|].
  apply after_step; [intros; by eapply step_tenant|vm_compute; reflexivity].
Qed.

Lemma cr_submit_reachable te i s d :
  reachable d → cr_submits d (te, i) = true → s = 10 + Z.of_N i → reachable (cr_submit te i s d).
Proof.
  intros Hd H ->. eapply steps_snoc; [exact Hd|]. apply after_step; [intros; by eapply step_submit|].
  exact H.
Qed.

(** *** The cap is overshot *)

(** Tasks 5 and 6 of tenant 1 wait. *)
Definition cr_two : db := cr_submit 1 6 16 (cr_submit 1 5 15 cr_base).

Lemma cr_two_reachable : reachable cr_two.
Proof.
  apply cr_submit_reachable; [|vm_compute; reflexivity|reflexivity].
  apply cr_submit_reachable; [apply cr_base_reachable|vm_compute; reflexivity|reflexivity].
Qed.

Definition cr_claimer (w : text) (s : Z) : claimer := begin_claim w 1 30 DEFAULT_POLICY [] (txn_at s).

(** The steps of a claimer, as functions. *)
Definition do_select (l : gset uuid) (d : db) (s : claimer) : claimer :=
  cm_at (pred (cm_rounds s)) (seen_batch (candidates_of l d s) (cm_state s)) (Selected (candidates_of l d s)) s.
Definition do_lock (d : db) (s : claimer) : claimer := goto (Locking d (batch_of (cm_phase s))) s.
Definition do_locked (d : db) (s : claimer) : claimer :=
  cm_at (cm_rounds s) (spend_batch (cm_limit s) (batch_of (cm_phase s))
    (learn_slack d (batch_of (cm_phase s)) (cm_state s))) Selecting s.

Definition cr_pair (s1 s2 : claimer) : claimers := <[1%nat := s1]> {[ 2%nat := s2 ]}.

Lemma cr_first K d d' s1 s1' s2 :
  cstep K (d, cr_pair s1 s2) (d', <[1%nat := s1']> (cr_pair s1 s2)) →
  cstep K (d, cr_pair s1 s2) (d', cr_pair s1' s2).
Proof. unfold cr_pair. by rewrite insert_insert_eq. Qed.
Lemma cr_second K d d' s1 s2 s2' :
  cstep K (d, cr_pair s1 s2) (d', <[2%nat := s2']> (cr_pair s1 s2)) →
  cstep K (d, cr_pair s1 s2) (d', cr_pair s1 s2').
Proof. unfold cr_pair. by rewrite insert_insert_ne, insert_singleton_eq by done. Qed.

Lemma cr_pair_1 s1 s2 : cr_pair s1 s2 !! 1%nat = Some s1.
Proof. apply lookup_insert_eq. Qed.
Lemma cr_pair_2 s1 s2 : cr_pair s1 s2 !! 2%nat = Some s2.
Proof. unfold cr_pair. rewrite lookup_insert_ne by done. apply lookup_singleton_eq. Qed.
Lemma cr_pair_cases s1 s2 m s : cr_pair s1 s2 !! m = Some s → m = 1%nat ∧ s = s1 ∨ m = 2%nat ∧ s = s2.
Proof.
  unfold cr_pair. intros [[<- <-]|[_ [<- <-]%lookup_singleton_Some]]%lookup_insert_Some; [by left|by right].
Qed.

(** The first claim selects, then the second, which skips what the first
    holds. *)
Lemma cr_select_1 K d l s1 s2 :
  cm_phase s1 = Selecting → cm_rounds s1 ≠ O → 0 < need s1 → cl_seen (cm_state s2) ⊆ l →
  candidates_of l d s1 ≠ [] →
  cstep K (d, cr_pair s1 s2) (d, cr_pair (do_select l d s1) s2).
Proof.
  intros. apply cr_first, (c_select K d _ 1 s1 l _ (cr_pair_1 s1 s2)); try done.
  intros m s Hm [[-> ->]|[-> ->]]%cr_pair_cases; done.
Qed.
Lemma cr_select_2 K d l s1 s2 :
  cm_phase s2 = Selecting → cm_rounds s2 ≠ O → 0 < need s2 → cl_seen (cm_state s1) ⊆ l →
  candidates_of l d s2 ≠ [] →
  cstep K (d, cr_pair s1 s2) (d, cr_pair s1 (do_select l d s2)).
Proof.
  intros. apply cr_second, (c_select K d _ 2 s2 l _ (cr_pair_2 s1 s2)); try done.
  intros m s Hm [[-> ->]|[-> ->]]%cr_pair_cases; done.
Qed.

Definition new_tenants_of (s : claimer) : list uuid := new_tenant_ids (batch_of (cm_phase s)) (cm_state s).

Lemma cr_lock_1 K d s1 s2 batch :
  cm_phase s1 = Selected batch → new_tenants_of s1 ≠ [] →
  cstep K (d, cr_pair s1 s2) (d, cr_pair (do_lock d s1) s2).
Proof.
  intros Hph Hn. unfold new_tenants_of in Hn. apply cr_first. unfold do_lock. rewrite Hph in *.
  by apply (c_lock_tenants K d _ 1 s1 batch (cr_pair_1 s1 s2)).
Qed.
Lemma cr_lock_2 K d s1 s2 batch :
  cm_phase s2 = Selected batch → new_tenants_of s2 ≠ [] →
  cstep K (d, cr_pair s1 s2) (d, cr_pair s1 (do_lock d s2)).
Proof.
  intros Hph Hn. unfold new_tenants_of in Hn. apply cr_second. unfold do_lock. rewrite Hph in *.
  by apply (c_lock_tenants K d _ 2 s2 batch (cr_pair_2 s1 s2)).
Qed.

(** Nobody else has the tenants' rows. *)
Lemma cr_locked_1 K d s1 s2 snap batch :
  cm_phase s1 = Locking snap batch → (∀ te, te ∈ new_tenants_of s1 → te ∉ cl_known (cm_state s2)) →
  cstep K (d, cr_pair s1 s2) (d, cr_pair (do_locked snap s1) s2).
Proof.
  unfold new_tenants_of, do_locked. intros Hph Hn. apply cr_first. rewrite Hph in *.
  apply (c_tenants_locked K d _ 1 s1 snap batch (cr_pair_1 s1 s2) Hph).
  intros te Hte (m & s & Hm & [[-> ->]|[-> ->]]%cr_pair_cases & Hk); [done|by apply (Hn te)].
Qed.
Lemma cr_locked_2 K d s1 s2 snap batch :
  cm_phase s2 = Locking snap batch → (∀ te, te ∈ new_tenants_of s2 → te ∉ cl_known (cm_state s1)) →
  cstep K (d, cr_pair s1 s2) (d, cr_pair s1 (do_locked snap s2)).
Proof.
  unfold new_tenants_of, do_locked. intros Hph Hn. apply cr_second. rewrite Hph in *.
  apply (c_tenants_locked K d _ 2 s2 snap batch (cr_pair_2 s1 s2) Hph).
  intros te Hte (m & s & Hm & [[-> ->]|[-> ->]]%cr_pair_cases & Hk); [by apply (Hn te)|done].
Qed.

(** The first is through with its statements before the second has its lock;
    the second has its snapshot already. *)
Definition os_a1 : claimer := do_select ∅ cr_two (cr_claimer "w1" 20).
Definition os_b1 : claimer := do_select {[ 5%N ]} cr_two (cr_claimer "w2" 21).
Definition os_a2 : claimer := do_lock cr_two os_a1.
Definition os_b2 : claimer := do_lock cr_two os_b1.
Definition os_a3 : claimer := do_locked cr_two os_a2.
Definition os_b3 : claimer := do_locked cr_two os_b2.
Definition os_one : db := after (grant_claimed "w1" 30 [5%N]) (txn_at 20) cr_two.
Definition os_both : db := after (grant_claimed "w2" 30 [6%N]) (txn_at 21) os_one.

Lemma after_grant w ids t d :
  (match grant_claimed w 30 ids t d with inl _ => false | inr _ => true end) = true →
  ∃ rows, grant_claimed w 30 ids t d = inr (rows, after (grant_claimed w 30 ids) t d).
Proof. unfold after, transaction. destruct (grant_claimed w 30 ids t d) as [|[rows d']]; [done|]. by exists rows. Qed.

Lemma os_waiting : rtc (cstep 2) (cr_two, ∅) (cr_two, cr_pair os_a3 os_b2).
Proof.
  eapply rtc_l; [by apply (c_begin 2 cr_two ∅ 2 "w2" 1 30 DEFAULT_POLICY [] (txn_at 21)); [done|rewrite map_size_empty; lia]|].
  eapply rtc_l; [apply (c_begin 2 cr_two _ 1 "w1" 1 30 DEFAULT_POLICY [] (txn_at 20)); [done|rewrite insert_empty, map_size_singleton; lia]|].
  rewrite insert_empty.
  apply (rtc_l _ _ (cr_two, cr_pair os_a1 (cr_claimer "w2" 21))).
  { apply cr_select_1; [done|done|done|done|]. vm_compute. discriminate. }
  apply (rtc_l _ _ (cr_two, cr_pair os_a1 os_b1)).
  { apply cr_select_2; [done|done|done| |vm_compute; discriminate]. decide_closed. }
  apply (rtc_l _ _ (cr_two, cr_pair os_a2 os_b1)).
  { eapply cr_lock_1; [reflexivity|]. vm_compute. discriminate. }
  apply (rtc_l _ _ (cr_two, cr_pair os_a2 os_b2)).
  { eapply cr_lock_2; [reflexivity|]. vm_compute. discriminate. }
  apply rtc_once. eapply cr_locked_1; [reflexivity|]. intros te _. by apply not_elem_of_empty.
Qed.

Lemma os_run : rtc (cstep 2) (cr_two, ∅) (os_both, ∅).
Proof.
  etrans; [apply os_waiting|].
  apply (rtc_l _ _ (cr_two, cr_pair (goto Granting os_a3) os_b2)).
  { apply cr_first, c_rounds_over; [apply cr_pair_1|reflexivity|]. right. vm_compute. discriminate. }
  apply (rtc_l _ _ (os_one, {[ 2%nat := os_b2 ]})).
  { assert ({[ 2%nat := os_b2 ]} = delete 1%nat (cr_pair (goto Granting os_a3) os_b2)) as ->.
    { unfold cr_pair. by rewrite delete_insert_eq, delete_singleton_ne by done. }
    destruct (after_grant "w1" [5%N] (txn_at 20) cr_two) as [rows Hg]; [vm_compute; reflexivity|].
    eapply (c_commit _ _ _ _ 1 (goto Granting os_a3) rows); [apply cr_pair_1|reflexivity|].
    assert (cl_claimed (cm_state (goto Granting os_a3)) = [5%N]) as -> by (vm_compute; reflexivity).
    exact Hg. }
  apply (rtc_l _ _ (os_one, {[ 2%nat := os_b3 ]})).
  { eapply alone_step, (c_tenants_locked _ _ _ 2 os_b2 cr_two); [apply lookup_singleton_eq|reflexivity|].
    intros te _ (m & s & Hm & [<- _]%lookup_singleton_Some & _). done. }
  apply (rtc_l _ _ (os_one, {[ 2%nat := goto Granting os_b3 ]})).
  { apply alone_step, c_rounds_over; [apply lookup_singleton_eq|reflexivity|]. right. vm_compute. discriminate. }
  apply rtc_once.
  assert ((os_both, ∅) = (os_both, delete 2%nat ({[ 2%nat := goto Granting os_b3 ]} : claimers))) as ->
    by by rewrite delete_singleton_eq.
  destruct (after_grant "w2" [6%N] (txn_at 21) os_one) as [rows Hg]; [vm_compute; reflexivity|].
  eapply (c_commit _ _ _ _ 2 (goto Granting os_b3) rows); [apply lookup_singleton_eq|reflexivity|].
  assert (cl_claimed (cm_state (goto Granting os_b3)) = [6%N]) as -> by (vm_compute; reflexivity).
  exact Hg.
Qed.

(** Two claims at once, a cap of one, and two tasks running: the comment at
    the tenant lock, by which the second claim's count reflects the first,
    is wrong, and the bound is met. *)
Lemma claims_overshoot_bounded_witness :
  cap_of os_both 1 = 1 ∧ running_count cr_two 1 = 0 ∧ running_count os_both 1 = 2 ∧
  running_count os_both 1 ≤ Z.max 0 (2 * 1).
Proof.
  assert (cap_of os_both 1 = 1) as Hc by (vm_compute; reflexivity).
  assert (running_count cr_two 1 = 0) as H0 by (vm_compute; reflexivity).
  split; [exact Hc|]. split; [exact H0|]. split; [vm_compute; reflexivity|].
  pose proof (claims_overshoot_bounded 2 cr_two os_both ∅ 1 cr_two_reachable os_run) as H.
  rewrite H0, Hc in H. exact H.
Defined.

Lemma claims_do_not_collide_witness :
  (∃ rows d', ids_of rows = [5%N] ∧ grant_claimed "w1" 30 [5%N] (txn_at 20) cr_two = inr (rows, d')) ∧
  cl_seen (cm_state os_a3) ## cl_seen (cm_state os_b2).
Proof.
  destruct (claims_do_not_collide 2 cr_two cr_two _ cr_two_reachable os_waiting) as (_ & Hap & H).
  split; [|exact (Hap 1%nat 2%nat os_a3 os_b2 ltac:(discriminate) (cr_pair_1 _ _) (cr_pair_2 _ _))].
  destruct (H 1%nat os_a3 (cr_pair_1 _ _)) as (_ & _ & Hg).
  assert (cl_claimed (cm_state os_a3) = [5%N]) as Hcl by (vm_compute; reflexivity). rewrite Hcl in Hg.
  apply Hg.
  - change (cm_worker os_a3) with "w1". decide_closed.
  - vm_compute. reflexivity.
  - change (map_Forall (λ (_ : uuid) (r : task_row), t_state r = State.QUEUED → t_attempt r < int4_max)
              (tasks cr_two)). decide_closed.
Defined.

(** *** Two claims wait for each other *)

Definition waits_for (s : claimer) (te : uuid) : Prop :=
  ∃ snapshot batch, cm_phase s = Locking snapshot batch ∧ te ∈ new_tenant_ids batch (cm_state s).

Definition deadlocked (s1 s2 : claimer) : Prop :=
  ∃ te1 te2, waits_for s1 te2 ∧ te2 ∈ cl_known (cm_state s2) ∧
    waits_for s2 te1 ∧ te1 ∈ cl_known (cm_state s1).

(** Both tenants are at their cap; waiting are 7 and 10 of tenant 1, 8 and 9
    of tenant 2. *)
Definition dl_queue : db :=
  cr_submit 1 10 20 (cr_submit 2 9 19 (cr_submit 2 8 18 (cr_submit 1 7 17
    (cr_submit 2 6 16 (cr_submit 1 5 15 cr_base))))).
Definition dl_full : db := after (claim_tasks "w1" 2 30 DEFAULT_POLICY []) (txn_at 21) dl_queue.

Lemma dl_full_reachable : reachable dl_full.
Proof.
  apply (steps_snoc (txn_at 21) _ dl_queue).
  2: { apply after_step; [intros; by eapply step_claim|vm_compute; reflexivity]. }
  do 6 (apply cr_submit_reachable; [|vm_compute; reflexivity|reflexivity]). apply cr_base_reachable.
Qed.

Definition dl_a1 : claimer := do_select ∅ dl_full (cr_claimer "w1" 22).
Definition dl_b1 : claimer := do_select {[ 7%N ]} dl_full (cr_claimer "w2" 23).
Definition dl_a2 : claimer := do_lock dl_full dl_a1.
Definition dl_b2 : claimer := do_lock dl_full dl_b1.
Definition dl_a3 : claimer := do_locked dl_full dl_a2.
Definition dl_b3 : claimer := do_locked dl_full dl_b2.
Definition dl_a4 : claimer := do_select {[ 8%N ]} dl_full dl_a3.
Definition dl_b4 : claimer := do_select {[ 7%N; 9%N ]} dl_full dl_b3.
Definition dl_a5 : claimer := do_lock dl_full dl_a4.
Definition dl_b5 : claimer := do_lock dl_full dl_b4.

Lemma dl_run : rtc (cstep 2) (dl_full, ∅) (dl_full, cr_pair dl_a5 dl_b5).
Proof.
  eapply rtc_l; [apply (c_begin 2 dl_full ∅ 2 "w2" 1 30 DEFAULT_POLICY [] (txn_at 23)); [done|rewrite map_size_empty; lia]|].
  eapply rtc_l; [apply (c_begin 2 dl_full _ 1 "w1" 1 30 DEFAULT_POLICY [] (txn_at 22)); [done|rewrite insert_empty, map_size_singleton; lia]|].
  rewrite insert_empty.
  apply (rtc_l _ _ (dl_full, cr_pair dl_a1 (cr_claimer "w2" 23))).
  { apply cr_select_1; [done|done|done|done|]. vm_compute. discriminate. }
  apply (rtc_l _ _ (dl_full, cr_pair dl_a1 dl_b1)).
  { apply cr_select_2; [done|done|done|decide_closed|]. vm_compute. discriminate. }
  apply (rtc_l _ _ (dl_full, cr_pair dl_a2 dl_b1)).
  { eapply cr_lock_1; [reflexivity|]. vm_compute. discriminate. }
  apply (rtc_l _ _ (dl_full, cr_pair dl_a2 dl_b2)).
  { eapply cr_lock_2; [reflexivity|]. vm_compute. discriminate. }
  apply (rtc_l _ _ (dl_full, cr_pair dl_a3 dl_b2)).
  { eapply cr_locked_1; [reflexivity|]. intros te _. by apply not_elem_of_empty. }
  apply (rtc_l _ _ (dl_full, cr_pair dl_a3 dl_b3)).
  { eapply cr_locked_2; [reflexivity|].
    apply (proj1 (Forall_forall (λ te, te ∉ cl_known (cm_state dl_a3)) (new_tenants_of dl_b2))).
    decide_closed. }
  apply (rtc_l _ _ (dl_full, cr_pair dl_a4 dl_b3)).
  { apply cr_select_1; [reflexivity|vm_compute; discriminate|vm_compute; reflexivity|decide_closed|].
    vm_compute. discriminate. }
  apply (rtc_l _ _ (dl_full, cr_pair dl_a4 dl_b4)).
  { apply cr_select_2; [reflexivity|vm_compute; discriminate|vm_compute; reflexivity|decide_closed|].
    vm_compute. discriminate. }
  apply (rtc_l _ _ (dl_full, cr_pair dl_a5 dl_b4)).
  { eapply cr_lock_1; [reflexivity|]. vm_compute. discriminate. }
  apply rtc_once. eapply cr_lock_2; [reflexivity|]. vm_compute. discriminate.
Qed.

(** Each round locks the tenants it meets and keeps them, so two claims that
    meet two full tenants in opposite orders wait for each other; the server
    ends one of them with an error, which ends its worker ([m_claim_fails]). *)
Lemma claims_can_deadlock :
  reachable dl_full ∧ rtc (cstep 2) (dl_full, ∅) (dl_full, cr_pair dl_a5 dl_b5) ∧ deadlocked dl_a5 dl_b5.
Proof.
  split; [apply dl_full_reachable|]. split; [apply dl_run|]. exists 1%N, 2%N. split_and!.
  - eexists _, _. split; [reflexivity|]. change (2%N ∈ new_tenants_of dl_a5). decide_closed.
  - decide_closed.
  - eexists _, _. split; [reflexivity|]. change (1%N ∈ new_tenants_of dl_b5). decide_closed.
  - decide_closed.
Qed.
