(* ===== verification/WorkerScenario.v ===== *)
(** * A worker that forgets an attempt it is running

    A concrete run of one worker with two slots: its first attempt at a task
    outlives its lease, the reaper takes the task back, the same worker
    claims it again; then the first attempt finishes, is refused, and takes
    the ownership entry of the second one with it. *)

From S2P Require Import Prelude PyStr Json States Errors Retry Policy Capability Authz Db Config.
From S2P Require Import Adapters Samples Transitions Completion Lease Workers Claim Reap Tasks.
From S2P Require Import Agents Tools Tracing Worker Frames Registry Effects Protocol Scenario WorkerRun.
From ITree Require Import ITree.
#[local] Open Scope Z_scope.

Definition wv_config : worker_config :=
  MkWorkerConfig default_settings (register "demo" EchoAdapter ∅) 2 DEFAULT_POLICY "w9" "host" 7 [] w3c_valid.
Definition wv_rng : retry.Rng := λ _, 0%Q.

(** The tables after each transaction. *)
Definition wv_d1 : db := after (register_self wv_config) (txn_at 11) sc_submitted.
Definition wv_d2 : db := after (heartbeat "w9") (txn_at 12) wv_d1.
Definition wv_d3 : db := after (claim_and_snapshot wv_config (at_once wv_d2) 2) (txn_at 13) wv_d2.
Definition wv_d4 : db := after (reap_batch Lease 10) (txn_at 100) wv_d3.
Definition wv_d5 : db := after (claim_and_snapshot wv_config (at_once wv_d4) 1) (txn_at 101) wv_d4.

(** The row as each claim returned it. *)
Definition row_of (d : db) : task_row := default (ex_queued 0 0) (tasks d !! 5%N).
Definition wv_row1 : task_row := Eval vm_compute in row_of wv_d3.
Definition wv_row2 : task_row := Eval vm_compute in row_of wv_d5.

Definition wv_result : exec_outcome := Succeeded {[ "echo" := jobj {[ "n" := JNum 1 ]} ]}.
Definition wv_stale : TransitionResult :=
  MkResult false None (Some Rejection.ATTEMPT_MISMATCH) (Some (Transitions.observe wv_row2)).
Definition wv_d6 : db :=
  after (stale_event wv_config wv_row1 wv_result (Some Rejection.ATTEMPT_MISMATCH)) (txn_at 103) wv_d5.

Definition co_of (row : task_row) (stop : bool) (r : renewal_phase) (p : phase) : coroutine :=
  MkCoroutine row UNGOVERNED false stop r p.
Definition wv_run1 : adapter_run := EchoAdapter (without_trace (t_payload wv_row1)).
Definition wv_run2 : adapter_run := EchoAdapter (without_trace (t_payload wv_row2)).

Definition wv_m1 : list metric := [ClaimDuration; ClaimBatch 1; QueueWait "demo" 3000000].
Definition wv_m2 : list metric :=
  wv_m1 ++ [ClaimDuration; ClaimBatch 1; QueueWait "demo" 1000000].
Definition wv_m2' : list metric := wv_m2 ++ [ExecutionDuration "demo" "succeeded"].
Definition wv_m3 : list metric := wv_m2' ++ [StaleWritesRejected "attempt_mismatch"].

Definition wv_worker (m : main_phase) (cs : list coroutine) (owned : list (uuid * Z))
    (ms : list metric) : worker :=
  MkWorkerState m false false (Some 0%Q) cs (MkShared owned ms wv_rng).

Definition wv_c2 : coroutine := co_of wv_row2 false Asleep (Executing wv_run2).

Example wv_rows : (t_attempt wv_row1, t_attempt wv_row2) = (1, 2).
Proof. reflexivity. Qed.

Lemma wv_start : reachable (sc_submitted, new_worker wv_rng).1.
Proof. exact sc_submitted_reachable. Qed.

Lemma wv_until_claim :
  sys_run wv_config (sc_submitted, new_worker wv_rng)
    (wv_d3, wv_worker Polling [co_of wv_row1 false Returned Created] [] wv_m1).
Proof.
  eapply (run_main _ (txn_at 13) 0); [exact wv_start|eapply (run_main _ (txn_at 12) 0);
    [exact wv_start|eapply (run_main _ (txn_at 11) 0); [exact wv_start|apply run_refl|]|]|].
  - eapply (m_register _ _ _ _ _ wv_d1); [reflexivity|]. vm_compute. reflexivity.
  - eapply (m_beat _ _ _ _ _ wv_d2 _ true); vm_compute; reflexivity.
  - assert (transaction (claim_and_snapshot wv_config (at_once wv_d2) 2) (txn_at 13) wv_d2
      = (inr ([wv_row1], ∅), wv_d3)) as H by (vm_compute; reflexivity).
    exact (m_claim wv_config _ _ _ wv_d2 wv_d3 (wv_worker Claiming [] [] []) [wv_row1] ∅
      eq_refl eq_refl eq_refl H).
Qed.

(** The coroutine starts; the loop goes round while the lease runs out. *)
Lemma wv_until_reclaim :
  sys_run wv_config (sc_submitted, new_worker wv_rng)
    (wv_d5, wv_worker Polling
       [co_of wv_row1 false Asleep (Executing wv_run1); co_of wv_row2 false Returned Created]
       [(5%N, 1)] wv_m2).
Proof.
  eapply (run_main _ (txn_at 101) 1); [exact wv_start|eapply run_snoc; [eapply (run_main _ (txn_at 14) 1);
    [exact wv_start|eapply (run_main _ (txn_at 14) 0); [exact wv_start|eapply run_snoc;
    [apply wv_until_claim|]|]|]|]|].
  - exact (sys_co wv_config (txn_at 14) wv_d3 wv_d3 (wv_worker Polling [co_of wv_row1 false Returned Created] [] wv_m1) 0 _ _ _ eq_refl
      (co_start wv_config _ wv_d3 (MkShared [] wv_m1 wv_rng) (co_of wv_row1 false Returned Created) []
         eq_refl eq_refl)).
  - apply m_poll. reflexivity.
  - apply m_no_beat; reflexivity.
  - apply (sys_env _ (txn_at 100) wv_d3 wv_d4). apply (after_step (reap_batch Lease 10)).
    + intros. by eapply step_reap.
    + vm_compute. reflexivity.
  - assert (transaction (claim_and_snapshot wv_config (at_once wv_d4) 1) (txn_at 101) wv_d4
      = (inr ([wv_row2], ∅), wv_d5)) as H by (vm_compute; reflexivity).
    exact (m_claim wv_config _ _ _ wv_d4 wv_d5
      (wv_worker Claiming [co_of wv_row1 false Asleep (Executing wv_run1)] [(5%N, 1)] wv_m1)
      [wv_row2] ∅ eq_refl eq_refl eq_refl H).
Qed.

(** The second coroutine starts; the first returns, is refused, and ends. *)
Lemma wv_until_stale :
  sys_run wv_config (sc_submitted, new_worker wv_rng)
    (wv_d6, wv_worker Polling [co_of wv_row1 true Returned Ended; wv_c2] [] wv_m3).
Proof.
  set (s2 := MkShared [(5%N, 2)] wv_m2 wv_rng).
  set (s3 := MkShared [(5%N, 2)] wv_m2' wv_rng).
  eapply run_snoc; [eapply run_snoc; [eapply run_snoc; [eapply run_snoc; [eapply run_snoc;
    [eapply run_snoc; [apply wv_until_reclaim|]|]|]|]|]|].
  - exact (sys_co wv_config (txn_at 101) wv_d5 wv_d5 (wv_worker Polling [co_of wv_row1 false Asleep (Executing wv_run1); co_of wv_row2 false Returned Created] [(5%N, 1)] wv_m2) 1 _ _ _ eq_refl
      (co_start wv_config _ wv_d5 (MkShared [(5%N, 1)] wv_m2 wv_rng)
         (co_of wv_row2 false Returned Created) [] eq_refl eq_refl)).
  - exact (sys_co wv_config (txn_at 102) wv_d5 wv_d5 (wv_worker Polling [co_of wv_row1 false Asleep (Executing wv_run1); wv_c2] [(5%N, 2)] wv_m2) 0 _ _ _ eq_refl
      (co_return wv_config _ wv_d5 s2 (co_of wv_row1 false Asleep (Executing wv_run1)) _ _ eq_refl eq_refl)).
  - exact (sys_co wv_config (txn_at 102) wv_d5 wv_d5 (wv_worker Polling [co_of wv_row1 true Asleep (Joining wv_result); wv_c2] [(5%N, 2)] wv_m2) 0 _ _ _ eq_refl
      (co_renew_stops wv_config _ wv_d5 s2 (co_of wv_row1 true Asleep (Joining wv_result)) eq_refl eq_refl)).
  - exact (sys_co wv_config (txn_at 102) wv_d5 wv_d5 (wv_worker Polling [co_of wv_row1 true Returned (Joining wv_result); wv_c2] [(5%N, 2)] wv_m2) 0 _ _ _ eq_refl
      (co_join wv_config _ wv_d5 s2 (co_of wv_row1 true Returned (Joining wv_result)) _ eq_refl eq_refl)).
  - assert (transaction (finalize wv_config (co_of wv_row1 true Returned (Finalising wv_result)) wv_result None)
      (txn_at 102) wv_d5 = (inr wv_stale, wv_d5)) as H by (vm_compute; reflexivity).
    exact (sys_co wv_config (txn_at 102) wv_d5 wv_d5 (wv_worker Polling [co_of wv_row1 true Returned (Finalising wv_result); wv_c2] [(5%N, 2)] wv_m2') 0 _ _ _ eq_refl
      (co_finalize wv_config _ wv_d5 wv_d5 s3 (co_of wv_row1 true Returned (Finalising wv_result))
         wv_result None wv_rng wv_stale eq_refl eq_refl H)).
  - assert (transaction (stale_event wv_config wv_row1 wv_result (Some Rejection.ATTEMPT_MISMATCH))
      (txn_at 103) wv_d5 = (inr tt, wv_d6)) as H by (vm_compute; reflexivity).
    exact (sys_co wv_config (txn_at 103) wv_d5 wv_d6 (wv_worker Polling [co_of wv_row1 true Returned (Rejected wv_result (Some Rejection.ATTEMPT_MISMATCH)); wv_c2]
       [(5%N, 2)] wv_m3) 0 _ _ _ eq_refl
      (co_stale wv_config _ wv_d5 wv_d6 (MkShared [(5%N, 2)] wv_m3 wv_rng)
         (co_of wv_row1 true Returned (Rejected wv_result (Some Rejection.ATTEMPT_MISMATCH)))
         wv_result (Some Rejection.ATTEMPT_MISMATCH) (inr tt) eq_refl H)).
Qed.

Lemma wv_started :
  started_run wv_config (wv_d6, wv_worker Polling [co_of wv_row1 true Returned Ended; wv_c2] [] wv_m3).
Proof. exists sc_submitted, wv_rng. split; [apply sc_submitted_reachable|apply wv_until_stale]. Qed.

(** A running attempt can lose its ownership entry. There is a run of a
    worker in which an attempt it legitimately owns is executing and the
    worker is healthy, yet its ownership dict is empty: the entry was
    dropped when an older attempt at the same task finished. On shutdown
    such a task is not handed back; it waits for its lease to expire. *)
Theorem running_attempt_can_be_disowned :
  ∃ cf d w c r, started_run cf (d, w) ∧ c ∈ wk_inflight w ∧
    is_done c = false ∧ tasks d !! t_id (co_row c) = Some r ∧
    owns r (t_attempt (co_row c)) (cf_worker_id cf) ∧
    wk_fenced w = false ∧ wk_stopping w = false ∧ sh_owned (wk_shared w) = [].
Proof.
  exists wv_config, wv_d6, (wv_worker Polling [co_of wv_row1 true Returned Ended; wv_c2] [] wv_m3), wv_c2,
    wv_row2.
  split; [apply wv_started|]. split; [by right; left|]. split; [done|].
  split; [vm_compute; reflexivity|]. split; [repeat split|]. done.
Qed.
