(* ===== verification/WorkerGuarantees.v ===== *)
(** * Guarantees about workers

    Stated over the runs of a worker process ([started_run], [sys_run]) and
    over its single methods; the witnesses follow one worker through a task
    that calls a tool. *)

From S2P Require Import Prelude PyStr Json States Errors Retry Policy Capability Authz Db Config.
From S2P Require Import Adapters Samples Transitions Completion Lease Workers Claim Reap Tasks.
From S2P Require Import Agents Tools Tracing Worker Frames Registry Effects Protocol Scenario WorkerRun.
From S2P Require Import Governance WorkerProps.
From ITree Require Import ITree.
#[local] Open Scope Z_scope.

(** ** A concrete worker *)

(** Worker "w9" with one slot, claiming the task 40 pinned to version 21,
    whose adapter calls "search" once. *)
Definition wx_config : worker_config :=
  MkWorkerConfig default_settings
    (register "demo.tools" (λ payload, call_each ["search"] {[ "task" := JNull ]} []) ∅)
    1 DEFAULT_POLICY "w9" "host" 7 ["internet"] w3c_valid.

Definition wx_rng : retry.Rng := λ _, 0%Q.

Definition wx_submitted : db :=
  after (submit_task 1 "demo.tools" ∅ None 100 2 60 None (Some 21%N) ["Internet"]) (txn_new 9 40)
    rg_routed.

Lemma wx_submitted_reachable : reachable wx_submitted.
Proof.
  eapply steps_snoc; [exact rg_routed_reachable|].
  apply (after_step (submit_task 1 "demo.tools" ∅ None 100 2 60 None (Some 21%N) ["Internet"])
           (txn_new 9 40) rg_routed).
  - intros. by eapply step_submit.
  - vm_compute. reflexivity.
Qed.

(** The states of the run: registered, beaten, claimed. *)
Definition wx_w0 : worker := new_worker wx_rng.
Definition wx_d1 : db := after (register_self wx_config) (txn_at 11) wx_submitted.
Definition wx_w1 : worker := wk_goto Looping wx_w0.
Definition wx_d2 : db := after (heartbeat "w9") (txn_at 12) wx_d1.
Definition wx_w2 : worker := wk_goto Claiming (after_heartbeat true (beat 0 wx_w1)).
Definition wx_claim := transaction (claim_and_snapshot wx_config (at_once wx_d2) (claim_limit wx_config wx_w2)) (txn_at 13) wx_d2.
Definition wx_d3 : db := wx_claim.2.
Definition wx_claimed : list task_row := match wx_claim.1 with inr (rows, _) => rows | inl _ => [] end.
Definition wx_policies : gmap uuid ToolPolicy := match wx_claim.1 with inr (_, p) => p | inl _ => ∅ end.
Definition wx_w3 : worker := wk_goto Polling (harvest (dispatch wx_claimed wx_policies wx_w2)).

Example wx_claimed_one : (λ r : task_row, (t_id r, t_attempt r)) <$> wx_claimed = [(40%N, 1)].
Proof. vm_compute. reflexivity. Qed.

Lemma wx_run3 : sys_run wx_config (wx_submitted, wx_w0) (wx_d3, wx_w3).
Proof.
  eapply (run_main _ (txn_at 13) 0); [exact wx_submitted_reachable|eapply (run_main _ (txn_at 12) 0);
    [exact wx_submitted_reachable|eapply (run_main _ (txn_at 11) 0);
    [exact wx_submitted_reachable|apply run_refl|]|]|].
  - eapply (m_register _ _ _ _ _ wx_d1); [reflexivity|]. vm_compute. reflexivity.
  - apply (m_beat _ _ _ _ _ wx_d2 wx_w1 true); vm_compute; reflexivity.
  - apply (m_claim _ _ _ _ _ wx_d3 wx_w2 wx_claimed wx_policies); vm_compute; reflexivity.
Qed.

(** Its coroutine starts and asks for the tool; the call is allowed. *)
Definition wx_c3 : coroutine := default (new_coroutine ∅ (ex_queued 0 0)) (wk_inflight wx_w3 !! 0%nat).
Definition wx_c4 : coroutine := (start_attempt wx_config wx_c3 (wk_shared wx_w3)).1.
Definition wx_s4 : shared := (start_attempt wx_config wx_c3 (wk_shared wx_w3)).2.
Definition wx_k : py_exc + jdict → adapter_run := λ answer,
  match answer with
  | inl e => Ret (inl e)
  | inr result => call_each [] {[ "task" := JNull ]} ([] ++ [jobj result])
  end.
Definition wx_c5 : coroutine := co_with wx_c4 (Deciding "search" {[ "task" := JNull ]} wx_k).
Definition wx_dec : AuthzDecision := authorize (co_policy wx_c5) "search".
Definition wx_tool : ToolRef := MkToolRef 30 "search" ToolType.SIMULATED ToolStatus.ACTIVE ∅.
Definition wx_d6 : db := after (on_decision wx_config (co_row wx_c5) "search" wx_dec) (txn_at 14) wx_d3.
Definition wx_c6 : coroutine := co_with wx_c5 (Invoking wx_tool {[ "task" := JNull ]} wx_k).
Definition wx_s6 : shared := sh_count (decision_metrics "search" wx_dec) wx_s4.
Definition wx_w6 : worker := wk_with [wx_c6] wx_s6 wx_w3.

Lemma wx_c4_phase :
  co_phase wx_c4 = Executing (Vis (CallTool "search" {[ "task" := JNull ]}) wx_k).
Proof. vm_compute. reflexivity. Qed.

Lemma wx_run6 : sys_run wx_config (wx_submitted, wx_w0) (wx_d6, wx_w6).
Proof.
  eapply run_snoc; [eapply run_snoc; [eapply run_snoc; [apply wx_run3|]|]|].
  - apply (sys_co _ (txn_at 14) wx_d3 wx_d3 wx_w3 0 wx_c3 wx_c4 wx_s4); [vm_compute; reflexivity|].
    apply (co_start _ _ _ _ _ []); vm_compute; reflexivity.
  - apply (sys_co _ (txn_at 14) wx_d3 wx_d3 (wk_with [wx_c4] wx_s4 wx_w3) 0 wx_c4 wx_c5 wx_s4); [reflexivity|].
    exact (co_call _ _ wx_d3 wx_s4 wx_c4 _ _ _ _ wx_c4_phase eq_refl).
  - apply (sys_co _ (txn_at 14) wx_d3 wx_d6 (wk_with [wx_c5] wx_s4 wx_w3) 0 wx_c5 wx_c6 wx_s6); [reflexivity|].
    apply (co_allow _ _ wx_d3 wx_d6 wx_s4 wx_c5 "search" _ wx_k wx_tool); vm_compute; reflexivity.
Qed.

Lemma wx_started : started_run wx_config (wx_d6, wx_w6).
Proof. exists wx_submitted, wx_rng. split; [apply wx_submitted_reachable|apply wx_run6]. Qed.

(** ** Runs *)

(** The tables of [y] come from those of [x] by a run of the protocol. *)
Definition protocol_run (x y : db * worker) : Prop :=
  steps x.1 y.1 ∧ (reachable x.1 → reachable y.1).

(** A worker does nothing the protocol does not allow. Whatever its
    adapters and tools answer and however its coroutines interleave with
    each other and with the rest of the system, the tables move along a run
    of the protocol, so every guarantee about reachable tables holds beside
    running workers. *)
Theorem worker_refines_protocol cf x y :
  sys_run cf x y → protocol_run x y.
Proof.
  intros H%sys_run_steps. split; [done|]. intros Hx. by eapply steps_trans.
Qed.

Lemma worker_refines_protocol_witness :
  steps wx_submitted wx_d6 ∧ reachable wx_d6.
Proof.
  destruct (worker_refines_protocol wx_config _ _ wx_run6) as [Hs Hr].
  split; [exact Hs|exact (Hr wx_submitted_reachable)].
Defined.

(** What a worker holds: coroutines, ownership entries, what it hands back. *)
Definition holds_only_grants (cf : worker_config) (d : db) (w : worker) : Prop :=
  (∀ c, c ∈ wk_inflight w →
     granted_attempt cf d (t_id (co_row c)) (t_attempt (co_row c)) ∧
     ∃ r : task_row, tasks d !! t_id (co_row c) = Some r ∧ t_spec r = t_spec (co_row c)) ∧
  (∀ i a, (i, a) ∈ sh_owned (wk_shared w) ++ todo_of (wk_main w) → granted_attempt cf d i a) ∧
  Z.of_nat (length (wk_inflight w)) ≤ Z.max 0 (cf_capacity cf).

(** C17: a worker only holds what it was granted. At any moment of its life
    each attempt it executes, or may still hand back on shutdown, is
    recorded in [task_attempts] under its own id; each runs with the inputs
    the submission pinned; and it never holds more attempts than its
    capacity. *)
Theorem worker_holds_granted_attempts cf d w :
  started_run cf (d, w) → holds_only_grants cf d w.
Proof.
  intros Hok%started_ok. split; [|split].
  - intros c Hc. pose proof (wo_cos _ _ Hok) as Hcos. rewrite Forall_forall in Hcos.
    split; by apply Hcos.
  - apply (wo_owned _ _ Hok).
  - apply (wo_capacity _ _ Hok).
Qed.

Lemma worker_holds_granted_attempts_witness :
  granted_attempt wx_config wx_d6 40 1 ∧ Z.of_nat (length (wk_inflight wx_w6)) ≤ 1.
Proof.
  destruct (worker_holds_granted_attempts wx_config wx_d6 wx_w6 wx_started) as (H1 & H2 & H3).
  split; [|exact H3]. apply H2. vm_compute. left.
Defined.

(** Before the attempt, at three moments of the run, one at or after the
    other: the version the attempt is pinned to was not disabled, the tool was
    active and of the tenant of that version's agent, and it was granted to
    the version. *)
Definition was_granted (d : db) (c : coroutine) (tool : ToolRef) : Prop :=
  ∃ ms v ver te j r, seen_before ms d ∧ t_agent_version_id (co_row c) = Some v ∧
    version_tenant (sees_versions ms) v = Some (ver, te) ∧ v_status ver ≠ VersionStatus.DISABLED ∧
    tools (sees_tools ms) !! j = Some r ∧ tool = tool_ref r ∧ tl_tenant_id r = te ∧
    tl_status r = ToolStatus.ACTIVE ∧
    is_Some (agent_version_tool_grants (sees_grants ms) !! (v, j)) ∧
    task_attempts (sees_grants ms) !! (t_id (co_row c), t_attempt (co_row c)) = None.

(** C16: authority over tools is frozen at the claim. When a worker is about
    to invoke a tool for an attempt, or is reporting such a call, there were
    three moments of the past, one at or after the other and all before the
    attempt was started: at the first the version the task is pinned to was
    not disabled, at the second the tool was active and belonged to the tenant
    of that version's agent, at the third it was granted to that version. No
    single moment need have had all three: the claim reads them with three
    SELECTs. *)
Theorem invoked_tools_were_granted cf d w c tool :
  started_run cf (d, w) → c ∈ wk_inflight w → in_call c tool → was_granted d c tool.
Proof.
  intros Hok%started_ok Hc Hcall. pose proof (wo_cos _ _ Hok) as Hcos. rewrite Forall_forall in Hcos.
  specialize (Hcos _ Hc). destruct (ok_tool _ _ _ Hcos _ Hcall) as (name & Ha & Htool).
  destruct (ok_policy _ _ _ Hcos) as [Hu|(ms & v & ver & te & Hms & Hv & Hvt & Hid & Hno & Hpol)].
  { rewrite Hu in Ha. done. }
  destruct (seen_reachable _ _ Hms) as (_ & Ht & Hgr).
  pose proof (rg_tools _ (reachable_registry_ok _ Ht)) as Htok.
  pose proof (rg_tools _ (reachable_registry_ok _ Hgr)) as Hgok.
  rewrite Hpol in Ha, Htool. pose proof Ha as Ha'.
  apply authorize_allowed in Ha' as (Hdis & _ & ref & Href & Hact & Hg).
  simpl in Hdis, Href, Hg. apply bool_decide_eq_false in Hdis.
  apply tools_by_tenant_lookup in Href as (j & r & Hj & Hte & Hn & ->); [|done].
  apply granted_spec in Hg; [|done]. rewrite Hid in Hg. simpl in Hg.
  rewrite (tk_ids _ Htok _ _ Hj) in Hg.
  exists ms, v, ver, te, j, r. split_and!; try done.
  unfold authorize in Htool. simpl in Htool. rewrite bool_decide_eq_false_2 in Htool by done.
  assert (tools_by_tenant (sees_tools ms) te !! name = Some (tool_ref r)) as Hl.
  { apply tools_by_tenant_lookup; [done|]. eauto 10. }
  rewrite Hl in Htool. simpl in Htool. case_bool_decide; [by simplify_eq/=|].
  case_bool_decide; by simplify_eq/=.
Qed.

Lemma invoked_tools_were_granted_witness :
  ∃ ms j r, seen_before ms wx_d6 ∧ tools (sees_tools ms) !! j = Some r ∧ wx_tool = tool_ref r ∧
    is_Some (agent_version_tool_grants (sees_grants ms) !! (21%N, j)).
Proof.
  destruct (invoked_tools_were_granted wx_config wx_d6 wx_w6 wx_c6 wx_tool wx_started)
    as (ms & v & ver & te & j & r & Hms & Hv & _ & _ & Hj & Ht & _ & _ & Hg & _).
  - left.
  - reflexivity.
  - exists ms, j, r. assert (v = 21%N) as -> by (vm_compute in Hv; congruence).
    split; [exact Hms|]. split; [exact Hj|]. split; [exact Ht|exact Hg].
Defined.

(** A step of the main loop that writes no table and takes on no work. *)
Definition silent (x y : db * worker) : Prop :=
  y.1 = x.1 ∧ wk_fenced y.2 = true ∧ (length (wk_inflight y.2) ≤ length (wk_inflight x.2))%nat.

(** C19: a fenced worker withdraws. Once a heartbeat told a worker it was
    declared dead, its main loop writes nothing to the tables again: it does
    not claim, not hand back, not change its own status; it stays fenced, and
    the attempts it holds only become fewer. *)
Theorem fenced_worker_withdraws cf t mono ms d w d' w' :
  started_run cf (d, w) → wk_fenced w = true → main_step cf t mono ms (d, w) (d', w') →
  silent (d, w) (d', w').
Proof.
  intros Hok%started_ok Hf Hst. destruct (wo_fenced _ _ Hok Hf) as [Hstop Hl]. simpl in Hstop, Hl.
  unfold silent. inversion Hst; subst; simpl;
    repeat match goal with E : wk_main w = _ |- _ => rewrite E in Hl end; try done;
    try congruence.
  unfold cancel_inflight. destruct (cancel_all _ _) as [cs s] eqn:E. simpl.
  apply (cancel_all_spec cf d') in E as (-> & _). done.
Qed.

(** The reaper declares "w9" dead before its first heartbeat. *)
Definition wy_d2 : db := after (mark_dead_workers 15) (txn_at 100) wx_d1.
Definition wy_w2 : worker := wk_goto Claiming (after_heartbeat false (beat 0 wx_w1)).

Lemma wy_fenced_run : started_run wx_config (wy_d2, wy_w2).
Proof.
  exists wx_submitted, wx_rng. split; [apply wx_submitted_reachable|].
  eapply (run_main _ (txn_at 101) 0); [exact wx_submitted_reachable|eapply run_snoc;
    [eapply (run_main _ (txn_at 11) 0); [exact wx_submitted_reachable|apply run_refl|]|]|].
  - eapply (m_register _ _ _ _ _ wx_d1); [reflexivity|]. vm_compute. reflexivity.
  - eapply (sys_env _ (txn_at 100) wx_d1 wy_d2). apply (after_step (mark_dead_workers 15)).
    + intros. by eapply step_sweep.
    + vm_compute. reflexivity.
  - apply (m_beat _ _ _ _ _ wy_d2 wx_w1 false); vm_compute; reflexivity.
Qed.

Lemma fenced_worker_withdraws_witness :
  wk_fenced wy_w2 = true ∧ wk_fenced (wk_goto Draining wy_w2) = true.
Proof.
  split; [reflexivity|].
  apply (fenced_worker_withdraws wx_config (txn_at 102) 1 (at_once wy_d2) wy_d2 wy_w2 wy_d2 (wk_goto Draining wy_w2)
           wy_fenced_run); [reflexivity|].
  apply m_leave; [right; reflexivity|reflexivity].
Defined.

(** ** Progress of an attempt *)

(** How far an attempt whose adapter is done is from its end. *)
Definition remaining (c : coroutine) : nat :=
  match co_phase c with
  | Joining _ => 3 | Finalising _ => 2 | Rejected _ _ | Unwinding => 1 | _ => 0
  end + match co_renewal c with Renewing => 2 | Asleep => 1 | _ => 0 end.

(** The adapter has returned, raised, or been cancelled. *)
Definition adapter_done (c : coroutine) : bool :=
  match co_phase c with
  | Joining _ | Finalising _ | Rejected _ _ | Unwinding => true | _ => false
  end.

Lemma transaction_either {A} (m : M A) t d :
  (∃ a d', commits m t d a d') ∨ (∃ d', rolls_back m t d d').
Proof.
  destruct (transaction m t d) as [[e|a] d'] eqn:E; [right|left]; eauto.
Qed.

Lemma coroutine_can_step cf t d s c :
  is_done c = false → (adapter_done c = true → co_stop c = true) →
  ∃ y, co_step cf t (d, s, c) y.
Proof.
  unfold is_done, adapter_done. intros Hd Hstop. destruct (co_phase c) as [|run|name request k
    |name k|tool request k|tool answer k|o|o|o r| |] eqn:E; try done.
  - destruct (link_of_payload (cf_span_valid cf) (t_payload (co_row c))) as [exc|links] eqn:Hl.
    + eexists. by eapply co_link_raises.
    + eexists. by eapply co_start.
  - destruct (observe run) as [x|run'|A e k] eqn:Eo.
    + eexists. by eapply co_return.
    + eexists. by eapply co_tau.
    + destruct e as [|name request]; eexists; [by eapply co_poll|by eapply co_call].
  - destruct (transaction_either (on_decision cf (co_row c) name (authorize (co_policy c) name)) t d)
      as [([] & d' & H)|(d' & H)].
    + pose proof (authorize_shape (co_policy c) name) as Hsh.
      destruct (allowed (authorize (co_policy c) name)) eqn:Ha.
      * destruct Hsh as [_ [tool Ht]]. eexists. by eapply co_allow.
      * eexists. by eapply co_deny.
    + eexists. by eapply (co_decision_fails _ _ _ _ _ _ _ _ _ (UnknownTaskType name)).
  - destruct (transaction_either (audit_denial (co_row c) (co_policy c) name) t d)
      as [([] & d' & H)|(d' & H)]; eexists; [by eapply co_audit|].
    by eapply (co_audit_fails _ _ _ _ _ _ _ _ (UnknownTaskType name)).
  - eexists. by eapply (co_invoke _ _ _ _ _ _ _ _ (inr ∅)).
  - destruct (transaction_either (on_executed cf (co_row c) tool answer) t d)
      as [([] & d' & H)|(d' & H)]; eexists; [by eapply co_report|].
    by eapply (co_report_fails _ _ _ _ _ _ _ _ _ (UnknownTaskType (ref_name tool))).
  - specialize (Hstop eq_refl). destruct (co_renewal c) eqn:Er.
    + eexists. by apply co_renew_stops.
    + destruct (transaction_either (renew cf (co_row c)) t d) as [(res & d' & H)|(d' & H)];
        eexists; [by eapply co_renew|by eapply co_renew_fails].
    + eexists. by eapply co_join.
    + eexists. by eapply co_join_raises.
  - destruct (retry_decision o (t_attempt (co_row c)) (t_max_attempts (co_row c)) (sh_rng s))
      as [dec rng] eqn:Edec.
    destruct (transaction_either (finalize cf c o dec) t d) as [(res & d' & H)|(d' & H)];
      eexists; [by eapply co_finalize|by eapply co_finalize_fails].
  - destruct (transaction (stale_event cf (co_row c) o r) t d) as [res d'] eqn:H.
    eexists. by eapply co_stale.
  - specialize (Hstop eq_refl). destruct (co_renewal c) eqn:Er.
    + eexists. by apply co_renew_stops.
    + eexists. by apply co_renew_cancelled.
    + eexists. apply co_unwind; [done|]. rewrite Er. by left.
    + eexists. apply co_unwind; [done|]. rewrite Er. by right; left.
Qed.

Lemma done_step_decreases cf t d s c d' s' c' :
  adapter_done c = true → co_stop c = true → co_step cf t (d, s, c) (d', s', c') →
  (remaining c' < remaining c)%nat.
Proof.
  unfold adapter_done, remaining. intros Hd Hs Hst. inversion Hst; subst; simpl;
    repeat match goal with
    | H : co_phase c = _ |- _ => rewrite H in *
    | H : co_renewal c = _ |- _ => rewrite H in *
    end; simpl; try congruence; try lia.
  - destruct res; simpl; lia.
  - unfold after, after_finalize. destruct (applied res); simpl; lia.
Qed.

(** C20: no attempt gets stuck. At any moment every coroutine that has not
    ended can take a step, whatever the tables and the time are; and once
    its adapter is done (or cancelled) each of its steps brings it closer to
    its end, which it reaches within five. *)
Theorem attempts_never_stick cf d w c :
  started_run cf (d, w) → c ∈ wk_inflight w → is_done c = false →
  (∀ t d1 s, ∃ y, co_step cf t (d1, s, c) y) ∧
  (adapter_done c = true →
     (remaining c ≤ 5)%nat ∧
     ∀ t d1 s d2 s2 c2, co_step cf t (d1, s, c) (d2, s2, c2) → (remaining c2 < remaining c)%nat).
Proof.
  intros Hok%started_ok Hc Hd. pose proof (wo_cos _ _ Hok) as Hcos. rewrite Forall_forall in Hcos.
  pose proof (ok_stop _ _ _ (Hcos _ Hc)) as Hst.
  assert (adapter_done c = true → co_stop c = true) as Hstop.
  { unfold adapter_done. destruct (co_phase c); done. }
  split; [intros; by apply coroutine_can_step|]. intros Ha. split.
  - unfold remaining, adapter_done in *. destruct (co_phase c), (co_renewal c); simpl; (done || lia).
  - intros. eapply done_step_decreases; eauto.
Qed.

Lemma attempts_never_stick_witness : ∃ y, co_step wx_config (txn_at 15) (wx_d6, wx_s6, wx_c6) y.
Proof.
  assert (wx_c6 ∈ wk_inflight wx_w6) as Hin by (by left).
  destruct (attempts_never_stick wx_config wx_d6 wx_w6 wx_c6 wx_started Hin) as [H _]; [reflexivity|].
  apply H.
Defined.

(** ** Finalisation *)

(** A failure of class [k] at attempt [a] of [m] is worth another attempt. *)
Definition worth_retrying (k : failure_class) (a m : Z) : Prop :=
  retry.retryable (retry.POLICIES k) = true ∧ a < m ∧
  ∀ cap, retry.attempt_cap (retry.POLICIES k) = Some cap → a < cap.

(** When finalisation does not raise: the clock is before the year 8300, the
    server turns seconds into microseconds to within one, and no exception
    asks for more than three centuries. *)
Section storable_retries.
Context (t : txn) (rng : retry.Rng) (Hrng : ∀ n, (0 <= rng n < 1)%Q).
Context (Hnow : 0 ≤ now t ≤ 200000000000000000).
Context (Hus : ∀ q, (q * 1000000 - 1 <= inject_Z (interval_us t q) <= q * 1000000 + 1)%Q).

Lemma delay_storable ec em q : (0 <= q <= 10000000305)%Q → storable (CRetry ec em q) t = true.
Proof using Hnow Hus.
  intros [H0 H1]. pose proof (Hus q) as [H2 H3].
  assert (-1 ≤ interval_us t q ≤ 10000000305000001) as [H4 H5].
  { split; rewrite Zle_Qle.
    - change (inject_Z (-1)) with (-1 # 1)%Q. lra.
    - change (inject_Z 10000000305000001) with (10000000305000001 # 1)%Q. lra. }
  unfold storable, c_fits, c_loads, interval_fits, loadable, Codec.datetime_range, Codec.day_us, second.
  rewrite andb_true_iff, !bool_decide_eq_true. lia.
Qed.

Lemma short_waits_storable o cancelled a m dec rng' :
  (∀ e q, o = Failed e → retry_after_of e = Some q → (q <= 10000000000)%Q) →
  retry_decision o a m rng = (dec, rng') → storable (finalize_choice o cancelled dec) t = true.
Proof using Hrng Hnow Hus.
  intros Hra Hdec. unfold finalize_choice. destruct cancelled; [done|].
  destruct o as [|e]; [done|]. unfold retry_decision in Hdec.
  pose proof (retry.decide_delay (classify e) a m (retry_after_of e) rng) as Hd.
  destruct (retry.decide _ _ _ _ _) as [dd rng1]. injection Hdec as <- _. simpl in Hd.
  destruct (retry.should_retry dd); [|done]. rewrite Hd by done. apply delay_storable.
  pose proof (retry.backoff_bounds (classify e) a (retry_after_of e) rng Hrng) as Hb.
  assert (retry.cap_s (retry.POLICIES (classify e)) <= 300)%Q as Hcap by (by destruct (classify e)).
  assert (Qmax 1 (retry.base_s (retry.POLICIES (classify e))) <= 5)%Q as Hbase by (by destruct (classify e)).
  pose proof (retry.ceiling_le_cap (classify e) a) as Hc.
  destruct (retry_after_of e) as [q|] eqn:Hq; simpl in Hb.
  - pose proof (retry_after_of_nonneg e q Hq). specialize (Hra e q eq_refl Hq). lra.
  - lra.
Qed.
End storable_retries.

Lemma unstorable_retry e a m rng dec rng' t :
  retry_decision (Failed e) a m rng = (dec, rng') →
  storable (match dec with
            | Some dd => if retry.should_retry dd
                         then CRetry (FailureClass.value (classify e)) (exc_message e) (retry.delay_s dd)
                         else CFailed (FailureClass.value (classify e)) (exc_message e)
            | None => CFailed (FailureClass.value (classify e)) (exc_message e) end) t = false →
  worth_retrying (classify e) a m ∧
  let wait := interval_us t (retry.backoff_s (classify e) a (retry_after_of e) rng).1 in
  interval_fits wait = false ∨ loadable (now t + wait) = false.
Proof.
  unfold retry_decision. intros Hdec.
  pose proof (retry.decide_should_retry (classify e) a m (retry_after_of e) rng) as Hshould.
  pose proof (retry.decide_delay (classify e) a m (retry_after_of e) rng) as Hdelay.
  destruct (retry.decide _ _ _ _ _) as [dd rng1]. injection Hdec as <- _. simpl in Hshould, Hdelay.
  destruct (retry.should_retry dd) eqn:Es; [|done]. rewrite Hdelay by done.
  intros [?|?]%andb_false_iff; (split; [by apply Hshould|]); auto.
Qed.

(** C38: how an attempt ends. For a worker that still owns its attempt,
    finalisation either applies or raises. It raises, and writes nothing, only
    for a failure worth retrying whose backoff, which an adapter's
    [retry_after_s] can make as long as it likes, is too long for an interval
    or ends after the year 9999; the task is then left to the reaper.
    Otherwise it applies: an attempt told to cancel ends CANCELLED whatever
    the adapter returned; a result ends SUCCEEDED and is stored; a failure is
    classified, and the task waits for another attempt after the backoff of
    its class exactly when it is worth retrying, and ends FAILED if not. *)
Theorem finalize_correct cf c o rng t d (r : task_row) dec rng' :
  tasks d !! t_id (co_row c) = Some r → task_ok r →
  owns r (t_attempt (co_row c)) (cf_worker_id cf) →
  retry_decision o (t_attempt (co_row c)) (t_max_attempts (co_row c)) rng = (dec, rng') →
  if negb (storable (finalize_choice o (co_cancelled c) dec) t)
  then
    (∃ column, finalize cf c o dec t d = inl (DataError column)) ∧ co_cancelled c = false ∧
    ∃ e, o = Failed e ∧
      worth_retrying (classify e) (t_attempt (co_row c)) (t_max_attempts (co_row c)) ∧
      let wait := interval_us t
        (retry.backoff_s (classify e) (t_attempt (co_row c)) (retry_after_of e) rng).1 in
      interval_fits wait = false ∨ loadable (now t + wait) = false
  else ∃ res d' r', finalize cf c o dec t d = inr (res, d') ∧ applied res = true ∧
    tasks d' !! t_id (co_row c) = Some r' ∧ t_attempt r' = t_attempt r ∧
    if co_cancelled c then t_state r' = State.CANCELLED ∧ t_result r' = t_result r
    else match o with
    | Succeeded result => t_state r' = State.SUCCEEDED ∧ t_result r' = Some result
    | Failed e =>
        t_error_class r' = Some (FailureClass.value (classify e)) ∧
        t_error_message r' = Some (exc_message e) ∧
        (worth_retrying (classify e) (t_attempt (co_row c)) (t_max_attempts (co_row c)) →
           t_state r' = State.QUEUED ∧
           t_available_at r' = now t + interval_us t
             (retry.backoff_s (classify e) (t_attempt (co_row c)) (retry_after_of e) rng).1) ∧
        (¬ worth_retrying (classify e) (t_attempt (co_row c)) (t_max_attempts (co_row c)) →
           t_state r' = State.FAILED)
    end.
Proof.
  intros Hr Hok Ho Hdec. unfold finalize.
  set (ch := finalize_choice o (co_cancelled c) dec).
  destruct (storable ch t) eqn:Hst; simpl.
  2: { split; [by eapply run_completion_late|]. unfold ch, finalize_choice in Hst.
       destruct (co_cancelled c); [done|]. split; [done|]. destruct o as [result|e]; [done|].
       exists e. split; [done|]. by eapply unstorable_retry. }
  exists (MkResult true (Some (c_row ch t r)) None None), (completed_db ch t d (t_id (co_row c))
    (t_attempt (co_row c)) (cf_worker_id cf) r), (c_row ch t r).
  split; [by apply run_completion_owned|]. split; [done|].
  split; [unfold completed_db; simpl; by rewrite lookup_insert_eq|].
  assert (t_attempt (c_row ch t r) = t_attempt r) as Ha by (by destruct ch).
  split; [done|]. clear Ha. subst ch. unfold finalize_choice.
  destruct (co_cancelled c); [done|]. destruct o as [result|e]; [done|].
  unfold retry_decision in Hdec.
  pose proof (retry.decide_should_retry (classify e) (t_attempt (co_row c))
    (t_max_attempts (co_row c)) (retry_after_of e) rng) as Hshould.
  pose proof (retry.decide_delay (classify e) (t_attempt (co_row c)) (t_max_attempts (co_row c))
    (retry_after_of e) rng) as Hdelay.
  destruct (retry.decide _ _ _ _ _) as [dd rng1]. injection Hdec as <- _. simpl in Hshould, Hdelay.
  destruct (retry.should_retry dd) eqn:Es; simpl; (split; [done|]); (split; [done|]); split.
  - intros _. split; [done|]. by rewrite Hdelay.
  - intros Hn. destruct Hn. by apply Hshould.
  - intros H. by apply Hshould in H.
  - done.
Qed.

Definition wz_config : worker_config :=
  MkWorkerConfig default_settings ∅ 1 DEFAULT_POLICY "w1" "host" 7 [] w3c_valid.
Definition wz_coroutine (cancelled : bool) (p : phase) : coroutine :=
  MkCoroutine (ex_running 12 "w1" false) UNGOVERNED cancelled true Returned p.

Lemma finalize_correct_witness :
  ∃ dec rng' res d' r', 
    retry_decision (Failed (RateLimited "slow down" None)) 1 3 wx_rng = (dec, rng') ∧
    finalize wz_config (wz_coroutine false Unwinding) (Failed (RateLimited "slow down" None)) dec
      (txn_at 20) ex_db = inr (res, d') ∧
    tasks d' !! 12%N = Some r' ∧ t_state r' = State.QUEUED ∧ t_error_class r' = Some "RATE_LIMITED".
Proof.
  destruct (retry_decision (Failed (RateLimited "slow down" None)) 1 3 wx_rng) as [dec rng'] eqn:E.
  pose proof (finalize_correct wz_config (wz_coroutine false Unwinding)
    (Failed (RateLimited "slow down" None)) wx_rng (txn_at 20) ex_db (ex_running 12 "w1" true) dec rng'
    eq_refl eq_refl (conj eq_refl (conj eq_refl eq_refl)) E) as H.
  assert (storable (finalize_choice (Failed (RateLimited "slow down" None))
    (co_cancelled (wz_coroutine false Unwinding)) dec) (txn_at 20) = true) as Hst.
  { vm_compute in E. injection E as <- _. vm_compute. reflexivity. }
  rewrite Hst in H. destruct H as (res & d' & r' & H1 & _ & H3 & _ & H4 & _ & H5 & _).
  exists dec, rng', res, d', r'. split; [reflexivity|]. split; [exact H1|]. split; [exact H3|].
  split; [|exact H4]. apply H5. split; [reflexivity|]. split; [reflexivity|]. discriminate.
Defined.

(** A client can reach the exception: the demonstration adapter hands its
    [retry_after] on, and nothing bounds it. *)
Example huge_hint_raises :
  ∃ e dec rng', RateLimitedAdapter {[ "retry_after" := JNum 1000000000000 ]} = ITreeDefinition.Ret (inl e) ∧
    retry_decision (Failed e) 1 3 wx_rng = (dec, rng') ∧
    transaction (finalize wz_config (wz_coroutine false Unwinding) (Failed e) dec) (txn_at 20) ex_db
    = (inl (DataError "timestamp"), ex_db).
Proof. eexists _, _, _. split; [reflexivity|]. split; [reflexivity|]. vm_compute. reflexivity. Qed.

Lemma record_outcome_terminal ty o cr dec ty' st :
  TasksTerminal ty' st ∈ record_outcome ty o cr dec →
  ty' = ty ∧ st = State.value (c_state (finalize_choice o cr dec)) ∧
  is_terminal (c_state (finalize_choice o cr dec)) = true.
Proof.
  unfold record_outcome, finalize_choice. destruct cr; [set_solver|].
  destruct o as [result|e]; [set_solver|]. destruct dec as [dd|]; [|set_solver].
  destruct (retry.should_retry dd); set_solver.
Qed.

(** Between [d] and [d'] this worker finished the task of its own attempt in
    the state called [st]. *)
Definition finished_by (cf : worker_config) (row : task_row) (st : text) (d d' : db) : Prop :=
  ∃ r r' : task_row, tasks d !! t_id row = Some r ∧ owns r (t_attempt row) (cf_worker_id cf) ∧
    tasks d' !! t_id row = Some r' ∧ State.value (t_state r') = st ∧
    is_terminal (t_state r') = true.

(** The terminal counters tell the truth. A coroutine counts a task as
    finished only in the step that finished it: the counter names the type
    of the task it worked on and the state that very transaction moved the
    task to, from RUNNING under this worker's own attempt. Work another
    worker did is never counted. *)
Theorem terminal_counters_are_true cf t d s c d' s' c' ty st :
  co_step cf t (d, s, c) (d', s', c') →
  TasksTerminal ty st ∈ drop (length (sh_metrics s)) (sh_metrics s') →
  ty = t_task_type (co_row c) ∧ finished_by cf (co_row c) st d d'.
Proof.
  intros Hst Hin.
  inversion Hst; subst; simpl in Hin; rewrite ?drop_all, ?drop_app_length in Hin;
    try (by apply elem_of_nil in Hin);
    try (apply list_elem_of_singleton in Hin; discriminate);
    try (unfold decision_metrics in Hin; destruct (allowed _); set_solver).
  unfold after, after_finalize in *.
  match goal with H : transaction _ _ _ = _ |- _ => apply commits_run in H; rename H into Hrun end.
  apply run_completion_inv in Hrun as [(Ha & -> & _)|(Ha & r & Hr & Ho & _ & _ & ->)];
    rewrite Ha in Hin; simpl in Hin; rewrite drop_app_length in Hin; [set_solver|].
  apply record_outcome_terminal in Hin as (-> & -> & Hterm). split; [done|].
  eexists r, _. split; [done|]. split; [done|].
  split; [unfold completed_db; simpl; by rewrite lookup_insert_eq|].
  assert (∀ ch, t_state (c_row ch t r) = c_state ch) as Hs by (by intros []).
  by rewrite Hs.
Qed.

Lemma terminal_counters_are_true_witness :
  ∃ d' s' c', co_step wz_config (txn_at 20)
      (ex_db, MkShared [] [] wx_rng, wz_coroutine true (Finalising (Succeeded ∅))) (d', s', c') ∧
    TasksTerminal "demo" "CANCELLED" ∈ drop 0 (sh_metrics s') ∧
    ∃ r' : task_row, tasks d' !! 12%N = Some r' ∧ State.value (t_state r') = "CANCELLED".
Proof.
  set (c := wz_coroutine true (Finalising (Succeeded ∅))). set (s := MkShared [] [] wx_rng).
  destruct (transaction (finalize wz_config c (Succeeded ∅) None) (txn_at 20) ex_db) as [[e|res] d'] eqn:E.
  { vm_compute in E. discriminate. }
  assert (co_step wz_config (txn_at 20) (ex_db, s, c)
    (d', (after_finalize c (Succeeded ∅) None res (sh_reseed wx_rng s)).2,
         (after_finalize c (Succeeded ∅) None res (sh_reseed wx_rng s)).1)) as Hst.
  { exact (co_finalize wz_config (txn_at 20) ex_db d' s c (Succeeded ∅) None wx_rng res eq_refl eq_refl E). }
  assert (TasksTerminal "demo" "CANCELLED" ∈ drop 0 (sh_metrics
    (after_finalize c (Succeeded ∅) None res (sh_reseed wx_rng s)).2)) as Hin.
  { assert (applied res = true) as Ha by (vm_compute in E; injection E as <- _; reflexivity).
    unfold after_finalize. rewrite Ha. vm_compute. right. left. }
  destruct (terminal_counters_are_true _ _ _ _ _ _ _ _ _ _ Hst Hin) as (_ & r & r' & _ & _ & Hr' & Hv & _).
  eexists _, _, _. split; [exact Hst|]. split; [exact Hin|]. exists r'. split; [exact Hr'|exact Hv].
Defined.

(** ** Leases *)

(** At most three renewal intervals from one transaction to the other. *)
Definition timely (st : Settings) (t1 t2 : txn) : Prop :=
  now t1 ≤ now t2 ≤ now t1 + seconds (3 * lease_renew_interval_s st).

(** C39: timely renewals keep the lease. With settings that pass the timing
    check, after a successful renewal the next one succeeds too whenever it
    comes within three renewal intervals (by the database's clock), the row is
    still as the first one left it and the new lease ends before the year
    10000; until then the reaper's attempt to
    reclaim the task is refused, so two lost renewals in a row cost
    nothing. *)
Theorem timely_renewals_keep_lease st st' i w a t1 t2 d1 rn d2 d3 :
  settings st = inr st' → reachable d1 →
  renew_lease i w a (lease_ttl_s st) t1 d1 = inr (Some rn, d2) →
  steps d2 d3 → tasks d3 !! i = tasks d2 !! i →
  timely st t1 t2 →
  (loadable (now t2 + seconds (lease_ttl_s st)) = true →
     ∃ rn' d4, renew_lease i w a (lease_ttl_s st) t2 d3 = inr (Some rn', d4)) ∧
  (∀ m lw, reap_task i a m lw t2 d3 = inr (false, d3)).
Proof.
  unfold timely. intros (_ & Hm & _)%settings_margins Hd1 Hren Hs Hsame Ht.
  assert (reachable d2) as Hd2 by (eapply steps_snoc; [exact Hd1|by eapply step_renew]).
  assert (inv d3) as Hinv by (apply inv_reachable; by eapply steps_trans).
  apply renew_lease_inv in Hren as [[[=] _]|(r & Hr & [Ho _] & _ & Hfit & _ & ->)].
  simpl in Hsame. rewrite lookup_insert_eq in Hsame.
  assert (now t2 < now t1 + seconds (lease_ttl_s st)) as Hlt.
  { unfold seconds, second in *. lia. }
  assert (renewable (now t2) (renewed_row t1 (lease_ttl_s st) r) a w) as Hren.
  { split; [exact Ho|]. by eexists. }
  split.
  - intros Hload. apply ttl_fits_spec in Hfit as [Hint _]. eexists _, _.
    apply renew_lease_ok with (r := renewed_row t1 (lease_ttl_s st) r); [done|done|by eapply inv_ok|].
    by apply ttl_fits_spec.
  - intros m lw. apply (reap_refused Lease _ _ _ _ _ _ _ Hsame). intros [_ Hl]. simpl in Hl.
    unfold lease_expired in Hl. simpl in Hl. apply Z.ltb_lt in Hl. lia.
Qed.

Lemma timely_renewals_keep_lease_witness :
  ∃ d2 rn' d4, renew_lease 5 "w1" 1 30 (txn_at 27) sc_claimed = inr (Some (MkRenewal false (Some (us 57))), d2) ∧
    renew_lease 5 "w1" 1 30 (txn_at 48) d2 = inr (Some rn', d4).
Proof.
  destruct (renew_lease 5 "w1" 1 30 (txn_at 27) sc_claimed) as [|[[rn|] d2]] eqn:E;
    [vm_compute in E; discriminate| |vm_compute in E; discriminate].
  destruct (timely_renewals_keep_lease default_settings default_settings 5 "w1" 1 (txn_at 27)
    (txn_at 48) sc_claimed rn d2 d2) as [H _].
  - reflexivity.
  - exact sc_claimed_reachable.
  - exact E.
  - apply steps_refl.
  - reflexivity.
  - vm_compute. split; discriminate.
  - destruct (H ltac:(vm_compute; reflexivity)) as (rn' & d4 & H').
    exists d2, rn', d4. split; [|exact H']. vm_compute in E. injection E as <- <-. reflexivity.
Defined.

(** A renewal that comes too late discards the result. If the lease of
    an attempt ran out but nobody reclaimed the task, the next renewal is
    refused and the worker treats the refusal as a request to cancel:
    although no cancellation was asked for and the worker still owns the
    attempt, a result the adapter returns is dropped and the task ends
    CANCELLED. *)
Theorem late_renewal_discards_result cf t d (r : task_row) c s e :
  tasks d !! t_id (co_row c) = Some r → task_ok r →
  owns r (t_attempt (co_row c)) (cf_worker_id cf) →
  t_cancel_requested r = false → t_lease_expires_at r = Some e → e ≤ now t →
  co_renewal c = Renewing → interval_fits (seconds (lease_ttl_s (cf_settings cf))) = true →
  (∃ c1, co_step cf t (d, s, c) (d, s, c1) ∧ co_cancelled c1 = true ∧ co_row c1 = co_row c) ∧
  (∀ c2 result t2 s2, co_row c2 = co_row c → co_cancelled c2 = true →
     co_phase c2 = Finalising (Succeeded result) →
     ∃ d' s' c' r', co_step cf t2 (d, s2, c2) (d', s', c') ∧
       tasks d' !! t_id (co_row c) = Some r' ∧ t_state r' = State.CANCELLED ∧
       t_cancel_requested r' = false ∧ t_result r' = t_result r).
Proof.
  intros Hr Hok Ho Hc He Hlate Hren Hfit. split.
  - exists (after_renewal None c). split; [|done]. apply co_renew; [done|].
    unfold transaction, renew. rewrite renew_lease_lost; [done|done|].
    intros r' Hr' (_ & e' & He' & Hlt). simplify_eq. lia.
  - intros c2 result t2 s2 Hrow Hcan Hph.
    assert (transaction (finalize cf c2 (Succeeded result) None) t2 d =
      (inr (MkResult true (Some (c_row CCancelled t2 r)) None None),
       completed_db CCancelled t2 d (t_id (co_row c)) (t_attempt (co_row c)) (cf_worker_id cf) r)) as Hrun.
    { unfold transaction, finalize, finalize_choice. rewrite Hcan, Hrow.
      by erewrite run_completion_owned. }
    eexists _, _, _, (c_row CCancelled t2 r).
    split; [by eapply (co_finalize cf t2 d _ s2 c2 (Succeeded result) None (sh_rng s2))|].
    split; [unfold completed_db; simpl; by rewrite lookup_insert_eq|]. done.
Qed.

Lemma late_renewal_discards_result_witness :
  let c := MkCoroutine (ex_running 12 "w1" false) UNGOVERNED false false Renewing Unwinding in
  let d := set_tasks {[ 12%N := ex_running 12 "w1" false ]} ex_db in
  ∃ c1, co_step wz_config (txn_at 60) (d, MkShared [] [] wx_rng, c) (d, MkShared [] [] wx_rng, c1) ∧
    co_cancelled c1 = true.
Proof.
  intros c d.
  destruct (late_renewal_discards_result wz_config (txn_at 60) d (ex_running 12 "w1" false) c
    (MkShared [] [] wx_rng) (us 40)) as [(c1 & H1 & H2 & _) _]; try reflexivity.
  - repeat split.
  - vm_compute. discriminate.
  - exists c1. split; [exact H1|exact H2].
Defined.
