(* ===== verification/Exec.v ===== *)
(** * An executable worker

    [co_next] and [main_next] compute one step of a coroutine and of the main
    loop where [co_step] and [main_step] only allow it; [co_beat] is the
    renewal's turn.  What the relations leave open is chosen: the tool's
    answer and the exception a failed transaction raises are arguments, and a
    worker signs off as soon as it may. *)

From S2P Require Import Prelude PyStr Json States Errors Retry Policy Capability Authz Db Config.
From S2P Require Import Adapters Samples Transitions Completion Lease Workers Claim Reap Tasks.
From S2P Require Import Agents Tools Tracing Worker Frames Registry Effects Protocol WorkerRun.
From ITree Require Import ITree.
#[local] Open Scope Z_scope.

Section exec.
Context (cf : worker_config).

(** A transaction, and what follows its commit or its failure. *)
Definition attempt_txn {A B} (m : M A) (t : txn) (d : db) (ok : A → db → B) (failed : db → B) : B :=
  match transaction m t d with
  | (inr a, d') => ok a d'
  | (inl _, d') => failed d'
  end.

(** ** Coroutines *)

Definition co_ask (c : coroutine) {A} (e : AdapterE A) : (A → adapter_run) → coroutine :=
  match e in AdapterE T return (T → adapter_run) → coroutine with
  | IsCancelled => λ k, co_with c (Executing (k (co_cancelled c)))
  | CallTool name request => λ k, co_with c (Deciding name request k)
  end.

Definition co_next (t : txn) (answer : py_exc + jdict) (exc : py_exc)
    (x : db * shared * coroutine) : option (db * shared * coroutine) :=
  let '(d, s, c) := x in
  match co_phase c with
  | Created =>
      Some match link_of_payload (cf_span_valid cf) (t_payload (co_row c)) with
      | inr _ => (d, (start_attempt cf c s).2, (start_attempt cf c s).1)
      | inl _ => (d, s, co_with c Ended)
      end
  | Executing run =>
      Some match observe run with
      | RetF r => (d, s, co_stopped c (Joining (adapter_outcome r)))
      | TauF run' => (d, s, co_with c (Executing run'))
      | VisF e k => (d, s, co_ask c e k)
      end
  | Deciding name request k =>
      let dec := authorize (co_policy c) name in
      let s' := sh_count (decision_metrics name dec) s in
      attempt_txn (on_decision cf (co_row c) name dec) t d
        (λ _ d', if allowed dec
                 then match decision_tool dec with
                      | Some tool => Some (d', s', co_with c (Invoking tool request k))
                      | None => None
                      end
                 else Some (d', s', co_with c (Auditing name k)))
        (λ d', Some (d', s', co_with c (Executing (k (inl exc)))))
  | Auditing name k =>
      attempt_txn (audit_denial (co_row c) (co_policy c) name) t d
        (λ _ d', Some (d', s, co_with c (Executing (k (inl (permission_denied (co_policy c) name))))))
        (λ d', Some (d', s, co_with c (Executing (k (inl exc)))))
  | Invoking tool request k => Some (d, s, co_with c (Reporting tool answer k))
  | Reporting tool result k =>
      attempt_txn (on_executed cf (co_row c) tool result) t d
        (λ _ d', Some (d', s, co_with c (Executing (k result))))
        (λ d', Some (d', s, co_with c (Executing (k (inl exc)))))
  | Joining o =>
      match co_renewal c with
      | Returned =>
          Some (d, sh_count [ExecutionDuration (t_task_type (co_row c)) (outcome_name o)] s,
                co_with c (Finalising o))
      | RenewalRaised => Some (d, s, co_with c Ended)
      | _ => None
      end
  | Finalising o =>
      let '(decision, rng) :=
        retry_decision o (t_attempt (co_row c)) (t_max_attempts (co_row c)) (sh_rng s) in
      attempt_txn (finalize cf c o decision) t d
        (λ res d', let after := after_finalize c o decision res (sh_reseed rng s) in
                   Some (d', after.2, after.1))
        (λ d', Some (d', sh_disown (t_id (co_row c)) (sh_reseed rng s), co_with c Ended))
  | Rejected o r =>
      Some ((transaction (stale_event cf (co_row c) o r) t d).2, sh_disown (t_id (co_row c)) s,
            co_with c Ended)
  | Unwinding =>
      match co_renewal c with
      | Returned | RenewalRaised => Some (d, s, co_with c Ended)
      | Renewing => Some (d, s, co_with_renewal c (co_cancelled c) Returned)
      | Asleep => None
      end
  | Ended => None
  end.

Definition co_beat (t : txn) (x : db * shared * coroutine) : option (db * shared * coroutine) :=
  let '(d, s, c) := x in
  match co_renewal c with
  | Asleep =>
      Some (d, s, co_with_renewal c (co_cancelled c) (if co_stop c then Returned else Renewing))
  | Renewing =>
      attempt_txn (renew cf (co_row c)) t d
        (λ res d', Some (d', s, after_renewal res c))
        (λ d', Some (d', s, co_with_renewal c (co_cancelled c) RenewalRaised))
  | _ => None
  end.

Lemma attempt_txn_inv {A B} (m : M A) t d (ok : A → db → option B) failed y :
  attempt_txn m t d ok failed = Some y →
  (∃ a d', commits m t d a d' ∧ ok a d' = Some y) ∨ (∃ d', rolls_back m t d d' ∧ failed d' = Some y).
Proof. unfold attempt_txn. destruct (transaction m t d) as [[e|a] d']; [right|left]; eauto. Qed.

Lemma co_next_sound t answer exc x y : co_next t answer exc x = Some y → co_step cf t x y.
Proof.
  destruct x as [[d s] c]. unfold co_next. destruct (co_phase c) eqn:Hp.
  - destruct (link_of_payload _ _) eqn:Hl; intros [= <-]; [by eapply co_link_raises|by eapply co_start].
  - destruct (observe run) as [r|run'|A e k] eqn:Ho; intros [= <-].
    + by eapply co_return.
    + by eapply co_tau.
    + destruct e; simpl; [by eapply co_poll|by eapply co_call].
  - intros [([] & d' & H & Hy)|(d' & H & [= <-])]%attempt_txn_inv.
    + destruct (allowed _) eqn:Ha; [|injection Hy as <-; by eapply co_deny].
      destruct (decision_tool _) eqn:Ht; [|done]. injection Hy as <-. by eapply co_allow.
    + by eapply co_decision_fails.
  - intros [([] & d' & H & [= <-])|(d' & H & [= <-])]%attempt_txn_inv;
      [by eapply co_audit|by eapply co_audit_fails].
  - intros [= <-]. by eapply co_invoke.
  - intros [([] & d' & H & [= <-])|(d' & H & [= <-])]%attempt_txn_inv;
      [by eapply co_report|by eapply co_report_fails].
  - destruct (co_renewal c) eqn:Hr; intros [= <-]; [by eapply co_join|by eapply co_join_raises].
  - destruct (retry_decision _ _ _ _) as [dec rng] eqn:Hdec.
    intros [(res & d' & H & [= <-])|(d' & H & [= <-])]%attempt_txn_inv;
      [by eapply co_finalize|by eapply co_finalize_fails].
  - intros [= <-]. destruct (transaction _ t d) as [res d'] eqn:H. by eapply co_stale.
  - destruct (co_renewal c) eqn:Hr; intros [= <-];
      [by eapply co_renew_cancelled|eapply co_unwind; [done|]; rewrite Hr; by left
      |eapply co_unwind; [done|]; rewrite Hr; by right; left].
  - done.
Qed.

Lemma co_beat_sound t x y : co_beat t x = Some y → co_step cf t x y.
Proof.
  destruct x as [[d s] c]. unfold co_beat. destruct (co_renewal c) eqn:Hr; try done.
  - destruct (co_stop c) eqn:Hs; intros [= <-]; [by eapply co_renew_stops|by eapply co_wake].
  - intros [(res & d' & H & [= <-])|(d' & H & [= <-])]%attempt_txn_inv;
      [by eapply co_renew|by eapply co_renew_fails].
Qed.

(** ** The main loop *)

(** What the claim leads to. *)
Definition after_claim (w : worker) (x : list task_row * gmap uuid ToolPolicy) : worker :=
  wk_goto Polling (harvest (dispatch x.1 x.2 w)).

Definition main_next (t : txn) (mono : Q) (x : db * worker) : option (db * worker) :=
  let '(d, w) := x in
  match wk_main w with
  | Registering =>
      attempt_txn (register_self cf) t d (λ _ d', Some (d', wk_goto Looping w))
        (λ d', Some (d', wk_goto Exited w))
  | Looping =>
      if wk_stopping w then Some (d, wk_goto Draining w)
      else if heartbeat_due cf mono w then
        attempt_txn (heartbeat (cf_worker_id cf)) t d
          (λ alive d', Some (d', wk_goto Claiming (after_heartbeat alive (beat mono w))))
          (λ d', Some (d', wk_goto Draining (beat mono w)))
      else Some (d, wk_goto Claiming w)
  | Claiming =>
      if wk_stopping w then Some (d, wk_goto Draining w)
      else if free_slots cf w <=? 0 then Some (d, wk_goto Polling (harvest w))
      else
        attempt_txn (claim_and_snapshot cf (at_once d) (claim_limit cf w)) t d
          (λ x d', Some (d', after_claim w x)) (λ d', Some (d', wk_goto Draining w))
  | Polling => Some (d, wk_goto Looping w)
  | Draining =>
      if wk_fenced w then Some (d, wk_goto FencedExit (cancel_inflight w))
      else Some ((transaction (set_worker_status (cf_worker_id cf) WorkerStatus.DRAINING) t d).2, wk_goto Grace w)
  | FencedExit => if forallb is_done (wk_inflight w) then Some (d, wk_goto Exited w) else None
  | Grace => Some (d, wk_goto Gathering (cancel_inflight w))
  | Gathering =>
      if forallb is_done (wk_inflight w)
      then Some (d, wk_goto (HandingBack (sh_owned (wk_shared w))) w) else None
  | HandingBack ((i, a) :: todo) => Some ((transaction (abandon cf i a) t d).2, wk_goto (HandingBack todo) w)
  | HandingBack [] => Some (d, wk_goto SigningOff (clear_owned w))
  | SigningOff =>
      Some ((transaction (set_worker_status (cf_worker_id cf) WorkerStatus.DEAD) t d).2, wk_goto Exited w)
  | Exited => None
  end.

Lemma forallb_done cs : forallb is_done cs = true → Forall (λ c, is_done c = true) cs.
Proof. rewrite forallb_forall, Forall_forall. intros H c Hc. apply H. by apply list_elem_of_In. Qed.

Lemma main_next_sound t mono x y : main_next t mono x = Some y → main_step cf t mono (at_once x.1) x y.
Proof.
  destruct x as [d w]. unfold main_next. cbn [fst]. destruct (wk_main w) as [| | | | | | | |todo| |] eqn:Hm.
  - intros [(row & d' & H & [= <-])|(d' & H & [= <-])]%attempt_txn_inv;
      [by eapply m_register|by eapply m_register_fails].
  - destruct (wk_stopping w) eqn:Hs; [intros [= <-]; by apply m_leave; [left|]|].
    destruct (heartbeat_due cf mono w) eqn:Hd; [|intros [= <-]; by apply m_no_beat].
    intros [(alive & d' & H & [= <-])|(d' & H & [= <-])]%attempt_txn_inv;
      [by eapply m_beat|by eapply m_beat_fails].
  - destruct (wk_stopping w) eqn:Hs; [intros [= <-]; by apply m_leave; [right|]|].
    destruct (Z.leb_spec (free_slots cf w) 0) as [Hf|Hf]; [intros [= <-]; by apply m_full|].
    intros [([rows pols] & d' & H & [= <-])|(d' & H & [= <-])]%attempt_txn_inv;
      [by eapply m_claim|by eapply m_claim_fails].
  - intros [= <-]. by apply m_poll.
  - destruct (wk_fenced w) eqn:Hf; intros [= <-]; [by apply m_drain_fenced|].
    eapply m_drain; [done|done|]. apply surjective_pairing.
  - destruct (forallb _ _) eqn:Hd; [|done]. intros [= <-]. apply m_fenced_exit; [done|]. by apply forallb_done.
  - intros [= <-]. by apply m_grace_over.
  - destruct (forallb _ _) eqn:Hd; [|done]. intros [= <-]. apply m_gathered; [done|]. by apply forallb_done.
  - destruct todo as [|[i a] todo]; intros [= <-]; [by apply m_handed_back|].
    eapply m_abandon; [done|]. apply surjective_pairing.
  - intros [= <-]. eapply m_sign_off; [done|]. apply surjective_pairing.
  - done.
Qed.
End exec.
