(* ===== verification/Fleet.v ===== *)
(** * The deployed service: API, reaper and any number of workers

    [fleet_step] puts the processes together: workers that start, run and
    crash, API requests, whose checks may be out of date (StaleChecks.v), and
    the reaper's transactions.  It keeps the earlier moments, for what requests
    and policy snapshots read before they commit.
    [fleet_composes] shows that each process meets the assumptions the others
    were verified under, so the guarantees about one worker next to a running
    system, and about requests next to background work, hold here together.
    [retry_budget] needs all of them: the retry policy is a worker's, the
    lease check the reaper's, and the count is in the tables. *)

From S2P Require Import Prelude PyStr Json States Errors Retry Policy Capability Authz Db Config.
From S2P Require Import Adapters Samples Transitions Completion Lease Workers Claim Reap Tasks.
From S2P Require Import Agents Tools Tracing Worker Frames Registry Effects Protocol Scenario ReaperLoop WorkerRun.
From S2P Require Import Guarantees Governance Api ApiRun ApiSubmit ApiGuarantees Isolation StaleChecks.
From S2P Require Import WorkerProps WorkerGuarantees Exec.
#[local] Open Scope Z_scope.

(** ** Processes *)

(** The worker processes of a deployment. *)
Abbreviation processes := (list (worker_config * worker)).
(** The tables, those of the earlier moments, newest first, and the workers. *)
Abbreviation world := (db * list db * processes)%type.

Section fleet.
Context (rc : reaper_config).
(** The configurations a worker may be started with. *)
Context (cfs : worker_config → Prop).

Inductive fleet_step : world → world → Prop :=
  | f_start d h ps cf rng :
      cfs cf → fleet_step (d, h, ps) (d, h, ps ++ [(cf, new_worker rng)])
  | f_crash d h ps n : fleet_step (d, h, ps) (d, h, delete n ps)
  | f_main t mono ms d h ps n cf w d' w' :
      ps !! n = Some (cf, w) →
      reads (d :: h) [sees_versions ms; sees_tools ms; sees_grants ms] →
      main_step cf t mono ms (d, w) (d', w') →
      fleet_step (d, h, ps) (d', d :: h, <[n := (cf, w')]> ps)
  | f_co t d h ps n cf w k c d' s' c' :
      ps !! n = Some (cf, w) → wk_inflight w !! k = Some c →
      co_step cf t (d, wk_shared w, c) (d', s', c') →
      fleet_step (d, h, ps) (d', d :: h, <[n := (cf, wk_with (<[k := c']> (wk_inflight w)) s' w)]> ps)
  | f_request d h ps d' : late_write (d :: h) d d' → fleet_step (d, h, ps) (d', d :: h, ps)
  | f_reap d h ps k t res d' :
      transaction (reap_batch k (rc_batch_size rc)) t d = (res, d') →
      fleet_step (d, h, ps) (d', d :: h, ps)
  | f_sweep d h ps t res d' :
      transaction (mark_dead_workers (worker_dead_after_s (rc_settings rc))) t d = (res, d') →
      fleet_step (d, h, ps) (d', d :: h, ps).

Inductive fleet_run (x : world) : world → Prop :=
  | fleet_refl : fleet_run x x
  | fleet_snoc y z : fleet_run x y → fleet_step y z → fleet_run x z.

(** Empty tables and no workers yet. *)
Definition deployed (x : world) : Prop := fleet_run (empty_db, [], []) x.

Lemma reads_at_once d h :
  reads (d :: h) [sees_versions (at_once d); sees_tools (at_once d); sees_grants (at_once d)].
Proof. do 3 (exists 0%nat; split; [done|]). done. Qed.

(** *** Executed *)

Inductive command :=
  | Request (env : api_env) (rq : request) (t : txn)
  | Start (cf : worker_config) (rng : retry.Rng)
  | Crash (n : nat)
  | Signal (n : nat)
  | Main (n : nat) (t : txn) (mono : Q)
  | Co (n k : nat) (t : txn) (answer : py_exc + jdict) (exc : py_exc)
  | Beat (n k : nat) (t : txn)
  | ReapBatch (k : lost_kind) (t : txn)
  | MarkDead (t : txn).

(** The next moment. *)
Definition later (x : world) (d' : db) (ps : processes) : world := (d', x.1.1 :: x.1.2, ps).

Definition on_worker (x : world) (n : nat) (f : worker_config → db * worker → option (db * worker))
    : option world :=
  p ← x.2 !! n;
  y ← f p.1 (x.1.1, p.2);
  Some (later x y.1 (<[n := (p.1, y.2)]> x.2)).

Definition on_coroutine (k : nat)
    (f : worker_config → db * shared * coroutine → option (db * shared * coroutine))
    (cf : worker_config) (x : db * worker) : option (db * worker) :=
  c ← wk_inflight x.2 !! k;
  y ← f cf (x.1, wk_shared x.2, c);
  Some (y.1.1, wk_with (<[k := y.2]> (wk_inflight x.2)) y.1.2 x.2).

Definition exec (c : command) (x : world) : option world :=
  match c with
  | Request env rq t => Some (later x (respond env rq t x.1.1).2 x.2)
  | Start cf rng => Some (x.1, x.2 ++ [(cf, new_worker rng)])
  | Crash n => Some (x.1, delete n x.2)
  | Signal n => on_worker x n (λ _ y, Some (y.1, stop y.2))
  | Main n t mono => on_worker x n (λ cf, main_next cf t mono)
  | Co n k t answer exc => on_worker x n (on_coroutine k (λ cf, co_next cf t answer exc))
  | Beat n k t => on_worker x n (on_coroutine k (λ cf, co_beat cf t))
  | ReapBatch k t => Some (later x (transaction (reap_batch k (rc_batch_size rc)) t x.1.1).2 x.2)
  | MarkDead t =>
      Some (later x (transaction (mark_dead_workers (worker_dead_after_s (rc_settings rc))) t x.1.1).2 x.2)
  end.

Fixpoint exec_all (l : list command) (x : world) : option world :=
  match l with
  | [] => Some x
  | c :: l => exec c x ≫= exec_all l
  end.

(** Only configurations that may be started are. *)
Definition starts_ok (c : command) : Prop := match c with Start cf _ => cfs cf | _ => True end.

Lemma on_worker_inv x n f y :
  on_worker x n f = Some y →
  ∃ cf w d' w', x.2 !! n = Some (cf, w) ∧ f cf (x.1.1, w) = Some (d', w') ∧
    y = later x d' (<[n := (cf, w')]> x.2).
Proof.
  unfold on_worker. intros ([cf w] & Hn & ([d' w'] & Hf & [= <-])%bind_Some)%bind_Some. eauto 10.
Qed.

Lemma on_coroutine_inv k f cf d w d' w' :
  on_coroutine k f cf (d, w) = Some (d', w') →
  ∃ c s' c', wk_inflight w !! k = Some c ∧ f cf (d, wk_shared w, c) = Some (d', s', c') ∧
    w' = wk_with (<[k := c']> (wk_inflight w)) s' w.
Proof.
  unfold on_coroutine. intros (c & Hc & ([[d1 s'] c'] & Hf & [= <- <-])%bind_Some)%bind_Some.
  eauto 10.
Qed.

Lemma exec_sound c x y : starts_ok c → exec c x = Some y → fleet_step x y.
Proof.
  destruct x as [[d h] ps]. intros Hc.
  destruct c as [env rq t|cf rng|n|n|n t mono|n k t answer exc|n k t|k t|t]; cbn [exec fst snd].
  - intros [= <-]. apply f_request, write_now.
  - intros [= <-]. by apply f_start.
  - intros [= <-]. by apply f_crash.
  - intros (cf & w & d' & w' & Hn & [= <- <-] & ->)%on_worker_inv.
    eapply (f_main (txn_at 0) 0 (at_once d)); [done|apply reads_at_once|apply m_signal].
  - intros (cf & w & d' & w' & Hn & Hm%main_next_sound & ->)%on_worker_inv.
    eapply (f_main _ _ (at_once d)); [done|apply reads_at_once|done].
  - intros (cf & w & d' & w' & Hn & (c & s' & c' & Hk & Hm%co_next_sound & ->)%on_coroutine_inv & ->)%on_worker_inv.
    by eapply f_co.
  - intros (cf & w & d' & w' & Hn & (c & s' & c' & Hk & Hm%co_beat_sound & ->)%on_coroutine_inv & ->)%on_worker_inv.
    by eapply f_co.
  - intros <-%(inj Some). eapply f_reap, surjective_pairing.
  - intros <-%(inj Some). eapply f_sweep, surjective_pairing.
Qed.

Lemma fleet_run_trans x y z : fleet_run x y → fleet_run y z → fleet_run x z.
Proof. intros Hxy. induction 1; [done|]. by eapply fleet_snoc. Qed.

Lemma exec_all_sound l x y : Forall starts_ok l → exec_all l x = Some y → fleet_run x y.
Proof.
  intros Hl. revert x. induction Hl as [|c l Hc _ IH]; intros x; simpl; [intros [= <-]; apply fleet_refl|].
  intros (x1 & Hx & Hy)%bind_Some. eapply fleet_run_trans; [|by apply IH].
  eapply fleet_snoc; [apply fleet_refl|]. by apply (exec_sound c).
Qed.
End fleet.

(** ** What workers and the reaper do to the tables *)

(** A task that goes back to the queue had attempts left, or was handed back. *)
Definition frugal (d d' : db) : Prop :=
  ∀ i (r r' : task_row), tasks d !! i = Some r → t_state r = State.RUNNING →
    tasks d' !! i = Some r' → t_state r' = State.QUEUED →
    t_attempt r < t_max_attempts r ∨
    ∃ x, task_attempts d' !! (i, t_attempt r) = Some x ∧ a_outcome x = Some Outcome.ABANDONED.

(** Only tasks of [W] succeed. *)
Definition succeeds_in (W : uuid → Prop) (d d' : db) : Prop :=
  ∀ i (r r' : task_row), tasks d !! i = Some r → tasks d' !! i = Some r' →
    t_state r' = State.SUCCEEDED → t_state r = State.SUCCEEDED ∨ W i.

(** Background work: no registration, no new tasks, no unearned retry. *)
Definition labour (W : uuid → Prop) (d d' : db) : Prop :=
  d' = d ∨
  (∃ t, step t d d') ∧ registry d' = registry d ∧ no_new_rows d d' ∧ frugal d d' ∧ succeeds_in W d d'.

Abbreviation nobody := (λ _ : uuid, False).

Lemma labour_mono (W W' : uuid → Prop) d d' : (∀ i, W i → W' i) → labour W d d' → labour W' d d'.
Proof.
  intros HW [?|(? & ? & ? & ? & Hs)]; [by left|right]. split_and!; try done.
  intros i r r' Hr Hr' Hst. destruct (Hs i r r' Hr Hr' Hst); auto.
Qed.

Lemma labour_keeps {A} W (m : M A) t d a d' :
  m t d = inr (a, d') → step t d d' → Keeps tasks m → Keeps registry m → labour W d d'.
Proof.
  intros H Hs Ht Hr. pose proof (keeps (f := tasks) _ _ _ _ H) as Htasks. right.
  split; [eauto|]. split; [exact (keeps (f := registry) _ _ _ _ H)|]. split; [by apply same_rows|].
  split; intros i r r' Hi; rewrite Htasks, Hi; [intros Hrun [= <-]; by rewrite Hrun|].
  intros [= <-]. by left.
Qed.

(** Writing one RUNNING row. *)
Lemma labour_one (W : uuid → Prop) t d d' i (r r' : task_row) :
  step t d d' → registry d' = registry d → tasks d !! i = Some r → tasks d' = <[i := r']> (tasks d) →
  (t_state r' = State.QUEUED → t_attempt r < t_max_attempts r ∨
     ∃ x, task_attempts d' !! (i, t_attempt r) = Some x ∧ a_outcome x = Some Outcome.ABANDONED) →
  (t_state r' = State.SUCCEEDED → W i) →
  labour W d d'.
Proof.
  intros Hs Hreg Hr Ht Hq Hw. right. split; [eauto|]. split; [done|].
  split; [eapply (insert_no_new_rows _ _ i); [by rewrite Hr|done]|].
  split; intros j r1 r2; rewrite Ht; (destruct (decide (j = i)) as [->|Hj];
    [rewrite lookup_insert_eq|rewrite lookup_insert_ne by done]).
  - by intros Hr1 _ [= <-]; simplify_eq.
  - intros Hr1 Hrun. rewrite Hr1. intros [= <-]. by rewrite Hrun.
  - intros _ [= <-] Hst. right. by apply Hw.
  - intros ->. intros [= <-]. by left.
Qed.

Lemma renew_labour W i w a ttl t d res d' : renew_lease i w a ttl t d = inr (res, d') → labour W d d'.
Proof.
  intros H. pose proof (step_renew _ _ _ _ _ _ _ _ H) as Hs.
  apply renew_lease_inv in H as [[_ ->]|(r & Hr & ((Hst & _) & _) & Hok & _ & _ & ->)]; [by left|].
  eapply (labour_one _ t d _ i r); [done|done|done|done| |]; simpl; by rewrite Hst.
Qed.

(** A completion, when what goes back to the queue was earned. *)
Lemma completion_labour (W : uuid → Prop) c i a w t d res d' :
  inv d → run_completion c i a w t d = inr (res, d') →
  (∀ (r : task_row) ec em b, c = CRetry ec em b → tasks d !! i = Some r → owns r a w →
     t_attempt r < t_max_attempts r) →
  (∀ result, c = CSuccess result → W i) →
  labour W d d'.
Proof.
  intros Hinv H Hretry Hw. pose proof (step_complete _ _ _ _ _ _ _ _ H) as Hs.
  apply run_completion_inv in H as [(_ & -> & _)|(_ & r & Hr & Ho & _ & _ & ->)]; [by left|].
  eapply (labour_one _ t d _ i r (c_row c t r)); [done|done|done|done| |].
  2: { destruct c; try done; intros _; by eapply Hw. }
  destruct c as [|ec em b| | |]; try done; intros _; [left; by eapply Hretry|right].
  destruct Ho as (Hst & Ha & _). subst a.
  pose proof (vinv_row d i r (inv_view d Hinv i) Hr) as Hti.
  assert (1 ≤ t_attempt r) as H1 by (apply (ti_started _ _ _ Hti); rewrite Hst; by left).
  destruct (proj2 (ti_attempts _ _ _ Hti (t_attempt r)) ltac:(lia)) as [x Hx].
  unfold completed_db. rewrite finished_attempts, decide_True by done. simpl. rewrite Hx.
  eexists. split; [reflexivity|]. done.
Qed.

Lemma reap_labour k limit t d res d' :
  inv d → reap_batch k limit t d = inr (res, d') → labour nobody d d'.
Proof.
  intros Hinv H. pose proof (step_reap _ _ _ _ _ _ H) as Hs.
  pose proof (keeps (f := registry) _ _ _ _ H) as Hreg.
  destruct (reap_batch_inv _ _ _ _ _ _ (inv_ids d Hinv) (inv_ok d Hinv) H) as (Hfit & _ & _).
  destruct (reap_batch_spec k limit t d (inv_ids d Hinv) (inv_ok d Hinv) Hfit)
    as (res1 & d1 & H1 & _ & _ & _ & Hrows & _).
  rewrite H in H1. injection H1 as <- <-. right. split; [eauto|]. split; [done|].
  split; [intros i; rewrite Hrows; case_decide; [by rewrite fmap_is_Some|done]|].
  split; intros i r r' Hr; rewrite Hrows, Hr; (case_decide; [|intros; simplify_eq; congruence || by left]).
  - intros Hrun [= <-]. rewrite (proj1 (reaped_row_cols k t r)). unfold lost_state.
    destruct (Z.ltb_spec (t_attempt r) (t_max_attempts r)); [by left|done].
  - intros [= <-]. rewrite (proj1 (reaped_row_cols k t r)). unfold lost_state. by destruct (_ <? _).
Qed.

Lemma grant_labour w limit ttl caps ids t d rows d' :
  inv d → chosen t d limit caps ids → grant_claimed w ttl ids t d = inr (rows, d') → labour nobody d d'.
Proof.
  intros Hinv Hch H. pose proof (step_grant _ _ _ _ _ _ _ _ _ Hch H) as Hs.
  pose proof (keeps (f := registry) _ _ _ _ H) as Hreg. right. split; [eauto|]. split; [done|].
  apply (chosen_inv t d limit caps) in H as (rs & _ & _ & _ & _ & -> & _); [|by apply inv_ids|done].
  split; [intros i; rewrite claimed_tasks, lookup_update_where; by rewrite fmap_is_Some|].
  split; intros i r r'; rewrite claimed_tasks, lookup_update_where; intros Hr; rewrite Hr; simpl.
  - intros Hrun [= <-]. by destruct (_ : bool); simpl; rewrite ?Hrun.
  - intros [= <-]. destruct (_ : bool); simpl; [done|by left].
Qed.

Lemma note_labour W i ty a w data t d u d' :
  moves ty = None → record_event i ty a w data t d = inr (u, d') → labour W d d'.
Proof.
  intros Hm H. eapply labour_keeps; [exact H|by eapply step_note| |apply _].
  unfold record_event, insert_event. solve_keeps.
Qed.

Lemma keeps_work_tasks {A} (m : M A) : Keeps work m → Keeps tasks m.
Proof. intros H t d a d' E. pose proof (H t d a d' E) as Hw. unfold work in Hw. congruence. Qed.

Lemma labour_transaction {A} W (m : M A) t d res d' :
  (∀ a d1, m t d = inr (a, d1) → labour W d d1) → transaction m t d = (res, d') → labour W d d'.
Proof.
  intros Hm. unfold transaction. destruct (m t d) as [|[a d1]]; intros [= _ <-]; [by left|].
  by eapply Hm.
Qed.

(** The task a coroutine may be about to finish with a result. *)
Definition winning (c : coroutine) (i : uuid) : Prop :=
  ∃ result, co_phase c = Finalising (Succeeded result) ∧ t_id (co_row c) = i.

(** A coroutine retries while the attempts of its task last. *)
Lemma finalize_labour cf c o dec rng rng' t d res d' :
  inv d → co_ok cf d c → co_phase c = Finalising o →
  retry_decision o (t_attempt (co_row c)) (t_max_attempts (co_row c)) rng = (dec, rng') →
  finalize cf c o dec t d = inr (res, d') → labour (winning c) d d'.
Proof.
  intros Hinv Hok Hph Hdec H. eapply completion_labour; [done|exact H| |].
  - intros r ec em b Hc Hr (_ & Ha & _). destruct (ok_pinned _ _ _ Hok) as (r1 & Hr1 & Hsp). simplify_eq.
    unfold finalize_choice in Hc. destruct (co_cancelled c); [done|]. destruct o as [|e]; [done|].
    unfold retry_decision in Hdec.
    pose proof (retry.decide_should_retry (classify e) (t_attempt (co_row c))
      (t_max_attempts (co_row c)) (retry_after_of e) rng) as Hshould.
    destruct (retry.decide _ _ _ _ _) as [dd rng1]. injection Hdec as <- _. simpl in Hshould.
    destruct (retry.should_retry dd); [|done]. apply proj1 in Hshould.
    destruct (Hshould eq_refl) as (_ & Hlt & _). by rewrite Ha, Hsp.
  - intros result Hc. unfold finalize_choice in Hc. destruct (co_cancelled c); [done|].
    destruct o as [x|e]; [by exists x|]. destruct dec as [dd|]; [|done].
    by destruct (retry.should_retry dd).
Qed.

Lemma on_decision_labour W cf row name dec t d u d' :
  on_decision cf row name dec t d = inr (u, d') → labour W d d'.
Proof. unfold on_decision. destruct (allowed dec); intros H; (eapply note_labour; [|exact H]); done. Qed.

Lemma on_executed_labour W cf row tool answer t d u d' :
  on_executed cf row tool answer t d = inr (u, d') → labour W d d'.
Proof. unfold on_executed. intros H. eapply note_labour; [|exact H]. by destruct answer. Qed.

Lemma co_step_labour cf t d s c d' s' c' :
  inv d → co_ok cf d c → co_step cf t (d, s, c) (d', s', c') → labour (winning c) d d'.
Proof.
  intros Hinv Hok. inversion 1; subst; try (by left);
    repeat match goal with
    | H : commits _ _ _ _ _ |- _ => apply commits_run in H
    | H : rolls_back _ _ _ _ |- _ => apply rolled_back in H; by left
    end.
  - by eapply on_decision_labour.
  - by eapply on_decision_labour.
  - eapply labour_keeps; [done|by eapply step_audit|apply keeps_work_tasks, _|apply _].
  - by eapply on_executed_labour.
  - by eapply renew_labour.
  - by eapply finalize_labour.
  - eapply labour_transaction; [|done]. intros a d1 Ha. eapply note_labour; [|exact Ha]. done.
Qed.

Lemma main_step_labour cf t mono ms d w d' w' :
  inv d → main_step cf t mono ms (d, w) (d', w') → labour nobody d d'.
Proof.
  intros Hinv. inversion 1; subst; try (by left);
    repeat match goal with
    | H : commits _ _ _ _ _ |- _ => apply commits_run in H
    | H : rolls_back _ _ _ _ |- _ => apply rolled_back in H; by left
    end.
  - eapply labour_keeps; [done|by eapply step_register|apply keeps_work_tasks, _|apply _].
  - eapply labour_keeps; [done|by eapply step_heartbeat|apply keeps_work_tasks, _|apply _].
  - destruct (claim_and_snapshot_inv cf ms (claim_limit cf w) t d claimed policies d')
      as (ids & Hch & Hg & _); [by apply inv_ids|done|]. by eapply grant_labour.
  - destruct (grant_and_snapshot_inv cf ms (claim_limit cf w) ids t d claimed policies d')
      as (ids' & Hch & Hg & _); [done|done|]. by eapply grant_labour.
  - eapply labour_transaction; [|done]. intros a d1 Ha.
    eapply labour_keeps; [done|by eapply step_status|apply keeps_work_tasks, _|apply _].
  - eapply labour_transaction; [|done]. intros b d1 Ha.
    by eapply (completion_labour _ (CAbandoned _)); [done|exact Ha| |].
  - eapply labour_transaction; [|done]. intros a d1 Ha.
    eapply labour_keeps; [done|by eapply step_status|apply keeps_work_tasks, _|apply _].
Qed.

(** ** The processes meet each other's assumptions *)

Lemma labour_steps W d d' : labour W d d' → steps d d'.
Proof. intros [->|[[t Hs] _]]; [apply steps_refl|]. eapply steps_snoc; [apply steps_refl|done]. Qed.

(** A transaction that found nothing to write, as a refused request. *)
Lemma late_idle h d : late_move h d d.
Proof. apply move_write. apply (write_now _ _ ex_env (PostTenant EmptyString 0 0) (txn_at 0)). Qed.

Lemma labour_runs W d h d' :
  late_run empty_db (d :: h) → labour W d d' → late_run empty_db (d' :: d :: h).
Proof.
  intros Hs Hl. apply late_next; [done|].
  destruct Hl as [->|([t Hst] & Hreg & Hno & _)]; [apply late_idle|by eapply move_work].
Qed.

Lemma sys_run_env cf x d d' w : sys_run cf x (d, w) → steps d d' → sys_run cf x (d', w).
Proof.
  intros Hx Hs. induction Hs as [d|t d d1 d2 _ IH Hst]; [done|].
  eapply run_snoc; [by apply IH|]. by eapply sys_env.
Qed.

Lemma started_env cf d d' w : started_run cf (d, w) → steps d d' → started_run cf (d', w).
Proof. intros (d0 & rng & Hd0 & Hr) Hs. exists d0, rng. split; [done|]. by eapply sys_run_env. Qed.

Lemma started_snoc cf x y : started_run cf x → sys cf x y → started_run cf y.
Proof. intros (d0 & rng & Hd0 & Hr) Hs. exists d0, rng. split; [done|]. by eapply run_snoc. Qed.

Definition all_started (x : db * processes) : Prop :=
  Forall (λ p : worker_config * worker, started_run p.1 (x.1, p.2)) x.2.

Lemma all_started_env d d' ps : steps d d' → all_started (d, ps) → all_started (d', ps).
Proof.
  intros Hs H. eapply Forall_impl; [exact H|]. intros [cf w] Hw. by eapply started_env.
Qed.

(** A process moves: it goes on as it was verified, the others see its
    transaction as one of the system's. *)
Lemma all_started_move d ps n cf w d' w' :
  all_started (d, ps) → ps !! n = Some (cf, w) → sys cf (d, w) (d', w') → steps d d' →
  all_started (d', <[n := (cf, w')]> ps).
Proof.
  intros Hall Hn Hsys Hs. apply Forall_insert; [exact (all_started_env d d' ps Hs Hall)|]. simpl.
  eapply started_snoc; [|done]. by apply (proj1 (Forall_lookup _ _) Hall n (cf, w)).
Qed.

(** What holds of a deployment. *)
Record fleet_ok (x : world) : Prop := {
  fo_run : late_run empty_db (x.1.1 :: x.1.2);
  fo_started : all_started (x.1.1, x.2);
}.

Lemma fleet_ok_history x : fleet_ok x → history (x.1.1 :: x.1.2).
Proof. intros [Hs _]. by eapply late_run_history; [apply steps_refl|]. Qed.

Lemma fleet_ok_reachable x : fleet_ok x → reachable x.1.1.
Proof. intros Hh%fleet_ok_history. by eapply history_head. Qed.

(** The moments of a policy snapshot. *)
Lemma reads_seen ms d h :
  history (d :: h) → reads (d :: h) [sees_versions ms; sees_tools ms; sees_grants ms] → seen_before ms d.
Proof.
  intros Hh Hr. apply reads_three in Hr as ((Hin & _) & ? & ? & ?); [|done].
  split; [by eapply history_in|done..].
Qed.

(** Some worker is about to finish the task with a result. *)
Definition winner (ps : processes) (i : uuid) : Prop :=
  ∃ cf w c, (cf, w) ∈ ps ∧ c ∈ wk_inflight w ∧ winning c i.

(** Each step is a request or labour. *)
Lemma fleet_step_ok rc cfs x y :
  fleet_step rc cfs x y → fleet_ok x →
  fleet_ok y ∧ (labour (winner x.2) x.1.1 y.1.1 ∨ late_write (x.1.1 :: x.1.2) x.1.1 y.1.1).
Proof.
  intros Hst Hok. pose proof (fleet_ok_history x Hok) as Hh. pose proof (fleet_ok_reachable x Hok) as Hd.
  pose proof (inv_reachable _ Hd) as Hinv. destruct Hok as [Hrun Hall].
  destruct Hst as [d h ps cf rng _|d h ps n|t mono ms d h ps n cf w d' w' Hn Hms Hm
    |t d h ps n cf w k c d' s' c' Hn Hk Hc|d h ps d' Hw|d h ps k t res d' H|d h ps t res d' H]; simpl in *.
  - split; [|by left; left]. split; [done|]. apply Forall_app. split; [done|]. constructor; [|done].
    exists d, rng. split; [done|apply run_refl].
  - split; [|by left; left]. split; [done|]. by apply Forall_delete.
  - pose proof (main_step_labour _ _ _ _ _ _ _ _ Hinv Hm) as Hl.
    split; [|left; by eapply labour_mono; [|exact Hl]]. split; [exact (labour_runs _ _ _ _ Hrun Hl)|].
    eapply all_started_move; [done|done|eapply sys_main; [exact (reads_seen _ _ _ Hh Hms)|done]|by eapply labour_steps].
  - pose proof (proj1 (Forall_lookup _ _) Hall n _ Hn) as Hw. simpl in Hw.
    pose proof (wo_cos _ _ (started_ok _ _ Hw)) as Hcos. simpl in Hcos.
    pose proof (proj1 (Forall_lookup _ _) Hcos k _ Hk) as Hco.
    pose proof (co_step_labour _ _ _ _ _ _ _ _ Hinv Hco Hc) as Hl. split.
    + split; [exact (labour_runs _ _ _ _ Hrun Hl)|].
      eapply all_started_move; [done|done|by eapply sys_co|by eapply labour_steps].
    + left. eapply labour_mono; [|exact Hl]. intros i Hi. exists cf, w, c.
      split; [by eapply list_elem_of_lookup_2|]. split; [by eapply list_elem_of_lookup_2|done].
  - split; [|by right]. split; [by apply late_next, move_write|].
    eapply all_started_env; [eapply late_write_steps; [by apply history_now|done]|done].
  - assert (labour nobody d d') as Hl by (eapply labour_transaction; [|done]; intros; by eapply reap_labour).
    split; [|left; by eapply labour_mono; [|exact Hl]]. split; [exact (labour_runs _ _ _ _ Hrun Hl)|].
    eapply all_started_env; [by eapply labour_steps|done].
  - assert (labour nobody d d') as Hl.
    { eapply labour_transaction; [|done]. intros a d1 Ha.
      eapply labour_keeps; [done|by eapply step_sweep|apply keeps_work_tasks, _|apply _]. }
    split; [|left; by eapply labour_mono; [|exact Hl]]. split; [exact (labour_runs _ _ _ _ Hrun Hl)|].
    eapply all_started_env; [by eapply labour_steps|done].
Qed.

Lemma empty_fleet_ok : fleet_ok (empty_db, [], []).
Proof. split; [apply late_start|constructor]. Qed.

Section runs.
Context (rc : reaper_config) (cfs : worker_config → Prop).

Lemma fleet_run_ok x y : fleet_run rc cfs x y → fleet_ok x → fleet_ok y.
Proof using. induction 1 as [|y z _ IH Hs]; [done|]. intros Hx. by apply (fleet_step_ok rc cfs y z); auto. Qed.

Lemma deployed_ok x : deployed rc cfs x → fleet_ok x.
Proof using. intros H. eapply fleet_run_ok; [exact H|apply empty_fleet_ok]. Qed.

(** What requests and labour preserve holds throughout. *)
Lemma fleet_ind (P : db → Prop) x y :
  fleet_ok x → P x.1.1 →
  (∀ W d d', reachable d → P d → labour W d d' → P d') →
  (∀ d h d', history (d :: h) → P d → late_write (d :: h) d d' → P d') →
  fleet_run rc cfs x y → P y.1.1.
Proof using.
  intros Hx H0 Hwork Hreq Hxy. induction Hxy as [|y z Hy IH Hs]; [done|].
  pose proof (fleet_run_ok _ _ Hy Hx) as Hok. pose proof (fleet_ok_reachable _ Hok) as Hd.
  destruct (fleet_step_ok _ _ _ _ Hs Hok) as [_ [Hl|Hw]]; [by eapply Hwork|].
  eapply Hreq; [by apply fleet_ok_history|exact IH|exact Hw].
Qed.

(** Every worker runs a configuration it may be started with. *)
Lemma fleet_step_cfs x y :
  fleet_step rc cfs x y → Forall (λ p : worker_config * worker, cfs p.1) x.2 →
  Forall (λ p : worker_config * worker, cfs p.1) y.2.
Proof using.
  intros Hst Hx. destruct Hst as [d h ps cf rng Hcf|d h ps n|t mono ms d h ps n cf w d' w' Hn _ Hm
    |t d h ps n cf w k c d' s' c' Hn Hk Hc| | |]; simpl in *; try done.
  - apply Forall_app. split; [done|]. by constructor.
  - by apply Forall_delete.
  - apply Forall_insert; [done|]. by apply (Forall_lookup_1 _ _ _ _ Hx Hn).
  - apply Forall_insert; [done|]. by apply (Forall_lookup_1 _ _ _ _ Hx Hn).
Qed.

Lemma deployed_cfs x : deployed rc cfs x → Forall (λ p : worker_config * worker, cfs p.1) x.2.
Proof using. induction 1 as [|y z _ IH Hs]; [constructor|]. by eapply fleet_step_cfs. Qed.

(** C2: the parts fit together. However the processes of a deployment
    interleave, whatever the checks of a request and the SELECTs of a policy
    snapshot saw of earlier moments, and whichever workers start and crash,
    each running worker is a worker as verified next to an arbitrary system,
    and the tables move as a run of the service: API requests, and background
    work that neither registers anything nor creates a task. *)
Theorem fleet_composes d h ps :
  deployed rc cfs (d, h, ps) →
  late_run empty_db (d :: h) ∧ reachable d ∧ ∀ cf w, (cf, w) ∈ ps → started_run cf (d, w).
Proof using.
  intros Hok%deployed_ok. split; [apply (fo_run _ Hok)|]. split; [by apply (fleet_ok_reachable (d, h, ps))|].
  intros cf w Hin. by apply (proj1 (Forall_forall _ _) (fo_started _ Hok) (cf, w)).
Qed.
End runs.

(** ** The retry budget *)

(** Attempts past the budget followed a hand-back. *)
Definition budget (d : db) : Prop :=
  ∀ i (r : task_row) a, tasks d !! i = Some r → t_max_attempts r ≤ a → 1 ≤ a →
    a < t_attempt r ∨ a = t_attempt r ∧ t_state r = State.QUEUED →
    ∃ x, task_attempts d !! (i, a) = Some x ∧ a_outcome x = Some Outcome.ABANDONED.

Lemma budget_labour W d d' : reachable d → budget d → labour W d d' → budget d'.
Proof.
  intros Hd Hb [->|([t Hs] & _ & _ & Hf & _)]; [done|]. intros i r' a Hr' Hmax Hge Hlt.
  pose proof (step_tstep t d d' i (inv_reachable d Hd) Hs) as Ht. destruct Ht as
    [evs Hrow _ _ _ Hatt|r r1 evs Hr Hr1 Htch _ _ Hatt|r1 e Hr Hr1 Hfr _ _ Hatt
    |w r r1 e at_ Hr Hr1 Hst _ _ _ _ _ _ _ _ Hold
    |to o r r1 e evs Hr Hr1 Hl _ _ _ _ _ Hold|r r1 e Hr Hr1 Hst _ _ Hatt]; simplify_eq;
    try rewrite Hatt.
  - rewrite Hrow in Hr'. by eapply Hb.
  - destruct Htch as (Hsp & Hq & Ha & _). rewrite Hsp in Hmax. rewrite Ha, Hq in Hlt. by eapply Hb.
  - destruct Hfr as (_ & _ & Ha & _). lia.
  - destruct Hst as (Hsp & Hq & Hq' & Ha & _). rewrite Hsp in Hmax. rewrite Ha, Hq' in Hlt.
    destruct Hlt as [Hlt|[_ ?]]; [|done]. rewrite Hold by lia. eapply Hb; [done|done|done|].
    destruct (decide (a = t_attempt r)); [by right|left; lia].
  - destruct Hl as (Hsp & Hq & Hq' & _ & Ha & _). rewrite Hsp in Hmax. rewrite Ha, Hq' in Hlt.
    destruct Hlt as [Hlt|[-> Hto]].
    + rewrite Hold by lia. eapply Hb; [done|done|done|by left].
    + destruct (Hf i r r' Hr Hq Hr') as [Hlt|Hx]; [congruence|lia|done].
  - destruct Hst as (Hsp & Hq & Hq' & Ha & _). rewrite Hsp in Hmax. rewrite Ha, Hq' in Hlt.
    destruct Hlt as [Hlt|[_ ?]]; [|done]. eapply Hb; [done|done|done|by left].
Qed.

Lemma budget_write d h d' :
  history (d :: h) → budget d → late_write (d :: h) d d' → budget d'.
Proof.
  intros Hh Hb Hw i r' a Hr' Hmax Hge Hlt. rewrite (late_write_attempts _ _ _ Hw).
  destruct (late_write_tasks _ _ _ Hh Hw) as [Hst|(dc & t & env & b & p & _ & _ & ->)].
  - destruct (Hst _ _ Hr') as (r & Hr & Hsp & Ha & Hq). rewrite Hsp in Hmax. rewrite Ha in Hlt.
    eapply Hb; [done|done|done|]. destruct Hlt as [Hlt|[-> Hqd]]; [by left|right; split; [done|]].
    destruct Hq as [Hq|[_ Hq]]; congruence.
  - simpl in Hr'. apply lookup_insert_Some in Hr' as [[_ <-]|[_ Hr]]; [simpl in Hlt; lia|by eapply Hb].
Qed.

Lemma deployed_budget rc cfs x : deployed rc cfs x → budget x.1.1.
Proof.
  apply (fleet_ind rc cfs budget (empty_db, [], [])); [apply empty_fleet_ok|by intros i r a| |].
  - apply budget_labour.
  - apply budget_write.
Qed.

(** How often the task was handed back. *)
Definition hand_backs (d : db) (i : uuid) (r : task_row) : list Z :=
  filter (λ a, a_outcome <$> task_attempts d !! (i, a) = Some (Some Outcome.ABANDONED))
    (seqZ 1 (t_attempt r)).

(** C3: the retry budget. In a deployment a task starts at most [max_attempts]
    attempts, not counting those a stopping worker handed back: every attempt
    from number [max_attempts] on that was followed by another one was handed
    back, whatever failed, hung, crashed or was lost before. *)
Theorem retry_budget rc cfs d h ps i (r : task_row) :
  deployed rc cfs (d, h, ps) → tasks d !! i = Some r →
  (∀ a, t_max_attempts r ≤ a → a < t_attempt r →
     ∃ x, task_attempts d !! (i, a) = Some x ∧ a_outcome x = Some Outcome.ABANDONED) ∧
  t_attempt r ≤ t_max_attempts r + Z.of_nat (length (hand_backs d i r)).
Proof.
  intros Hx Hr. pose proof (deployed_budget _ _ _ Hx) as Hb. simpl in Hb.
  pose proof (inv_reachable d (fleet_ok_reachable _ (deployed_ok _ _ _ Hx))) as Hinv.
  pose proof (inv_ok d Hinv _ _ Hr) as (([Hm _] & _) & _)%task_ok_spec.
  assert (∀ a, t_max_attempts r ≤ a → a < t_attempt r →
    ∃ x, task_attempts d !! (i, a) = Some x ∧ a_outcome x = Some Outcome.ABANDONED) as Hall.
  { intros a Ha Hlt. eapply Hb; [done|done|lia|by left]. }
  split; [done|].
  assert (seqZ (t_max_attempts r) (t_attempt r - t_max_attempts r) ⊆+ hand_backs d i r) as Hsub.
  { apply NoDup_submseteq; [apply NoDup_seqZ|]. intros a [Ha Hlt]%elem_of_seqZ.
    apply list_elem_of_filter. split; [|apply elem_of_seqZ; lia].
    destruct (Hall a) as (x & -> & Ho); [lia|lia|]. simpl. by rewrite Ho. }
  apply submseteq_length in Hsub. rewrite length_seqZ in Hsub. lia.
Qed.

(** ** A deployment

    A task with a single attempt: "w9" claims it, is asked to stop, and hands
    it back; "w1" claims it for a second attempt. *)

Definition fx_task : TaskCreate := MkTaskCreate 1 (Some "demo.tools") None ∅ None 100 1 300 None.
Definition fx_reaper : reaper_config := default_reaper default_settings.
Definition no_answer : py_exc + jdict := inr ∅.
Definition no_exc : py_exc := UnknownTaskType EmptyString.

(** A new worker's way to its first claim. *)
Definition up (n : nat) (s : Z) : list command :=
  [Main n (txn_at s) 0; Main n (txn_at (s + 1)) 0; Main n (txn_at (s + 2)) 0; Main n (txn_at (s + 3)) 0].

Definition fx_commands : list command :=
  [Request ex_env (PostTenant "acme" 2 10) (txn_new 1 1); Request ex_env (PostTask fx_task) (txn_new 9 40);
   Start wx_config wx_rng] ++ up 0 11
  ++ [Co 0 0 (txn_at 15) no_answer no_exc]                        (* the adapter starts *)
  ++ [Signal 0; Main 0 (txn_at 15) 0; Main 0 (txn_at 15) 0; Main 0 (txn_at 16) 0]   (* the drain *)
  ++ [Beat 0 0 (txn_at 16); Co 0 0 (txn_at 16) no_answer no_exc]   (* the attempt unwinds *)
  ++ [Main 0 (txn_at 17) 0; Main 0 (txn_at 17) 0; Start wz_config wx_rng] ++ up 1 18.

Definition fx_end : world :=
  default (empty_db, [], []) (exec_all fx_reaper fx_commands (empty_db, [], [])).

Lemma exec_default rc l x y :
  (match exec_all rc l x with Some _ => true | None => false end) = true →
  exec_all rc l x = Some (default y (exec_all rc l x)).
Proof. by destruct (exec_all rc l x). Qed.

Lemma world_eta (x : world) : x = (x.1.1, x.1.2, x.2).
Proof. by destruct x as [[]]. Qed.

Lemma fx_deployed : deployed fx_reaper (λ _, True) (fx_end.1.1, fx_end.1.2, fx_end.2).
Proof.
  rewrite <-world_eta. apply (exec_all_sound _ _ fx_commands); [by repeat constructor|].
  apply exec_default. vm_compute. reflexivity.
Qed.

Lemma fleet_composes_witness :
  late_run empty_db (fx_end.1.1 :: fx_end.1.2) ∧ length fx_end.2 = 2%nat ∧
  Forall (λ p : worker_config * worker, started_run p.1 (fx_end.1.1, p.2)) fx_end.2.
Proof.
  destruct (fleet_composes fx_reaper (λ _, True) fx_end.1.1 fx_end.1.2 fx_end.2 fx_deployed) as (Hs & _ & Hw).
  split; [exact Hs|]. split; [vm_compute; reflexivity|].
  apply Forall_forall. intros [cf w] Hin. exact (Hw cf w Hin).
Defined.

(** The bound is met: a second attempt of a task that may have one. *)
Lemma retry_budget_witness :
  ∃ r : task_row, tasks fx_end.1.1 !! 40%N = Some r ∧ t_attempt r = 2 ∧ t_max_attempts r = 1 ∧
    (∃ x, task_attempts fx_end.1.1 !! (40%N, 1) = Some x ∧ a_outcome x = Some Outcome.ABANDONED) ∧
    2 ≤ 1 + Z.of_nat (length (hand_backs fx_end.1.1 40 r)).
Proof.
  assert (∃ r : task_row, tasks fx_end.1.1 !! 40%N = Some r ∧ t_attempt r = 2 ∧ t_max_attempts r = 1)
    as (r & Hr & Ha & Hm) by (eexists; split; [vm_compute; reflexivity|split; reflexivity]).
  exists r. split; [exact Hr|]. split; [exact Ha|]. split; [exact Hm|].
  destruct (retry_budget fx_reaper (λ _, True) fx_end.1.1 fx_end.1.2 fx_end.2 40%N r fx_deployed Hr) as [H1 H2].
  rewrite Ha, Hm in H1, H2. split; [|exact H2]. apply (H1 1); [discriminate|reflexivity].
Defined.
