(* ===== verification/Governed.v ===== *)
(** * What governance promises, from the registry to the outcome

    A version that never holds a grant for a tool does not get work done with
    it: [refused_tool_never_succeeds] follows the tasks pinned to it through a
    whole deployment, from submission to whatever becomes of them.  The run at
    the end is scripts/demo_governance.py. *)

From S2P Require Import Prelude PyStr Json States Errors Retry Policy Capability Authz Db Config.
From S2P Require Import Adapters Samples Transitions Completion Lease Workers Claim Reap Tasks.
From S2P Require Import Agents Tools Tracing Worker Frames Registry Effects Protocol Scenario ReaperLoop WorkerRun.
From ITree Require Import ITree.
From S2P Require Import Guarantees Governance Api ApiRun ApiSubmit ApiGuarantees Isolation StaleChecks.
From S2P Require Import WorkerProps WorkerGuarantees Exec Fleet.
#[local] Open Scope Z_scope.

(** ** Adapters that depend on a tool *)

Section doomed.
Context (name : text).

(** What the worker may answer when it refuses every call of [name]. *)
Definition may_answer {A} (e : AdapterE A) : A → Prop :=
  match e in AdapterE T return T → Prop with
  | IsCancelled => λ _, True
  | CallTool n _ => λ answer, n = name → ∃ exc, answer = inl exc
  end.

(** Under such answers the run ends with an exception, or asks forever. *)
Inductive doomed (run : adapter_run) : Prop :=
  | doomed_raises exc : observe run = RetF (inl exc) → doomed run
  | doomed_tau run' : observe run = TauF run' → doomed run' → doomed run
  | doomed_asks A (e : AdapterE A) k :
      observe run = VisF e k → (∀ x, may_answer e x → doomed (k x)) → doomed run.

Lemma doomed_node run :
  doomed run →
  match observe run with
  | RetF (inl _) => True
  | RetF (inr _) => False
  | TauF run' => doomed run'
  | VisF e k => ∀ x, may_answer e x → doomed (k x)
  end.
Proof. by destruct 1 as [exc ->|run' -> ?|A e k -> ?]. Qed.

(** [ToolCallingAdapter] is, whenever [name] is among the tools it is asked
    to call. *)
Lemma call_each_doomed names request results :
  name ∈ names → doomed (call_each names request results).
Proof.
  revert results. induction names as [|n names IH]; intros results; [by intros []%elem_of_nil|].
  intros Hin. eapply doomed_asks; [reflexivity|]. intros [exc|result] Ha; [by eapply doomed_raises|].
  apply elem_of_cons in Hin as [<-|Hin]; [|by apply IH]. by destruct (Ha eq_refl).
Qed.

(** A failed outcome. *)
Definition failed (o : exec_outcome) : Prop := ∃ exc, o = Failed exc.

(** ** Coroutines of such a task *)

Definition on_course (c : coroutine) : Prop :=
  match co_phase c with
  | Executing run => doomed run
  | Deciding n _ k | Auditing n k => ∀ x, (n = name → ∃ exc, x = inl exc) → doomed (k x)
  | Invoking _ _ k | Reporting _ _ k => ∀ x, doomed (k x)
  | Joining o | Finalising o | Rejected o _ => failed o
  | _ => True
  end.

Record governed (spec : task_spec) (c : coroutine) : Prop := {
  gv_spec : t_spec (co_row c) = spec;
  gv_denied : allowed (authorize (co_policy c) name) = false;
  gv_course : on_course c;
}.

(** The worker's registry resolves the task's type to an adapter that depends
    on the tool. *)
Definition depends_on (r0 : task_row) (cf : worker_config) : Prop :=
  ∀ adapter, get_adapter (cf_registry cf) (t_task_type r0) = inr adapter →
    doomed (adapter (without_trace (t_payload r0))).

Lemma on_course_step cf r0 t d s c d' s' c' :
  depends_on r0 cf → governed (t_spec r0) c → co_step cf t (d, s, c) (d', s', c') → on_course c'.
Proof.
  intros Hcf [Hsp Hden Hc] Hst. unfold on_course in Hc |- *.
  inversion Hst; subst; simpl;
    repeat match goal with H : co_phase _ = _ |- _ => rewrite H in Hc end; try done.
  - unfold start_attempt, depends_on in *. rewrite Hsp.
    destruct (get_adapter _ _) as [exc|adapter]; simpl; [by eexists|by apply Hcf].
  - pose proof (doomed_node _ Hc) as Hn. by match goal with H : observe _ = _ |- _ => rewrite H in Hn end.
  - pose proof (doomed_node _ Hc) as Hn. match goal with H : observe _ = _ |- _ => rewrite H in Hn end.
    by apply Hn.
  - pose proof (doomed_node _ Hc) as Hn. match goal with H : observe _ = _ |- _ => rewrite H in Hn end.
    exact Hn.
  - pose proof (doomed_node _ Hc) as Hn. match goal with H : observe _ = _ |- _ => rewrite H in Hn end.
    destruct x; [by eexists|done].
  - intros x. apply Hc. intros ->. unfold dec in *. congruence.
  - apply Hc. eauto.
  - apply Hc. eauto.
  - apply Hc. eauto.
  - unfold after_renewal. by destruct res.
  - unfold after, after_finalize. by destruct (applied res).
  - by match goal with H : co_phase c = _ |- _ => rewrite H end.
Qed.

(** A worker's main loop adds coroutines of its claims, and cancels. *)
Lemma cancel_governed spec c s : governed spec c → governed spec (cancel_coroutine c s).1.
Proof.
  intros [Hsp Hden Hc]. unfold cancel_coroutine, on_course in *.
  destruct (co_phase c) eqn:E; split; try done; unfold on_course; simpl; by rewrite E.
Qed.
End doomed.

Lemma cancel_all_in cs s cs' s' c' :
  cancel_all cs s = (cs', s') → c' ∈ cs' → ∃ c s0, c ∈ cs ∧ c' = (cancel_coroutine c s0).1.
Proof.
  revert s cs' s'. induction cs as [|c cs IH]; intros s cs' s'; simpl.
  { intros [= <- _] []%elem_of_nil. }
  destruct (cancel_coroutine c s) as [c1 s1] eqn:E1. destruct (cancel_all cs s1) as [cs2 s2] eqn:E2.
  intros [= <- _] [->|Hin]%elem_of_cons.
  - exists c, s. split; [by left|]. by rewrite E1.
  - destruct (IH _ _ _ E2 Hin) as (c2 & s0 & Hc2 & ->). exists c2, s0. split; [by right|done].
Qed.

Lemma main_step_coroutines cf t mono ms d w d' w' c' :
  inv d → main_step cf t mono ms (d, w) (d', w') → c' ∈ wk_inflight w' →
  c' ∈ wk_inflight w ∨ (∃ c s, c ∈ wk_inflight w ∧ c' = (cancel_coroutine c s).1) ∨
  ∃ limit claimed policies row,
    claims cf ms limit t d claimed policies d' ∧ row ∈ claimed ∧ c' = new_coroutine policies row.
Proof.
  intros Hinv. inversion 1; subst; simpl; try (by left).
  - destruct alive; by left.
  - intros [_ ?]%list_elem_of_filter. by left.
  - intros [_ [?|(row & -> & Hrow)%list_elem_of_fmap]%elem_of_app]%list_elem_of_filter; [by left|right; right].
    match goal with H : commits _ _ _ _ _ |- _ => apply commits_run in H end.
    exists (claim_limit cf w), claimed, policies, row. split; [|done].
    apply claim_and_snapshot_inv; [by apply inv_ids|done].
  - intros [_ [?|(row & -> & Hrow)%list_elem_of_fmap]%elem_of_app]%list_elem_of_filter; [by left|right; right].
    match goal with H : commits _ _ _ _ _ |- _ => apply commits_run in H end.
    exists (claim_limit cf w), claimed, policies, row. split; [|done]. by eapply grant_and_snapshot_inv.
  - unfold cancel_inflight. destruct (cancel_all _ _) as [cs s] eqn:E. simpl. intros Hin. right. left.
    by eapply cancel_all_in.
  - unfold cancel_inflight. destruct (cancel_all _ _) as [cs s] eqn:E. simpl. intros Hin. right. left.
    by eapply cancel_all_in.
Qed.


(** ** From the grants to the policy *)

(** In none of these tables does the version hold a grant for a tool of this
    name. *)
Definition never_granted (name : text) (v : uuid) (h : list db) : Prop :=
  ∀ x, x ∈ h → ∀ j tool, tools x !! j = Some tool → tl_name tool = name → version_grant x v j = None.

Lemma never_granted_tail name v d h : never_granted name v (d :: h) → never_granted name v h.
Proof. intros H x Hx. apply H. by right. Qed.

Section deployment.
Context (rc : reaper_config) (cfs : worker_config → Prop) (name : text) (v : uuid).
Context (i : uuid) (r0 : task_row).
Hypothesis Hcfs : ∀ cf, cfs cf → depends_on name r0 cf.
Hypothesis Hpin : t_agent_version_id r0 = Some v.

(** No policy snapshot of the version allows the tool. *)
Lemma snapshot_denies ms d h ver te :
  history (d :: h) → reads (d :: h) [sees_versions ms; sees_tools ms; sees_grants ms] →
  never_granted name v (d :: h) → v_id ver = v →
  allowed (authorize (policy_of ms ver te) name) = false.
Proof using.
  intros Hh Hr Hno Hid. apply reads_three in Hr as ((_ & Ht & Hg) & _ & Htg & _); [|done].
  pose proof (reachable_registry_ok _ (history_in _ _ Hh Ht)) as Hok.
  pose proof (reachable_registry_ok _ (history_in _ _ Hh Hg)) as Hgok.
  apply not_true_is_false. rewrite authorize_allowed. intros (_ & _ & ref & Href & _ & Hgr).
  simpl in Href, Hgr. apply tools_by_tenant_lookup in Href as (j & tool & Hj & _ & Hn & ->); [|apply Hok].
  apply granted_spec in Hgr; [|apply Hgok]. simpl in Hgr.
  rewrite (tk_ids _ (rg_tools _ Hok) _ _ Hj), Hid in Hgr.
  destruct (ev_tools _ _ (steps_evolves _ _ Htg) _ _ Hj) as [s Hj'].
  pose proof (Hno _ Hg j _ Hj' Hn) as Hnone. unfold version_grant in Hnone. rewrite Hnone in Hgr.
  by destruct Hgr.
Qed.

(** The task has not succeeded; its coroutines are on course. *)
Definition under_control (x : world) : Prop :=
  (∀ r : task_row, tasks x.1.1 !! i = Some r → t_spec r = t_spec r0 → t_state r ≠ State.SUCCEEDED) ∧
  ∀ cf w c, (cf, w) ∈ x.2 → c ∈ wk_inflight w → t_id (co_row c) = i →
    t_spec (co_row c) = t_spec r0 → governed name (t_spec r0) c.

Lemma new_coroutine_governed cf ms limit t d h claimed policies d' (row : task_row) :
  history (d :: h) → reads (d :: h) [sees_versions ms; sees_tools ms; sees_grants ms] →
  never_granted name v (d :: h) → claims cf ms limit t d claimed policies d' →
  t_spec row = t_spec r0 → governed name (t_spec r0) (new_coroutine policies row).
Proof using Hpin.
  intros Hh Hr Hno (ids & _ & _ & ->) Hsp. split; [done| |done]. simpl.
  unfold policy_for. rewrite Hsp, Hpin. destruct (snapshot_policies _ _ !! v) as [pol|] eqn:Hpol; [|done].
  simpl. apply snapshot_inv in Hpol as (ver & te & _ & Hid & ->); [by eapply snapshot_denies|].
  apply reachable_versions_keyed. pose proof Hr as Hr'.
  apply reads_three in Hr' as ((Hin & _) & _); [|done]. by eapply history_in.
Qed.

(** The other requests and transactions leave the task alone or stop it. *)
Lemma control_step x y :
  fleet_ok x → fleet_step rc cfs x y → under_control x →
  ∀ r : task_row, tasks y.1.1 !! i = Some r → t_spec r = t_spec r0 → t_state r ≠ State.SUCCEEDED.
Proof using.
  intros Hok Hst [Hrow Hps] r' Hr' Hsp' Hsucc. pose proof (fleet_ok_reachable _ Hok) as Hd.
  destruct (fleet_step_ok _ _ _ _ Hst Hok) as [_ [Hl|Hw]].
  - pose proof (labour_steps _ _ _ Hl) as Hs.
    destruct Hl as [Heq|(_ & _ & Hno & _ & Hsu)]; [rewrite Heq in Hr'; by eapply Hrow|].
    destruct (steps_no_new_spec _ _ i r' (inv_reachable _ Hd) Hs Hno Hr') as (r & Hr & Hsp).
    assert (t_spec r = t_spec r0) as Hsp0 by congruence.
    destruct (Hsu i r r' Hr Hr' Hsucc) as [?|(cf & w & c & Hin & Hc & result & Hph & Hid)];
      [by eapply Hrow|].
    pose proof (proj1 (Forall_forall _ _) (fo_started _ Hok) (cf, w) Hin) as Hwk.
    pose proof (proj1 (Forall_forall _ _) (wo_cos _ _ (started_ok _ _ Hwk)) c Hc) as Hco.
    destruct (ok_pinned _ _ _ Hco) as (r1 & Hr1 & Hsp1). simpl in Hr1. rewrite Hid, Hr in Hr1.
    injection Hr1 as <-.
    pose proof (gv_course _ _ _ (Hps cf w c Hin Hc Hid ltac:(congruence))) as Hcourse.
    unfold on_course in Hcourse. rewrite Hph in Hcourse. by destruct Hcourse.
  - destruct (late_write_tasks _ _ _ (fleet_ok_history _ Hok) Hw)
      as [Hstop|(dc & t & env & b & p & _ & _ & Heq)].
    + destruct (Hstop _ _ Hr') as (r1 & Hr1 & Hsp & _ & Hst'). apply (Hrow r1 Hr1); [congruence|].
      destruct Hst' as [Hst'|[_ Hst']]; congruence.
    + rewrite Heq in Hr'. simpl in Hr'. apply lookup_insert_Some in Hr' as [[_ <-]|[_ Hr1]]; [done|].
      by apply (Hrow r').
Qed.

(** Every worker keeps to it. *)
Lemma control_workers x y :
  fleet_ok x → Forall (λ p : worker_config * worker, cfs p.1) x.2 → fleet_step rc cfs x y →
  never_granted name v (x.1.1 :: x.1.2) → under_control x →
  ∀ cf w c, (cf, w) ∈ y.2 → c ∈ wk_inflight w → t_id (co_row c) = i →
    t_spec (co_row c) = t_spec r0 → governed name (t_spec r0) c.
Proof using Hcfs Hpin.
  intros Hok Hall Hst Hno [_ Hps] cf w c Hin Hc Hid Hsp.
  pose proof (fleet_ok_history _ Hok) as Hh. pose proof (inv_reachable _ (fleet_ok_reachable _ Hok)) as Hinv.
  destruct Hst as [d h ps cf1 rng Hcf1|d h ps n|t mono ms d h ps n cf1 w1 d' w' Hn Hms Hm
    |t d h ps n cf1 w1 k c1 d' s' c' Hn Hk Hco|d h ps d' Hw|d h ps k t res d' H|d h ps t res d' H];
    simpl in *; try by eapply Hps.
  - apply elem_of_app in Hin as [Hin|[= -> ->]%list_elem_of_singleton]; [by eapply Hps|].
    by apply elem_of_nil in Hc.
  - apply list_elem_of_lookup in Hin as [m Hm].
    assert (delete n ps ⊆+ ps) as Hsub by (apply sublist_submseteq, sublist_delete).
    eapply Hps; [|exact Hc|done|done]. eapply elem_of_submseteq; [|done]. by eapply list_elem_of_lookup_2.
  - apply list_elem_of_lookup in Hin as [m Hin].
    apply list_lookup_insert_Some in Hin as [(-> & [= -> ->] & _)|[_ Hin]];
      [|eapply Hps; [by eapply list_elem_of_lookup_2|done..]].
    assert ((cf, w1) ∈ ps) as Hw1 by (by eapply list_elem_of_lookup_2).
    destruct (main_step_coroutines _ _ _ _ _ _ _ _ _ Hinv Hm Hc)
      as [?|[(c1 & s1 & Hc1 & ->)|(limit & claimed & policies & row & Hcl & Hrow & ->)]]; [by eapply Hps| |].
    + destruct (cancel_coroutine c1 s1) as [c2 s2] eqn:E.
      pose proof (proj1 (cancel_coroutine_same _ _ _ _ E)) as Hsame.
      pose proof (cancel_governed name (t_spec r0) c1 s1) as Hg. rewrite E in Hg. simpl in Hid, Hsp.
      apply Hg. apply (Hps cf w1 c1 Hw1 Hc1); congruence.
    + exact (new_coroutine_governed _ _ _ _ _ _ _ _ _ _ Hh Hms Hno Hcl Hsp).
  - apply list_elem_of_lookup in Hin as [m Hin].
    apply list_lookup_insert_Some in Hin as [(-> & [= <- <-] & _)|[_ Hin]];
      [|eapply Hps; [by eapply list_elem_of_lookup_2|done..]].
    assert ((cf1, w1) ∈ ps) as Hw1 by (by eapply list_elem_of_lookup_2).
    apply list_elem_of_lookup in Hc as [q Hq]. simpl in Hq.
    apply list_lookup_insert_Some in Hq as [(-> & <- & _)|[_ Hq]];
      [|eapply Hps; [exact Hw1|by eapply list_elem_of_lookup_2|done..]].
    destruct (co_step_same _ _ _ _ _ _ _ _ Hco) as [Hrow Hpol]. rewrite Hrow in Hid, Hsp.
    pose proof (Hps cf1 w1 c1 Hw1 (list_elem_of_lookup_2 _ _ _ Hk) Hid Hsp) as Hg.
    rewrite Forall_forall in Hall. pose proof (Hcfs _ (Hall _ Hw1)) as Hdep. simpl in Hdep.
    split; [rewrite Hrow; apply Hg|rewrite Hpol; apply Hg|by eapply on_course_step].
Qed.

Lemma fleet_step_earlier x y :
  fleet_step rc cfs x y → ∀ d, d ∈ x.1.1 :: x.1.2 → d ∈ y.1.1 :: y.1.2.
Proof using. destruct 1; simpl; intros e He; try done; by right. Qed.

Lemma deployed_control x :
  deployed rc cfs x → never_granted name v (x.1.1 :: x.1.2) → under_control x.
Proof using Hcfs Hpin.
  induction 1 as [|x y Hx IH Hst]; intros Hno.
  { split; [done|]. by intros cf w c []%elem_of_nil. }
  assert (never_granted name v (x.1.1 :: x.1.2)) as Hno'.
  { intros d Hd. apply Hno. by eapply fleet_step_earlier. }
  specialize (IH Hno'). pose proof (deployed_ok _ _ _ Hx) as Hok. pose proof (deployed_cfs _ _ _ Hx) as Hall.
  split; [by apply (control_step x)|by apply (control_workers x)].
Qed.
End deployment.

(** C4: governance, end to end. Take a deployment in which a version never
    holds a grant for a tool called [name], at any moment; its API requests
    may check what is out of date, its policy snapshots may read at several
    moments, its workers start, crash and retry. No task pinned to that
    version, of a type that every worker runs with an adapter that cannot do
    without the tool, has ever succeeded. *)
Theorem refused_tool_never_succeeds rc cfs name v d h ps i (r : task_row) :
  deployed rc cfs (d, h, ps) → never_granted name v (d :: h) →
  tasks d !! i = Some r → t_agent_version_id r = Some v →
  (∀ cf, cfs cf → depends_on name r cf) →
  t_state r ≠ State.SUCCEEDED.
Proof.
  intros Hdep Hno Hr Hpin Hcfs.
  by apply (proj1 (deployed_control rc cfs name v i r Hcfs Hpin (d, h, ps) Hdep Hno) r Hr).
Qed.

(** ** The demonstration (scripts/demo_governance.py)

    The script registers two agents with different grants, submits a task for
    each and checks what becomes of them: the authorized call succeeds, the
    unauthorized one is refused, on the task's timeline and in the audit log.
    Here it runs against the model, next to one worker. *)

Section script.
(** The ids its responses carry. *)
Context (tenant web_search billing_db customer_db research_agent research_v1 support_agent support_v1 : uuid).

Definition register_tools : list request :=
  [PostTool tenant "web-search" ToolType.SIMULATED ∅ None;
   PostTool tenant "billing-db" ToolType.SIMULATED ∅ None;
   PostTool tenant "customer-db" ToolType.SIMULATED ∅ None].

(** An agent with one version, which may use one tool, released and routed. *)
Definition register_agent (name request_type : text) (agent version tool : uuid) : list request :=
  [PostAgent tenant name None;
   PostVersion agent {[ "task_type" := JStr "demo.tools" ]} [] ∅ 3 300;
   PostGrant version tool; Activate agent version None false; PutRoute tenant request_type agent].

Definition main_setup : list request :=
  PostTenant "gov-demo" 10 1000 :: register_tools
  ++ register_agent "research-agent" "RESEARCH_REPORT" research_agent research_v1 web_search
  ++ register_agent "support-agent" "SUPPORT_TICKET" support_agent support_v1 customer_db.

Definition demo_task (request_type tool : text) : TaskCreate :=
  MkTaskCreate tenant None (Some request_type) {[ "tools" := JArr [JStr tool] ]} None 100 3 300 None.

Definition task_a : TaskCreate := demo_task "RESEARCH_REPORT" "web-search".
Definition task_b : TaskCreate := demo_task "SUPPORT_TICKET" "billing-db".

(** What a request at [t] is answered with. *)
Definition answer_of {A} (m : M (Z * A)) (t : txn) (d : db) : option A :=
  match m t d with inr ((_, a), _) => Some a | inl _ => None end.

(** The script's assertions, on what it reads at [t]. *)
Definition denied_events (t : txn) (d : db) (i : uuid) : list event_row :=
  filter (λ e, ev_type e = EventType.TOOL_ACCESS_DENIED) (default [] (answer_of (get_events i) t d)).

Definition denial_records (t : txn) (d : db) : list audit_row :=
  filter (λ e, au_action e = "TOOL_ACCESS_DENIED")
    (default [] (answer_of (show_audit tenant None None 100) t d)).

Definition main_asserts (t : txn) (d : db) (a b : uuid) : bool :=
  match answer_of (show_task a) t d, answer_of (show_task b) t d with
  | Some result_a, Some result_b =>
      bool_decide (t_state result_a = State.SUCCEEDED) && bool_decide (t_state result_b = State.FAILED)
      && bool_decide (t_error_class result_b = Some "PERMISSION_DENIED")
      && negb (bool_decide (denied_events t d b = [])) && negb (bool_decide (denial_records t d = []))
  | _, _ => false
  end.
End script.

(** The worker has the registry of worker/__main__.py; the adapters left open
    there just return. *)
Definition demo_registry : AdapterRegistry := build_registry EchoAdapter EchoAdapter.

Definition demo_config : worker_config :=
  MkWorkerConfig default_settings demo_registry 2 DEFAULT_POLICY "w1" "host" 7 [] w3c_valid.

Definition demo_setup : list request := main_setup 1 31 33 20 21 22 23.

(** Each request in a transaction of its own; the ids the server gives. *)
Definition demo_ids : list uuid := [1; 31; 32; 33; 20; 21; 98; 97; 96; 22; 23; 95; 94; 93]%N.
Definition requests (l : list request) (ids : list uuid) (s : Z) : list command :=
  imap (λ k p, Request ex_env p.1 (txn_new (s + Z.of_nat k) p.2)) (zip l ids).

Definition coroutine_steps (n : nat) (s : Z) : list command :=
  (λ k, Co 0 0 (txn_at (s + Z.of_nat k)) (inr {[ "found" := JNum 1 ]}) no_exc) <$> seq 0 n.

Definition demo_commands : list command :=
  requests demo_setup demo_ids 1
  ++ [Request ex_env (PostTask (task_a 1)) (txn_new 20 51); Start demo_config wx_rng;
      Main 0 (txn_at 21) 0; Main 0 (txn_at 22) 0; Main 0 (txn_at 23) 0]
  ++ coroutine_steps 6 24 ++ [Beat 0 0 (txn_at 30)] ++ coroutine_steps 2 31
  ++ [Request ex_env (PostTask (task_b 1)) (txn_new 33 52);
      Main 0 (txn_at 34) 1; Main 0 (txn_at 34) 1; Main 0 (txn_at 35) 1]
  ++ coroutine_steps 5 36 ++ [Beat 0 0 (txn_at 41)] ++ coroutine_steps 2 42.

Definition demo_end : world := default (empty_db, [], []) (exec_all fx_reaper demo_commands (empty_db, [], [])).

Lemma requests_start_ok cfs l ids s : Forall (starts_ok cfs) (requests l ids s).
Proof. apply Forall_forall. by intros c (k & p & -> & _)%elem_of_lookup_imap. Qed.

Lemma coroutine_steps_ok cfs n s : Forall (starts_ok cfs) (coroutine_steps n s).
Proof. by apply Forall_fmap, Forall_forall. Qed.

(** Task B, in the end. *)
Definition demo_row : task_row := default (ex_queued 0 0) (tasks demo_end.1.1 !! 52%N).

Lemma demo_depends : depends_on "billing-db" demo_row demo_config.
Proof.
  assert (t_task_type demo_row = "demo.tools") as Hty by (vm_compute; reflexivity).
  assert (without_trace (t_payload demo_row) !! "tools" = Some (JArr [JStr "billing-db"])) as Hn
    by (vm_compute; reflexivity).
  assert (get_adapter (cf_registry demo_config) "demo.tools" = inr (ToolCallingAdapter EchoAdapter)) as Hreg
    by reflexivity.
  unfold depends_on. rewrite Hty, Hreg. intros adapter <-%(inj inr). unfold ToolCallingAdapter.
  rewrite Hn. apply call_each_doomed. by left.
Qed.

Lemma demo_deployed :
  deployed fx_reaper (depends_on "billing-db" demo_row) (demo_end.1.1, demo_end.1.2, demo_end.2).
Proof.
  rewrite <-world_eta. apply (exec_all_sound _ _ demo_commands).
  - unfold demo_commands. repeat (apply Forall_app; split);
      try apply requests_start_ok; try apply coroutine_steps_ok; repeat constructor. apply demo_depends.
  - apply exec_default. vm_compute. reflexivity.
Qed.

(** The script's assertions hold at the end of this run. *)
Example demo_passes : main_asserts 1 (txn_at 50) demo_end.1.1 51 52 = true.
Proof. vm_compute. reflexivity. Qed.

(** At every moment of it the version lacks the grant. *)
Definition lacks_grant (name : text) (v : uuid) (x : db) : bool :=
  bool_decide (map_Forall (λ j tool, tl_name tool = name → version_grant x v j = None) (tools x)).

Lemma lacks_grant_history name v h : forallb (lacks_grant name v) h = true → never_granted name v h.
Proof.
  rewrite forallb_forall. intros H x Hx. apply list_elem_of_In, H, bool_decide_eq_true in Hx. exact Hx.
Qed.

(** Task B fails in this run, and could not but fail. *)
Lemma refused_tool_never_succeeds_witness :
  tasks demo_end.1.1 !! 52%N = Some demo_row ∧ t_agent_version_id demo_row = Some 23%N ∧
  t_state demo_row ≠ State.SUCCEEDED.
Proof.
  assert (tasks demo_end.1.1 !! 52%N = Some demo_row) as Hr by (vm_compute; reflexivity).
  assert (t_agent_version_id demo_row = Some 23%N) as Hpin by (vm_compute; reflexivity).
  split; [exact Hr|]. split; [exact Hpin|].
  refine (refused_tool_never_succeeds fx_reaper (depends_on "billing-db" demo_row) "billing-db" 23%N
    demo_end.1.1 demo_end.1.2 demo_end.2 52%N demo_row demo_deployed _ Hr Hpin _).
  - apply lacks_grant_history. vm_compute. reflexivity.
  - intros cf Hcf. exact Hcf.
Defined.
