(* ===== verification/Clients.v ===== *)
(** * The demonstration and benchmark clients (scripts/demo_chaos.py, load/bench_recovery.py)

    What the clients send and what they conclude from the answers; their
    waiting, their calls of docker and the reading of Prometheus are left out.
    The third client, scripts/demo_governance.py, is run in Governed.v.

    Every task the chaos demonstration submits is one the API accepts and a
    worker has an adapter for ([submissions_served]); that the recovery
    benchmark stops its clock means that the lost attempt is over
    ([reclaimed_is_final]).  The chaos demonstration's own verdict checks less
    than it says: [verdict_ignores_states]. *)

From S2P Require Import Prelude PyStr Json States Errors Retry Policy Capability Authz Db Config.
From S2P Require Import Adapters Samples Transitions Completion Lease Workers Claim Reap Tasks.
From S2P Require Import Agents Tools Tracing Worker Frames Registry Effects Protocol.
From S2P Require Import Guarantees Api.
#[local] Open Scope Z_scope.

(** ** What the chaos demonstration submits *)

Definition SLOW_TASK_COUNT : nat := 150.
Definition FAST_TASK_COUNT : nat := 150.
Definition INJECTED_FAILURE_RATE : Q := 5 # 100.
Definition SLOW_DURATION_S : json := JArr [JNum 2; JNum 5].
Definition total : nat := SLOW_TASK_COUNT + FAST_TASK_COUNT.

(** [int(q)]. *)
Definition truncate (q : Q) : Z := Z.quot (Qnum q) (Zpos (Qden q)).

(** The type and the payload of task number [i]. *)
Definition work (i : nat) : text * jdict :=
  let n := JNum (Z.of_nat i) in
  if (i <? SLOW_TASK_COUNT)%nat then
    if Z.of_nat i mod truncate (1 / INJECTED_FAILURE_RATE) =? 0 then ("demo.fail", {[ "i" := n ]})
    else ("demo.slow", {[ "duration_s" := SLOW_DURATION_S; "i" := n ]})
  else ("demo.agent", {[ "i" := n ]}).

(** Its submission, with the defaults of the request model; the tenants take
    turns. *)
Definition submission (tenant_ids : list uuid) (i : nat) : option TaskCreate :=
  tenant_id ← tenant_ids !! (i mod length tenant_ids)%nat;
  Some (MkTaskCreate tenant_id (Some (work i).1) None (work i).2 None 100 3 300 None).

Definition served (slow other : Adapter) (b : TaskCreate) : bool :=
  match tc_task_type b with
  | Some ty => bool_decide (ty ∈ known_types (build_registry slow other))
  | None => false
  end.

Lemma works_served slow other te :
  Forall (λ i, let b := MkTaskCreate te (Some (work i).1) None (work i).2 None 100 3 300 None in
            validate_task b = true ∧ served slow other b = true) (seq 0 total).
Proof.
  apply Forall_forall. intros i Hi. unfold served. simpl. rewrite build_registry_types.
  enough (forallb (λ i, validate_task (MkTaskCreate 0 (Some (work i).1) None (work i).2 None 100 3 300 None)
    && bool_decide ((work i).1 ∈ ["demo.agent"; "demo.slow"; "demo.fail"])) (seq 0 total) = true) as Hall.
  { rewrite forallb_forall in Hall.
    destruct (andb_prop _ _ (Hall i (proj1 (list_elem_of_In _ _) Hi))) as [Hv Hty].
    split; [exact Hv|]. apply bool_decide_eq_true in Hty.
    rewrite !elem_of_cons, elem_of_nil in Hty. destruct Hty as [-> | [-> | [-> | []]]]; reflexivity. }
  vm_compute. reflexivity.
Qed.

(** Every submission of the demonstration is well formed and of a type the
    workers have an adapter for. *)
Lemma submissions_served slow other tenant_ids i :
  tenant_ids ≠ [] → (i < total)%nat →
  ∃ b, submission tenant_ids i = Some b ∧ tc_tenant_id b ∈ tenant_ids ∧
    validate_task b = true ∧ served slow other b = true.
Proof.
  intros Hne Hi. unfold submission.
  destruct (lookup_lt_is_Some_2 tenant_ids (i mod length tenant_ids)) as [te Hte].
  { apply Nat.mod_upper_bound. by destruct tenant_ids. }
  rewrite Hte. eexists. split; [reflexivity|]. split; [by eapply list_elem_of_lookup_2|].
  apply (proj1 (Forall_forall _ _) (works_served slow other te) i), elem_of_seq. lia.
Qed.

(** Eight of them are made to fail. *)
Lemma injected_failures : length (filter (λ i, (work i).1 = "demo.fail") (seq 0 total)) = 8%nat.
Proof. vm_compute. reflexivity. Qed.

(** ** What it concludes *)

(** The tally of the states it reads back, in the order of the tasks. *)
Definition outcomes (states : list state) : gmap text Z :=
  foldl (λ m s, <[State.value s := default 0 (m !! State.value s) + 1]> m) ∅ states.

Definition values_sum (m : gmap text Z) : Z := map_fold (λ _ n acc, n + acc) 0 m.

Inductive verdict := PASS | NO_EXPIRY | NEVER_TERMINAL.

Definition all_terminal (states : list state) : bool :=
  values_sum (outcomes states) =? Z.of_nat (length states).

Definition conclude (states : list state) (lease_expirations recoveries_requeued : Q) : verdict :=
  let recovery_happened := negb (Qle_bool lease_expirations 0) && negb (Qle_bool recoveries_requeued 0) in
  if all_terminal states && recovery_happened then PASS
  else if all_terminal states then NO_EXPIRY else NEVER_TERMINAL.

Definition exit_code (v : verdict) : Z := match v with PASS => 0 | _ => 1 end.

Lemma values_sum_insert m k n : values_sum (<[k := n]> m) = n - default 0 (m !! k) + values_sum m.
Proof.
  assert (∀ m' x, m' !! k = None → values_sum (<[k := x]> m') = x + values_sum m') as Hnew.
  { intros m' x Hm. unfold values_sum. rewrite map_fold_insert_L; [done|intros; lia|done]. }
  destruct (m !! k) as [x|] eqn:E; simpl; [|rewrite Hnew by done; lia].
  rewrite <-(insert_delete_id m k x E) at 2. rewrite <-insert_delete_eq.
  rewrite !Hnew by apply lookup_delete_eq. lia.
Qed.

(** The tally counts every task, whatever its state. *)
Lemma outcomes_total states : values_sum (outcomes states) = Z.of_nat (length states).
Proof.
  unfold outcomes. enough (∀ m, values_sum (foldl (λ m s,
    <[State.value s := default 0 (m !! State.value s) + 1]> m) m states) =
    values_sum m + Z.of_nat (length states)) as -> by (unfold values_sum; by rewrite map_fold_empty).
  induction states as [|s states IH]; intros m; simpl; [lia|].
  rewrite IH, values_sum_insert. lia.
Qed.

(** The check for finished tasks always passes: the verdict does not depend on
    the states, and that tasks never finished is never reported. *)
Lemma verdict_ignores_states states l r :
  conclude states l r = (if negb (Qle_bool l 0) && negb (Qle_bool r 0) then PASS else NO_EXPIRY).
Proof.
  unfold conclude, all_terminal. rewrite outcomes_total, Z.eqb_refl. simpl.
  by destruct (negb (Qle_bool l 0) && negb (Qle_bool r 0)).
Qed.

Example unfinished_tasks_pass :
  exit_code (conclude [State.RUNNING; State.QUEUED; State.SUCCEEDED] 1 1) = 0.
Proof. reflexivity. Qed.

(** ** When the recovery benchmark stops its clock *)

(** [_wait_for_reclaim] on one reading of the task. *)
Definition reclaimed (task : task_row) (original_worker : text) : bool :=
  bool_decide (t_state task = State.QUEUED)
  || (bool_decide (t_state task = State.RUNNING)
      && bool_decide (t_lease_worker_id task ≠ Some original_worker))
  || bool_decide (t_state task ∈ [State.SUCCEEDED; State.FAILED; State.CANCELLED]).

(** What it reads then: the attempt it watched is closed, and stays so. *)
Lemma reclaimed_is_final d d' i (r : task_row) a (x : attempt_row) :
  reachable d → tasks d !! i = Some r → task_attempts d !! (i, a) = Some x →
  reclaimed r (a_worker_id x) = true → steps d d' →
  (∃ o, a_outcome x = Some o) ∧ task_attempts d' !! (i, a) = Some x.
Proof.
  intros Hd Hr Hx Hrec Hs. pose proof (vinv_row d i r (inv_view d (inv_reachable d Hd) i) Hr) as Hti.
  assert (∃ o, a_outcome x = Some o) as [o Ho].
  { destruct (a_outcome x) as [o|] eqn:Ho; [by eexists|exfalso].
    apply (ti_open _ _ _ Hti _ _ Hx) in Ho as [Hst ->]. pose proof (ti_owner _ _ _ Hti _ Hst Hx) as Hw.
    unfold reclaimed in Hrec. rewrite Hst, Hw in Hrec.
    rewrite (bool_decide_eq_false_2 (Some _ ≠ _)) in Hrec by (by intros []). done. }
  split; [by eexists|]. by apply (closed_attempt_is_final d d' i a x o).
Qed.
