(* ===== verification/Metrics.v ===== *)
(** * Metrics (obs/metrics.py and where the counters are moved)

    The registry's declarations, the sample every recorded event of the
    worker, the reaper, the API and the gauges goes to, and how many series a
    worker process can have: all labels but two come from closed lists, a
    task type is one of the tables', and a tool name is one of the tables'
    unless the call was denied.  What the client library does with a sample
    (adding, bucketing, rendering) is its own. *)

From S2P Require Import Prelude PyStr Json States Errors Retry Policy Admission Capability Authz Db.
From S2P Require Import Config Adapters Samples Transitions Completion Lease Workers Claim Reap Tasks.
From S2P Require Import Agents Tools Tracing Worker Frames Registry Effects Protocol Scenario Gauges.
From S2P Require Import ReaperLoop WorkerRun Governance WorkerProps WorkerGuarantees.
From ITree Require Import ITree.
#[local] Open Scope Z_scope.

Module metrics.

Inductive declaration :=
  | Counter (name documentation : text) (labelnames : list text)
  | Gauge (name documentation : text) (labelnames : list text)
  | Histogram (name documentation : text) (labelnames : list text) (buckets : list Q).

#[local] Instance bucket_eq_dec : EqDecision Q.
Proof. solve_decision. Defined.
#[global] Instance declaration_eq_dec : EqDecision declaration.
Proof. solve_decision. Defined.

Definition name (d : declaration) : text :=
  match d with Counter n _ _ | Gauge n _ _ | Histogram n _ _ _ => n end.
Definition labelnames (d : declaration) : list text :=
  match d with Counter _ _ l | Gauge _ _ l | Histogram _ _ l _ => l end.
Definition is_gauge (d : declaration) : bool := match d with Gauge _ _ _ => true | _ => false end.
Definition buckets (d : declaration) : list Q :=
  match d with Histogram _ _ _ b => b | _ => [] end.

Definition KNOWN_ERROR_CLASSES : gset text := list_to_set (FailureClass.value <$> FailureClass.all).

Definition normalize_error_class (name : option text) : text :=
  match name with
  | None => "none"
  | Some name =>
      if negb (truthy name) then "none"
      else if bool_decide (name ∈ KNOWN_ERROR_CLASSES) then name else "other"
  end.

(** ** The declarations *)

Definition tasks_submitted : declaration :=
  Counter "acp_tasks_submitted_total"
    "Tasks accepted by the Control API."
    ["task_type"; "deduplicated"].

Definition admissions : declaration :=
  Counter "acp_admissions_total"
    ("Submission admission decisions. The ratio of reject_tenant_backlog to "
     +:+ "shed_overloaded is the difference between one tenant outrunning its own capacity "
     +:+ "and the system being in trouble.")
    ["decision"].

Definition task_attempts_finished : declaration :=
  Counter "acp_task_attempts_finished_total"
    "Execution attempts that reached a terminal outcome."
    ["task_type"; "outcome"].

Definition tasks_terminal : declaration :=
  Counter "acp_tasks_terminal_total"
    "Tasks that reached a terminal state (the task, not the attempt)."
    ["task_type"; "state"].

Definition tasks_retried : declaration :=
  Counter "acp_tasks_retried_total"
    "Attempts that failed retryably and were rescheduled with backoff."
    ["task_type"; "error_class"].

Definition stale_writes_rejected : declaration :=
  Counter "acp_stale_writes_rejected_total"
    ("Completions rejected because the writer no longer owned the task. A non-zero rate "
     +:+ "is the PROOF that fencing works -- it is the metric the chaos demo points at.")
    ["rejection"].

Definition tool_calls : declaration :=
  Counter "acp_tool_calls_total"
    "Tool invocations by authorization decision."
    ["tool"; "decision"].

Definition tool_access_denied : declaration :=
  Counter "acp_tool_access_denied_total"
    ("Tool calls refused by policy. The governance counterpart to stale_writes_rejected: "
     +:+ "a non-zero rate is the proof that authorization is actually enforced at runtime.")
    ["reason"].

Definition lease_expirations : declaration :=
  Counter "acp_lease_expirations_total"
    "Leases found expired by the reaper."
    [].

Definition task_recoveries : declaration :=
  Counter "acp_task_recoveries_total"
    "Tasks reclaimed from a presumed-dead worker."
    ["disposition"].

Definition hung_tasks_detected : declaration :=
  Counter "acp_hung_tasks_detected_total"
    ("Tasks force-ended for exceeding their execution-time cap while their lease was "
     +:+ "still valid -- a worker stuck in a loop or a hung call, which lease expiry alone "
     +:+ "cannot catch because a stuck worker keeps renewing normally.")
    ["disposition"].

Definition workers_marked_dead : declaration :=
  Counter "acp_workers_marked_dead_total"
    "Workers whose heartbeat went stale."
    [].

Definition workers_self_fenced : declaration :=
  Counter "acp_workers_self_fenced_total"
    "Workers that stopped after discovering they had been declared DEAD."
    [].

Definition claim_duration : declaration :=
  Histogram "acp_claim_duration_seconds"
    "Time for one claim transaction, including tenant slack accounting."
    []
    [0.001; 0.0025; 0.005; 0.01; 0.025; 0.05; 0.1; 0.25; 0.5; 1.0; 2.5]%Q.

Definition claim_batch : declaration :=
  Histogram "acp_claim_batch_size"
    "Tasks returned per claim. Zeros mean the worker is starved or the queue is empty."
    []
    [0; 1; 2; 3; 5; 8; 13; 21]%Q.

Definition queue_wait : declaration :=
  Histogram "acp_queue_wait_seconds"
    "From a task becoming runnable (available_at) to being claimed."
    ["task_type"]
    [0.01; 0.05; 0.1; 0.25; 0.5; 1; 2.5; 5; 10; 30; 60; 300]%Q.

Definition execution_duration : declaration :=
  Histogram "acp_execution_duration_seconds"
    "Adapter execution time for one attempt, excluding queue wait."
    ["task_type"; "outcome"]
    [0.01; 0.05; 0.1; 0.25; 0.5; 1; 2.5; 5; 10; 30; 60; 300]%Q.

Definition recovery_latency : declaration :=
  Histogram "acp_recovery_latency_seconds"
    ("From lease expiry to the task being reclaimed. Design bound is lease_ttl_s + "
     +:+ "reaper_period_s; this is where you check whether reality agrees.")
    []
    [0.5; 1; 2; 5; 10; 20; 30; 45; 60; 120; 300]%Q.

Definition reaper_sweep_duration : declaration :=
  Histogram "acp_reaper_sweep_duration_seconds"
    "One full reaper pass."
    []
    [0.001; 0.01; 0.05; 0.1; 0.5; 1; 5; 10]%Q.

Definition queue_depth : declaration :=
  Gauge "acp_queue_depth"
    "Tasks runnable right now (QUEUED and available_at <= now)."
    ["tenant"].

Definition tasks_running : declaration :=
  Gauge "acp_tasks_running"
    "Tasks currently leased to a worker."
    ["tenant"].

Definition tasks_backlogged : declaration :=
  Gauge "acp_tasks_backlogged"
    "QUEUED tasks not yet runnable -- i.e. waiting out a retry backoff."
    [].

Definition workers_by_status : declaration :=
  Gauge "acp_workers"
    "Registered workers by status."
    ["status"].

Definition leases_expired_pending : declaration :=
  Gauge "acp_leases_expired_pending"
    ("RUNNING tasks whose lease has already expired but which have not been reclaimed "
     +:+ "yet. Sustained non-zero means the reaper is down or cannot keep up -- the single "
     +:+ "best alert in the system.")
    [].

(** Everything declared with [registry=REGISTRY], in order. *)
Definition REGISTRY : list declaration :=
  [tasks_submitted; admissions; task_attempts_finished; tasks_terminal; tasks_retried;
   stale_writes_rejected; tool_calls; tool_access_denied; lease_expirations;
   task_recoveries; hung_tasks_detected; workers_marked_dead; workers_self_fenced;
   claim_duration; claim_batch; queue_wait; execution_duration; recovery_latency;
   reaper_sweep_duration; queue_depth; tasks_running; tasks_backlogged; workers_by_status;
   leases_expired_pending].
End metrics.

(** ** Samples *)

(** What [metric.labels(k=v, ..)] selects: one series of one metric. *)
Record sample := MkSample {
  s_metric : metrics.declaration;
  s_labels : list (text * text);
}.

#[global] Instance sample_eq_dec : EqDecision sample.
Proof. solve_decision. Defined.

(** The client library raises unless a series names each label of a declared
    metric once. *)
Definition well_labelled (s : sample) : Prop :=
  s_metric s ∈ metrics.REGISTRY ∧ (s_labels s).*1 = metrics.labelnames (s_metric s).

(** worker/loop.py *)
Definition worker_sample (m : metric) : sample :=
  match m with
  | TasksRetried ty c => MkSample metrics.tasks_retried
      [("task_type", ty); ("error_class", FailureClass.value c)]
  | TaskAttemptsFinished ty o =>
      MkSample metrics.task_attempts_finished [("task_type", ty); ("outcome", o)]
  | TasksTerminal ty st => MkSample metrics.tasks_terminal [("task_type", ty); ("state", st)]
  | ToolCalls tool dec => MkSample metrics.tool_calls [("tool", tool); ("decision", dec)]
  | ToolAccessDenied r => MkSample metrics.tool_access_denied [("reason", r)]
  | StaleWritesRejected r => MkSample metrics.stale_writes_rejected [("rejection", r)]
  | WorkersSelfFenced => MkSample metrics.workers_self_fenced []
  | ClaimDuration => MkSample metrics.claim_duration []
  | ClaimBatch _ => MkSample metrics.claim_batch []
  | QueueWait ty _ => MkSample metrics.queue_wait [("task_type", ty)]
  | ExecutionDuration ty o =>
      MkSample metrics.execution_duration [("task_type", ty); ("outcome", o)]
  end.

(** reaper/loop.py *)
Definition reaper_sample (m : reaper_metric) : sample :=
  match m with
  | RecoveryLatency _ => MkSample metrics.recovery_latency []
  | LeaseExpirations _ => MkSample metrics.lease_expirations []
  | TaskRecoveries disp _ => MkSample metrics.task_recoveries [("disposition", disp)]
  | HungTasksDetected disp _ => MkSample metrics.hung_tasks_detected [("disposition", disp)]
  | WorkersMarkedDead _ => MkSample metrics.workers_marked_dead []
  | ReaperSweepDuration => MkSample metrics.reaper_sweep_duration []
  end.

(** api/routes/tasks.py *)
Definition admission_value (a : admission.Admission) : text :=
  match a with
  | admission.ADMIT => "admit"
  | admission.REJECT_TENANT_BACKLOG => "reject_tenant_backlog"
  | admission.SHED_OVERLOADED => "shed_overloaded"
  end.

Definition admission_sample (v : admission.Verdict) : sample :=
  MkSample metrics.admissions [("decision", admission_value (admission.decision v))].

Definition submitted_sample (task_type : text) (created : bool) : sample :=
  MkSample metrics.tasks_submitted
    [("task_type", task_type); ("deduplicated", if created then "false" else "true")].

(** obs/gauges.py: the series a refresh leaves. *)
Definition gauge_samples (g : gauges) : list sample :=
  ((λ name, MkSample metrics.queue_depth [("tenant", name)]) <$> (map_to_list (queue_depth g)).*1)
  ++ ((λ name, MkSample metrics.tasks_running [("tenant", name)])
      <$> (map_to_list (tasks_running g)).*1)
  ++ ((λ st, MkSample metrics.workers_by_status [("status", st)])
      <$> (map_to_list (workers_by_status g)).*1)
  ++ [MkSample metrics.tasks_backlogged []; MkSample metrics.leases_expired_pending []].

(** *** Properties of the declarations *)

Definition forbidden_labels : list text :=
  ["task_id"; "idempotency_key"; "worker_id"; "error_message"].

Fixpoint increasing (l : list Q) : bool :=
  match l with
  | x :: (y :: _) as l => negb (Qle_bool y x) && increasing l
  | _ => true
  end.


(** ** The series of a worker process *)

(** The values its labels take, the enums' and the literals of the code. *)
Definition rejections : list Rejection.reason :=
  [Rejection.STATE_MISMATCH; Rejection.ATTEMPT_MISMATCH; Rejection.WORKER_MISMATCH].
Definition deny_reasons : list deny_reason :=
  [DenyReason.UNKNOWN_TOOL; DenyReason.NOT_GRANTED; DenyReason.TOOL_DISABLED;
   DenyReason.VERSION_DISABLED; DenyReason.NO_POLICY].
Definition final_states : list text := State.value <$> TERMINAL.

Definition closed_metrics : list metric :=
  [WorkersSelfFenced; ClaimDuration; ClaimBatch 0]
  ++ ((λ r, StaleWritesRejected (Rejection.value r)) <$> rejections)
  ++ ((λ r, ToolAccessDenied (DenyReason.value r)) <$> deny_reasons).

Definition metrics_of_type (ty : text) : list metric :=
  QueueWait ty 0
  :: (TasksRetried ty <$> FailureClass.all) ++ (TaskAttemptsFinished ty <$> final_states)
  ++ (TasksTerminal ty <$> final_states) ++ (ExecutionDuration ty <$> ["succeeded"; "failed"]).

Definition metrics_of_tool (tool : text) : list metric :=
  [ToolCalls tool "allowed"; ToolCalls tool "denied"].

Definition worker_series (types tools : list text) : list sample :=
  worker_sample <$> closed_metrics ++ (types ≫= metrics_of_type) ++ (tools ≫= metrics_of_tool).

Definition task_types (d : db) : list text := (λ r : task_row, t_task_type r) <$> rows (tasks d).
Definition tool_names (d : db) : list text := tl_name <$> rows (tools d).

(** One of the listed series, or a denied call under any name at all. *)
Definition accounted (d : db) (m : metric) : Prop :=
  worker_sample m ∈ worker_series (task_types d) (tool_names d)
  ∨ ∃ name, m = ToolCalls name "denied".

Lemma length_worker_series types tools :
  length (worker_series types tools) = (11 + 18 * length types + 2 * length tools)%nat.
Proof.
  unfold worker_series. rewrite length_fmap, !length_app.
  assert (∀ n (f : text → list metric) l, (∀ x, length (f x) = n) → length (l ≫= f) = (n * length l)%nat)
    as Hlen.
  { intros n f l Hf. induction l as [|x l IH]; [simpl; lia|].
    rewrite bind_cons, length_app, Hf, IH. simpl. lia. }
  rewrite (Hlen 18%nat), (Hlen 2%nat) by done. simpl. lia.
Qed.

Lemma elem_of_series types tools m m' :
  worker_sample m = worker_sample m' →
  m' ∈ closed_metrics ∨ (∃ ty, ty ∈ types ∧ m' ∈ metrics_of_type ty)
  ∨ (∃ tool, tool ∈ tools ∧ m' ∈ metrics_of_tool tool) →
  worker_sample m ∈ worker_series types tools.
Proof.
  intros -> H. apply list_elem_of_fmap. exists m'. split; [done|].
  rewrite !elem_of_app, !list_elem_of_bind. naive_solver.
Qed.

Lemma worker_series_incl types types' tools tools' s :
  (∀ x, x ∈ types → x ∈ types') → (∀ x, x ∈ tools → x ∈ tools') →
  s ∈ worker_series types tools → s ∈ worker_series types' tools'.
Proof.
  intros Hty Ht (m & -> & Hin)%list_elem_of_fmap. apply (elem_of_series _ _ _ m); [done|].
  rewrite !elem_of_app, !list_elem_of_bind in Hin. naive_solver.
Qed.

Lemma accounted_closed d m m' :
  worker_sample m = worker_sample m' → m' ∈ closed_metrics → accounted d m.
Proof. intros Hm Hin. left. apply (elem_of_series _ _ _ m'); auto. Qed.

Lemma accounted_type d i (r : task_row) m m' :
  tasks d !! i = Some r → worker_sample m = worker_sample m' →
  m' ∈ metrics_of_type (t_task_type r) → accounted d m.
Proof.
  intros Hr Hm Hin. left. apply (elem_of_series _ _ _ m'); [done|]. right. left.
  exists (t_task_type r). split; [|done]. apply list_elem_of_fmap. exists r. split; [done|].
  apply elem_of_rows. eauto.
Qed.

Lemma accounted_tool d i r dec :
  tools d !! i = Some r → dec ∈ ["allowed"; "denied"] → accounted d (ToolCalls (tl_name r) dec).
Proof.
  intros Hr Hdec. left. apply (elem_of_series _ _ _ (ToolCalls (tl_name r) dec)); [done|].
  right. right. exists (tl_name r). split; [|unfold metrics_of_tool; set_solver].
  apply list_elem_of_fmap. exists r. split; [done|]. apply elem_of_rows. eauto.
Qed.

(** What is accounted for stays so: tasks keep their types, tools their names,
    and neither is deleted. *)
Lemma task_types_steps d d' ty : inv d → steps d d' → ty ∈ task_types d → ty ∈ task_types d'.
Proof.
  intros Hinv Hs (r & -> & [i Hr]%elem_of_rows)%list_elem_of_fmap.
  destruct (steps_spec _ _ _ _ Hinv Hs Hr) as (r' & Hr' & Hsp).
  apply list_elem_of_fmap. exists r'. split; [by rewrite Hsp|]. apply elem_of_rows. eauto.
Qed.

Lemma tool_names_steps d d' n : steps d d' → n ∈ tool_names d → n ∈ tool_names d'.
Proof.
  intros Hs%steps_evolves (r & -> & [i Hr]%elem_of_rows)%list_elem_of_fmap.
  destruct (ev_tools _ _ Hs _ _ Hr) as [s Hr'].
  apply list_elem_of_fmap. exists (tool_with s r). split; [by destruct r|]. apply elem_of_rows. eauto.
Qed.

Lemma accounted_steps d d' m : inv d → steps d d' → accounted d m → accounted d' m.
Proof.
  intros Hinv Hs [Hin|?]; [left|by right].
  revert Hin. apply worker_series_incl; intros x; [by apply task_types_steps|by apply tool_names_steps].
Qed.

(** ** What each step counts *)

Lemma authorize_reason p name :
  allowed (authorize p name) = false →
  ∃ r, decision_reason (authorize p name) = Some r ∧ r ∈ deny_reasons.
Proof.
  assert (∀ r, r ∈ deny_reasons) as Hall by (intros []; unfold deny_reasons; set_solver).
  unfold authorize. repeat case_match; simpl; try done; eauto.
Qed.

Lemma policy_tool cf d c name :
  co_ok cf d c → allowed (authorize (co_policy c) name) = true →
  ∃ i r, tools d !! i = Some r ∧ tl_name r = name.
Proof.
  intros Hok Ha.
  destruct (ok_policy _ _ _ Hok) as [Hu|(ms & v & ver & te & Hms & _ & _ & _ & _ & Hpol)].
  { by rewrite Hu in Ha. }
  destruct (seen_reachable _ _ Hms) as (_ & Ht & _).
  rewrite Hpol in Ha. apply authorize_allowed in Ha as (_ & _ & ref & Href & _).
  apply tools_by_tenant_lookup in Href as (j & r & Hj & _ & <- & _);
    [|by apply rg_tools, reachable_registry_ok].
  pose proof (steps_trans _ _ _ (sb_grants _ _ Hms) (sb_now _ _ Hms)) as Hs.
  destruct (ev_tools _ _ (steps_evolves _ _ Hs) _ _ Hj) as [s Hj'].
  exists j, (tool_with s r). split; [done|by destruct r].
Qed.

Lemma decision_accounted cf d c name m :
  co_ok cf d c → m ∈ decision_metrics name (authorize (co_policy c) name) → accounted d m.
Proof.
  intros Hok. unfold decision_metrics. destruct (allowed _) eqn:Ha.
  - intros ->%list_elem_of_singleton. destruct (policy_tool _ _ _ _ Hok Ha) as (i & r & Hi & <-).
    eapply accounted_tool; [done|]. by left.
  - destruct (authorize_reason _ _ Ha) as (r & Hr & Hin). unfold deny_text. rewrite Hr.
    intros [-> | ->%list_elem_of_singleton]%elem_of_cons; [right; eauto|].
    apply (accounted_closed _ _ (ToolAccessDenied (DenyReason.value r))); [done|].
    unfold closed_metrics. rewrite !elem_of_app. do 2 right.
    apply (list_elem_of_fmap_2 (λ r, ToolAccessDenied (DenyReason.value r))). done.
Qed.

(** A completion of an existing task is refused for one of three reasons. *)
Lemma completion_rejection c i a w t d res d' (r : task_row) :
  run_completion c i a w t d = inr (res, d') → tasks d !! i = Some r → applied res = false →
  ∃ why, rejection res = Some why ∧ why ∈ rejections.
Proof.
  intros H Hr Hn. destruct (c_fits c t) eqn:Hf; [|by rewrite run_completion_unfit in H].
  assert (¬ owns r a w) as Ho.
  { apply run_completion_inv in H as [(_ & _ & Hall)|(Ha & _)]; [auto|congruence]. }
  rewrite (run_completion_stale _ _ _ _ _ _ _ Hr Ho Hf) in H. injection H as <- _.
  eexists. split; [done|]. unfold explain_row. simpl.
  repeat case_match; unfold rejections; set_solver.
Qed.

Lemma rejection_accounted d why :
  why ∈ rejections → accounted d (StaleWritesRejected (Rejection.value why)).
Proof.
  intros Hin. eapply accounted_closed; [done|]. unfold closed_metrics. rewrite !elem_of_app.
  right. left. apply (list_elem_of_fmap_2 (λ r, StaleWritesRejected (Rejection.value r))). done.
Qed.

Lemma outcome_accounted d i (r : task_row) o cancelled dec m :
  tasks d !! i = Some r → m ∈ record_outcome (t_task_type r) o cancelled dec → accounted d m.
Proof.
  intros Hr Hin. eapply (accounted_type d i r m m); [done|done|].
  unfold record_outcome in Hin. destruct (failure_class_of o); repeat case_match;
    repeat (apply elem_of_cons in Hin as [->|Hin]); try (by apply elem_of_nil in Hin);
    simpl; repeat (first [by left|right]).
Qed.

(** A coroutine adds accounted events to what was counted before. *)
Lemma co_step_counts cf t d s c d' s' c' :
  co_ok cf d c → co_step cf t (d, s, c) (d', s', c') →
  ∃ ms, sh_metrics s' = sh_metrics s ++ ms ∧ ∀ m, m ∈ ms → accounted d m.
Proof.
  intros Hok Hst. destruct (ok_pinned _ _ _ Hok) as (r & Hr & Hsp).
  inversion Hst; subst;
    try (exists []; split; [by rewrite app_nil_r|]; intros m ?%elem_of_nil; done);
    try (eexists; split; [done|]; intros m Hm; by eapply decision_accounted).
  - eexists. split; [done|]. intros m ->%list_elem_of_singleton.
    eapply (accounted_type _ _ r); [done|done|]. rewrite Hsp.
    destruct o; simpl; repeat (first [by left|right]).
  - match goal with H : transaction _ _ _ = _ |- _ => apply commits_run in H; rename H into Hrun end.
    unfold finalize in Hrun. unfold after, after_finalize. destruct (applied res) eqn:Ha.
    + eexists. split; [done|]. intros m. rewrite <-Hsp. by eapply outcome_accounted.
    + eexists. split; [done|]. intros m ->%list_elem_of_singleton.
      destruct (completion_rejection _ _ _ _ _ _ _ _ _ Hrun Hr Ha) as (why & Hwhy & Hin).
      rewrite Hwhy. by apply rejection_accounted.
Qed.

Lemma cancel_all_counts cs s : sh_metrics (cancel_all cs s).2 = sh_metrics s.
Proof.
  revert s. induction cs as [|c cs IH]; intros s; [done|]. simpl.
  destruct (cancel_coroutine c s) as [c1 s1] eqn:E1. specialize (IH s1).
  destruct (cancel_all cs s1) as [cs2 s2]. simpl in *. rewrite IH.
  unfold cancel_coroutine in E1. by destruct (co_phase c); injection E1 as _ <-.
Qed.

Lemma dispatch_counts cf pm limit t d claimed policies d' w :
  reachable d → claims cf pm limit t d claimed policies d' →
  ∃ ms, sh_metrics (wk_shared (dispatch claimed policies w)) = sh_metrics (wk_shared w) ++ ms ∧
    ∀ m, m ∈ ms → accounted d' m.
Proof.
  intros Hd Hrun. eexists. split; [done|]. intros m Hin.
  apply elem_of_cons in Hin as [->|[->|Hin]%elem_of_cons].
  - eapply accounted_closed; [done|]. right. by left.
  - eapply (accounted_closed _ _ (ClaimBatch 0)); [done|]. do 2 right. by left.
  - apply list_elem_of_fmap in Hin as (row & -> & Hrow).
    destruct (claimed_rows _ _ _ _ _ _ _ _ _ Hd Hrun Hrow) as (Hlook & _).
    eapply (accounted_type _ _ row _ (QueueWait (t_task_type row) 0)); [done|done|]. by left.
Qed.

Lemma main_step_counts cf t mono pm d w d' w' :
  reachable d → main_step cf t mono pm (d, w) (d', w') →
  ∃ ms, sh_metrics (wk_shared w') = sh_metrics (wk_shared w) ++ ms ∧ ∀ m, m ∈ ms → accounted d' m.
Proof.
  intros Hd Hst.
  assert (∀ v, sh_metrics (wk_shared (cancel_inflight v)) = sh_metrics (wk_shared v)) as Hcancel.
  { intros v. unfold cancel_inflight. pose proof (cancel_all_counts (wk_inflight v) (wk_shared v)) as H.
    by destruct (cancel_all _ _). }
  inversion Hst; subst;
    try (exists []; split; [simpl; by rewrite ?Hcancel, app_nil_r|]; intros m ?%elem_of_nil; done).
  - destruct alive; [exists []; split; [by rewrite app_nil_r|]; by intros m ?%elem_of_nil|].
    eexists. split; [done|]. intros m ->%list_elem_of_singleton.
    eapply accounted_closed; [done|]. by left.
  - apply (dispatch_counts cf pm (claim_limit cf w) t d); [done|].
    apply claim_and_snapshot_inv; [by apply inv_ids, inv_reachable|]. by eapply commits_run.
  - apply (dispatch_counts cf pm (claim_limit cf w) t d); [done|].
    eapply grant_and_snapshot_inv; [done|]. by eapply commits_run.
Qed.

(** ** The bound *)

Definition all_accounted (x : db * worker) : Prop :=
  ∀ m, m ∈ sh_metrics (wk_shared x.2) → accounted x.1 m.

Lemma all_accounted_more d d' ms ms' :
  inv d → steps d d' → (∀ m, m ∈ ms → accounted d m) → (∀ m, m ∈ ms' → accounted d' m) →
  ∀ m, m ∈ ms ++ ms' → accounted d' m.
Proof. intros Hinv Hs H1 H2 m [?|?]%elem_of_app; [eapply accounted_steps|]; eauto. Qed.

Lemma sys_accounted cf x y : wk_ok cf x → all_accounted x → sys cf x y → all_accounted y.
Proof.
  intros Hok Hall Hs. pose proof (sys_run_steps _ _ _ (run_snoc _ _ _ _ (run_refl _ x) Hs)) as Hst.
  pose proof (wo_db _ _ Hok) as Hd. pose proof (inv_reachable _ Hd) as Hinv.
  unfold all_accounted in *.
  destruct Hs as [t mono pm d w [d' w'] _ Hm|t d d' w n c c' s' Hn Hc|t d d' w Hstep]; simpl in *.
  - destruct (main_step_counts _ _ _ _ _ _ _ _ Hd Hm) as (ms & -> & Hms).
    by eapply all_accounted_more.
  - pose proof (Forall_lookup_1 _ _ _ _ (wo_cos _ _ Hok) Hn) as Hco.
    destruct (co_step_counts _ _ _ _ _ _ _ _ Hco Hc) as (ms & -> & Hms).
    eapply all_accounted_more; [done..|]. intros m Hin. eapply accounted_steps; eauto.
  - intros m Hin. eapply accounted_steps; eauto.
Qed.

Lemma run_accounted cf x y : wk_ok cf x → all_accounted x → sys_run cf x y → all_accounted y.
Proof.
  intros Hok Hall Hr. induction Hr as [|x y z Hr IH Hs]; [done|].
  eapply sys_accounted; [|by apply IH|done]. by eapply sys_run_ok.
Qed.

Lemma started_accounted cf x : started_run cf x → all_accounted x.
Proof.
  intros (d & rng & Hd & Hr). eapply run_accounted; [by apply new_worker_ok| |done].
  by intros m ?%elem_of_nil.
Qed.

(** ** A client can name the series *)

(** An adapter that calls the tools its payload lists, and a task of a tenant
    without agents that lists [name]. *)
Section any_name.
Context (name : text).

Definition listed_names (payload : jdict) : list text :=
  match payload !! "tools" with
  | Some (JArr l) => omap (λ j, match j with JStr s => Some s | _ => None end) l
  | _ => []
  end.
Definition na_config : worker_config :=
  MkWorkerConfig default_settings
    (register "demo.tools" (λ payload, call_each (listed_names payload) {[ "task" := JNull ]} []) ∅)
    2 DEFAULT_POLICY "w9" "host" 7 [] w3c_valid.
Definition na_payload : jdict := {[ "tools" := JArr [JStr name] ]}.
Definition na_d0 : db :=
  after (submit_task 1 "demo.tools" na_payload None 100 2 60 None None []) (txn_new 9 40) sc_tenant.
Definition na_d1 : db := after (register_self na_config) (txn_at 11) na_d0.
Definition na_d2 : db := after (heartbeat "w9") (txn_at 12) na_d1.
Definition na_d3 : db := after (claim_and_snapshot na_config (at_once na_d2) 2) (txn_at 13) na_d2.
Definition na_row : task_row := Eval vm_compute in default (ex_queued 0 0) (tasks na_d3 !! 40%N).

Definition na_shared (owned : list (uuid * Z)) : shared :=
  MkShared owned [ClaimDuration; ClaimBatch 1; QueueWait "demo.tools" (us 4)] wx_rng.
Definition na_worker (m : main_phase) (cs : list coroutine) (s : shared) : worker :=
  MkWorkerState m false false (Some 0%Q) cs s.

Lemma na_reachable : reachable na_d0.
Proof.
  eapply steps_snoc; [eapply steps_snoc; [apply steps_refl|apply sc_step_tenant]|].
  apply (after_step (submit_task 1 "demo.tools" na_payload None 100 2 60 None None []) (txn_new 9 40)).
  - intros. by eapply step_submit.
  - vm_compute. reflexivity.
Qed.

Lemma na_until_claim :
  sys_run na_config (na_d0, new_worker wx_rng)
    (na_d3, na_worker Polling [MkCoroutine na_row UNGOVERNED false false Returned Created]
              (na_shared [])).
Proof.
  eapply (run_main _ (txn_at 13) 0); [exact na_reachable|eapply (run_main _ (txn_at 12) 0);
    [exact na_reachable|eapply (run_main _ (txn_at 11) 0); [exact na_reachable|apply run_refl|]|]|].
  - eapply (m_register _ _ _ _ _ na_d1); [reflexivity|]. vm_compute. reflexivity.
  - eapply (m_beat _ _ _ _ _ na_d2 _ true); vm_compute; reflexivity.
  - assert (transaction (claim_and_snapshot na_config (at_once na_d2) 2) (txn_at 13) na_d2
      = (inr ([na_row], ∅), na_d3)) as H by (vm_compute; reflexivity).
    exact (m_claim na_config _ _ _ na_d2 na_d3 (na_worker Claiming [] (MkShared [] [] wx_rng)) [na_row] ∅
      eq_refl eq_refl eq_refl H).
Qed.
(** The coroutine starts and asks for the tool. *)
Definition na_k : py_exc + jdict → adapter_run := λ answer,
  match answer with
  | inl e => Ret (inl e)
  | inr result => call_each [] {[ "task" := JNull ]} ([] ++ [jobj result])
  end.
Definition na_c1 : coroutine := MkCoroutine na_row UNGOVERNED false false Returned Created.
Definition na_c2 : coroutine :=
  MkCoroutine na_row UNGOVERNED false false Asleep
    (Executing (Vis (CallTool name {[ "task" := JNull ]}) na_k)).
Definition na_c3 : coroutine := co_with na_c2 (Deciding name {[ "task" := JNull ]} na_k).
Definition na_s2 : shared := na_shared [(40%N, 1)].

Lemma na_until_call :
  sys_run na_config (na_d0, new_worker wx_rng) (na_d3, na_worker Polling [na_c3] na_s2).
Proof.
  eapply run_snoc; [eapply run_snoc; [apply na_until_claim|]|].
  - apply (sys_co _ (txn_at 14) na_d3 na_d3 (na_worker Polling [na_c1] (na_shared [])) 0 na_c1 na_c2 na_s2
      eq_refl).
    exact (co_start na_config _ na_d3 (na_shared []) na_c1 [] eq_refl eq_refl).
  - apply (sys_co _ (txn_at 14) na_d3 na_d3 (na_worker Polling [na_c2] na_s2) 0 na_c2 na_c3 na_s2 eq_refl).
    exact (co_call _ _ na_d3 na_s2 na_c2 _ _ _ _ eq_refl eq_refl).
Qed.

(** The decision counts, whether or not its event can be recorded. *)
Lemma na_until_denied :
  ∃ d c, sys_run na_config (na_d0, new_worker wx_rng)
    (d, na_worker Polling [c] (sh_count (decision_metrics name (authorize UNGOVERNED name)) na_s2)).
Proof.
  destruct (transaction (on_decision na_config na_row name (authorize UNGOVERNED name)) (txn_at 15) na_d3)
    as [[e|[]] d'] eqn:E.
  - exists d', (co_with na_c3 (Executing (na_k (inl (permission_denied UNGOVERNED name))))).
    eapply run_snoc; [apply na_until_call|].
    apply (sys_co _ (txn_at 15) na_d3 d' (na_worker Polling [na_c3] na_s2) 0 na_c3 _ _ eq_refl).
    eapply co_decision_fails; [reflexivity|]. exists e. exact E.
  - exists d', (co_with na_c3 (Auditing name na_k)). eapply run_snoc; [apply na_until_call|].
    apply (sys_co _ (txn_at 15) na_d3 d' (na_worker Polling [na_c3] na_s2) 0 na_c3 _ _ eq_refl).
    eapply co_deny; [reflexivity|reflexivity|exact E].
Qed.
End any_name.

(** ** Properties *)

(** The declarations keep the module's promises: distinct names, none of the
    labels it rules out, tenants on gauges only, and buckets in increasing
    order. *)
Theorem declarations_sound :
  NoDup (metrics.name <$> metrics.REGISTRY) ∧
  ∀ d, d ∈ metrics.REGISTRY →
    (∀ l, l ∈ forbidden_labels → l ∉ metrics.labelnames d) ∧
    ("tenant" ∈ metrics.labelnames d → metrics.is_gauge d = true) ∧
    increasing (metrics.buckets d) = true.
Proof.
  split; [by decide_closed|].
  assert (Forall (λ d, (Forall (λ l, l ∉ metrics.labelnames d) forbidden_labels) ∧
    ("tenant" ∈ metrics.labelnames d → metrics.is_gauge d = true) ∧
    increasing (metrics.buckets d) = true) metrics.REGISTRY) as H by decide_closed.
  intros d Hd. rewrite Forall_forall in H. destruct (H d Hd) as (H1 & H2 & H3).
  rewrite Forall_forall in H1. auto.
Qed.

(** [normalize_error_class] answers from a closed list and leaves the known
    classes alone, so passing a class's own value, as the worker does, is the
    same as passing it through. *)
Lemma normalize_error_class_closed name :
  metrics.normalize_error_class name = "none" ∨ metrics.normalize_error_class name = "other"
  ∨ metrics.normalize_error_class name ∈ metrics.KNOWN_ERROR_CLASSES.
Proof.
  unfold metrics.normalize_error_class. destruct name as [n|]; [|by left].
  destruct (negb (truthy n)); [by left|]. case_bool_decide; auto.
Qed.

Lemma normalize_error_class_known c :
  metrics.normalize_error_class (Some (FailureClass.value c)) = FailureClass.value c.
Proof. by destruct c. Qed.

(** Every sample the processes take is one the client library accepts. *)
Lemma samples_well_labelled :
  (∀ m, well_labelled (worker_sample m)) ∧ (∀ m, well_labelled (reaper_sample m)) ∧
  (∀ v, well_labelled (admission_sample v)) ∧ (∀ ty b, well_labelled (submitted_sample ty b)) ∧
  ∀ g, Forall well_labelled (gauge_samples g).
Proof.
  assert (∀ d l, bool_decide (d ∈ metrics.REGISTRY) = true → l.*1 = metrics.labelnames d →
    well_labelled (MkSample d l)) as Hok.
  { intros d l Hd Hl. split; [|done]. by apply bool_decide_eq_true in Hd. }
  split_and!.
  - intros []; (apply Hok; [vm_compute; reflexivity|done]).
  - intros []; (apply Hok; [vm_compute; reflexivity|done]).
  - intros v. apply Hok; [vm_compute; reflexivity|done].
  - intros ty b. apply Hok; [vm_compute; reflexivity|done].
  - intros g. unfold gauge_samples.
    repeat (apply Forall_app; split); try (apply Forall_fmap, Forall_forall; intros ? _);
      repeat constructor; try done; by apply (bool_decide_unpack _); vm_compute.
Qed.

(** C30: how many series one worker process can have. Whatever its adapters
    raise and call, after any run of a worker next to the rest of the system
    every event it has counted goes to a declared metric under exactly the
    declared labels, and to one of the listed series or to a denied call; so
    the distinct series that are not denied calls number at most eleven,
    eighteen for each type of the tasks in the tables and two for each tool
    name in them. No exception class, message, task or worker adds a series. *)
Theorem worker_series_bounded cf d w :
  started_run cf (d, w) →
  let types := remove_dups (task_types d) in
  let names := remove_dups (tool_names d) in
  (∀ m, m ∈ sh_metrics (wk_shared w) →
     well_labelled (worker_sample m) ∧
     (worker_sample m ∈ worker_series types names ∨ ∃ name, m = ToolCalls name "denied")) ∧
  ∀ l, NoDup l →
    (∀ s, s ∈ l → ∃ m, m ∈ sh_metrics (wk_shared w) ∧ s = worker_sample m ∧
       ∀ name, m ≠ ToolCalls name "denied") →
    (length l <= 11 + 18 * length types + 2 * length names)%nat.
Proof.
  intros Hrun types names.
  assert (∀ m, m ∈ sh_metrics (wk_shared w) →
     worker_sample m ∈ worker_series types names ∨ ∃ name, m = ToolCalls name "denied") as Hall.
  { intros m Hm. destruct (started_accounted _ _ Hrun m Hm) as [Hin|?]; [left|by right].
    apply (worker_series_incl (task_types d) _ (tool_names d)); [| |done];
      intros x; apply elem_of_remove_dups. }
  split; [split; [apply samples_well_labelled|by apply Hall]|].
  intros l Hnd Hl. rewrite <-length_worker_series. apply submseteq_length, NoDup_submseteq; [done|].
  intros s Hs. destruct (Hl s Hs) as (m & Hm & -> & Hn).
  destruct (Hall m Hm) as [?|[name ->]]; [done|]. by destruct (Hn name).
Qed.

(** A worker that has made one allowed call has counted a series of it. *)
Lemma worker_series_bounded_witness :
  worker_sample (ToolCalls "search" "allowed") ∈ worker_series ["demo.tools"] ["search"] ∧
  (length (remove_dups (worker_sample <$> sh_metrics (wk_shared wx_w6))) <= 31)%nat.
Proof.
  assert (remove_dups (task_types wx_d6) = ["demo.tools"]) as Hty by decide_closed.
  assert (remove_dups (tool_names wx_d6) = ["search"]) as Hn by decide_closed.
  pose proof (worker_series_bounded wx_config wx_d6 wx_w6 wx_started) as H.
  cbv zeta in H. rewrite Hty, Hn in H.
  assert (ToolCalls "search" "allowed" ∈ sh_metrics (wk_shared wx_w6)) as Hm
    by (vm_compute; repeat (first [by left|right])).
  assert (Forall (λ m, match m with ToolCalls _ d => d ≠ "denied" | _ => True end)
    (sh_metrics (wk_shared wx_w6))) as Hall.
  { vm_compute. repeat (constructor; [first [exact I|discriminate]|]). constructor. }
  revert H Hm Hall. generalize (sh_metrics (wk_shared wx_w6)) as ms. intros ms [H1 H2] Hm Hall.
  rewrite Forall_forall in Hall. split.
  - destruct (H1 _ Hm) as [_ [Hin|[name Heq]]]; [exact Hin|discriminate Heq].
  - apply H2; [apply NoDup_remove_dups|]. intros s Hs. rewrite elem_of_remove_dups in Hs.
    apply list_elem_of_fmap in Hs as (m & -> & Hms). exists m. split; [exact Hms|]. split; [reflexivity|].
    intros name ->. by apply (Hall _ Hms).
Defined.

(** The exception is real: whatever text a client puts into a payload, a
    worker whose adapter calls the tools it is told to counts a series under
    that text, without any tool in the tables. *)
Theorem denied_series_are_free name :
  ∃ d w, started_run na_config (d, w) ∧ ToolCalls name "denied" ∈ sh_metrics (wk_shared w).
Proof.
  destruct (na_until_denied name) as (d & c & Hrun). eexists d, _. split.
  - exists (na_d0 name), wx_rng. split; [apply na_reachable|exact Hrun].
  - simpl. do 3 right. by left.
Qed.
